(* ===== verification/_CoqProject ===== *)
-Q . S2P
Prelude.v
Text.v
NetText.v
Externals.v
Error.v
Template.v
TemplateTargets.v
TemplateFacts.v
Validator.v
ValidatorFacts.v
Reference.v
Float64.v
Config.v
Vardiff.v
Settings.v
Rpc.v
Zmq.v
Engine.v
EngineFacts.v
BlockArchive.v
Broadcast.v
Signals.v
Security.v
Server.v
SecurityFacts.v
Sv1.v
Session.v
SessionFacts.v
Stats.v
StatsFacts.v
TemplateStats.v
StatsFile.v
Metrics.v
Dashboard.v
DashboardFacts.v
DashPage.v
DashCards.v
DashFigures.v
Main.v
Sv2Messages.v
Noise.v
NoiseFacts.v
Sv2.v
Sv2Facts.v
Pool.v
Presence.v
MetricsFacts.v
MainFacts.v
Sv2Device.v
SessionJobs.v
PoolFacts.v
PoolJobs.v
PoolWork.v
PoolBlocks.v
PoolBounds.v
PoolLives.v
NodeLight.v
ReferenceJson.v
Samples.v
SamplesSession.v
SamplesSv2.v
SamplesDashboard.v
PropsTemplate.v
PropsValidator.v
PropsVardiff.v
PropsEngine.v
PropsSecurity.v
PropsConfig.v
PropsSession.v
PropsStats.v
PropsPool.v
PropsSv2.v
PropsNoise.v
PropsDashboard.v
PropsMain.v
PropsSignals.v
