(* ===== verification/Prelude.v ===== *)
(** * A verification of solo-pool-rs, a solo Bitcoin mining pool

    The program is one process. It asks a Bitcoin node for block templates,
    turns each into a mining job, sends the job to miners over Stratum V1 or
    V2, checks the shares they return, adjusts each miner's difficulty,
    submits the blocks they find and keeps statistics for a dashboard. This
    development translates that logic into executable definitions, file by
    file, and proves what makes each part correct. Source paths below are
    relative to [src/src].

    ** The parts of the program, and the files that model them

    - [Prelude], [Text], [NetText], [Externals]: bytes and machine integers
      (values in [Z], wrap-around and saturation written out), the [outcome]
      monad (a Rust [Result], with [Panic] for what aborts the task), record
      updates, the standard library's functions on strings and addresses, and
      the classes of the third-party crates: [Sha256Lib], [HexLib],
      [BitcoinLib], [JsonLib], each with its laws. [Reference] and
      [ReferenceJson] are concrete instances (an executable SHA-256, hex, a
      toy address format and JSON value), with which witnesses evaluate.
    - [Error]: error.rs, the errors, their text and their Stratum codes.
    - [Template]: bitcoin/template.rs. Job identifiers, the coinbase and its
      split at the extranonce, the merkle branch, compact bits, targets and
      difficulties, [build_job]. [TemplateTargets] and [TemplateFacts] hold
      its lemmas.
    - [Validator]: mining/validator.rs. [build_header], [meets_target],
      [assemble_block_hex], [validate_share_no_dedup] and the duplicate set
      [ShareSet]. Lemmas in [ValidatorFacts].
    - [Float64], [Vardiff]: mining/vardiff.rs. The f64 arithmetic is IEEE
      binary64 on SpecFloat, so a retarget is evaluated, not approximated.
    - [Config], [Settings]: config.rs and settings.rs, the accepted
      configurations, the environment overrides and the payout address that
      can change at run time.
    - [Rpc], [Zmq]: bitcoin/rpc.rs and bitcoin/zmq.rs, what the pool does
      with the node's answers and block notifications.
    - [Engine], [EngineFacts]: mining/engine.rs. [refresh] with the job
      history, [find_job], the submission of a found block, the background
      retrier, the archive of block files and its replay at boot. [sys_step]
      is the step relation of two refreshes that overlap. [BlockArchive] is
      the life of found blocks over crashes and restarts, as the step relation
      [bk_step] of the tasks that handle them. [Broadcast] is the
      channel jobs go out on (class [BroadcastLib], with the receivers' view of
      it), [TemplateStats] what the engine reports of each job.
    - [Signals]: the listener and the poll of bitcoin/zmq.rs, the channel they
      share and the arms of [TemplateEngine::run], as the step relation
      [pipe_step] beside the node's tip.
    - [Security], [SecurityFacts], [Server]: security/mod.rs and the admission
      path of network/server.rs. [budget_step] is the step relation of the
      acceptor's compare-and-swap loop beside sessions that end.
    - [Sv1], [Session], [SessionFacts]: protocol/sv1.rs and
      network/session.rs. One definition per handler; [session_step] is one
      arm of the [select!] loop, [session_run] a session over a list of events.
    - [Stats], [StatsFacts]: stats.rs. The ring of reject buckets, the
      database as a record of tables whose statements are updates, every
      operation of [PoolStats], eviction, the dashboard's snapshot, booting
      from the database. [StatsFile] is the database as a file, with the
      tables and columns it may lack, and its opening statement by statement.
      [apply_effect] is what a session's effect does to the statistics;
      [cas_step] and [credit_step] are the step relations of the
      compare-and-swap loops and of two callers crediting one block.
    - [Noise], [NoiseFacts]: protocol/sv2/noise.rs. The handshake as what it
      reads and writes ([responder_handshake]), the frame reader with its
      cap, the reader task, the writer, and the authority key, whose file is
      written by the system calls of [kw_step] under crashes and a racing
      writer.
    - [Sv2Messages], [Sv2], [Sv2Facts]: protocol/sv2/messages.rs, job.rs and
      mod.rs. Framing, the messages, the conversion of jobs and targets, the
      handlers, [sv2_step] and [sv2_run]. [Sv2Device] is a mining device as
      the protocol describes it and the step relation of engine, session and
      device together.
    - [Dashboard], [DashboardFacts]: network/dashboard.rs. The router
      ([dash_request]), the guard on requests that change something, the two
      routes behind it, what the read-only routes report, the points of the
      chart. [DashPage] holds the verdicts of the page's script (the lights of
      the node and of a worker, the health of its rejects, the warning about the
      database) over the record [/stats] sends, [DashCards] what it writes into
      the cards (rates, difficulties, workers by state, the breakdown of
      rejects), [DashFigures] the rest of its figures (odds, the round, the blocks
      found and their marks on the chart, the rows of the table, the dialogs); [NodeLight] follows the node's light along a run of the serving
      process.
    - [Metrics], [MetricsFacts]: metrics/mod.rs, each helper as its calls to
      the metrics facade, which event of the pool goes through which, and what
      the exporter is built with.
    - [Presence]: which worker a Stratum V2 session has online turn by turn.
    - [Pool], [PoolFacts]: the serving process as one step function over
      events: the acceptor, a task per connection from its first byte to its
      close, the sessions of both protocols, the effects of their turns as they
      reach the ban list and the statistics one by one, the extranonce
      counters, the template engine whose refreshes run as interruptible steps
      ([phase]) and broadcast to the sessions' receivers, the change of the
      payout address, the periodic tasks. [pool_move] is each step as what it
      does to one connection or to the engine; the invariants are proved over
      it. [SessionJobs] and [PoolJobs] follow the job each session works on,
      [PoolWork] the address every job the process gives out was built for,
      [PoolBounds] what each table of the process and the memory of each
      session can hold, [PoolBlocks] a solution from the job a device was
      offered ([Offer]) to the hex the node is handed ([hands_on]), [PoolLives]
      what one process saves and the next begins with.
    - [Main], [MainFacts]: main.rs, the command line and the loading of the
      configuration ([main_start]), the set-up of logging ([init_tracing]), what
      each part is built from, the periodic tasks, the signals and the shutdown.
    - [Samples], [SamplesSession], [SamplesSv2], [SamplesDashboard]: the data
      the witnesses share. The [Props*] files hold the properties, each
      followed by its witness.

    ** How the parts interact

    The engine owns the job history; a session of either protocol reads it by
    [find_job] and receives broadcasts as events ([JobReceived], [JobLagged]),
    in [Pool] those its receiver gives it.
    A submission goes through [find_job], [validate_share_no_dedup],
    [ShareSet_dedup] and [handle_verdict] (or [sv2_verdict]), which calls
    [submit_found_block] for a block and [credit_for]/[record_share] for work.
    What a session does to the rest of the process (metrics, statistics, bans,
    submissions) is the list of [session_effect]s its handlers return, in the
    order the code performs them; [apply_effect] and [session_metrics] give
    each its meaning in the statistics and the metrics. What a session reads
    from outside (the engine, the clock reading by reading, the node's
    answers, a stashed share record) is its [Env]. A saved payout address
    goes from [settings_post] through [save_setting], the database, [boot]
    and [apply_persisted] to the [refresh] that builds the jobs.

    ** Conventions

    A Rust integer is a [Z] with its width written out ([wrap 64],
    [saturating_add 64], [is_u64]); an [Instant] or [Duration] is a number of
    nanoseconds. A function that reads the clock takes one argument per
    reading, so no theorem depends on two readings being equal; one that runs
    a database statement takes the answer ([None] for success). [None] or
    [Panic] is a panic. Locks are made explicit only where the code releases
    one between two accesses ([commit_job] and [push_history], [block_known]
    and [block_push], the compare-and-swap loops, the key file). In [Pool] a
    session's start (check of the ban list, subscription, read of the current
    job) is one step, and so is each of its turns; the effects of a turn and
    the parts of a refresh arrive one by one.

    ** What the theorems show

    - Shares and blocks ([PropsValidator], [PropsTemplate], [PropsSession]):
      the verdict on a share is exactly the comparison of the double SHA-256
      of the assembled header with the targets; the coinbase pays the configured address and carries the
      miner's extranonce; the merkle branch rebuilds the template's root;
      targets are exact; a credited share was authorised, current, valid and
      new, and was credited once.
    - Sessions ([PropsSession]): the loop never panics and keeps its
      invariant; the line reader is bounded and loses nothing when it is
      cancelled.
    - Stratum V2 ([PropsSv2], [PropsNoise]): what a device that follows the
      protocol hashes is what the pool validates; credited shares were earned
      and new; the session's state stays well formed; wire job identifiers
      refine the history of announced jobs; an open is granted whole or leaves
      the channel as it was; exactly when two extranonce spaces overlap; a
      session that missed the clean job mines the dead tip; the frame reader
      ends within its cap; the key file is whole or untouched.
    - Difficulty ([PropsVardiff]): every retarget stays in the configured
      range; a reconnecting worker keeps its record.
    - Engine ([PropsEngine], [PropsSignals]): what a refresh does on every
      branch; no block signal is lost between the node and the jobs; a
      found block is archived, submitted and retried, and over any crashes and
      restarts none is lost; the retrier credits at most once.
    - The serving process ([PropsPool]), over every interleaving of any number
      of sessions of both protocols: a banned peer is shut out until its ban
      is over; no session task panics, and a worker is online exactly while a
      session has it; no two sessions share an extranonce prefix until the
      counter has come round; from the command line on, all the work given out
      pays an address the operator gave, and a saved address is paid after a
      restart; a solution that meets the network's target reaches the node as a
      whole block that pays that address; connections, tables and what each
      session remembers stay bounded whatever the peers send; while refreshes take turns, every share credited is work on the
      current tip, and no session is left behind on a job; when they overlap,
      a run credits work on a dead tip; the node's light on the page says how
      the last refreshes ended.
    - Statistics ([PropsStats]): the reject window is the last hour; the best share
      survives any race; found blocks survive a restart; opening an old
      database keeps its rows; two callers can count one block twice.
    - Admission, settings, dashboard ([PropsSecurity], [PropsConfig],
      [PropsDashboard], [PropsMain]): the session budget holds under
      interleaving; the connection rate is bounded; the payout address is
      always on the node's network; an accepted configuration satisfies what
      the other modules assume; only a permitted, local and same-site request
      changes anything, and a rebound public name is refused; pool-wide
      counters never lapse.

    ** Bounds and fuel

    No definition runs on fuel that could run out silently. Loops over data
    are structural. [chunks], [dec], [str_chars], [height_le_bytes] and
    [compute_merkle_branch_raw] recurse on a bound computed from their
    argument (the length of the list, the digits of a [u64]), proved enough
    where a theorem depends on it. [noise_read] and the reader task run on
    fuel, and the cap in bytes is proved to be enough. The three inline
    attempts of a submission are a structural count; the retrier is a function
    of the list of its wake-ups and stops at its deadline; the compare-and-swap
    loops, the key writer, the engine's loop and the device are step
    relations. Constants are the code's: eight remembered jobs, 24 hours of
    shares, three attempts, a two-hour retry deadline.

    ** What is not modelled

    Sockets, the text of HTTP and JSON, logging, signals and task spawning:
    they belong to third-party crates or the operating system. What the code
    relies on of a crate is a class, with its documented behaviour as laws
    where a theorem needs it: SHA-256, hex, address parsing and JSON, the Noise
    cryptography ([HandshakeLib]), the payload codec of Stratum V2 ([Sv2Lib],
    whose message types differ by [Sv2TypesLaws]), the statements of SQLite
    ([SqliteLib]), TOML ([TomlLib]), HTTP headers ([HttpLib]), tokio's watch
    and broadcast channels ([WatchLib], [BroadcastLib]) and the order of a
    concurrent map ([DashIter]). [powf] has no specified rounding and is a
    parameter ([PowLib]). The exporter is [ExporterLib]; what the dashboard's
    page takes from the browser and its locale is [BrowserLib]. Of the page the
    markup, the style, the drawing of the chart and the price of bitcoin are
    left out. The golden vectors, fuzz targets, example client and integration
    test exercise these modules and have no logic of their own. *)
From Stdlib Require Export ZArith Lia Bool.
From Stdlib Require Export Init.Byte.
From Stdlib Require Import Strings.Byte Strings.Ascii.
From stdpp Require Export prelude gmap strings list.

#[global] Open Scope Z_scope.

(** ** Scopes and automation of the development *)

Declare Scope pool_scope.
Delimit Scope pool_scope with pool.

Create HintDb pool discriminated.
Create Rewrite HintDb pool_len.

(** [break_if] case-splits the innermost [if]/[match] scrutinee of the goal;
    [break_in H] does it in a hypothesis. They walk a handler's guards. *)
Ltac break_inner t :=
  match t with
  | context [match ?x with _ => _ end] => break_inner x
  | _ => destruct t eqn:?
  end.
Ltac break_goal :=
  match goal with |- context [match ?x with _ => _ end] => break_inner x end.
Ltac break_in H :=
  match type of H with context [match ?x with _ => _ end] => break_inner x end.
Ltac b2p :=
  repeat match goal with
  | H : (_ <? _) = true |- _ => apply Z.ltb_lt in H
  | H : (_ <? _) = false |- _ => apply Z.ltb_ge in H
  | H : (_ <=? _) = true |- _ => apply Z.leb_le in H
  | H : (_ <=? _) = false |- _ => apply Z.leb_gt in H
  | H : (_ =? _) = true |- _ => apply Z.eqb_eq in H
  | H : (_ =? _) = false |- _ => apply Z.eqb_neq in H
  | H : (_ && _)%bool = true |- _ => apply andb_true_iff in H as [? ?]
  | H : (_ || _)%bool = false |- _ => apply orb_false_iff in H as [? ?]
  end.

(** ** Outcomes of a Rust function

    A call returns a value ([Ok]), returns an error value ([Err]) or panics.
    A panic unwinds the task that made the call. *)
Inductive outcome (E A : Type) : Type :=
| Ok (a : A)
| Err (e : E)
| Panic.
Arguments Ok {E A} a.
Arguments Err {E A} e.
Arguments Panic {E A}.

#[global] Instance outcome_ret {E} : MRet (outcome E) := fun A a => Ok a.
#[global] Instance outcome_bind {E} : MBind (outcome E) := fun A B f m =>
  match m with Ok a => f a | Err e => Err e | Panic => Panic end.
#[global] Instance outcome_fmap {E} : FMap (outcome E) := fun A B f m =>
  match m with Ok a => Ok (f a) | Err e => Err e | Panic => Panic end.

(** [opt.ok_or(e)?] and [slice operation that panics when out of range]. *)
Definition ok_or {E A} (e : E) (o : option A) : outcome E A :=
  match o with Some a => Ok a | None => Err e end.
Definition or_panic {E A} (o : option A) : outcome E A :=
  match o with Some a => Ok a | None => Panic end.

Lemma outcome_bind_ok {E A B} (m : outcome E A) (f : A -> outcome E B) b :
  (m ≫= f) = Ok b <-> exists a, m = Ok a /\ f a = Ok b.
Proof. destruct m; cbn; by (split; [eauto | intros (? & [= <-] & ?)]) || (split; [done | by intros (? & [=] & ?)]). Qed.

(** [Iterator::map(f).collect::<Result<Vec<_>, _>>()]: stops at the first
    error. *)
Fixpoint collect_res {E A B} (f : A -> outcome E B) (l : list A) : outcome E (list B) :=
  match l with
  | [] => Ok []
  | x :: l' => y ← f x; ys ← collect_res f l'; Ok (y :: ys)
  end.

Lemma collect_res_ok {E A B} (f : A -> outcome E B) l ys :
  collect_res f l = Ok ys <-> Forall2 (fun x y => f x = Ok y) l ys.
Proof.
  revert ys; induction l as [|x l IH]; intros ys; cbn.
  - split; [intros [= <-]; constructor | by inversion 1].
  - rewrite outcome_bind_ok. split.
    + intros (y & Hy & H). apply outcome_bind_ok in H as (ys' & Hys & [= <-]).
      constructor; [done | by apply IH].
    + inversion 1 as [|? y ? ys' Hy Hys]; subst. exists y; split; [done|].
      apply outcome_bind_ok. exists ys'. split; [by apply IH | done].
Qed.

(** ** Machine integers

    An unsigned w-bit integer is the [Z] of its value. Rust's [as] casts and
    wrapping operations reduce modulo [2^w]; the saturating ones clamp. *)
Definition wrap (w z : Z) : Z := z mod 2 ^ w.
Definition umax (w : Z) : Z := 2 ^ w - 1.
Definition saturating_add (w a b : Z) : Z := Z.min (a + b) (umax w).
Definition saturating_sub (a b : Z) : Z := Z.max 0 (a - b).
Definition saturating_mul (w a b : Z) : Z := Z.min (a * b) (umax w).
Definition is_u (w z : Z) : Prop := 0 <= z < 2 ^ w.
Abbreviation is_u32 := (is_u 32).
Abbreviation is_u64 := (is_u 64).

(** [Ord::clamp] on integers panics on an inverted range. *)
Definition clamp (x lo hi : Z) : option Z :=
  if hi <? lo then None
  else Some (if x <? lo then lo else if hi <? x then hi else x).

Lemma clamp_in_range x lo hi y : clamp x lo hi = Some y -> lo <= y <= hi.
Proof. unfold clamp. repeat break_goal; intros [= <-]; b2p; lia. Qed.

Lemma clamp_total x lo hi : lo <= hi -> exists y, clamp x lo hi = Some y.
Proof. intros H. unfold clamp. destruct (hi <? lo) eqn:E; b2p; [lia | eauto]. Qed.

Lemma clamp_id x lo hi : lo <= x <= hi -> clamp x lo hi = Some x.
Proof. intros H. unfold clamp. repeat break_goal; b2p; first [lia | done]. Qed.

(** [u32::count_ones]. *)
Fixpoint count_ones_n (n : nat) (z : Z) : Z :=
  match n with
  | O => 0
  | S n => (if Z.odd z then 1 else 0) + count_ones_n n (z / 2)
  end.
Definition count_ones32 (z : Z) : Z := count_ones_n 32 z.

(** ** Bytes *)
Abbreviation byte := Byte.byte.

Definition b2z (b : byte) : Z := Z.of_N (Byte.to_N b).

(** The [as u8] cast: the low eight bits. *)
Definition z2b (z : Z) : byte :=
  match Byte.of_N (Z.to_N (z mod 256)) with Some b => b | None => x00 end.

Lemma b2z_range b : 0 <= b2z b < 256.
Proof. unfold b2z. pose proof (Byte.to_N_bounded b). lia. Qed.

Lemma b2z_z2b z : b2z (z2b z) = z mod 256.
Proof.
  unfold b2z, z2b. pose proof (Z.mod_pos_bound z 256 eq_refl) as Hb.
  destruct (Byte.of_N _) eqn:E.
  - apply Byte.to_of_N in E. rewrite E. lia.
  - apply Byte.of_N_None_iff in E. lia.
Qed.

#[global] Instance b2z_inj : Inj (=) (=) b2z.
Proof.
  intros x y H. unfold b2z in H. apply N2Z.inj in H.
  pose proof (Byte.of_to_N x) as Hx. rewrite H, Byte.of_to_N in Hx. congruence.
Qed.

Lemma z2b_b2z b : z2b (b2z b) = b.
Proof. apply (inj b2z). rewrite b2z_z2b. apply Z.mod_small, b2z_range. Qed.

#[global] Instance byte_eq_dec : EqDecision byte := Byte.byte_eq_dec.
#[global] Program Instance byte_countable : Countable byte :=
  inj_countable Byte.to_N Byte.of_N _.
Next Obligation. apply Byte.of_to_N. Qed.

(** *** Little- and big-endian encodings *)

Fixpoint le_bytes (n : nat) (z : Z) : list byte :=
  match n with
  | O => []
  | S n => z2b z :: le_bytes n (z / 256)
  end.
Definition be_bytes (n : nat) (z : Z) : list byte := rev (le_bytes n z).

Fixpoint le2z (l : list byte) : Z :=
  match l with
  | [] => 0
  | b :: l => b2z b + 256 * le2z l
  end.
Definition be2z (l : list byte) : Z := le2z (rev l).

Lemma length_le_bytes n z : length (le_bytes n z) = n.
Proof. revert z; induction n; intros; cbn; congruence. Qed.
Lemma length_be_bytes n z : length (be_bytes n z) = n.
Proof. unfold be_bytes. by rewrite length_rev, length_le_bytes. Qed.
#[export] Hint Rewrite length_le_bytes length_be_bytes : pool_len.

Lemma le2z_le_bytes n z : le2z (le_bytes n z) = z mod 256 ^ Z.of_nat n.
Proof.
  revert z; induction n as [|n IH]; intros z; cbn [le_bytes le2z].
  - by rewrite Z.mod_1_r.
  - rewrite IH, b2z_z2b, Nat2Z.inj_succ, Z.pow_succ_r by lia.
    rewrite (Z.rem_mul_r z 256) by lia. lia.
Qed.

Lemma le2z_range l : 0 <= le2z l < 256 ^ Z.of_nat (length l).
Proof.
  induction l as [|b l IH]; cbn [le2z length]; [lia|].
  rewrite Nat2Z.inj_succ, Z.pow_succ_r by lia. pose proof (b2z_range b). lia.
Qed.

Lemma le_bytes_le2z l : le_bytes (length l) (le2z l) = l.
Proof.
  induction l as [|b l IH]; cbn [le2z length le_bytes]; [done|].
  pose proof (b2z_range b). f_equal.
  - apply (inj b2z). rewrite b2z_z2b, (Z.mul_comm 256), Z.mod_add by lia.
    by apply Z.mod_small.
  - by rewrite (Z.mul_comm 256), Z.div_add, Z.div_small by lia.
Qed.

Lemma le2z_app l k : le2z (l ++ k) = le2z l + 256 ^ Z.of_nat (length l) * le2z k.
Proof.
  induction l as [|b l IH]; cbn [app le2z length]; [cbn; lia|].
  rewrite IH, Nat2Z.inj_succ, Z.pow_succ_r by lia. lia.
Qed.

Lemma le2z_inj l k : length l = length k -> le2z l = le2z k -> l = k.
Proof. intros Hl Hz. by rewrite <- (le_bytes_le2z l), <- (le_bytes_le2z k), Hl, Hz. Qed.

Lemma be2z_cons b l : be2z (b :: l) = b2z b * 256 ^ Z.of_nat (length l) + be2z l.
Proof.
  unfold be2z. cbn [rev]. rewrite le2z_app, length_rev. cbn [le2z]. lia.
Qed.

Lemma be2z_app l k : be2z (l ++ k) = be2z l * 256 ^ Z.of_nat (length k) + be2z k.
Proof. unfold be2z. rewrite rev_app_distr, le2z_app, length_rev. lia. Qed.

Lemma be2z_range l : 0 <= be2z l < 256 ^ Z.of_nat (length l).
Proof. unfold be2z. rewrite <- (length_rev l). apply le2z_range. Qed.

Lemma be2z_inj l k : length l = length k -> be2z l = be2z k -> l = k.
Proof.
  intros Hl Hv. rewrite <- (rev_involutive l), <- (rev_involutive k). f_equal.
  apply le2z_inj; [by rewrite !length_rev|done].
Qed.
Lemma be2z_be_bytes n z : be2z (be_bytes n z) = z mod 256 ^ Z.of_nat n.
Proof. unfold be2z, be_bytes. by rewrite rev_involutive, le2z_le_bytes. Qed.

Lemma be2z_zeros n l : be2z (replicate n x00 ++ l) = be2z l.
Proof. induction n as [|n IH]; [done|]. cbn [replicate app]. rewrite be2z_cons, IH. cbn. lia. Qed.

(** *** Rust's ordering of byte arrays: lexicographic *)
Fixpoint lex_le (a b : list byte) : bool :=
  match a, b with
  | [], _ => true
  | _ :: _, [] => false
  | x :: a, y :: b =>
      if b2z x <? b2z y then true
      else if b2z x =? b2z y then lex_le a b else false
  end.

(** On arrays of one length it is the order of the big-endian integers. *)
Lemma lex_le_be2z a b : length a = length b -> lex_le a b = (be2z a <=? be2z b).
Proof.
  revert b; induction a as [|x a IH]; intros [|y b]; cbn [length lex_le]; try done.
  intros [= Hl]. rewrite !be2z_cons, Hl.
  pose proof (be2z_range a) as Ha. pose proof (be2z_range b) as Hb. rewrite Hl in Ha.
  set (p := 256 ^ _) in *.
  destruct (b2z x <? b2z y) eqn:E1; b2p; [symmetry; apply Z.leb_le; nia|].
  destruct (b2z x =? b2z y) eqn:E2; b2p.
  - rewrite IH, E2 by done.
    destruct (be2z a <=? be2z b) eqn:E3; symmetry; b2p; [apply Z.leb_le | apply Z.leb_gt]; lia.
  - symmetry. apply Z.leb_gt. nia.
Qed.

(** ** Slices *)

(** [dst[off..off+src.len()].copy_from_slice(src)]: [None] is the panic of an
    out-of-range slice. *)
Definition splice (dst : list byte) (off : nat) (src : list byte) : option (list byte) :=
  if decide (off + length src <= length dst)%nat
  then Some (take off dst ++ src ++ drop (off + length src) dst)
  else None.

(** [vec.resize(n, b)]. *)
Definition resize (l : list byte) (n : nat) (b : byte) : list byte :=
  take n l ++ replicate (n - length l) b.

(** [slice.chunks(n)]. *)
Fixpoint chunks_fuel {A} (fuel n : nat) (l : list A) : list (list A) :=
  match fuel with
  | O => []
  | S fuel => match l with [] => [] | _ => take n l :: chunks_fuel fuel n (drop n l) end
  end.
Definition chunks {A} (n : nat) (l : list A) : list (list A) := chunks_fuel (length l) n l.

Lemma chunks_fuel_enough {A} n f (l : list A) :
  (0 < n)%nat -> (length l <= f)%nat -> chunks_fuel f n l = chunks n l.
Proof.
  intros Hn. unfold chunks.
  assert (forall g f (l : list A), (length l <= g)%nat -> (g <= f)%nat ->
    chunks_fuel f n l = chunks_fuel g n l) as H.
  { clear f l. induction g as [|g IH]; intros f l Hl Hg.
    - destruct l; [destruct f; done | cbn in Hl; lia].
    - destruct f as [|f]; [lia|]. cbn. destruct l as [|x l]; [done|]. f_equal.
      apply IH; [|lia]. rewrite length_drop. cbn in *. lia. }
  intros Hl. by apply H.
Qed.

Lemma chunks_cons {A} n (l : list A) :
  (0 < n)%nat -> l ≠ [] -> chunks n l = take n l :: chunks n (drop n l).
Proof.
  intros Hn Hl. destruct l as [|x l]; [done|].
  unfold chunks at 1. cbn [length chunks_fuel]. f_equal.
  apply chunks_fuel_enough; [done|]. rewrite length_drop. cbn. lia.
Qed.

(** [for chunk in bytes.chunks_mut(4) { chunk.reverse() }]. *)
Definition swap_words (l : list byte) : list byte := concat (map (@rev byte) (chunks 4 l)).

Lemma swap_words_app a l : length a = 4%nat -> swap_words (a ++ l) = rev a ++ swap_words l.
Proof.
  intros Ha. unfold swap_words.
  rewrite chunks_cons by (try lia; destruct a; done).
  rewrite take_app_length' by done. rewrite drop_app_length' by done. done.
Qed.

Lemma words_ind (P : list byte -> Prop) :
  P [] -> (forall a l, length a = 4%nat -> P l -> P (a ++ l)) ->
  forall n l, length l = (4 * n)%nat -> P l.
Proof.
  intros H0 Hs n; induction n as [|n IH]; intros l Hl.
  - destruct l; [done | cbn in Hl; lia].
  - rewrite <- (take_drop 4 l). apply Hs.
    + rewrite length_take. lia.
    + apply IH. rewrite length_drop. lia.
Qed.

Lemma swap_words_length n l : length l = (4 * n)%nat -> length (swap_words l) = length l.
Proof.
  apply (words_ind (fun l => length (swap_words l) = length l)); [done|].
  intros a k Ha IH. rewrite swap_words_app by done. rewrite !length_app, length_rev. lia.
Qed.

Lemma length_swap_words l : length (swap_words l) = length l.
Proof.
  remember (length l) as n eqn:Hn. revert l Hn. induction (Nat.lt_wf_0 n) as [n _ IH]. intros l ->.
  destruct l as [|b l]; [done|]. unfold swap_words. rewrite chunks_cons by (try lia; done).
  cbn [map concat]. rewrite length_app, length_rev. fold (swap_words (drop 4 (b :: l))).
  rewrite (IH (length (drop 4 (b :: l)))) by (rewrite ?length_drop; cbn [length]; lia).
  rewrite length_take, length_drop. lia.
Qed.

Lemma swap_words_involutive n l : length l = (4 * n)%nat -> swap_words (swap_words l) = l.
Proof.
  apply (words_ind (fun l => swap_words (swap_words l) = l)); [done|].
  intros a k Ha IH. rewrite !swap_words_app by (rewrite ?length_rev; done).
  by rewrite rev_involutive, IH.
Qed.

(** ** The last elements of a list *)

Definition lastn {A} (n : nat) (l : list A) : list A := drop (length l - n) l.
Lemma lastn_short {A} n (l : list A) : (length l <= n)%nat -> lastn n l = l.
Proof. intros H. unfold lastn. by replace (length l - n)%nat with 0%nat by lia. Qed.
Lemma lastn_cons {A} n x (l : list A) : (n <= length l)%nat -> lastn n (x :: l) = lastn n l.
Proof. intros H. unfold lastn. cbn [length]. by replace (S (length l) - n)%nat with (S (length l - n)) by lia. Qed.
Lemma lastn_snoc {A} n (l : list A) x : lastn (S n) (l ++ [x]) = lastn n l ++ [x].
Proof.
  unfold lastn. rewrite length_app. cbn [length]. replace (length l + 1 - S n)%nat with (length l - n)%nat by lia.
  by rewrite drop_app_le by lia.
Qed.
Lemma length_lastn {A} n (l : list A) : length (lastn n l) = Nat.min n (length l).
Proof. unfold lastn. rewrite length_drop. lia. Qed.
Lemma lastn_pop {A} n (l : list A) :
  (if (length (lastn (S n) l) =? S n)%nat then tail (lastn (S n) l) else lastn (S n) l) = lastn n l.
Proof.
  rewrite length_lastn. destruct (Nat.eqb_spec (Nat.min (S n) (length l)) (S n)) as [H|H].
  - unfold lastn. replace (length l - n)%nat with (S (length l - S n)) by lia.
    set (k := (length l - S n)%nat). clearbody k. clear H. revert k. induction l as [|y l IH]; intros [|k]; try done.
    cbn. by rewrite IH.
  - by rewrite !lastn_short by lia.
Qed.

(** ** Updating one field of a record *)

(** A record with a [FieldwiseId] instance (its identity, field by field)
    supports [r <! field := v !>] and [r <! field ::= f !>]: the instance of
    [FieldUpdate] for a field is read off the identity. *)
Class FieldwiseId (R : Type) := fieldwise_id : R -> R.
Class FieldUpdate {R A : Type} (field : R -> A) := field_update : (A -> A) -> R -> R.
Ltac derive_field_update field :=
  lazymatch type of field with
  | ?R -> ?A =>
      let identity := constr:(_ : FieldwiseId R) in
      let body := eval hnf in identity in
      lazymatch eval pattern field in body with
      | ?by_field _ => exact (fun (f : A -> A) => by_field (fun r : R => f (field r)))
      end
  end.
#[export] Hint Extern 0 (FieldUpdate ?field) => derive_field_update field : typeclass_instances.
Notation "r <! field ::= f !>" := (@field_update _ _ field _ f r)
  (at level 12, field at next level, left associativity, format "r  <! field  ::=  f !>").
Notation "r <! field := v !>" := (@field_update _ _ field _ (fun _ => v) r)
  (at level 12, field at next level, left associativity, format "r  <! field  :=  v !>").
