(* ===== verification/Text.v ===== *)
(** Text of the Rust standard library that the program relies on: fixed-width
    hexadecimal formatting ([{:08x}]), decimal formatting, [from_str_radix]
    and [parse::<u64>], and the decoding of a [str] into its [char]s.  A Rust
    [String] is the [string] of its UTF-8 bytes. *)
From S2P Require Export Prelude.
From Stdlib Require Import Strings.Ascii.

#[global] Open Scope string_scope.
#[global] Open Scope list_scope.
#[global] Open Scope Z_scope.

Definition chr (z : Z) : ascii := ascii_of_N (Z.to_N z).
Definition ord (c : ascii) : Z := Z.of_N (N_of_ascii c).

Lemma ord_chr z : 0 <= z < 256 -> ord (chr z) = z.
Proof. intros H. unfold ord, chr. rewrite N_ascii_embedding by lia. lia. Qed.

(** ** Hexadecimal *)

(** A lower-case digit of [format!("{:x}")]. *)
Definition hex_digit (d : Z) : ascii := if d <? 10 then chr (48 + d) else chr (87 + d).

(** [char::to_digit(16)]: both cases are accepted. *)
Definition to_digit16 (c : ascii) : option Z :=
  let z := ord c in
  if (48 <=? z) && (z <=? 57) then Some (z - 48)
  else if (97 <=? z) && (z <=? 102) then Some (z - 87)
  else if (65 <=? z) && (z <=? 70) then Some (z - 55)
  else None.

(** [char::is_ascii_hexdigit]. *)
Definition is_ascii_hexdigit (c : ascii) : bool := bool_decide (is_Some (to_digit16 c)).

(** The [n] low hexadecimal digits of [z], most significant first:
    [format!("{:08x}")] of a [u32] is [hex_fixed 8], [{:016x}] of a [u64] is
    [hex_fixed 16]. *)
Fixpoint hex_chars (n : nat) (z : Z) : list ascii :=
  match n with
  | O => []
  | S n => hex_chars n (z / 16) ++ [hex_digit (z mod 16)]
  end.
Definition hex_fixed (n : nat) (z : Z) : string := String.string_of_list_ascii (hex_chars n z).

(** [uN::from_str_radix(s, 16)]: an optional leading plus sign, at least one
    digit, and an error as soon as the value leaves [0, 2^w). *)
Fixpoint radix16_go (w acc : Z) (l : list ascii) : option Z :=
  match l with
  | [] => Some acc
  | c :: l =>
      match to_digit16 c with
      | None => None
      | Some d =>
          let acc := acc * 16 + d in
          if acc <? 2 ^ w then radix16_go w acc l else None
      end
  end.
Definition strip_plus (l : list ascii) : option (list ascii) :=
  match l with
  | [] => None
  | c :: r => if (ord c =? 43) then (match r with [] => None | _ => Some r end) else Some l
  end.
Definition from_str_radix16 (w : Z) (s : string) : option Z :=
  match strip_plus (String.list_ascii_of_string s) with
  | Some l => radix16_go w 0 l
  | None => None
  end.

Lemma to_digit16_hex_digit d : 0 <= d < 16 -> to_digit16 (hex_digit d) = Some d.
Proof.
  intros H.
  assert (d = 0 \/ d = 1 \/ d = 2 \/ d = 3 \/ d = 4 \/ d = 5 \/ d = 6 \/ d = 7 \/ d = 8 \/
    d = 9 \/ d = 10 \/ d = 11 \/ d = 12 \/ d = 13 \/ d = 14 \/ d = 15) as Hd by lia.
  repeat (destruct Hd as [->|Hd]; [reflexivity|]). by subst.
Qed.

Lemma hex_digit_not_plus d : 0 <= d < 16 -> ord (hex_digit d) ≠ 43.
Proof. intros H. unfold hex_digit. destruct (d <? 10) eqn:E; b2p; rewrite ord_chr; lia. Qed.

Lemma hex_chars_length n z : length (hex_chars n z) = n.
Proof. revert z; induction n; intros; cbn; [done|]. rewrite length_app, IHn. cbn. lia. Qed.

Lemma radix16_go_app w acc l c :
  radix16_go w acc (l ++ [c]) =
  match radix16_go w acc l with
  | Some a => radix16_go w a [c]
  | None => None
  end.
Proof.
  revert acc; induction l as [|x l IH]; intros acc; [done|].
  cbn [app radix16_go]. destruct (to_digit16 x); [|done].
  destruct (_ <? _); [apply IH | done].
Qed.

Lemma radix16_go_hex_chars w n z :
  0 <= w -> 0 <= z < 2 ^ w -> z < 16 ^ Z.of_nat n ->
  radix16_go w 0 (hex_chars n z) = Some z.
Proof.
  intros Hw. revert z; induction n as [|n IH]; intros z Hz Hn.
  - cbn in *. f_equal. lia.
  - cbn [hex_chars]. rewrite Nat2Z.inj_succ, Z.pow_succ_r in Hn by lia.
    assert (0 <= z / 16 < 2 ^ w) as Hq.
    { split; [apply Z.div_pos; lia|]. apply Z.le_lt_trans with z; [|lia].
      apply Z.div_le_upper_bound; lia. }
    rewrite radix16_go_app, IH; [| done | apply Z.div_lt_upper_bound; lia].
    cbn [radix16_go]. rewrite to_digit16_hex_digit by (apply Z.mod_pos_bound; lia).
    replace (z / 16 * 16 + z mod 16) with z by (pose proof (Z.div_mod z 16); lia).
    rewrite (proj2 (Z.ltb_lt _ _)) by lia. done.
Qed.

Lemma list_of_string_of_list l :
  String.list_ascii_of_string (String.string_of_list_ascii l) = l.
Proof. apply String.list_ascii_of_string_of_list_ascii. Qed.

(** Parsing what [{:0nx}] printed gives the number back. *)
Lemma from_str_radix16_hex_fixed w n z :
  0 <= w -> (0 < n)%nat -> 0 <= z < 2 ^ w -> z < 16 ^ Z.of_nat n ->
  from_str_radix16 w (hex_fixed n z) = Some z.
Proof.
  intros Hw Hn0 Hz Hn. unfold from_str_radix16, hex_fixed. rewrite list_of_string_of_list.
  assert (strip_plus (hex_chars n z) = Some (hex_chars n z)) as ->.
  { assert (forall c r, hex_chars n z = c :: r -> ord c ≠ 43) as Hc.
    { clear Hz Hn. revert z; induction n as [|n IH]; intros z c r H; [lia|].
      cbn [hex_chars] in H. destruct n as [|n].
      - cbn in H. injection H as <- _. apply hex_digit_not_plus, Z.mod_pos_bound. lia.
      - destruct (hex_chars (S n) (z / 16)) as [|c' r'] eqn:E.
        + apply (f_equal length) in E. rewrite hex_chars_length in E. done.
        + cbn [app] in H. injection H as -> _. eapply IH; [lia | exact E]. }
    destruct (hex_chars n z) as [|c r] eqn:E.
    - apply (f_equal length) in E. rewrite hex_chars_length in E. cbn in E. lia.
    - cbn. destruct (ord c =? 43) eqn:E2; [b2p; by destruct (Hc c r eq_refl) | done]. }
  by apply radix16_go_hex_chars.
Qed.

(** ** Decimal *)

Fixpoint dec_fuel (fuel : nat) (z : Z) : list ascii :=
  match fuel with
  | O => []
  | S f => (if z <? 10 then [] else dec_fuel f (z / 10)) ++ [chr (48 + z mod 10)]
  end.
(** [format!("{}")] of an unsigned integer below [10^40]. *)
Definition dec (z : Z) : string := String.string_of_list_ascii (dec_fuel 40 z).

(** [parse::<u64>()]. *)
Fixpoint dec_go (w acc : Z) (l : list ascii) : option Z :=
  match l with
  | [] => Some acc
  | c :: l =>
      let z := ord c in
      if (48 <=? z) && (z <=? 57) then
        let acc := acc * 10 + (z - 48) in
        if acc <? 2 ^ w then dec_go w acc l else None
      else None
  end.
Definition parse_uint (w : Z) (s : string) : option Z :=
  match strip_plus (String.list_ascii_of_string s) with
  | Some l => dec_go w 0 l
  | None => None
  end.

(** ** Characters *)

(** [str::chars]: the UTF-8 decoder. A Rust [str] is always valid UTF-8, so
    the malformed cases (which end the list) do not arise. *)
Fixpoint utf8_fuel (fuel : nat) (l : list Z) : list Z :=
  match fuel with
  | O => []
  | S fuel =>
      match l with
      | [] => []
      | a :: l =>
          if a <? 128 then a :: utf8_fuel fuel l
          else if a <? 224 then
            match l with
            | b :: l => ((a - 192) * 64 + (b - 128)) :: utf8_fuel fuel l
            | _ => []
            end
          else if a <? 240 then
            match l with
            | b :: c :: l =>
                ((a - 224) * 4096 + (b - 128) * 64 + (c - 128)) :: utf8_fuel fuel l
            | _ => []
            end
          else
            match l with
            | b :: c :: d :: l =>
                ((a - 240) * 262144 + (b - 128) * 4096 + (c - 128) * 64 + (d - 128))
                  :: utf8_fuel fuel l
            | _ => []
            end
      end
  end.
Definition str_chars (s : string) : list Z :=
  utf8_fuel (String.length s) (map ord (String.list_ascii_of_string s)).

(** [char::is_control]: the general category Cc. *)
Definition is_control (c : Z) : bool := (c <? 32) || ((127 <=? c) && (c <? 160)).
(** [char::is_whitespace]: the Unicode property White_Space. *)
Definition is_whitespace (c : Z) : bool :=
  ((9 <=? c) && (c <=? 13)) || (c =? 32) || (c =? 133) || (c =? 160) || (c =? 5760) ||
  ((8192 <=? c) && (c <=? 8202)) || (c =? 8232) || (c =? 8233) || (c =? 8239) ||
  (c =? 8287) || (c =? 12288).

(** [s.as_bytes()]. *)
Definition str_bytes (s : string) : list byte :=
  map (fun c => z2b (ord c)) (String.list_ascii_of_string s).
Definition str_len (s : string) : Z := Z.of_nat (String.length s).

(** [s.trim().is_empty()]. *)
Definition trim_is_empty (s : string) : bool := forallb is_whitespace (str_chars s).

Example hex_8 : hex_fixed 8 0x1fffe000 = "1fffe000".
Proof. reflexivity. Qed.
Example radix_plus : from_str_radix16 32 "+fF" = Some 255.
Proof. reflexivity. Qed.
Example radix_overflow : from_str_radix16 32 "100000000" = None.
Proof. reflexivity. Qed.
Example dec_12 : dec 1200 = "1200" /\ parse_uint 64 "1200" = Some 1200.
Proof. split; reflexivity. Qed.
Example chars_euro : str_chars "a€ " = [97; 8364; 32].
Proof. reflexivity. Qed.

(** ** Searching and cutting strings *)

Abbreviation to_list := String.list_ascii_of_string.
Abbreviation of_list := String.string_of_list_ascii.

Fixpoint strip_list (p l : list ascii) : option (list ascii) :=
  match p, l with
  | [], l => Some l
  | x :: p, y :: l => if decide (x = y) then strip_list p l else None
  | _, [] => None
  end.
(** [s.strip_prefix(p)], [s.strip_suffix(p)], [s.starts_with(p)], [s.ends_with(p)]. *)
Definition str_strip_prefix (p s : string) : option string := of_list <$> strip_list (to_list p) (to_list s).
Definition str_strip_suffix (p s : string) : option string :=
  (fun l => of_list (rev l)) <$> strip_list (rev (to_list p)) (rev (to_list s)).
Definition starts_with (p s : string) : bool := bool_decide (is_Some (str_strip_prefix p s)).
Definition ends_with (p s : string) : bool := bool_decide (is_Some (str_strip_suffix p s)).

(** The first occurrence of [p]: what is before it and what is after it. *)
Fixpoint split_list (p l : list ascii) : option (list ascii * list ascii) :=
  match strip_list p l with
  | Some r => Some ([], r)
  | None =>
      match l with
      | [] => None
      | c :: l => (fun x => (c :: fst x, snd x)) <$> split_list p l
      end
  end.
(** [s.split_once(p)], [s.contains(p)], [s.rsplit_once(p)]. *)
Definition split_once (p s : string) : option (string * string) :=
  (fun x => (of_list (fst x), of_list (snd x))) <$> split_list (to_list p) (to_list s).
Definition str_contains (p s : string) : bool := bool_decide (is_Some (split_once p s)).
Definition rsplit_once (p s : string) : option (string * string) :=
  (fun x => (of_list (rev (snd x)), of_list (rev (fst x))))
    <$> split_list (rev (to_list p)) (rev (to_list s)).

(** [s.to_ascii_lowercase()], [a.eq_ignore_ascii_case(b)]. *)
Definition ascii_lower (c : ascii) : ascii :=
  if (65 <=? ord c) && (ord c <=? 90) then chr (ord c + 32) else c.
Definition to_ascii_lowercase (s : string) : string := of_list (map ascii_lower (to_list s)).

(** [s.trim()]: whole characters (a byte that does not continue one starts
    the next) are dropped from both ends. *)
Fixpoint utf8_pieces (l : list ascii) : list (list ascii) :=
  match l with
  | [] => []
  | c :: l =>
      match utf8_pieces l with
      | (d :: p) :: ps =>
          if (128 <=? ord d) && (ord d <? 192) then (c :: d :: p) :: ps else [c] :: (d :: p) :: ps
      | ps => [c] :: ps
      end
  end.
Fixpoint drop_while {A} (f : A -> bool) (l : list A) : list A :=
  match l with
  | [] => []
  | x :: r => if f x then drop_while f r else l
  end.
Definition piece_is_space (p : list ascii) : bool := forallb is_whitespace (str_chars (of_list p)).
Definition trim_end_pieces (ps : list (list ascii)) : list (list ascii) :=
  rev (drop_while piece_is_space (rev ps)).
Definition trim (s : string) : string :=
  of_list (concat (trim_end_pieces (drop_while piece_is_space (utf8_pieces (to_list s))))).
Definition trim_end (s : string) : string :=
  of_list (concat (trim_end_pieces (utf8_pieces (to_list s)))).

(** [parse::<i64>()]: an optional sign and at least one digit. *)
Fixpoint digits_value (acc : Z) (l : list ascii) : option Z :=
  match l with
  | [] => Some acc
  | c :: l =>
      if (48 <=? ord c) && (ord c <=? 57) then digits_value (acc * 10 + (ord c - 48)) l else None
  end.
Definition parse_i64 (s : string) : option Z :=
  let '(neg, l) :=
    match to_list s with
    | c :: r => if ord c =? 45 then (true, r) else if ord c =? 43 then (false, r) else (false, c :: r)
    | [] => (false, [])
    end in
  match l with
  | [] => None
  | _ =>
      match digits_value 0 l with
      | Some n =>
          let z := if neg : bool then - n else n in
          if (- 2 ^ 63 <=? z) && (z <? 2 ^ 63) then Some z else None
      | None => None
      end
  end.
(** [parse::<bool>()]. *)
Definition parse_bool (s : string) : option bool :=
  if bool_decide (s = "true") then Some true
  else if bool_decide (s = "false") then Some false else None.

Example trim_ex : trim " a b	" = "a b" /\ split_once "__" "a__b__c" = Some ("a", "b__c").
Proof. split; reflexivity. Qed.
Example rsplit_ex : rsplit_once "-" "a-b-c" = Some ("a-b", "c") /\ parse_i64 "-12" = Some (-12).
Proof. split; reflexivity. Qed.

(** ** Facts about cutting *)

Lemma to_of_list l : to_list (of_list l) = l.
Proof. apply String.list_ascii_of_string_of_list_ascii. Qed.
Lemma of_to_list s : of_list (to_list s) = s.
Proof. apply String.string_of_list_ascii_of_string. Qed.
#[global] Instance to_list_inj : Inj (=) (=) to_list.
Proof. intros a b H. by rewrite <- (of_to_list a), H, of_to_list. Qed.
Lemma strip_list_Some p l r : strip_list p l = Some r <-> l = p ++ r.
Proof.
  revert l; induction p as [|x p IH]; intros [|y l]; cbn; try (split; congruence).
  destruct (decide (x = y)) as [->|]; [rewrite IH; split; congruence|].
  split; [done|]. intros [= -> ->]. done.
Qed.
Lemma split_list_Some p l a b : split_list p l = Some (a, b) -> l = a ++ p ++ b.
Proof.
  revert a; induction l as [|c l IH]; intros a; cbn.
  - destruct (strip_list p []) as [r|] eqn:E; [|done]. intros [= <- <-]. apply strip_list_Some in E. exact E.
  - destruct (strip_list p (c :: l)) as [r|] eqn:E.
    + intros [= <- <-]. apply strip_list_Some in E. exact E.
    + destruct (split_list p l) as [[a' b']|]; [|done]. cbn. intros [= <- <-]. by rewrite (IH a').
Qed.
Lemma to_list_app a b : to_list (a ++ b)%string = to_list a ++ to_list b.
Proof. induction a as [|c a IH]; [done|]. change (c :: to_list (a ++ b)%string = c :: to_list a ++ to_list b). by rewrite IH. Qed.
Lemma str_strip_prefix_app p s : str_strip_prefix p (p ++ s)%string = Some s.
Proof.
  unfold str_strip_prefix. rewrite to_list_app.
  rewrite (proj2 (strip_list_Some (to_list p) _ (to_list s)) eq_refl). cbn. by rewrite of_to_list.
Qed.
Lemma str_strip_suffix_app p s : str_strip_suffix p (s ++ p)%string = Some s.
Proof.
  unfold str_strip_suffix. rewrite to_list_app, rev_app_distr.
  rewrite (proj2 (strip_list_Some (rev (to_list p)) _ (rev (to_list s))) eq_refl). cbn.
  by rewrite rev_involutive, of_to_list.
Qed.
Lemma split_list_char c a b : c ∉ a -> split_list [c] (a ++ c :: b) = Some (a, b).
Proof.
  induction a as [|x a IH]; intros Hc; cbn.
  - by rewrite decide_True.
  - apply not_elem_of_cons in Hc as [Hx Hc]. rewrite decide_False by done. by rewrite IH.
Qed.
Lemma of_list_app a b : of_list (a ++ b) = (of_list a ++ of_list b)%string.
Proof.
  induction a as [|c a IH]; [done|].
  change (String.String c (of_list (a ++ b)) = String.String c (of_list a ++ of_list b)%string). by rewrite IH.
Qed.

(** ** Printing and parsing an unsigned integer *)

Definition is_digit (c : ascii) : Prop := 48 <= ord c <= 57.
Lemma dec_fuel_digits f z : 0 <= z -> Forall is_digit (dec_fuel f z).
Proof.
  revert z; induction f as [|f IH]; intros z Hz; cbn; [done|]. apply Forall_app. split.
  - destruct (z <? 10); [done|]. apply IH. by apply Z.div_pos.
  - constructor; [|done]. unfold is_digit. pose proof (Z.mod_pos_bound z 10). rewrite ord_chr; lia.
Qed.
Lemma dec_fuel_nonempty f z : dec_fuel (S f) z ≠ [].
Proof. cbn. destruct (z <? 10); [done|]. by destruct (dec_fuel f (z / 10)). Qed.
Lemma dec_go_app w acc l c : dec_go w acc (l ++ [c]) =
  match dec_go w acc l with Some a => dec_go w a [c] | None => None end.
Proof.
  revert acc; induction l as [|x l IH]; intros acc; [done|]. cbn [app dec_go].
  destruct (_ && _); [|done]. destruct (_ <? _); [|done]. apply IH.
Qed.
Lemma dec_go_dec_fuel w f z :
  0 <= z -> z < 2 ^ w -> z < 10 ^ Z.of_nat f -> dec_go w 0 (dec_fuel f z) = Some z.
Proof.
  revert z; induction f as [|f IH]; intros z Hz Hw Hf.
  { change (10 ^ Z.of_nat 0) with 1 in Hf. assert (z = 0) as -> by lia. done. }
  cbn [dec_fuel]. pose proof (Z.div_mod z 10). pose proof (Z.mod_pos_bound z 10).
  assert (0 <= z / 10) by (by apply Z.div_pos).
  assert (dec_go w 0 (if z <? 10 then [] else dec_fuel f (z / 10)) = Some (z / 10)) as Hd.
  { destruct (Z.ltb_spec z 10).
    - cbn. by rewrite Z.div_small.
    - apply IH; [done|lia|]. rewrite Nat2Z.inj_succ, Z.pow_succ_r in Hf by lia.
      apply Z.div_lt_upper_bound; lia. }
  rewrite dec_go_app, Hd. cbn [dec_go]. rewrite ord_chr by lia.
  assert (((48 <=? 48 + z mod 10) && (48 + z mod 10 <=? 57)) = true) as ->.
  { apply andb_true_iff; split; apply Z.leb_le; lia. }
  replace (z / 10 * 10 + (48 + z mod 10 - 48)) with z by lia.
  by rewrite (proj2 (Z.ltb_lt z (2 ^ w)) Hw).
Qed.
Lemma parse_uint_dec z : is_u64 z -> parse_uint 64 (dec z) = Some z.
Proof.
  intros [H1 H2]. unfold parse_uint, dec. rewrite to_of_list.
  assert (strip_plus (dec_fuel 40 z) = Some (dec_fuel 40 z)) as ->.
  { pose proof (dec_fuel_digits 40 z H1) as Hd. destruct (dec_fuel 40 z) as [|c l] eqn:E.
    - by apply dec_fuel_nonempty in E.
    - cbn. apply Forall_inv in Hd. unfold is_digit in Hd. destruct (Z.eqb_spec (ord c) 43); [lia|done]. }
  apply dec_go_dec_fuel; [done|done|]. assert (2 ^ 64 < 10 ^ Z.of_nat 40) by (vm_compute; done). lia.
Qed.
Lemma dec_no_char c z : 0 <= z -> ~ is_digit c -> c ∉ to_list (dec z).
Proof.
  intros Hz Hc Hin. unfold dec in Hin. rewrite to_of_list in Hin.
  pose proof (dec_fuel_digits 40 z Hz) as Hd. rewrite Forall_forall in Hd. by apply Hc, Hd.
Qed.
