(* ===== verification/NetText.v ===== *)
(** The text of IP and socket addresses, as [parse::<IpAddr>()] and
    [parse::<SocketAddr>()] of the standard library read it. A reader takes
    the characters left and returns the value with the characters after it; a
    reader that fails consumes nothing. *)
From S2P Require Export Text.
From Stdlib Require Import Strings.Ascii.

Definition Reader (A : Type) : Type := list ascii -> option (A * list ascii).
Definition read_given_char (c : ascii) : Reader unit := fun l =>
  match l with
  | d :: r => if decide (d = c) then Some (tt, r) else None
  | [] => None
  end.
Definition to_digit (radix : Z) (c : ascii) : option Z :=
  d ← to_digit16 c; if d <? radix then Some d else None.
(** Digits as long as there are any, [None] when they exceed the budget. *)
Fixpoint read_digits (radix : Z) (budget : nat) (acc : Z) (l : list ascii) {struct l} : option (Z * list ascii) :=
  match l with
  | [] => Some (acc, [])
  | c :: r =>
      match to_digit radix c with
      | Some d => match budget with O => None | S b => read_digits radix b (acc * radix + d) r end
      | None => Some (acc, l)
      end
  end.
(** [read_number] of a [w]-bit integer; without a digit limit the budget is
    the text's length. *)
Definition read_number (radix : Z) (max_digits : option nat) (allow_zero_prefix : bool) (w : Z) : Reader Z := fun l =>
  match read_digits radix (default (length l) max_digits) 0 l with
  | Some (n, r) =>
      let digit_count := (length l - length r)%nat in
      let has_leading_zero := bool_decide (head l = Some (chr 48)) in
      if (digit_count =? 0)%nat then None
      else if negb allow_zero_prefix && has_leading_zero && (1 <? digit_count)%nat then None
      else if n <? 2 ^ w then Some (n, r) else None
  | None => None
  end.
Definition read_separator {A} (sep : ascii) (index : nat) (inner : Reader A) : Reader A := fun l =>
  match index with
  | O => inner l
  | S _ => '(_, r) ← read_given_char sep l; inner r
  end.

Definition dot : ascii := chr 46.
Definition colon : ascii := chr 58.
Definition read_octet (i : nat) : Reader Z := read_separator dot i (read_number 10 (Some 3%nat) false 8).
Definition read_ipv4 : Reader (list Z) := fun l =>
  '(a, l) ← read_octet 0 l; '(b, l) ← read_octet 1 l;
  '(c, l) ← read_octet 2 l; '(d, l) ← read_octet 3 l;
  Some ([a; b; c; d], l).
Definition read_group (i : nat) : Reader Z := read_separator colon i (read_number 16 (Some 4%nat) true 16).
Definition embedded (v4 : list Z) : list Z :=
  match v4 with [a; b; c; d] => [256 * a + b; 256 * c + d] | _ => [] end.
(** At most [todo] groups from the [i]-th on, and whether the last two were
    written as an IPv4 address. *)
Fixpoint read_groups (todo i : nat) (l : list ascii) : list Z * bool * list ascii :=
  match todo with
  | O => ([], false, l)
  | S todo =>
      match (if (0 <? todo)%nat then read_separator colon i read_ipv4 l else None) with
      | Some (v4, r) => (embedded v4, true, r)
      | None =>
          match read_group i l with
          | Some (g, r) => let '(gs, v4, r) := read_groups todo (S i) r in (g :: gs, v4, r)
          | None => ([], false, l)
          end
      end
  end.
Definition read_ipv6 : Reader (list Z) := fun l =>
  let '(front, head_ipv4, r) := read_groups 8 0 l in
  if (length front =? 8)%nat then Some (front, r)
  else if head_ipv4 then None
  else
    '(_, r) ← read_given_char colon r;
    '(_, r) ← read_given_char colon r;
    let '(back, _, r) := read_groups (8 - (length front + 1)) 0 r in
    Some (front ++ replicate (8 - length front - length back) 0 ++ back, r).

Inductive IpAddr := V4 (octets : list Z) | V6 (groups : list Z).
(** [parse::<IpAddr>()]: the whole text must be read. *)
Definition whole {A} (r : option (A * list ascii)) : option A :=
  match r with Some (a, []) => Some a | _ => None end.
Definition parse_ip (s : string) : option IpAddr :=
  let l := to_list s in
  match read_ipv4 l with
  | Some (v4, r) => whole (Some (V4 v4, r))
  | None => whole ('(v6, r) ← read_ipv6 l; Some (V6 v6, r))
  end.

(** [parse::<SocketAddr>()]: [ip:port], or a bracketed IPv6 with an optional
    scope identifier. *)
Definition read_port : Reader Z := fun l =>
  '(_, r) ← read_given_char colon l; read_number 10 None true 16 r.
Definition read_scope_id : Reader Z := fun l =>
  '(_, r) ← read_given_char (chr 37) l; read_number 10 None true 32 r.
Definition read_socket_v6 : Reader (list Z * Z) := fun l =>
  '(_, l) ← read_given_char (chr 91) l;
  '(ip, l) ← read_ipv6 l;
  let l := match read_scope_id l with Some (_, r) => r | None => l end in
  '(_, l) ← read_given_char (chr 93) l;
  '(port, l) ← read_port l;
  Some (ip, port, l).
Definition parse_socket_addr (s : string) : option (IpAddr * Z) :=
  let l := to_list s in
  match ('(ip, r) ← read_ipv4 l; '(port, r) ← read_port r; Some (V4 ip, port, r)) with
  | Some (a, r) => whole (Some (a, r))
  | None => whole ('(ip, port, r) ← read_socket_v6 l; Some (V6 ip, port, r))
  end.

Example parse_ip_v4 :
  parse_ip "192.168.1.5" = Some (V4 [192; 168; 1; 5]) /\ parse_ip "192.168.01.5" = None
  /\ parse_ip "256.1.1.1" = None /\ parse_ip "1.2.3" = None /\ parse_ip "1.2.3.4.5" = None.
Proof. vm_compute. done. Qed.
Example parse_ip_v6 :
  parse_ip "::1" = Some (V6 [0; 0; 0; 0; 0; 0; 0; 1])
  /\ parse_ip "fe80::1:2" = Some (V6 [0xfe80; 0; 0; 0; 0; 0; 1; 2])
  /\ parse_ip "::ffff:1.2.3.4" = Some (V6 [0; 0; 0; 0; 0; 0xffff; 0x102; 0x304])
  /\ parse_ip "1:2:3:4:5:6:7::" = Some (V6 [1; 2; 3; 4; 5; 6; 7; 0])
  /\ parse_ip "1.2.3.4::" = None /\ parse_ip "1:2" = None /\ parse_ip "12345::" = None.
Proof. vm_compute. done. Qed.
Example parse_socket_ex :
  parse_socket_addr "0.0.0.0:9090" = Some (V4 [0; 0; 0; 0], 9090)
  /\ parse_socket_addr "[::]:80" = Some (V6 [0; 0; 0; 0; 0; 0; 0; 0], 80)
  /\ parse_socket_addr "1.2.3.4:65536" = None /\ parse_socket_addr "localhost:80" = None.
Proof. vm_compute. done. Qed.

(** ** What a reader consumes *)

Section consumed.
Definition consumes (P : ascii -> Prop) {A} (r : Reader A) : Prop :=
  forall l a rest, r l = Some (a, rest) -> exists p, l = p ++ rest /\ Forall P p.

Lemma consumes_weaken (P Q : ascii -> Prop) {A} (r : Reader A) :
  (forall c, P c -> Q c) -> consumes P r -> consumes Q r.
Proof. intros HPQ Hr l a rest H. destruct (Hr _ _ _ H) as (p & -> & Hp). exists p. split; [done|]. by eapply Forall_impl. Qed.
Lemma consumes_bind (P : ascii -> Prop) {A B} (r : Reader A) (f : A -> Reader B) :
  consumes P r -> (forall a, consumes P (f a)) -> consumes P (fun l => '(a, l) ← r l; f a l).
Proof.
  intros Hr Hf l b rest H. destruct (r l) as [[a l']|] eqn:E; [|done]. cbn in H.
  destruct (Hr _ _ _ E) as (p & -> & Hp). destruct (Hf _ _ _ _ H) as (q & -> & Hq).
  exists (p ++ q). by rewrite <- app_assoc, Forall_app.
Qed.
Lemma consumes_ret (P : ascii -> Prop) {A} (a : A) : consumes P (fun l => Some (a, l)).
Proof. intros l b rest H. cbv beta in H. assert (l = rest) as -> by congruence. by exists []. Qed.
Lemma read_given_char_head c l x : read_given_char c l = Some x -> head l = Some c.
Proof.
  destruct l as [|d l]; [done|]. unfold read_given_char. destruct (decide (d = c)) as [->|]; [|done]. done.
Qed.
Lemma consumes_char (P : ascii -> Prop) c : P c -> consumes P (read_given_char c).
Proof.
  intros Hc [|d l] a rest H; [done|]. cbn in H. destruct (decide (d = c)) as [->|]; [|done].
  assert (l = rest) as -> by congruence. exists [c]. by repeat constructor.
Qed.
Lemma consumes_separator (P : ascii -> Prop) {A} sep i (r : Reader A) :
  P sep -> consumes P r -> consumes P (read_separator sep i r).
Proof.
  intros Hs Hr. destruct i; [exact Hr|].
  apply (consumes_bind P _ (fun _ => r)); [by apply consumes_char|done].
Qed.

Definition digit_of (radix : Z) (c : ascii) : Prop := is_Some (to_digit radix c).
Lemma consumes_digits radix budget acc : consumes (digit_of radix) (read_digits radix budget acc).
Proof.
  intros l. revert budget acc. induction l as [|c l IH]; intros budget acc a rest H; cbn in H.
  { assert (rest = []) as -> by congruence. by exists []. }
  destruct (to_digit radix c) as [d|] eqn:E; [|assert (rest = c :: l) as -> by congruence; by exists []].
  destruct budget as [|b]; [done|]. destruct (IH _ _ _ _ H) as (p & -> & Hp).
  exists (c :: p). split; [done|]. constructor; [|done]. by exists d.
Qed.
Lemma consumes_number radix md z w : consumes (digit_of radix) (read_number radix md z w).
Proof.
  intros l a rest H. unfold read_number in H.
  destruct (read_digits _ _ _ _) as [[n r]|] eqn:E; [|done]. repeat case_match; try done.
  assert (r = rest) as -> by congruence. by eapply consumes_digits.
Qed.
Lemma consumes_ipv4 : consumes (fun c => digit_of 10 c \/ c = dot) read_ipv4.
Proof.
  assert (Ho : forall i, consumes (fun c => digit_of 10 c \/ c = dot) (read_octet i)).
  { intros i. apply consumes_separator; [by right|]. eapply consumes_weaken; [|apply consumes_number]. by left. }
  unfold read_ipv4. do 4 (apply consumes_bind; [apply Ho|intros ?]). apply consumes_ret.
Qed.
End consumed.

(** An IPv6 address has a colon in its text. *)
Lemma read_groups_later todo i l g gs b r :
  read_groups todo (S i) l = (g :: gs, b, r) -> head l = Some colon.
Proof.
  assert (Hsep : forall A (rd : Reader A) x, read_separator colon (S i) rd l = Some x -> head l = Some colon).
  { intros A rd x H. unfold read_separator in H.
    destruct (read_given_char colon l) as [y|] eqn:E; [|done]. by eapply read_given_char_head. }
  destruct todo as [|todo]; [done|]. cbn [read_groups]. intros H.
  destruct (if (0 <? todo)%nat then _ else _) as [[v4 r']|] eqn:E1.
  - destruct (0 <? todo)%nat; [|done]. by eapply Hsep.
  - destruct (read_group (S i) l) as [x|] eqn:E2; [|done]. by eapply (Hsep _ _ x).
Qed.
Lemma read_groups_S todo i l :
  read_groups (S todo) i l =
  match (if (0 <? todo)%nat then read_separator colon i read_ipv4 l else None) with
  | Some (v4, r) => (embedded v4, true, r)
  | None =>
      match read_group i l with
      | Some (g, r) => let '(gs, v4, r) := read_groups todo (S i) r in (g :: gs, v4, r)
      | None => ([], false, l)
      end
  end.
Proof. done. Qed.
Lemma read_ipv6_colon l v r : read_ipv6 l = Some (v, r) -> colon ∈ l.
Proof.
  unfold read_ipv6. rewrite (read_groups_S 7 0). cbn [Nat.ltb Nat.leb].
  destruct (read_separator colon 0 read_ipv4 l) as [[v4 r4]|].
  { destruct v4 as [|a [|b [|c [|d [|? ?]]]]]; done. }
  destruct (read_group 0 l) as [[g r1]|] eqn:Eg.
  - assert (Hin : forall c, c ∈ r1 -> c ∈ l).
    { intros c Hc. destruct (consumes_separator (fun _ => True) colon 0 _ I (consumes_weaken _ _ _ (fun _ _ => I)
        (consumes_number 16 (Some 4%nat) true 16)) _ _ _ Eg) as (p & -> & _). set_solver. }
    destruct (read_groups 7 1 r1) as [[gs b] r2] eqn:E. destruct gs as [|g' gs].
    + cbn [length Nat.eqb]. assert (r2 = r1 /\ b = false \/ b = true) as [[-> ->] | -> ]; [ | |done].
      * rewrite (read_groups_S 6 1) in E. cbn [Nat.ltb Nat.leb] in E.
        destruct (read_separator colon 1 read_ipv4 r1) as [[v4 r4]|]; [right; congruence|].
        destruct (read_group 1 r1) as [[g2 r3]|]; [|left; split; congruence].
        by destruct (read_groups 6 2 r3) as [[? ?] ?].
      * intros H. destruct (read_given_char colon r1) eqn:E1; [|done].
        by eapply Hin, head_Some_elem_of, read_given_char_head.
    + intros _. by eapply Hin, head_Some_elem_of, read_groups_later.
  - cbn [length Nat.eqb]. intros H. destruct (read_given_char colon l) eqn:E1; [|done].
    by eapply head_Some_elem_of, read_given_char_head.
Qed.

(** Text without a colon is an address only if it is digits and dots. *)
Lemma parse_ip_no_colon s a :
  parse_ip s = Some a -> colon ∉ to_list s -> Forall (fun c => digit_of 10 c \/ c = dot) (to_list s).
Proof.
  unfold parse_ip. intros H Hc. destruct (read_ipv4 (to_list s)) as [[v4 r]|] eqn:E.
  - destruct r; [|done]. destruct (consumes_ipv4 _ _ _ E) as (p & -> & Hp). by rewrite app_nil_r.
  - destruct (read_ipv6 (to_list s)) as [[v6 r]|] eqn:E6; [|done]. by apply read_ipv6_colon in E6.
Qed.
