(* ===== verification/Externals.v ===== *)
(** The third-party crates the program calls, as interfaces: a class of
    operations per crate, and a class of the laws the program relies on, each
    of them documented behaviour of the crate.  Every definition that uses a
    crate takes its class as an argument; the file [Reference] instantiates
    them with concrete functions. *)
From S2P Require Export Text.

(** ** crate [hex]: lower-case base16 *)
Class HexLib := {
  hex_encode : list byte -> string;
  hex_decode : string -> option (list byte);
}.
Class HexLaws `{HexLib} : Prop := {
  hex_decode_encode b : hex_decode (hex_encode b) = Some b;
  hex_encode_digits b : forallb is_ascii_hexdigit (to_list (hex_encode b)) = true;
  hex_decode_length s b : hex_decode s = Some b -> String.length s = (2 * length b)%nat;
}.

(** ** crate [sha2] *)
Class Sha256Lib := sha256_digest : list byte -> list byte.
Class Sha256Laws `{Sha256Lib} : Prop :=
  sha256_length d : length (sha256_digest d) = 32%nat.

(** ** crate [bitcoin]: transactions, their wire format, addresses *)
Record TxIn := {
  previous_txid : list byte;   (** internal byte order *)
  previous_vout : Z;
  script_sig : list byte;
  sequence : Z;
  witness : list (list byte);
}.
Record TxOut := { value : Z; script_pubkey : list byte }.
Record Transaction := {
  tx_version : Z;
  lock_time : Z;
  input : list TxIn;
  output : list TxOut;
}.

Inductive Network := Bitcoin | Testnet | Testnet4 | Signet | Regtest.
#[global] Instance Network_eq_dec : EqDecision Network.
Proof. solve_decision. Defined.

Class BitcoinLib := {
  (** [consensus::encode::serialize] *)
  serialize_tx : Transaction -> list byte;
  (** [Address::from_str(s)] followed by [assume_checked().script_pubkey()];
      [None] when [s] is not an address. *)
  address_script_pubkey : string -> option (list byte);
  (** [Address::from_str(s)] and [require_network(net)]. *)
  address_is_valid_for : string -> Network -> bool;
}.

(** The Bitcoin wire format of a transaction none of whose inputs carries a
    witness (the format before segregated witness), as the protocol documents
    it. *)
Definition compact_size (n : Z) : list byte :=
  if n <? 0xfd then [z2b n]
  else if n <=? 0xffff then xfd :: le_bytes 2 n
  else if n <=? 0xffffffff then xfe :: le_bytes 4 n
  else xff :: le_bytes 8 n.
Definition var_bytes (l : list byte) : list byte :=
  compact_size (Z.of_nat (length l)) ++ l.
Definition wire_input (i : TxIn) : list byte :=
  previous_txid i ++ le_bytes 4 (previous_vout i) ++ var_bytes (script_sig i)
    ++ le_bytes 4 (sequence i).
Definition wire_output (o : TxOut) : list byte :=
  le_bytes 8 (value o) ++ var_bytes (script_pubkey o).
Definition wire_tx (t : Transaction) : list byte :=
  le_bytes 4 (tx_version t)
    ++ compact_size (Z.of_nat (length (input t))) ++ concat (map wire_input (input t))
    ++ compact_size (Z.of_nat (length (output t))) ++ concat (map wire_output (output t))
    ++ le_bytes 4 (lock_time t).

Class BitcoinLaws `{BitcoinLib} : Prop := {
  serialize_tx_wire t :
    input t ≠ [] -> Forall (fun i => witness i = []) (input t) ->
    serialize_tx t = wire_tx t;
  address_valid_parses s n :
    address_is_valid_for s n = true -> is_Some (address_script_pubkey s);
}.

(** ** crate [serde_json]: the [Value] type and its accessors

    [JMap] is the crate's [Map<String, Value>]. A number is read back as an
    [f64], of which the program only needs the [F64] the client chooses. *)
Class JsonLib (F64 : Type) := {
  Value : Type;
  JMap : Type;
  json_null : Value;
  json_bool : bool -> Value;
  json_u64 : Z -> Value;
  json_f64 : F64 -> Value;
  json_str : string -> Value;
  json_array : list Value -> Value;
  json_object : JMap -> Value;
  jmap_empty : JMap;
  jmap_insert : string -> Value -> JMap -> JMap;
  jmap_get : JMap -> string -> option Value;
  is_null : Value -> bool;
  as_array : Value -> option (list Value);
  as_object : Value -> option JMap;
  as_str : Value -> option string;
  as_u64 : Value -> option Z;
  as_f64 : Value -> option F64;
  to_string : Value -> string;
}.
Class JsonLaws {F64} `{JsonLib F64} : Prop := {
  as_array_array l : as_array (json_array l) = Some l;
  as_array_str s : as_array (json_str s) = None;
  as_str_str s : as_str (json_str s) = Some s;
  as_str_u64 z : as_str (json_u64 z) = None;
  as_str_null : as_str json_null = None;
  as_object_object m : as_object (json_object m) = Some m;
  as_u64_u64 z : is_u64 z -> as_u64 (json_u64 z) = Some z;
  as_u64_range v z : as_u64 v = Some z -> is_u64 z;
  as_f64_f64 x : as_f64 (json_f64 x) = Some x;
  is_null_null : is_null json_null = true;
  is_null_str s : is_null (json_str s) = false;
  jmap_get_empty k : jmap_get jmap_empty k = None;
  jmap_get_insert k k' v m :
    jmap_get (jmap_insert k v m) k' = if decide (k = k') then Some v else jmap_get m k';
}.

Lemma length_compact_size_pos n : (0 < length (compact_size n))%nat.
Proof. unfold compact_size. repeat break_goal; cbn; lia. Qed.
