(* ===== verification/Error.v ===== *)
(** [src/error.rs]: the error type, the Stratum error codes and the two
    classifications of an error (metric label, JSON error value). *)
From S2P Require Export Externals.

(** What [bitcoincore_rpc::Error] distinguishes for the program: the node
    answered with a JSON-RPC error object, or anything else went wrong. *)
Inductive RpcError := JsonRpcRpc (msg : string) | RpcOther (msg : string).

Inductive PoolError :=
| Parse (msg : string)
| UnknownMethod (method : string)
| NotSubscribed
| NotAuthorized
| InvalidParams (method detail : string)
| StaleJob (job_id : string)
| DuplicateShare
| LowDifficulty
| InvalidHeader
| BadExtranonceSize (got expected : Z)
| Rpc (e : RpcError)
| TemplateUnavailable
| SubmitBlockRejected (reason : string)
| Banned (reason : string)
| RateLimited
| MessageTooLarge (bytes : Z)
| Io (msg : string)
| ConnectionClosed
| Other (msg : string).

#[global] Instance PoolError_eq_dec : EqDecision PoolError.
Proof. unfold EqDecision, Decision. intros x y. repeat (decide equality). Defined.

Definition rpc_error_display (e : RpcError) : string :=
  match e with JsonRpcRpc m | RpcOther m => m end.

(** The [Display] implementation [thiserror] derives from the [#[error]]
    attributes. *)
Definition display (e : PoolError) : string :=
  match e with
  | Parse m => "Stratum parse error: " ++ m
  | UnknownMethod m => "Unknown Stratum method: " ++ m
  | NotSubscribed => "Miner not subscribed"
  | NotAuthorized => "Miner not authorized"
  | InvalidParams m d => "Invalid params for " ++ m ++ ": " ++ d
  | StaleJob j => "Stale job id: " ++ j
  | DuplicateShare => "Duplicate share"
  | LowDifficulty => "Low difficulty share"
  | InvalidHeader => "Invalid block header"
  | BadExtranonceSize g x =>
      "Wrong extranonce2 size: got " ++ dec g ++ " bytes, expected " ++ dec x
  | Rpc e => "RPC error: " ++ rpc_error_display e
  | TemplateUnavailable => "Template unavailable — node not ready"
  | SubmitBlockRejected r => "submitblock rejected: " ++ r
  | Banned r => "Connection banned: " ++ r
  | RateLimited => "Rate limit exceeded"
  | MessageTooLarge b => "Message too large (" ++ dec b ++ " bytes)"
  | Io m => "I/O error: " ++ m
  | ConnectionClosed => "Connection closed"
  | Other m => m
  end%string.

Inductive StratumErrCode :=
| Unknown | JobNotFound | DuplicateShareCode | LowDifficultyShare | Unauthorized
| NotSubscribedCode.

(** [code as u32] *)
Definition code_u32 (c : StratumErrCode) : Z :=
  match c with
  | Unknown => 20
  | JobNotFound => 21
  | DuplicateShareCode => 22
  | LowDifficultyShare => 23
  | Unauthorized => 24
  | NotSubscribedCode => 25
  end.

Definition message (c : StratumErrCode) : string :=
  match c with
  | Unknown => "Unknown problem"
  | JobNotFound => "Job not found"
  | DuplicateShareCode => "Duplicate share"
  | LowDifficultyShare => "Low difficulty share"
  | Unauthorized => "Unauthorized worker"
  | NotSubscribedCode => "Not subscribed"
  end.

Definition submit_failure_label (e : PoolError) : string :=
  match e with
  | Rpc _ => "rpc_error"
  | SubmitBlockRejected _ => "rejected"
  | TemplateUnavailable => "template_unavailable"
  | Io _ => "io"
  | _ => "other"
  end.

(** The JSON value [[code, message, null]]. *)
Definition to_stratum_error {F64} `{JsonLib F64} (e : PoolError) : Value :=
  let code_and_message c := json_array [json_u64 (code_u32 c); json_str (message c); json_null] in
  match e with
  | StaleJob _ => code_and_message JobNotFound
  | DuplicateShare => code_and_message DuplicateShareCode
  | LowDifficulty => code_and_message LowDifficultyShare
  | NotAuthorized => code_and_message Unauthorized
  | NotSubscribed => code_and_message NotSubscribedCode
  | BadExtranonceSize _ _ =>
      json_array [json_u64 (code_u32 Unknown); json_str (display e); json_null]
  | _ => code_and_message Unknown
  end.
