(* ===== verification/Template.v ===== *)
(** [src/bitcoin/template.rs]: from a [getblocktemplate] result to a Stratum
    job.  Job ids, the coinbase transaction and its extranonce region, the
    merkle branch, targets and difficulties, byte orders. *)
From S2P Require Export Error.

(** ** Job ids *)

(** [JOB_COUNTER] and the once-initialised epoch of the process. *)
Record JobIds := { job_counter : Z; epoch : Z }.

(** [job_epoch]: the low 32 bits of the unix-millisecond clock, in the high
    half. *)
Definition job_epoch (millis : Z) : Z := wrap 64 (Z.shiftl (Z.land millis 0xFFFFFFFF) 32).

Definition init_job_ids (millis : Z) : JobIds := {| job_counter := 1; epoch := job_epoch millis |}.

Definition next_job_id (s : JobIds) : string * JobIds :=
  let seq := Z.land (job_counter s) 0xFFFFFFFF in
  (hex_fixed 16 (Z.lor (epoch s) seq),
   {| job_counter := wrap 64 (job_counter s + 1); epoch := epoch s |}).

(** ** The template as the RPC module returns it *)

Record GbtTransaction := {
  gtx_data : list byte;
  gtx_txid : string;
  gtx_hash : string;
  gtx_fee : Z;
  gtx_weight : Z;
}.

Record GbtResult := {
  gbt_version : Z;
  gbt_prev_hash : string;
  gbt_bits : string;
  gbt_cur_time : Z;
  gbt_min_time : Z;
  gbt_height : Z;
  gbt_coinbase_value : Z;
  gbt_transactions : list GbtTransaction;
  gbt_longpoll_id : option string;
  gbt_default_witness_commitment : option string;
  gbt_rules : list string;
}.

Record StratumJob := {
  job_id : string;
  prev_hash : string;
  coinbase1 : list byte;
  coinbase2 : list byte;
  merkle_branch : list string;
  merkle_branch_raw : list (list byte);
  version : Z;
  bits : string;
  cur_time : Z;
  min_time : Z;
  height : Z;
  network_target : list byte;
  coinbase_template : list byte;
  extranonce_offset : nat;
  extranonce1_len : nat;
  extranonce2_len : nat;
  transactions : list (list byte);
  coinbase_value : Z;
}.

(** [StratumJob::assemble_coinbase]. The two slice copies panic when the
    reserved region does not lie inside the template. *)
Definition assemble_coinbase (job : StratumJob) (extranonce1 extranonce2 : list byte)
    : outcome PoolError (list byte) :=
  let cb := coinbase_template job in
  let off := extranonce_offset job in
  let total := (extranonce1_len job + extranonce2_len job)%nat in
  let p := length extranonce1 in
  let m := length extranonce2 in
  if decide ((p + m)%nat ≠ total) then Ok cb
  else
    cb ← or_panic (splice cb off extranonce1);
    or_panic (splice cb (off + p) extranonce2).

Definition double_sha256 `{Sha256Lib} (data : list byte) : list byte :=
  sha256_digest (sha256_digest data).

(** The loop of [StratumJob::merkle_root] over the branch. *)
Definition merkle_fold `{Sha256Lib} (leaf : list byte) (branch : list (list byte)) : list byte :=
  fold_left (fun hash sibling => double_sha256 (hash ++ sibling)) branch leaf.

Definition merkle_root `{Sha256Lib} (job : StratumJob) (coinbase : list byte) : list byte :=
  merkle_fold (double_sha256 coinbase) (merkle_branch_raw job).

(** ** Coinbase construction *)

Definition SENTINEL : list byte := [xde; xad; xbe; xef].

(** [find_bytes]: position of the first window equal to [needle]. *)
Fixpoint find_bytes (haystack needle : list byte) : option nat :=
  if decide (take (length needle) haystack = needle) then Some O
  else match haystack with
       | [] => None
       | _ :: h => S <$> find_bytes h needle
       end.

Fixpoint height_le_bytes (fuel : nat) (n : Z) : list byte :=
  match fuel with
  | O => []
  | S fuel => if 0 <? n then z2b (Z.land n 0xff) :: height_le_bytes fuel (Z.shiftr n 8) else []
  end.

(** [encode_bip34_height]. A [u64] has at most eight bytes, so the loop ends
    within eight rounds. *)
Definition encode_bip34_height (height : Z) : list byte :=
  if height =? 0 then [x00]
  else if height <=? 16 then [z2b (0x50 + height)]
  else
    let bytes := height_le_bytes 8 height in
    let bytes :=
      match last bytes with
      | Some b => if negb (Z.land (b2z b) 0x80 =? 0) then bytes ++ [x00] else bytes
      | None => bytes
      end in
    z2b (Z.of_nat (length bytes)) :: bytes.

Definition address_to_script `{BitcoinLib} (address : string) : outcome PoolError (list byte) :=
  ok_or (Other ("Invalid coinbase address: " ++ address)%string) (address_script_pubkey address).

(** [OutPoint::null()]. *)
Definition null_txid : list byte := replicate 32 x00.
Definition null_vout : Z := 0xffffffff.

(** The scriptSig [build_coinbase] lays out before serialising. *)
Definition coinbase_script_sig (height : Z) (tag : string) (en_total : nat) : list byte :=
  encode_bip34_height height ++ str_bytes tag ++ SENTINEL ++ replicate (en_total - 4) x00.

Definition zero_range (l : list byte) (off n : nat) : list byte :=
  take off l ++ replicate n x00 ++ drop (off + n) l.

Definition coinbase_tx (height reward : Z) (tag : string) (en_total : nat)
    (reward_script : list byte) (commitment : option (list byte)) : Transaction :=
  {| tx_version := 1;
     lock_time := 0;
     input := [{| previous_txid := null_txid; previous_vout := null_vout;
                  script_sig := coinbase_script_sig height tag en_total;
                  sequence := 0xffffffff; witness := [] |}];
     output := {| value := reward; script_pubkey := reward_script |} ::
               match commitment with
               | Some wc => [{| value := 0; script_pubkey := wc |}]
               | None => []
               end |}.

Definition build_coinbase `{HexLib} `{BitcoinLib} (height reward : Z) (address tag : string)
    (extranonce1_len extranonce2_len : nat) (witness_commitment : option string)
    : outcome PoolError (list byte * nat) :=
  let en_total := (extranonce1_len + extranonce2_len)%nat in
  reward_script ← address_to_script address;
  commitment ← match witness_commitment with
               | Some wc_hex =>
                   Some <$> ok_or (Other "witness commitment hex") (hex_decode wc_hex)
               | None => Ok None
               end;
  let serialized :=
    serialize_tx (coinbase_tx height reward tag en_total reward_script commitment) in
  offset ← ok_or (Other "Extranonce sentinel not found in coinbase")
                 (find_bytes serialized SENTINEL);
  let n := Nat.min en_total (length serialized - offset) in
  Ok (zero_range serialized offset n, offset).

(** ** Merkle branch *)

(** One level of the loop of [compute_merkle_branch_raw]; [None] in a level is
    the unknown hash above the coinbase. *)
Definition pad_level {A} (level : list A) : list A :=
  if Nat.odd (length level) then
    match last level with Some x => level ++ [x] | None => level end
  else level.

Definition hash_pair `{Sha256Lib} (pair : list (option (list byte))) : option (list byte) :=
  match pair with
  | [Some l; Some r] => Some (double_sha256 (l ++ r))
  | _ => None
  end.

Definition sibling_of (path_index : nat) : nat :=
  if Nat.even path_index then (path_index + 1)%nat else (path_index - 1)%nat.

(** The [while level.len() > 1] loop. [None] is running out of fuel or an
    out-of-range index; [merkle_branch_total] shows neither happens. *)
Fixpoint merkle_branch_loop `{Sha256Lib} (fuel : nat) (level : list (option (list byte)))
    (path_index : nat) (branch : list (list byte)) : option (list (list byte)) :=
  if decide (length level <= 1)%nat then Some branch
  else match fuel with
       | O => None
       | S fuel =>
           let level := pad_level level in
           match level !! sibling_of path_index with
           | None => None
           | Some sibling =>
               let branch := match sibling with Some s => branch ++ [s] | None => branch end in
               merkle_branch_loop fuel (map hash_pair (chunks 2 level)) (path_index / 2) branch
           end
       end.

Definition compute_merkle_branch_raw `{Sha256Lib} (txids : list (list byte))
    : option (list (list byte)) :=
  match txids with
  | [] => Some []
  | _ => merkle_branch_loop (length txids + 1) (None :: map Some txids) 0 []
  end.

(** ** Targets and difficulties *)

(** [0x00ffff * 2^208], big-endian. *)
Definition DIFF1_TARGET : list byte :=
  [x00; x00; x00; x00; xff; xff] ++ replicate 26 x00.

Fixpoint div_be_u256_by_u64_go (value : list byte) (rem divisor : Z) : list byte :=
  match value with
  | [] => []
  | b :: value =>
      let accum := wrap 128 (Z.lor (Z.shiftl rem 8) (b2z b)) in
      z2b (accum / divisor) :: div_be_u256_by_u64_go value (accum mod divisor) divisor
  end.
Definition div_be_u256_by_u64 (value : list byte) (divisor : Z) : list byte :=
  div_be_u256_by_u64_go value 0 divisor.

Definition difficulty_to_target (difficulty : Z) : list byte :=
  if difficulty <=? 1 then DIFF1_TARGET else div_be_u256_by_u64 DIFF1_TARGET difficulty.

(** [hash_be.iter().position(|&b| b != 0)]. *)
Fixpoint first_nonzero (l : list byte) : option nat :=
  match l with
  | [] => None
  | b :: l => if b2z b =? 0 then S <$> first_nonzero l else Some O
  end.

Definition DIFF1_NZ : Z := 4.
Definition DIFF1_SIG : Z := 0xFFFF000000000000.

(** The loop gathering up to eight significant bytes. *)
Definition gather_sig (l : list byte) : Z :=
  fold_left (fun sig b => wrap 64 (Z.lor (Z.shiftl sig 8) (b2z b))) l 0.

Definition hash_to_difficulty (hash_le : list byte) : Z :=
  let hash_be := rev hash_le in
  let nz := match first_nonzero hash_be with Some i => i | None => 31%nat end in
  let tk := Nat.min 8 (32 - nz) in
  let hash_sig := gather_sig (take tk (drop nz hash_be)) in
  let hash_sig := wrap 64 (Z.shiftl hash_sig (Z.of_nat (8 - tk) * 8)) in
  if hash_sig =? 0 then umax 64
  else
    let ratio := DIFF1_SIG / hash_sig in
    let exp := (Z.of_nat nz - DIFF1_NZ) * 8 in
    if 64 <=? exp then umax 64
    else if 0 <=? exp then
      if Z.shiftr (umax 64) exp <? ratio then umax 64 else Z.shiftl ratio exp
    else if 64 <=? - exp then 0
    else Z.shiftr ratio (- exp).

Definition compact_to_target (bits : Z) : outcome PoolError (list byte) :=
  let exponent := Z.land (Z.shiftr bits 24) 0xff in
  let mantissa := Z.land bits 0x007fffff in
  if mantissa =? 0 then Ok (replicate 32 x00)
  else if exponent <=? 3 then
    let v := Z.shiftr mantissa (8 * (3 - exponent)) in
    or_panic (splice (replicate 32 x00) 28 (be_bytes 4 v))
  else
    let shift := exponent - 3 in
    if 29 <? shift then Err (Other ("bits overflow target width: " ++ hex_fixed 8 bits)%string)
    else
      let mantissa_bytes :=
        [z2b (Z.land (Z.shiftr mantissa 16) 0xff); z2b (Z.land (Z.shiftr mantissa 8) 0xff);
         z2b (Z.land mantissa 0xff)] in
      or_panic (splice (replicate 32 x00) (Z.to_nat (32 - 3 - shift)) mantissa_bytes).

Definition bits_to_target (bits_hex : string) : outcome PoolError (list byte) :=
  bits ← ok_or (Other ("Invalid bits: " ++ bits_hex)%string) (from_str_radix16 32 bits_hex);
  compact_to_target bits.

(** ** Previous-block hash *)

Definition stratum_prev_hash `{HexLib} (core_hex : string) : outcome PoolError string :=
  bytes ← ok_or (Other "Invalid prev_hash hex") (hex_decode core_hex);
  if decide (length bytes ≠ 32%nat) then Err (Other "prev_hash must be 32 bytes")
  else Ok (hex_encode (swap_words (rev bytes))).

(** ** The job builder *)

Definition parse_txid `{HexLib} (tx : GbtTransaction) : outcome PoolError (list byte) :=
  let malformed := Other ("getblocktemplate returned a malformed txid: " ++ gtx_txid tx)%string in
  b ← ok_or malformed (hex_decode (gtx_txid tx));
  if decide (length b = 32%nat) then Ok (rev b) else Err malformed.

Definition build_job `{HexLib} `{Sha256Lib} `{BitcoinLib} (ids : JobIds) (gbt : GbtResult)
    (coinbase_address coinbase_tag : string) (en1_len en2_len : nat)
    : JobIds * outcome PoolError StratumJob :=
  let '(id, ids) := next_job_id ids in
  (ids,
   '(coinbase_bytes, offset) ←
     build_coinbase (gbt_height gbt) (gbt_coinbase_value gbt) coinbase_address coinbase_tag
       en1_len en2_len (gbt_default_witness_commitment gbt);
   let en_total := (en1_len + en2_len)%nat in
   (* [coinbase_bytes[offset + en_total..]] panics past the end *)
   (if decide (offset + en_total <= length coinbase_bytes)%nat then Ok tt else Panic) ≫= fun _ =>
   tx_txids ← collect_res parse_txid (gbt_transactions gbt);
   branch ← or_panic (compute_merkle_branch_raw tx_txids);
   prev_hash_stratum ← stratum_prev_hash (gbt_prev_hash gbt);
   target ← bits_to_target (gbt_bits gbt);
   Ok {| job_id := id;
         prev_hash := prev_hash_stratum;
         coinbase1 := take offset coinbase_bytes;
         coinbase2 := drop (offset + en_total) coinbase_bytes;
         merkle_branch := map hex_encode branch;
         merkle_branch_raw := branch;
         version := gbt_version gbt;
         bits := gbt_bits gbt;
         cur_time := gbt_cur_time gbt;
         min_time := gbt_min_time gbt;
         height := gbt_height gbt;
         network_target := target;
         coinbase_template := coinbase_bytes;
         extranonce_offset := offset;
         extranonce1_len := en1_len;
         extranonce2_len := en2_len;
         transactions := map gtx_data (gbt_transactions gbt);
         coinbase_value := gbt_coinbase_value gbt |}).
