(* ===== verification/TemplateTargets.v ===== *)
(** Facts on the target and difficulty arithmetic of [Template]: compact
    bits, difficulty to target, hash to difficulty, against integer
    specifications. *)
From S2P Require Export Template.

(** Bit-level concatenation is addition. *)
Lemma lor_shiftl_add a n b : 0 <= n -> 0 <= b < 2 ^ n -> Z.lor (Z.shiftl a n) b = a * 2 ^ n + b.
Proof.
  intros Hn Hb. rewrite <- Z.shiftl_mul_pow2 by done. symmetry.
  rewrite <- Z.lxor_lor, Z.add_nocarry_lxor; [done| |].
  all: apply Z.bits_inj'; intros i Hi; rewrite Z.land_spec, Z.bits_0.
  all: destruct (Z.lt_ge_cases i n).
  all: try (rewrite Z.shiftl_spec_low by lia; done).
  all: rewrite <- (Z.mod_small b (2 ^ n)) by done.
  all: rewrite Z.mod_pow2_bits_high by lia; apply andb_false_r.
Qed.

Lemma div_be_go_spec v rem d :
  0 < d < 2 ^ 64 -> 0 <= rem < d ->
  length (div_be_u256_by_u64_go v rem d) = length v /\
  be2z (div_be_u256_by_u64_go v rem d) = (rem * 256 ^ Z.of_nat (length v) + be2z v) / d.
Proof.
  intros Hd. revert rem; induction v as [|b v IH]; intros rem Hr; cbn [div_be_u256_by_u64_go].
  - split; [done|]. cbn. rewrite Z.mul_1_r, Z.add_0_r, Z.div_small; done.
  - pose proof (b2z_range b). pose proof (be2z_range v) as Hv.
    rewrite lor_shiftl_add by lia. unfold wrap. change (2 ^ 8) with 256.
    rewrite Z.mod_small by lia.
    set (acc := rem * 256 + b2z b).
    assert (0 <= acc mod d < d) as Hm by (apply Z.mod_pos_bound; lia).
    destruct (IH _ Hm) as [IHl IHz]. rewrite be2z_cons, be2z_cons, IHl, IHz, b2z_z2b.
    cbn [length]. split; [congruence|].
    rewrite Nat2Z.inj_succ, Z.pow_succ_r by lia. set (p := 256 ^ Z.of_nat (length v)) in *.
    rewrite Z.mod_small; cycle 1.
    { split; [apply Z.div_pos; lia | apply Z.div_lt_upper_bound; lia]. }
    replace (rem * (256 * p) + (b2z b * p + be2z v)) with (acc * p + be2z v) by lia.
    rewrite (Z.div_mod acc d) at 3 by lia.
    replace ((d * (acc / d) + acc mod d) * p + be2z v)
      with ((acc / d * p) * d + (acc mod d * p + be2z v)) by lia.
    rewrite Z.div_add_l by lia. done.
Qed.

Lemma div_be_u256_by_u64_spec v d :
  0 < d < 2 ^ 64 ->
  length (div_be_u256_by_u64 v d) = length v /\ be2z (div_be_u256_by_u64 v d) = be2z v / d.
Proof. intros H. apply (div_be_go_spec v 0 d); lia. Qed.

Definition DIFF1 : Z := 0xffff * 2 ^ 208.

Lemma be2z_DIFF1_TARGET : be2z DIFF1_TARGET = DIFF1.
Proof. reflexivity. Qed.

Lemma difficulty_to_target_length d : is_u64 d -> length (difficulty_to_target d) = 32%nat.
Proof.
  intros Hd. unfold difficulty_to_target. destruct (d <=? 1) eqn:E; [done|]. b2p.
  destruct (div_be_u256_by_u64_spec DIFF1_TARGET d) as [-> _]; [unfold is_u in Hd; lia | done].
Qed.

Lemma difficulty_to_target_value d :
  is_u64 d -> be2z (difficulty_to_target d) = DIFF1 / Z.max 1 d.
Proof.
  intros Hd. unfold difficulty_to_target. destruct (d <=? 1) eqn:E; b2p.
  - rewrite Z.max_l, Z.div_1_r by lia. reflexivity.
  - rewrite Z.max_r by lia.
    destruct (div_be_u256_by_u64_spec DIFF1_TARGET d) as [_ ->]; [unfold is_u in Hd; lia | done].
Qed.

(** ** Compact bits *)

Lemma splice_ok dst off src :
  (off + length src <= length dst)%nat ->
  splice dst off src = Some (take off dst ++ src ++ drop (off + length src) dst).
Proof. intros H. unfold splice. by rewrite decide_True. Qed.

Lemma splice_length dst off src r : splice dst off src = Some r -> length r = length dst.
Proof.
  unfold splice. destruct (decide _) as [H|]; [|done]. intros [= <-].
  rewrite !length_app, length_take, length_drop. lia.
Qed.

Lemma be2z_splice_zeros n off src r :
  splice (replicate n x00) off src = Some r ->
  be2z r = be2z src * 256 ^ (Z.of_nat n - Z.of_nat off - Z.of_nat (length src)).
Proof.
  unfold splice. destruct (decide _) as [H|]; [|done]. intros [= <-].
  rewrite length_replicate in H. rewrite take_replicate, drop_replicate.
  rewrite be2z_zeros, be2z_app, length_replicate.
  replace (be2z (replicate _ x00)) with 0; cycle 1.
  { set (k := (n - _)%nat). by rewrite <- (app_nil_r (replicate k x00)), be2z_zeros. }
  rewrite Z.add_0_r. do 2 f_equal. lia.
Qed.

Lemma mantissa_bytes_value m :
  0 <= m < 2 ^ 24 ->
  be2z [z2b (Z.land (Z.shiftr m 16) 0xff); z2b (Z.land (Z.shiftr m 8) 0xff); z2b (Z.land m 0xff)] = m.
Proof.
  intros Hm. rewrite !be2z_cons. cbn [length be2z rev le2z app].
  change 0xff with (Z.ones 8). rewrite !Z.land_ones, !Z.shiftr_div_pow2, !b2z_z2b by lia.
  change (2 ^ 8) with 256 in *. rewrite !Z.mod_mod by lia.
  change (2 ^ 16) with (256 * 256). rewrite <- Z.div_div by lia.
  change (256 ^ Z.of_nat 2) with 65536. change (256 ^ Z.of_nat 1) with 256.
  change (256 ^ Z.of_nat 0) with 1.
  rewrite (Z.mod_small (m / 256 / 256)).
  2: { split; [repeat apply Z.div_pos; lia|]. repeat apply Z.div_lt_upper_bound; lia. }
  pose proof (Z.div_mod m 256). pose proof (Z.div_mod (m / 256) 256). lia.
Qed.

(** The value of compact bits: mantissa times a power of 256, truncated below
    exponent 3. *)
Definition compact_value (bits : Z) : Z :=
  let e := Z.land (Z.shiftr bits 24) 0xff in
  let m := Z.land bits 0x007fffff in
  if e <=? 3 then m / 256 ^ (3 - e) else m * 256 ^ (e - 3).

Lemma compact_to_target_value bits :
  is_u32 bits ->
  let e := Z.land (Z.shiftr bits 24) 0xff in
  let m := Z.land bits 0x007fffff in
  (e <= 32 \/ m = 0 ->
     exists t, compact_to_target bits = Ok t /\ length t = 32%nat /\ be2z t = compact_value bits) /\
  (32 < e -> m ≠ 0 -> exists err, compact_to_target bits = Err err).
Proof.
  intros _ e m. unfold compact_to_target, compact_value. fold e m.
  set (zs := replicate 32 x00).
  assert (length zs = 32%nat) as Hzs by done.
  assert (0 <= e < 256) as He.
  { unfold e. change 0xff with (Z.ones 8). rewrite Z.land_ones by lia.
    apply Z.mod_pos_bound. lia. }
  assert (0 <= m < 2 ^ 23) as Hm.
  { unfold m. change 0x007fffff with (Z.ones 23). rewrite Z.land_ones by lia.
    apply Z.mod_pos_bound. lia. }
  clearbody e m.
  destruct (m =? 0) eqn:Em; b2p.
  { split; [|lia]. intros _. eexists. split; [done|]. split; [done|]. subst m.
    destruct (e <=? 3); rewrite ?Zdiv_0_l, ?Z.mul_0_l; reflexivity. }
  destruct (e <=? 3) eqn:Ee; b2p.
  { split; [|lia]. intros _.
    destruct (splice zs 28 (be_bytes 4 (Z.shiftr m (8 * (3 - e))))) as [t|] eqn:Es.
    2: { rewrite splice_ok in Es by (by rewrite length_be_bytes, Hzs). done. }
    exists t. split; [done|]. split; [apply splice_length in Es; congruence|].
    apply be2z_splice_zeros in Es. rewrite Es, length_be_bytes, be2z_be_bytes.
    rewrite Z.shiftr_div_pow2 by lia. rewrite Z.pow_mul_r by lia. change (2 ^ 8) with 256.
    rewrite Z.mod_small; cycle 1.
    { split; [apply Z.div_pos; lia|]. apply Z.le_lt_trans with m; [|lia].
      apply Z.div_le_upper_bound; [lia|].
      pose proof (Z.pow_pos_nonneg 256 (3 - e)). nia. }
    change (256 ^ _) with 1 at 2. lia. }
  split.
  - intros [?|?]; [|done]. rewrite (proj2 (Z.ltb_ge _ _)) by lia.
    match goal with |- context [splice _ ?o ?s] =>
      destruct (splice zs o s) as [t|] eqn:Es end.
    2: { rewrite splice_ok in Es by (cbn [length]; lia). done. }
    exists t. split; [done|]. split; [apply splice_length in Es; congruence|].
    apply be2z_splice_zeros in Es. rewrite Es, mantissa_bytes_value by lia.
    cbn [length]. do 2 f_equal. lia.
  - intros ??. rewrite (proj2 (Z.ltb_lt _ _)) by lia. eauto.
Qed.

(** ** Hash to difficulty *)

Lemma first_nonzero_Some l i :
  first_nonzero l = Some i ->
  exists b r, l = replicate i x00 ++ b :: r /\ b2z b ≠ 0.
Proof.
  revert i; induction l as [|b l IH]; intros i; cbn [first_nonzero]; [done|].
  destruct (b2z b =? 0) eqn:E; b2p.
  - destruct (first_nonzero l) as [j|]; [|done]. intros [= <-].
    destruct (IH j eq_refl) as (c & r & -> & Hc). exists c, r. split; [|done].
    cbn. f_equal. by apply (inj b2z).
  - intros [= <-]. by exists b, l.
Qed.

Lemma first_nonzero_None l : first_nonzero l = None -> be2z l = 0.
Proof.
  induction l as [|b l IH]; cbn [first_nonzero]; [done|].
  destruct (b2z b =? 0) eqn:E; [|done]. b2p. intros H. 
  rewrite be2z_cons, IH, E by (by destruct (first_nonzero l)).
  done.
Qed.

Lemma gather_sig_acc l acc :
  0 <= acc -> acc * 256 ^ Z.of_nat (length l) + be2z l < 2 ^ 64 ->
  fold_left (fun sig b => wrap 64 (Z.lor (Z.shiftl sig 8) (b2z b))) l acc
  = acc * 256 ^ Z.of_nat (length l) + be2z l.
Proof.
  revert acc; induction l as [|b l IH]; intros acc Ha Hb; cbn [fold_left].
  - cbn. lia.
  - rewrite be2z_cons in *. cbn [length] in *. rewrite Nat2Z.inj_succ, Z.pow_succ_r in * by lia.
    pose proof (b2z_range b). pose proof (be2z_range l) as Hl.
    set (p := 256 ^ Z.of_nat (length l)) in *.
    rewrite lor_shiftl_add by lia. unfold wrap. rewrite Z.mod_small by (change (2^8) with 256; nia).
    rewrite IH; change (2 ^ 8) with 256; lia.
Qed.

Lemma gather_sig_value l : (length l <= 8)%nat -> gather_sig l = be2z l.
Proof.
  intros Hl. unfold gather_sig. rewrite gather_sig_acc; [lia|lia|].
  pose proof (be2z_range l) as Hb.
  assert (256 ^ Z.of_nat (length l) <= 256 ^ 8) by (apply Z.pow_le_mono_r; lia). lia.
Qed.

(** For a hash value of at least [2^160] the program's quotient is taken on
    the eight leading bytes [s] of the hash, with [j] bytes after them. *)
Lemma hash_to_difficulty_leading hash :
  length hash = 32%nat -> 2 ^ 160 <= le2z hash ->
  exists nz s : Z,
    0 <= nz <= 11 /\ 2 ^ 56 <= s < 2 ^ 64 /\
    s * 256 ^ (24 - nz) <= le2z hash < (s + 1) * 256 ^ (24 - nz) /\
    hash_to_difficulty hash =
      if 4 <=? nz then DIFF1_SIG / s * 256 ^ (nz - 4) else 0.
Proof.
  intros Hl HH. unfold hash_to_difficulty.
  replace (le2z hash) with (be2z (rev hash)) in * by (unfold be2z; by rewrite rev_involutive).
  assert (length (rev hash) = 32%nat) as Hr by (by rewrite length_rev).
  set (l := rev hash) in *. clearbody l.
  destruct (first_nonzero l) as [i|] eqn:E; [|apply first_nonzero_None in E; lia].
  apply first_nonzero_Some in E as (b & r & -> & Hb).
  rewrite length_app, length_replicate in Hr. cbn [length] in Hr.
  rewrite be2z_zeros in *.
  assert (Hi : (i <= 11)%nat).
  { destruct (decide (i <= 11)%nat); [done|]. exfalso.
    pose proof (be2z_range (b :: r)) as Hx. cbn [length] in Hx.
    assert (256 ^ Z.of_nat (S (length r)) <= 256 ^ 20) by (apply Z.pow_le_mono_r; lia). lia. }
  rewrite drop_app_length' by (by rewrite length_replicate).
  replace (Nat.min 8 (32 - i)) with 8%nat by lia.
  set (top := take 8 (b :: r)).
  assert (Htop : length top = 8%nat) by (unfold top; rewrite length_take; cbn [length]; lia).
  rewrite gather_sig_value by lia.
  change (Z.of_nat (8 - 8) * 8) with 0. rewrite Z.shiftl_0_r.
  assert (be2z (b :: r) = be2z top * 256 ^ Z.of_nat (24 - i) + be2z (drop 8 (b :: r))) as Hdec.
  { rewrite <- (take_drop 8 (b :: r)) at 1. rewrite be2z_app, length_drop. cbn [length].
    fold top. do 3 f_equal. lia. }
  pose proof (be2z_range (drop 8 (b :: r))) as Hd. rewrite length_drop in Hd. cbn [length] in Hd.
  replace (S (length r) - 8)%nat with (24 - i)%nat in Hd by lia.
  pose proof (be2z_range top) as Ht. rewrite Htop in Ht. change (256 ^ Z.of_nat 8) with (2 ^ 64) in Ht.
  assert (2 ^ 56 <= be2z top) as Hlow.
  { unfold top. cbn [take]. rewrite be2z_cons, length_take. pose proof (b2z_range b).
    pose proof (be2z_range (take 7 r)). replace (7 `min` length r)%nat with 7%nat by lia.
    change (256 ^ Z.of_nat 7) with (2 ^ 56). nia. }
  exists (Z.of_nat i), (be2z top). rewrite Nat2Z.inj_sub in * by lia. change (Z.of_nat 24) with 24 in *.
  split; [lia|]. split; [lia|]. split; [lia|].
  set (s := be2z top) in *. clearbody s.
  unfold wrap. rewrite Z.mod_small by lia. rewrite (proj2 (Z.eqb_neq _ _)) by lia.
  assert (0 <= DIFF1_SIG / s < 256) as Hq.
  { unfold DIFF1_SIG. split; [apply Z.div_pos; lia | apply Z.div_lt_upper_bound; lia]. }
  set (q := DIFF1_SIG / s) in *. clearbody q. unfold DIFF1_NZ.
  rewrite (proj2 (Z.leb_gt _ _)) by lia.
  destruct (4 <=? Z.of_nat i) eqn:E4; b2p.
  - rewrite (proj2 (Z.leb_le 0 _)) by lia.
    rewrite (proj2 (Z.ltb_ge _ _)); cycle 1.
    { rewrite Z.shiftr_div_pow2 by lia. apply Z.div_le_lower_bound; [lia|].
      assert (2 ^ ((Z.of_nat i - 4) * 8) <= 2 ^ 56) by (apply Z.pow_le_mono_r; lia).
      unfold umax. nia. }
    rewrite Z.shiftl_mul_pow2 by lia. f_equal.
    rewrite Z.mul_comm, Z.pow_mul_r by lia. done.
  - rewrite (proj2 (Z.leb_gt 0 _)) by lia. rewrite (proj2 (Z.leb_gt 64 _)) by lia.
    rewrite Z.shiftr_div_pow2 by lia. apply Z.div_small. split; [lia|].
    apply Z.lt_le_trans with (2 ^ 8); [lia|]. apply Z.pow_le_mono_r; lia.
Qed.

Lemma hash_to_difficulty_saturates hash :
  length hash = 32%nat -> le2z hash < 2 ^ 160 -> hash_to_difficulty hash = umax 64.
Proof.
  intros Hl HH. unfold hash_to_difficulty.
  replace (le2z hash) with (be2z (rev hash)) in * by (unfold be2z; by rewrite rev_involutive).
  assert (length (rev hash) = 32%nat) as Hr by (by rewrite length_rev).
  set (l := rev hash) in *. clearbody l.
  assert (forall i, (12 <= i)%nat -> (64 <=? (Z.of_nat i - DIFF1_NZ) * 8) = true) as H12.
  { intros i Hi. apply Z.leb_le. unfold DIFF1_NZ. lia. }
  destruct (first_nonzero l) as [i|] eqn:E.
  - apply first_nonzero_Some in E as (b & r & -> & Hb).
    rewrite length_app, length_replicate in Hr. cbn [length] in Hr. rewrite be2z_zeros in HH.
    destruct (decide (12 <= i)%nat) as [Hi|Hi].
    + rewrite H12 by done. by destruct (_ =? 0).
    + exfalso. rewrite be2z_cons in HH. pose proof (b2z_range b). pose proof (be2z_range r).
      assert (256 ^ 20 <= 256 ^ Z.of_nat (length r)) by (apply Z.pow_le_mono_r; lia). nia.
  - rewrite H12 by lia. by destruct (_ =? 0).
Qed.

Lemma hash_to_difficulty_range hash : length hash = 32%nat -> is_u64 (hash_to_difficulty hash).
Proof.
  intros Hl. destruct (Z.lt_ge_cases (le2z hash) (2 ^ 160)) as [H|H].
  { rewrite hash_to_difficulty_saturates by done. by unfold is_u, umax. }
  destruct (hash_to_difficulty_leading hash Hl H) as (nz & s & Hnz & Hs & _ & ->).
  destruct (4 <=? nz) eqn:E; [|by unfold is_u]. b2p.
  assert (0 <= DIFF1_SIG / s < 256).
  { unfold DIFF1_SIG. split; [apply Z.div_pos; lia | apply Z.div_lt_upper_bound; lia]. }
  assert (256 ^ (nz - 4) <= 256 ^ 7) by (apply Z.pow_le_mono_r; lia).
  pose proof (Z.pow_pos_nonneg 256 (nz - 4)). unfold is_u. nia.
Qed.
