(* ===== verification/TemplateFacts.v ===== *)
(** Facts on the job builder of [Template]: the merkle branch against
    Bitcoin's merkle root, the coinbase layout, the BIP34 height push, and the
    well-formedness of every job [build_job] returns. *)
From S2P Require Export TemplateTargets.

(** ** The merkle branch *)

(** Bitcoin's merkle root: while there is more than one hash, repeat the last
    one if their number is odd and hash them in pairs. *)
Fixpoint hash_pairs `{Sha256Lib} (l : list (list byte)) : list (list byte) :=
  match l with
  | a :: b :: l => double_sha256 (a ++ b) :: hash_pairs l
  | _ => []
  end.
Fixpoint merkle_tree_root `{Sha256Lib} (fuel : nat) (l : list (list byte)) : option (list byte) :=
  match l with
  | [] => None
  | [h] => Some h
  | _ => match fuel with
         | O => None
         | S fuel => merkle_tree_root fuel (hash_pairs (pad_level l))
         end
  end.

Section merkle.
Context `{Sha256Lib}.

Lemma even_list_ind {A} (P : list A -> Prop) :
  P [] -> (forall a b l, P l -> P (a :: b :: l)) ->
  forall n l, length l = (2 * n)%nat -> P l.
Proof.
  intros H0 Hs n; induction n as [|n IH]; intros [|a [|b l]] Hl; cbn in Hl; try lia; auto.
  apply Hs, IH. lia.
Qed.

Lemma chunks_2_cons {A} (a b : A) l : chunks 2 (a :: b :: l) = [a; b] :: chunks 2 l.
Proof. rewrite chunks_cons by (done || lia). cbn [take drop]. by rewrite take_0, drop_0. Qed.

Lemma hash_pair_chunks n r :
  length r = (2 * n)%nat -> map hash_pair (chunks 2 (map Some r)) = map Some (hash_pairs r).
Proof.
  apply (even_list_ind (fun r => map hash_pair (chunks 2 (map Some r)) = map Some (hash_pairs r)));
    [done|].
  intros a b l IH. cbn [map]. rewrite chunks_2_cons. cbn [map hash_pair hash_pairs].
  by rewrite IH.
Qed.

Lemma hash_pairs_length n r : length r = (2 * n)%nat -> length (hash_pairs r) = n.
Proof.
  revert r; induction n as [|n IH]; intros [|a [|b r]] Hl; cbn in *; try lia.
  rewrite IH by lia. done.
Qed.

(** Padding a level is padding the transactions of it. *)
Lemma pad_level_cons {A} (x : A) ts :
  ts ≠ [] -> exists t r n, pad_level (x :: ts) = x :: t :: r /\ length r = (2 * n)%nat /\
    (2 * n <= length ts)%nat /\
    forall B (f : A -> B) y, pad_level (y :: map f ts) = y :: map f (t :: r).
Proof.
  intros Hts. destruct ts as [|t r]; [done|]. clear Hts.
  unfold pad_level. cbn [length map].
  destruct (Nat.odd (S (S (length r)))) eqn:Eo.
  - rewrite !last_cons_cons.
    destruct (last (t :: r)) as [z|] eqn:El; [|by apply last_None in El].
    apply Nat.odd_spec in Eo as [k Hk].
    exists t, (r ++ [z]), k. split; [done|]. rewrite length_app. cbn [length].
    split; [lia|]. split; [lia|]. intros B f y. rewrite length_map.
    replace (Nat.odd (S (S (length r)))) with true.
    2: { symmetry. apply Nat.odd_spec. exists k. lia. }
    rewrite last_cons_cons. change (f t :: map f r) with (map f (t :: r)).
    rewrite fmap_last, El. cbn. by rewrite map_app.
  - assert (Nat.even (S (S (length r))) = true) as Ee.
    { rewrite <- Nat.negb_odd, Eo. done. }
    apply Nat.even_spec in Ee as [k Hk].
    exists t, r, (k - 1)%nat. split; [done|]. split; [lia|]. split; [lia|].
    intros B f y. rewrite length_map, Eo. done.
Qed.

Lemma merkle_loop_root fuel ts leaf branch :
  (length ts <= fuel)%nat ->
  exists br, merkle_branch_loop fuel (None :: map Some ts) 0 branch = Some (branch ++ br) /\
    merkle_tree_root fuel (leaf :: ts) = Some (merkle_fold leaf br).
Proof.
  revert ts leaf branch; induction fuel as [|fuel IH]; intros ts leaf branch Hf.
  - destruct ts; [|cbn in Hf; lia]. exists []. by rewrite app_nil_r.
  - destruct (decide (ts = [])) as [->|Hts]; [exists []; by rewrite app_nil_r|].
    destruct (pad_level_cons leaf ts Hts) as (t & r & n & Hp & Hr & Hn & Hpm).
    assert (length (hash_pairs r) = n) as Hlen by by apply hash_pairs_length.
    assert (0 < length ts)%nat by (destruct ts; [done | cbn; lia]).
    destruct (IH (hash_pairs r) (double_sha256 (leaf ++ t)) (branch ++ [t])) as (br & Hb & Ht);
      [lia|].
    exists (t :: br). split.
    + cbn [merkle_branch_loop]. rewrite decide_False by (cbn [length]; rewrite length_map; lia).
      rewrite Hpm. cbn [sibling_of Nat.even Nat.add map].
      change ((None :: Some t :: map Some r) !! 1%nat) with (Some (Some t)). cbn iota beta.
      rewrite chunks_2_cons. cbn [map hash_pair].
      rewrite (hash_pair_chunks n) by done. change (0 / 2)%nat with 0%nat. rewrite Hb.
      by rewrite <- app_assoc.
    + destruct ts as [|t0 ts0]; [done|]. cbn [merkle_tree_root].
      rewrite Hp. cbn [hash_pairs]. rewrite Ht. done.
Qed.

Lemma merkle_branch_total txids leaf :
  exists br, compute_merkle_branch_raw txids = Some br /\
    merkle_tree_root (length txids + 1) (leaf :: txids) = Some (merkle_fold leaf br).
Proof.
  destruct (merkle_loop_root (length txids + 1) txids leaf []) as (br & Hb & Ht); [lia|].
  exists br. split; [|done]. unfold compute_merkle_branch_raw.
  destruct txids; [|done]. cbn [merkle_branch_loop map length Nat.add] in Hb.
  rewrite decide_True in Hb by (cbn; lia). exact Hb.
Qed.
End merkle.

(** ** The BIP34 height push *)

(** Bitcoin's reading of the first push of the coinbase script: the small
    integers, else a little-endian number with a sign bit. *)
Definition script_num (l : list byte) : Z :=
  let z := le2z l in
  let top := 2 ^ (8 * Z.of_nat (length l) - 1) in
  if z <? top then z else top - z.
Definition read_height_push (script : list byte) : option (Z * list byte) :=
  match script with
  | [] => None
  | op :: rest =>
      let z := b2z op in
      if z =? 0 then Some (0, rest)
      else if (0x51 <=? z) && (z <=? 0x60) then Some (z - 0x50, rest)
      else if (z <? 0x4c) && (z <=? Z.of_nat (length rest))
      then Some (script_num (take (Z.to_nat z) rest), drop (Z.to_nat z) rest)
      else None
  end.

Lemma height_le_bytes_spec fuel n :
  0 <= n < 256 ^ Z.of_nat fuel ->
  le2z (height_le_bytes fuel n) = n /\
  (length (height_le_bytes fuel n) <= fuel)%nat /\
  (0 < n -> exists l b, height_le_bytes fuel n = l ++ [b] /\ b2z b ≠ 0).
Proof.
  revert n; induction fuel as [|fuel IH]; intros n Hn; cbn [height_le_bytes].
  - cbn in *. split; [lia|]. split; [lia|]. lia.
  - rewrite Nat2Z.inj_succ, Z.pow_succ_r in Hn by lia.
    destruct (0 <? n) eqn:E; b2p; [|cbn; split; [lia|]; split; lia].
    rewrite Z.shiftr_div_pow2 by lia. change (2 ^ 8) with 256.
    change 0xff with (Z.ones 8). rewrite Z.land_ones by lia. change (2 ^ 8) with 256.
    assert (0 <= n / 256 < 256 ^ Z.of_nat fuel) as Hq.
    { split; [apply Z.div_pos; lia | apply Z.div_lt_upper_bound; lia]. }
    destruct (IH _ Hq) as (IH1 & IH2 & IH3). cbn [le2z length].
    rewrite IH1, b2z_z2b, Z.mod_mod by lia. pose proof (Z.div_mod n 256).
    split; [lia|]. split; [lia|]. intros _.
    destruct (Z.eq_dec (n / 256) 0) as [H0|H0].
    + exists [], (z2b (n mod 256)). rewrite b2z_z2b, Z.mod_mod by lia. split; [|lia].
      rewrite H0. destruct fuel; done.
    + destruct IH3 as (l & b & -> & Hb); [lia|]. by exists (z2b (n mod 256) :: l), b.
Qed.

Lemma land_0x80 b : Z.land (b2z b) 0x80 = 0 <-> b2z b < 128.
Proof.
  split; intros Hb.
  - destruct b; cbn in Hb |- *; try done.
  - destruct b; cbn in Hb |- *; try done.
Qed.

Lemma encode_bip34_height_read h rest :
  0 <= h < 2 ^ 63 -> read_height_push (encode_bip34_height h ++ rest) = Some (h, rest).
Proof.
  intros Hh. unfold encode_bip34_height.
  destruct (h =? 0) eqn:E0; b2p; [by subst|].
  destruct (h <=? 16) eqn:E16; b2p.
  { cbn [app]. unfold read_height_push. rewrite b2z_z2b, Z.mod_small by lia.
    rewrite (proj2 (Z.eqb_neq _ _)) by lia. rewrite (proj2 (Z.leb_le _ _)) by lia.
    rewrite (proj2 (Z.leb_le _ _)) by lia. cbn [andb]. do 2 f_equal. lia. }
  destruct (height_le_bytes_spec 8 h) as (Hv & Hl & Hlast).
  { change (256 ^ Z.of_nat 8) with (2 ^ 64). lia. }
  destruct Hlast as (l & b & Heq & Hb); [lia|]. rewrite Heq in *. rewrite last_snoc.
  rewrite le2z_app in Hv. cbn [le2z] in Hv. rewrite Z.mul_0_r, Z.add_0_r in Hv.
  rewrite length_app in Hl. cbn [length] in Hl.
  pose proof (le2z_range l) as Hr. pose proof (b2z_range b).
  set (p := 256 ^ Z.of_nat (length l)) in *.
  set (body := if negb _ then _ else _).
  assert (script_num body = h /\ (2 <= length body + 1 <= 10)%nat) as [Hs Hlen].
  { unfold body. destruct (Z.land (b2z b) 0x80 =? 0) eqn:E; b2p; cbn [negb].
    - apply land_0x80 in E. unfold script_num. cbv zeta. rewrite le2z_app, !length_app. cbn [le2z length].
      fold p. rewrite Z.mul_0_r, Z.add_0_r, Hv.
      replace (8 * Z.of_nat (length l + 1) - 1) with (8 * Z.of_nat (length l) + 7) by lia.
      rewrite Z.pow_add_r, Z.pow_mul_r by lia. change (2 ^ 8) with 256. fold p.
      rewrite (proj2 (Z.ltb_lt _ _)) by (change (2 ^ 7) with 128; nia). split; [done|lia].
    - unfold script_num. cbv zeta. rewrite <- app_assoc, le2z_app, !length_app. cbn [le2z length app].
      fold p. change (b2z x00) with 0.
      replace (b2z b + 256 * (0 + 256 * 0)) with (b2z b) by lia. rewrite Hv.
      replace (8 * Z.of_nat (length l + (1 + 1)) - 1) with (8 * Z.of_nat (length l) + 15) by lia.
      rewrite Z.pow_add_r, Z.pow_mul_r by lia. change (2 ^ 8) with 256. fold p.
      rewrite (proj2 (Z.ltb_lt _ _)) by (change (2 ^ 15) with 32768; nia). split; [done|lia]. }
  clearbody body. clear Hv Hl. cbn [app]. unfold read_height_push.
  rewrite b2z_z2b, Z.mod_small by lia. rewrite length_app.
  rewrite (proj2 (Z.eqb_neq _ _)) by lia. rewrite (proj2 (Z.leb_gt 0x51 _)) by lia. cbn [andb].
  rewrite (proj2 (Z.ltb_lt _ _)) by lia. rewrite (proj2 (Z.leb_le _ _)) by lia. cbn [andb].
  rewrite Nat2Z.id, take_app_length, drop_app_length, Hs. done.
Qed.

Lemma encode_bip34_height_length h :
  0 <= h < 2 ^ 31 -> (1 <= length (encode_bip34_height h) <= 5)%nat.
Proof.
  intros Hh. unfold encode_bip34_height.
  destruct (h =? 0); [cbn; lia|]. destruct (h <=? 16) eqn:E; b2p; [cbn; lia|].
  destruct (height_le_bytes_spec 8 h) as (Hv & Hl & Hlast).
  { change (256 ^ Z.of_nat 8) with (2 ^ 64). lia. }
  destruct Hlast as (l & b & Heq & Hb); [lia|]. rewrite Heq in *. rewrite last_snoc.
  rewrite le2z_app in Hv. cbn [le2z] in Hv. rewrite Z.mul_0_r, Z.add_0_r in Hv.
  pose proof (le2z_range l) as Hr. pose proof (b2z_range b).
  assert (length l < 4)%nat as Hll.
  { destruct (decide (length l < 4)%nat); [done|]. exfalso.
    assert (256 ^ 4 <= 256 ^ Z.of_nat (length l)) by (apply Z.pow_le_mono_r; lia). nia. }
  assert (Z.land (b2z b) 0x80 ≠ 0 -> (length l < 3)%nat) as H80.
  { intros H80. destruct (decide (length l < 3)%nat); [done|].
    assert (length l = 3)%nat as H3 by lia. rewrite H3 in Hv.
    change (256 ^ Z.of_nat 3) with 16777216 in Hv.
    destruct H80. apply land_0x80. lia. }
  destruct (Z.land (b2z b) 0x80 =? 0) eqn:E80; b2p; cbn [negb length];
    rewrite !length_app; cbn [length]; [lia | specialize (H80 E80); lia].
Qed.

(** ** Byte search *)

Lemma find_bytes_first h needle i :
  find_bytes h needle = Some i ->
  (i <= length h)%nat /\ take (length needle) (drop i h) = needle.
Proof.
  revert i; induction h as [|b h IH]; intros i; cbn [find_bytes].
  - destruct (decide _) as [E|]; [|done]. intros [= <-]. by split.
  - destruct (decide _) as [E|]; [intros [= <-]; split; [cbn; lia | done]|].
    destruct (find_bytes h needle) as [j|]; [|done]. intros [= <-].
    destruct (IH j eq_refl). cbn. split; [lia|done].
Qed.

(** No window starting before position [i] matches: then the search stops at
    [i] when the window there does. *)
Lemma find_bytes_at h needle i :
  (i <= length h)%nat ->
  (forall j, (j < i)%nat -> take (length needle) (drop j h) ≠ needle) ->
  take (length needle) (drop i h) = needle ->
  find_bytes h needle = Some i.
Proof.
  revert h; induction i as [|i IH]; intros h Hi Hno Hyes.
  - rewrite drop_0 in Hyes. destruct h; cbn [find_bytes]; by rewrite decide_True.
  - destruct h as [|b h]; [cbn in Hi; lia|]. cbn [find_bytes].
    rewrite decide_False by (apply (Hno 0%nat); lia).
    rewrite (IH h); [done| cbn in Hi; lia | | done].
    intros j Hj. apply (Hno (S j)). lia.
Qed.

Lemma find_bytes_None h needle j :
  find_bytes h needle = None -> take (length needle) (drop j h) = needle -> (length h < j)%nat.
Proof.
  revert j; induction h as [|b h IH]; intros j; cbn [find_bytes].
  - destruct (decide _) as [E|E]; [done|]. intros _. rewrite drop_nil. done.
  - destruct (decide _) as [E|E]; [done|].
    destruct (find_bytes h needle) eqn:Ef; [done|]. intros _.
    destruct j as [|j]; [done|]. intros Hj. specialize (IH j eq_refl Hj). cbn. lia.
Qed.

(** The sentinel does not overlap itself: after a prefix without it, its
    first occurrence is the one that follows the prefix. *)
Lemma find_sentinel_after p rest :
  find_bytes p SENTINEL = None -> find_bytes (p ++ SENTINEL ++ rest) SENTINEL = Some (length p).
Proof.
  intros Hp. apply find_bytes_at.
  - rewrite length_app. lia.
  - intros j Hj Hw. rewrite drop_app_le in Hw by lia.
    assert (length (drop j p) = (length p - j)%nat) as Hl by apply length_drop.
    destruct (decide (4 <= length p - j)%nat) as [H4|H4].
    + rewrite take_app_le in Hw by (rewrite Hl; exact H4).
      apply (find_bytes_None p SENTINEL j) in Hp; [lia | done].
    + destruct (drop j p) as [|b0 [|b1 [|b2 [|b3 d]]]]; cbn in Hl; try lia;
        unfold SENTINEL in Hw; cbn in Hw; discriminate.
  - rewrite drop_app_length. done.
Qed.

(** ** The coinbase template *)

(** The bytes of the serialised coinbase before and after the extranonce. *)
Definition coinbase_prefix (height : Z) (tag : string) (en_total : nat) : list byte :=
  le_bytes 4 1 ++ compact_size 1 ++ null_txid ++ le_bytes 4 null_vout
    ++ compact_size (Z.of_nat (length (coinbase_script_sig height tag en_total)))
    ++ encode_bip34_height height ++ str_bytes tag.
Definition coinbase_suffix (outs : list TxOut) : list byte :=
  le_bytes 4 0xffffffff ++ compact_size (Z.of_nat (length outs))
    ++ concat (map wire_output outs) ++ le_bytes 4 0.

Lemma zero_range_after p s rest n :
  (n <= length s + length rest)%nat ->
  zero_range (p ++ s ++ rest) (length p) n = p ++ replicate n x00 ++ drop n (s ++ rest).
Proof.
  intros Hn. unfold zero_range. rewrite take_app_length. f_equal. f_equal.
  by rewrite <- drop_drop, drop_app_length.
Qed.

Section coinbase.
Context `{HL : HexLib} `{BL : BitcoinLib} `{!BitcoinLaws}.

Lemma wire_coinbase height reward tag en_total spk commitment :
  serialize_tx (coinbase_tx height reward tag en_total spk commitment) =
  coinbase_prefix height tag en_total ++ SENTINEL ++ replicate (en_total - 4) x00
    ++ coinbase_suffix (output (coinbase_tx height reward tag en_total spk commitment)).
Proof.
  rewrite serialize_tx_wire by (try done; cbn; by repeat constructor).
  unfold wire_tx, coinbase_suffix, coinbase_prefix. cbn [tx_version lock_time input coinbase_tx].
  set (outs := output _). cbn [map concat length Z.of_nat]. unfold wire_input, var_bytes.
  cbn [previous_txid previous_vout script_sig sequence].
  unfold coinbase_script_sig at 2. rewrite app_nil_r, <- !app_assoc. done.
Qed.

(** What [build_coinbase] returns, when the bytes before the extranonce do
    not happen to contain the sentinel. *)
Lemma build_coinbase_layout height reward address tag en1 en2 wc spk commitment :
  address_script_pubkey address = Some spk ->
  match wc with
  | Some h => exists c, hex_decode h = Some c /\ commitment = Some c
  | None => commitment = None
  end ->
  find_bytes (coinbase_prefix height tag (en1 + en2)) SENTINEL = None ->
  let outs := output (coinbase_tx height reward tag (en1 + en2) spk commitment) in
  build_coinbase height reward address tag en1 en2 wc =
    Ok (coinbase_prefix height tag (en1 + en2) ++ replicate (en1 + en2) x00
          ++ drop (en1 + en2) (SENTINEL ++ replicate (en1 + en2 - 4) x00) ++ coinbase_suffix outs,
        length (coinbase_prefix height tag (en1 + en2))).
Proof.
  intros Ha Hc Hp outs. unfold build_coinbase, address_to_script. rewrite Ha. cbn [ok_or mbind outcome_bind].
  assert (match wc with
          | Some wc_hex => Some <$> ok_or (Other "witness commitment hex") (hex_decode wc_hex)
          | None => Ok None
          end = Ok (E := PoolError) commitment) as ->.
  { destruct wc as [h|]; [|by subst]. destruct Hc as (c & -> & ->). done. }
  cbn [mbind outcome_bind]. rewrite wire_coinbase. fold outs.
  rewrite find_sentinel_after by done. cbn [ok_or mbind outcome_bind].
  set (p := coinbase_prefix _ _ _). set (n := (en1 + en2)%nat).
  assert (length (SENTINEL ++ replicate (n - 4) x00) = Nat.max 4 n) as Hl.
  { rewrite length_app, length_replicate. cbn. lia. }
  rewrite (app_assoc SENTINEL). rewrite length_app, length_app, Hl.
  replace (n `min` (length p + (4 `max` n + length (coinbase_suffix outs)) - length p))%nat
    with n by lia.
  rewrite zero_range_after by lia. rewrite drop_app_le by lia. done.
Qed.
End coinbase.

(** ** Every job the builder returns is well-formed *)

Record job_wf `{HexLib} (job : StratumJob) : Prop := {
  wf_region : exists region,
    coinbase_template job = coinbase1 job ++ region ++ coinbase2 job /\
    length region = (extranonce1_len job + extranonce2_len job)%nat;
  wf_offset : extranonce_offset job = length (coinbase1 job);
  wf_prev_hash : exists internal, hex_decode (prev_hash job) = Some (swap_words internal) /\
    length internal = 32%nat;
  wf_bits : exists b, from_str_radix16 32 (bits job) = Some b /\ is_u32 b /\
    compact_to_target b = Ok (network_target job);
  wf_target : length (network_target job) = 32%nat;
  wf_branch : merkle_branch job = map hex_encode (merkle_branch_raw job);
}.

Lemma assemble_coinbase_exact `{HexLib} job e1 e2 :
  job_wf job ->
  (length e1 + length e2)%nat = (extranonce1_len job + extranonce2_len job)%nat ->
  assemble_coinbase job e1 e2 = Ok (coinbase1 job ++ e1 ++ e2 ++ coinbase2 job).
Proof.
  intros [(region & Ht & Hr) Hoff _ _ _ _] Hlen. unfold assemble_coinbase.
  rewrite decide_False by lia. rewrite Ht, Hoff.
  rewrite splice_ok by (rewrite !length_app; lia). cbn [or_panic mbind outcome_bind].
  rewrite take_app_length, <- drop_drop, drop_app_length.
  rewrite drop_app_le by lia. rewrite splice_ok; cycle 1.
  { rewrite !length_app, length_drop. lia. }
  cbn [or_panic]. f_equal.
  rewrite (app_assoc (coinbase1 job)).
  rewrite take_app_length' by (rewrite length_app; lia).
  rewrite <- drop_drop, drop_app_length' by (rewrite length_app; lia).
  rewrite drop_app_length' by (rewrite length_drop; lia).
  by rewrite <- !app_assoc.
Qed.

Lemma assemble_coinbase_mismatch job e1 e2 :
  (length e1 + length e2)%nat ≠ (extranonce1_len job + extranonce2_len job)%nat ->
  assemble_coinbase job e1 e2 = Ok (coinbase_template job).
Proof. intros H. unfold assemble_coinbase. by rewrite decide_True. Qed.

Lemma radix16_go_range w l acc z :
  0 <= acc < 2 ^ w -> radix16_go w acc l = Some z -> 0 <= z < 2 ^ w.
Proof.
  revert acc; induction l as [|c l IH]; intros acc Ha; cbn [radix16_go].
  - intros [= <-]. done.
  - destruct (to_digit16 c) as [d|] eqn:Ed; [|done].
    destruct (_ <? _) eqn:E; [|done]. b2p. apply IH.
    assert (0 <= d).
    { unfold to_digit16 in Ed. repeat break_in Ed; simplify_eq; b2p; lia. }
    lia.
Qed.

Lemma from_str_radix16_range w s z :
  0 <= w -> from_str_radix16 w s = Some z -> 0 <= z < 2 ^ w.
Proof.
  intros Hw. unfold from_str_radix16. destruct (strip_plus _); [|done].
  apply radix16_go_range. lia.
Qed.

Section build.
Context `{HL : HexLib} `{!HexLaws} `{SL : Sha256Lib} `{BL : BitcoinLib}.

Lemma stratum_prev_hash_internal core s :
  stratum_prev_hash core = Ok s ->
  exists d, hex_decode core = Some d /\ length d = 32%nat /\
    hex_decode s = Some (swap_words (rev d)).
Proof.
  unfold stratum_prev_hash. destruct (hex_decode core) as [d|]; [|done].
  cbn [ok_or mbind outcome_bind]. destruct (decide _) as [|Hl]; [done|]. intros [= <-].
  exists d. split; [done|]. split; [lia|]. apply hex_decode_encode.
Qed.

Lemma bits_to_target_ok s t :
  bits_to_target s = Ok t ->
  exists b, from_str_radix16 32 s = Some b /\ is_u32 b /\ compact_to_target b = Ok t.
Proof.
  unfold bits_to_target. destruct (from_str_radix16 32 s) as [b|] eqn:E; [|done].
  cbn [ok_or mbind outcome_bind]. intros Hb. exists b. split; [done|]. split; [|done].
  apply from_str_radix16_range in E; [done|lia].
Qed.

Lemma compact_to_target_length b t : is_u32 b -> compact_to_target b = Ok t -> length t = 32%nat.
Proof.
  intros Hb Ht. destruct (compact_to_target_value b Hb) as [Hok Herr].
  destruct (Z.le_gt_cases (Z.land (Z.shiftr b 24) 0xff) 32) as [He|He].
  - destruct Hok as (t' & Ht' & Hl & _); [by left|]. congruence.
  - destruct (Z.eq_dec (Z.land b 0x007fffff) 0) as [Hm|Hm].
    + destruct Hok as (t' & Ht' & Hl & _); [by right|]. congruence.
    + destruct Herr as [e He']; [done|done|]. congruence.
Qed.

Lemma build_job_wf ids gbt address tag en1 en2 ids' job :
  build_job ids gbt address tag en1 en2 = (ids', Ok job) -> job_wf job.
Proof.
  unfold build_job. destruct (next_job_id ids) as [id ids1]. intros Heq. injection Heq as _ Hj.
  apply outcome_bind_ok in Hj as ((cb & off) & _ & Hj).
  apply outcome_bind_ok in Hj as (? & Hle & Hj).
  destruct (decide _) as [Hle'|]; [|done]. clear Hle.
  apply outcome_bind_ok in Hj as (txids & _ & Hj).
  apply outcome_bind_ok in Hj as (branch & _ & Hj).
  apply outcome_bind_ok in Hj as (prev & Hprev & Hj).
  apply outcome_bind_ok in Hj as (target & Htarget & Hj). injection Hj as <-.
  apply stratum_prev_hash_internal in Hprev as (d & _ & Hd & Hdec).
  apply bits_to_target_ok in Htarget as (b & Hb & Hb32 & Hbt).
  assert (length (take off cb) = off) as Hto by (rewrite length_take; lia).
  split; cbn.
  - exists (take (en1 + en2) (drop off cb)).
    rewrite <- drop_drop, !take_drop. split; [done|].
    rewrite length_take, length_drop. lia.
  - done.
  - exists (rev d). by rewrite length_rev.
  - eauto.
  - by apply compact_to_target_length in Hbt.
  - done.
Qed.

(** The coinbase of a template once the extranonce is filled in. *)
Definition paid_coinbase (gbt : GbtResult) (tag : string) (n : nat) (spk : list byte)
    (commitment : option (list byte)) (extranonce : list byte) : list byte :=
  coinbase_prefix (gbt_height gbt) tag n ++ extranonce
    ++ drop n (SENTINEL ++ replicate (n - 4) x00)
    ++ coinbase_suffix (output (coinbase_tx (gbt_height gbt) (gbt_coinbase_value gbt) tag n spk commitment)).

Lemma build_job_pays `{!BitcoinLaws} ids gbt address tag en1 en2 ids' job spk :
  build_job ids gbt address tag en1 en2 = (ids', Ok job) -> address_script_pubkey address = Some spk ->
  find_bytes (coinbase_prefix (gbt_height gbt) tag (en1 + en2)) SENTINEL = None ->
  exists commitment, forall e1 e2, (length e1 + length e2 = en1 + en2)%nat ->
    assemble_coinbase job e1 e2 = Ok (coinbase1 job ++ e1 ++ e2 ++ coinbase2 job) /\
    coinbase1 job ++ e1 ++ e2 ++ coinbase2 job = paid_coinbase gbt tag (en1 + en2) spk commitment (e1 ++ e2).
Proof.
  intros Hb Ha Hp. pose proof (build_job_wf _ _ _ _ _ _ _ _ Hb) as Hwf.
  unfold build_job in Hb. destruct (next_job_id ids) as [id ids1]. injection Hb as _ Hb.
  apply outcome_bind_ok in Hb as ((cb & off) & Hcb & Hb).
  apply outcome_bind_ok in Hb as (? & _ & Hb). apply outcome_bind_ok in Hb as (txids & _ & Hb).
  apply outcome_bind_ok in Hb as (branch & _ & Hb). apply outcome_bind_ok in Hb as (prev & _ & Hb).
  apply outcome_bind_ok in Hb as (target & _ & Hb). injection Hb as <-. cbn in Hwf |- *.
  assert (exists commitment, match gbt_default_witness_commitment gbt with
            | Some h => exists c, hex_decode h = Some c /\ commitment = Some c
            | None => commitment = None end) as [commitment Hc].
  { unfold build_coinbase, address_to_script in Hcb. rewrite Ha in Hcb.
    destruct (gbt_default_witness_commitment gbt) as [h|]; [|by exists None].
    cbn in Hcb. destruct (hex_decode h) as [c|]; [|done]. by exists (Some c), c. }
  exists commitment. intros e1 e2 Hlen.
  erewrite build_coinbase_layout in Hcb by done.
  match type of Hcb with Ok (?x, ?y) = Ok _ =>
    assert (cb = x) as -> by congruence; assert (off = y) as -> by congruence end.
  split; [by rewrite assemble_coinbase_exact|].
  rewrite take_app_length, <- drop_drop, drop_app_length.
  rewrite drop_app_length' by (by rewrite length_replicate).
  unfold paid_coinbase. f_equal. by rewrite <- (app_assoc e1 e2).
Qed.
End build.
