(* ===== verification/Validator.v ===== *)
(** [src/mining/validator.rs]: share validation and the per-session duplicate
    tracker, with the [JobEntry] of [src/mining/engine.rs] it reads. *)
From S2P Require Export TemplateFacts.

Definition VERSION_ROLLING_MASK : Z := 0x1FFFE000.

(** ** Duplicate tracker *)

Record ShareSet := {
  seen : gset (list byte);
  order : list (list byte);
  max_size : nat;
}.

Definition ShareSet_new : ShareSet := {| seen := ∅; order := []; max_size := 4096 |}.

Definition ShareSet_contains (s : ShareSet) (key : list byte) : bool := bool_decide (key ∈ seen s).

Definition ShareSet_insert (s : ShareSet) (key : list byte) : ShareSet :=
  if ShareSet_contains s key then s
  else
    let s :=
      if decide (max_size s <= size (seen s))%nat then
        match order s with
        | oldest :: order => {| seen := seen s ∖ {[oldest]}; order := order; max_size := max_size s |}
        | [] => s
        end
      else s in
    {| seen := {[key]} ∪ seen s; order := order s ++ [key]; max_size := max_size s |}.

Definition ShareSet_clear (s : ShareSet) : ShareSet :=
  {| seen := ∅; order := []; max_size := max_size s |}.

(** ** Parameters and results of a submission *)

Record ShareParams := {
  sp_worker : string;
  sp_job_id : string;
  sp_extranonce2 : list byte;
  sp_ntime : Z;
  sp_nonce : Z;
  sp_version_bits : option Z;
  sp_version_rolling_mask : option Z;
}.

Inductive ShareResult :=
| Valid (assigned_difficulty hash_difficulty : Z) (hash : list byte)
| Block (hash_difficulty : Z) (block_hex : string) (hash : list byte).

Definition ShareResult_hash (r : ShareResult) : list byte :=
  match r with Valid _ _ hash | Block _ _ hash => hash end.

Definition ShareSet_dedup (s : ShareSet) (result : outcome PoolError ShareResult)
    : ShareSet * outcome PoolError ShareResult :=
  match result with
  | Ok res =>
      if ShareSet_contains s (ShareResult_hash res) then (s, Err DuplicateShare)
      else (ShareSet_insert s (ShareResult_hash res), Ok res)
  | r => (s, r)
  end.

(** An entry of the engine's job history. *)
Record JobEntry := {
  je_job : StratumJob;
  je_created_at : Z;
  je_clean : bool;
  je_superseded_by_clean : bool;
}.

(** ** Validation *)

Definition check_ntime (ntime min_time cur_time : Z) : outcome PoolError unit :=
  let ceiling := saturating_add 32 cur_time 7200 in
  if (ntime <? min_time) || (ceiling <? ntime) then
    Err (InvalidParams "mining.submit"
      ("ntime out of range: submitted=" ++ dec ntime ++ " allowed=" ++ dec min_time ++ "..=" ++
       dec ceiling ++ " (template mintime=" ++ dec min_time ++ " curtime=" ++ dec cur_time ++ ")")%string)
  else Ok tt.

(** [!mask] on [u32]. *)
Definition not32 (z : Z) : Z := Z.lxor z 0xFFFFFFFF.

Definition resolve_version (base_version : Z) (rolling_bits negotiated_mask : option Z)
    : outcome PoolError Z :=
  let mask := match negotiated_mask with Some m => m | None => VERSION_ROLLING_MASK end in
  match rolling_bits with
  | Some bits =>
      if negb (Z.land bits (not32 mask) =? 0) then
        Err (InvalidParams "mining.submit"
          ("version bits outside negotiated mask: bits=" ++ hex_fixed 8 bits ++ " mask=" ++
           hex_fixed 8 mask)%string)
      else Ok (Z.lor (Z.land base_version (not32 mask)) (Z.land bits mask))
  | None => Ok base_version
  end.

Definition build_header `{HexLib} (version : Z) (stratum_prev_hash : string)
    (merkle_root : list byte) (ntime : Z) (bits_hex : string) (nonce : Z)
    : outcome PoolError (list byte) :=
  prev_bytes ← ok_or InvalidHeader (hex_decode stratum_prev_hash);
  let prev_internal := swap_words prev_bytes in
  (* [header[4..36].copy_from_slice] panics on a length other than 32 *)
  (if decide (length prev_internal = 32%nat) then Ok tt else Panic) ≫= fun _ =>
  bits ← ok_or InvalidHeader (from_str_radix16 32 bits_hex);
  Ok (le_bytes 4 version ++ prev_internal ++ merkle_root ++ le_bytes 4 ntime
        ++ le_bytes 4 bits ++ le_bytes 4 nonce).

Definition encode_varint (n : Z) : list byte :=
  if n <? 0xfd then [z2b n]
  else if n <=? 0xffff then xfd :: le_bytes 2 n
  else if n <=? 0xffffffff then xfe :: le_bytes 4 n
  else xff :: le_bytes 8 n.

Definition assemble_block (header coinbase : list byte) (transactions : list (list byte)) : list byte :=
  header ++ encode_varint (Z.of_nat (1 + length transactions)) ++ coinbase ++ concat transactions.
Definition assemble_block_hex `{HexLib} (header coinbase : list byte)
    (transactions : list (list byte)) : string :=
  hex_encode (assemble_block header coinbase transactions).

Definition meets_target (hash target : list byte) : bool := lex_le (rev hash) target.

Definition hash_display_hex `{HexLib} (hash : list byte) : string := hex_encode (rev hash).

Definition validate_share_no_dedup `{HexLib} `{Sha256Lib} (params : ShareParams)
    (job : StratumJob) (job_entry : JobEntry) (extranonce1 : list byte) (session_difficulty : Z)
    : outcome PoolError ShareResult :=
  if je_superseded_by_clean job_entry then Err (StaleJob (sp_job_id params))
  else
    check_ntime (sp_ntime params) (min_time job) (cur_time job) ≫= fun _ =>
    coinbase ← assemble_coinbase job extranonce1 (sp_extranonce2 params);
    let merkle := merkle_root job coinbase in
    version ← resolve_version (version job) (sp_version_bits params) (sp_version_rolling_mask params);
    header ← build_header version (prev_hash job) merkle (sp_ntime params) (bits job) (sp_nonce params);
    let hash := double_sha256 header in
    let hash_difficulty := hash_to_difficulty hash in
    if meets_target hash (network_target job) then
      Ok (Block hash_difficulty (assemble_block_hex header coinbase (transactions job)) hash)
    else if meets_target hash (difficulty_to_target session_difficulty) then
      Ok (Valid session_difficulty hash_difficulty hash)
    else Err LowDifficulty.
