(* ===== verification/ValidatorFacts.v ===== *)
(** Facts on share validation: the outcome of [validate_share_no_dedup] as an
    integer comparison on the double hash of the reconstructed header, its
    freedom from panics, version rolling, block assembly, and the duplicate
    tracker as the list of the last accepted hashes. *)
From S2P Require Export Validator.

(** ** Targets as integers *)

Lemma meets_target_value hash target :
  length hash = length target -> meets_target hash target = (le2z hash <=? be2z target).
Proof.
  intros Hl. unfold meets_target. rewrite lex_le_be2z by (by rewrite length_rev).
  unfold be2z at 1. by rewrite rev_involutive.
Qed.

Lemma meets_difficulty hash d :
  length hash = 32%nat -> is_u64 d ->
  meets_target hash (difficulty_to_target d) = (le2z hash * Z.max 1 d <=? DIFF1).
Proof.
  intros Hl Hd. rewrite meets_target_value by (by rewrite difficulty_to_target_length).
  rewrite difficulty_to_target_value by done.
  apply eq_true_iff_eq. rewrite !Z.leb_le. split; intros H.
  - transitivity (DIFF1 / Z.max 1 d * Z.max 1 d); [nia|].
    rewrite Z.mul_comm. apply Z.mul_div_le. lia.
  - apply Z.div_le_lower_bound; lia.
Qed.

(** ** Version rolling *)

Lemma not32_testbit m n : 0 <= n < 32 -> Z.testbit (not32 m) n = negb (Z.testbit m n).
Proof.
  intros Hn. unfold not32. rewrite Z.lxor_spec. change 0xFFFFFFFF with (Z.ones 32).
  rewrite Z.ones_spec_low by lia. by rewrite xorb_true_r.
Qed.

Lemma u32_testbit_high z n : is_u32 z -> 32 <= n -> Z.testbit z n = false.
Proof.
  intros Hz Hn. unfold is_u in Hz. rewrite <- (Z.mod_small z (2 ^ 32)) by done.
  apply Z.mod_pow2_bits_high. lia.
Qed.

Lemma resolve_version_rolled base b mask :
  is_u32 base -> is_u32 b -> is_u32 mask ->
  Z.land b (not32 mask) = 0 ->
  exists v, resolve_version base (Some b) (Some mask) = Ok v /\
    forall n, 0 <= n -> Z.testbit v n = if Z.testbit mask n then Z.testbit b n else Z.testbit base n.
Proof.
  intros Hb Hr Hm Hl. unfold resolve_version. rewrite Hl. cbn [negb Z.eqb].
  eexists. split; [done|]. intros n Hn.
  rewrite Z.lor_spec, !Z.land_spec.
  destruct (Z.lt_ge_cases n 32) as [H32|H32].
  - rewrite not32_testbit by lia.
    destruct (Z.testbit mask n); cbn [negb]; rewrite ?andb_false_r, ?andb_true_r, ?orb_false_r; done.
  - by rewrite (u32_testbit_high base), (u32_testbit_high b), (u32_testbit_high mask) by done.
Qed.

Lemma resolve_version_cases base b mask :
  match resolve_version base b mask with
  | Ok _ => True
  | Err (InvalidParams _ _) => True
  | _ => False
  end.
Proof. unfold resolve_version. destruct b; [destruct (negb _)|]; done. Qed.

(** ** The header *)

Section header.
Context `{HL : HexLib} `{!HexLaws}.

Lemma build_header_ok version prev mr ntime bits_hex nonce internal b :
  hex_decode prev = Some (swap_words internal) -> length internal = 32%nat ->
  from_str_radix16 32 bits_hex = Some b ->
  build_header version prev mr ntime bits_hex nonce =
    Ok (le_bytes 4 version ++ internal ++ mr ++ le_bytes 4 ntime ++ le_bytes 4 b
          ++ le_bytes 4 nonce).
Proof.
  intros Hp Hl Hb. unfold build_header. rewrite Hp, Hb. cbn [ok_or mbind outcome_bind].
  rewrite (swap_words_involutive 8) by done. by rewrite decide_True.
Qed.

Lemma build_header_length version prev mr ntime bits_hex nonce h :
  length mr = 32%nat -> build_header version prev mr ntime bits_hex nonce = Ok h ->
  length h = 80%nat.
Proof.
  intros Hmr Hh. unfold build_header in Hh. destruct (hex_decode prev); [|done].
  cbn [ok_or mbind outcome_bind] in Hh. destruct (decide _) as [Hl|]; [|done].
  destruct (from_str_radix16 32 bits_hex); [|done]. cbn [ok_or mbind outcome_bind] in Hh.
  match type of Hh with Ok ?x = Ok _ => assert (h = x) as -> by congruence end.
  rewrite !length_app, !length_le_bytes. lia.
Qed.
End header.

(** ** Validation *)

(** The share a submission describes: the header a miner hashing the notified
    work would have hashed. *)
Definition share_header `{HexLib} `{Sha256Lib} (job : StratumJob) (internal_prev : list byte)
    (bits version ntime nonce : Z) (coinbase : list byte) : list byte :=
  le_bytes 4 version ++ internal_prev ++ merkle_root job coinbase ++ le_bytes 4 ntime
    ++ le_bytes 4 bits ++ le_bytes 4 nonce.

Section validate.
Context `{HL : HexLib} `{!HexLaws} `{SL : Sha256Lib} `{!Sha256Laws}.

Lemma double_sha256_length d : length (double_sha256 d) = 32%nat.
Proof. apply sha256_length. Qed.

(** The decision [validate_share_no_dedup] takes, over the integers: the
    hash of the header, read as a number, against the network target and
    against the share target of the session's difficulty. *)
Definition share_verdict (job : StratumJob) (d : Z) (header coinbase : list byte)
    : outcome PoolError ShareResult :=
  let hash := double_sha256 header in
  if le2z hash <=? be2z (network_target job) then
    Ok (Block (hash_to_difficulty hash)
          (assemble_block_hex header coinbase (transactions job)) hash)
  else if le2z hash * Z.max 1 d <=? DIFF1 then Ok (Valid d (hash_to_difficulty hash) hash)
  else Err LowDifficulty.

(** A submission that passes the checks before the hash is judged on the
    header its miner hashed. *)
Lemma validate_judges params job entry en1 d internal b v :
  job_wf job -> je_superseded_by_clean entry = false ->
  min_time job <= sp_ntime params <= saturating_add 32 (cur_time job) 7200 ->
  (length en1 + length (sp_extranonce2 params))%nat
    = (extranonce1_len job + extranonce2_len job)%nat ->
  resolve_version (version job) (sp_version_bits params) (sp_version_rolling_mask params) = Ok v ->
  hex_decode (prev_hash job) = Some (swap_words internal) -> length internal = 32%nat ->
  from_str_radix16 32 (bits job) = Some b ->
  let coinbase := coinbase1 job ++ en1 ++ sp_extranonce2 params ++ coinbase2 job in
  let header := share_header job internal b v (sp_ntime params) (sp_nonce params) coinbase in
  let hash := double_sha256 header in
  validate_share_no_dedup params job entry en1 d =
    if le2z hash <=? be2z (network_target job) then
      Ok (Block (hash_to_difficulty hash) (assemble_block_hex header coinbase (transactions job)) hash)
    else if meets_target hash (difficulty_to_target d) then Ok (Valid d (hash_to_difficulty hash) hash)
    else Err LowDifficulty.
Proof.
  intros Hwf Hs Ht Hlen Hv Hp Hi Hb coinbase header hash. unfold validate_share_no_dedup. rewrite Hs.
  unfold check_ntime. rewrite (proj2 (Z.ltb_ge _ _)) by lia.
  rewrite (proj2 (Z.ltb_ge (saturating_add _ _ _) _)) by lia. cbn [orb mbind outcome_bind].
  rewrite assemble_coinbase_exact by done. fold coinbase. cbn [mbind outcome_bind].
  rewrite Hv. cbn [mbind outcome_bind].
  rewrite (build_header_ok _ _ _ _ _ _ internal b) by done. cbn [mbind outcome_bind].
  fold (share_header job internal b v (sp_ntime params) (sp_nonce params) coinbase). fold header. fold hash.
  rewrite meets_target_value by (unfold hash; by rewrite double_sha256_length, (wf_target job)). done.
Qed.
Lemma validate_decides params job entry en1 d internal b v :
  job_wf job -> je_superseded_by_clean entry = false -> is_u64 d ->
  min_time job <= sp_ntime params <= saturating_add 32 (cur_time job) 7200 ->
  (length en1 + length (sp_extranonce2 params))%nat
    = (extranonce1_len job + extranonce2_len job)%nat ->
  resolve_version (version job) (sp_version_bits params) (sp_version_rolling_mask params) = Ok v ->
  hex_decode (prev_hash job) = Some (swap_words internal) -> length internal = 32%nat ->
  from_str_radix16 32 (bits job) = Some b ->
  let coinbase := coinbase1 job ++ en1 ++ sp_extranonce2 params ++ coinbase2 job in
  validate_share_no_dedup params job entry en1 d =
    share_verdict job d
      (share_header job internal b v (sp_ntime params) (sp_nonce params) coinbase) coinbase.
Proof.
  intros Hwf Hs Hd Ht Hlen Hv Hp Hi Hb coinbase. erewrite validate_judges by done. unfold share_verdict.
  rewrite meets_difficulty by (done || apply double_sha256_length). done.
Qed.

(** Whatever the miner submits, validating it against a job the builder
    returned does not panic. *)
Lemma validate_no_panic params job entry en1 d :
  job_wf job -> validate_share_no_dedup params job entry en1 d ≠ Panic.
Proof.
  intros Hwf. unfold validate_share_no_dedup. destruct (je_superseded_by_clean entry); [done|].
  unfold check_ntime. destruct (_ || _); [done|]. cbn [mbind outcome_bind].
  assert (exists cb, assemble_coinbase job en1 (sp_extranonce2 params) = Ok cb) as [cb ->].
  { destruct (decide ((length en1 + length (sp_extranonce2 params))%nat
      = (extranonce1_len job + extranonce2_len job)%nat)).
    - eexists. by apply assemble_coinbase_exact.
    - eexists. by apply assemble_coinbase_mismatch. }
  cbn [mbind outcome_bind].
  destruct (resolve_version _ _ _) as [v|e|] eqn:Ev; [|done|].
  2: { pose proof (resolve_version_cases (version job) (sp_version_bits params)
         (sp_version_rolling_mask params)) as Hc. by rewrite Ev in Hc. }
  cbn [mbind outcome_bind].
  destruct Hwf as [_ _ (internal & Hp & Hi) (b & Hb & _) _ _].
  rewrite (build_header_ok _ _ _ _ _ _ internal b) by done. cbn [mbind outcome_bind].
  repeat destruct (meets_target _ _); done.
Qed.

(** An accepted share met one of the two targets. *)
Lemma validate_accepts_work params job entry en1 d r :
  is_u64 d -> length (network_target job) = 32%nat ->
  validate_share_no_dedup params job entry en1 d = Ok r ->
  je_superseded_by_clean entry = false /\
  length (ShareResult_hash r) = 32%nat /\
  match r with
  | Valid a hd hash => a = d /\ hd = hash_to_difficulty hash /\ le2z hash * Z.max 1 d <= DIFF1
  | Block hd _ hash => hd = hash_to_difficulty hash /\ le2z hash <= be2z (network_target job)
  end.
Proof.
  intros Hd Hn. unfold validate_share_no_dedup. destruct (je_superseded_by_clean entry); [done|].
  intros Hr. apply outcome_bind_ok in Hr as (? & _ & Hr).
  apply outcome_bind_ok in Hr as (cb & _ & Hr).
  apply outcome_bind_ok in Hr as (v & _ & Hr).
  apply outcome_bind_ok in Hr as (h & _ & Hr).
  pose proof (double_sha256_length h) as Hl.
  rewrite meets_target_value in Hr by (by rewrite Hn).
  rewrite meets_difficulty in Hr by done.
  repeat break_in Hr; simplify_eq; cbn [ShareResult_hash]; b2p; eauto.
Qed.
End validate.

(** ** Block assembly *)

(** The CompactSize reader of the protocol. *)
Definition read_varint (l : list byte) : option (Z * list byte) :=
  match l with
  | [] => None
  | b :: l =>
      let n := if b2z b =? 0xfd then 2%nat else if b2z b =? 0xfe then 4%nat
               else if b2z b =? 0xff then 8%nat else 0%nat in
      if decide (n = 0%nat) then Some (b2z b, l)
      else if decide (n <= length l)%nat then Some (le2z (take n l), drop n l)
      else None
  end.

Lemma encode_varint_read n rest :
  is_u64 n -> read_varint (encode_varint n ++ rest) = Some (n, rest).
Proof.
  intros Hn. unfold is_u in Hn. unfold encode_varint.
  destruct (n <? 0xfd) eqn:E1; b2p.
  { cbn [app read_varint]. rewrite b2z_z2b, Z.mod_small by lia.
    rewrite !(proj2 (Z.eqb_neq _ _)) by lia. done. }
  assert (forall k (b : byte), (0 < k)%nat -> n < 256 ^ Z.of_nat k ->
    (if b2z b =? 0xfd then 2%nat else if b2z b =? 0xfe then 4%nat
     else if b2z b =? 0xff then 8%nat else 0%nat) = k ->
    read_varint ((b :: le_bytes k n) ++ rest) = Some (n, rest)) as Hk.
  { intros k b Hk0 Hk Hb. cbn [app read_varint]. rewrite Hb. rewrite decide_False by lia.
    rewrite decide_True by (rewrite length_app, length_le_bytes; lia).
    rewrite take_app_length', drop_app_length' by (by rewrite length_le_bytes).
    rewrite le2z_le_bytes, Z.mod_small by lia. done. }
  destruct (n <=? 0xffff) eqn:E2; b2p; [apply Hk; [lia|cbn; lia|done]|].
  destruct (n <=? 0xffffffff) eqn:E3; b2p; apply Hk; (lia || done || (cbn; lia)).
Qed.

(** ** The duplicate tracker *)

Definition ShareSet_wf (s : ShareSet) : Prop :=
  NoDup (order s) /\ seen s = list_to_set (order s) /\ (length (order s) <= max_size s)%nat /\
  (0 < max_size s)%nat.

Lemma ShareSet_size s : ShareSet_wf s -> size (seen s) = length (order s).
Proof. intros (Hn & -> & _). by apply size_list_to_set. Qed.

Lemma ShareSet_insert_fresh s key :
  ShareSet_wf s -> key ∉ seen s ->
  let s' := ShareSet_insert s key in
  ShareSet_wf s' /\ max_size s' = max_size s /\
  order s' = drop (S (length (order s)) - max_size s) (order s ++ [key]).
Proof.
  intros Hwf Hk. pose proof (ShareSet_size s Hwf) as Hsz. destruct Hwf as (Hn & Hs & Hl & Hm).
  unfold ShareSet_insert, ShareSet_contains. rewrite bool_decide_false by done. rewrite Hsz.
  destruct (decide _) as [Hfull|Hfull].
  - destruct (order s) as [|o os] eqn:Eo; [cbn in *; lia|]. cbn [seen order max_size].
    apply NoDup_cons in Hn as [Hno Hnos].
    rewrite Hs, list_to_set_cons in Hk.
    assert (S (length (o :: os)) - max_size s = 1)%nat as -> by lia.
    split; [|done]. unfold ShareSet_wf; cbn [seen order max_size]. split; [|split; [|split]].
    + apply NoDup_app. split; [done|]. split; [|apply NoDup_singleton]. set_solver.
    + rewrite Hs, list_to_set_cons, list_to_set_app_L. set_solver.
    + rewrite length_app. cbn in *. lia.
    + done.
  - cbn [seen order max_size].
    assert (S (length (order s)) - max_size s = 0)%nat as -> by lia. rewrite drop_0.
    split; [|done]. unfold ShareSet_wf; cbn [seen order max_size]. split; [|split; [|split]].
    + apply NoDup_app. split; [done|]. split; [|apply NoDup_singleton].
      rewrite Hs in Hk. set_solver.
    + rewrite Hs, list_to_set_app_L. set_solver.
    + rewrite length_app. cbn in *. lia.
    + done.
Qed.

(** A session's use of the tracker: validation outcomes to deduplicate, and
    clean jobs, which clear it. [dedup_run] returns the hashes accepted since
    the last clear, oldest first. *)
Inductive dedup_event := Submitted (r : outcome PoolError ShareResult) | CleanJob.

Definition dedup_step (st : ShareSet * list (list byte)) (e : dedup_event)
    : ShareSet * list (list byte) :=
  match e with
  | CleanJob => (ShareSet_clear st.1, [])
  | Submitted r =>
      match ShareSet_dedup st.1 r with
      | (s, Ok res) => (s, st.2 ++ [ShareResult_hash res])
      | (s, _) => (s, st.2)
      end
  end.
Definition dedup_run (es : list dedup_event) : ShareSet * list (list byte) :=
  fold_left dedup_step es (ShareSet_new, []).

(** The tracker holds the last [max_size] hashes accepted since the last
    clean job, and each accepted hash differs from the [max_size] before it. *)
Definition dedup_inv (st : ShareSet * list (list byte)) : Prop :=
  ShareSet_wf st.1 /\ max_size st.1 = 4096%nat /\
  order st.1 = drop (length st.2 - 4096) st.2 /\
  forall i j x, st.2 !! i = Some x -> st.2 !! j = Some x -> (i < j)%nat -> (4096 < j - i)%nat.

Lemma dedup_inv_step st e : dedup_inv st -> dedup_inv (dedup_step st e).
Proof.
  intros (Hwf & Hm & Ho & Hd). destruct st as [s acc]. cbn [fst snd] in *.
  destruct e as [r|]; cbn [dedup_step fst snd].
  2: { destruct Hwf as (_ & _ & _ & Hpos). split; [|split; [done|split; [done|]]].
       - split; [constructor | split; [done | cbn; split; [lia | done]]].
       - intros i j x Hi. cbn [snd] in Hi. by rewrite lookup_nil in Hi. }
  destruct r as [res|e|]; cbn [ShareSet_dedup]; [|done|done].
  destruct (ShareSet_contains s (ShareResult_hash res)) eqn:Ec; [done|].
  unfold ShareSet_contains in Ec. apply bool_decide_eq_false in Ec.
  set (k := ShareResult_hash res) in *. clearbody k.
  destruct (ShareSet_insert_fresh s k Hwf Ec) as (Hwf' & Hm' & Ho').
  split; [done|]. split; [cbn; congruence|]. cbn [fst snd]. rewrite Hm in Ho'. split.
  - rewrite Ho', Ho, length_drop, length_app. cbn [length].
    rewrite <- drop_app_le by lia. rewrite drop_drop. f_equal. lia.
  - intros i j x Hi Hj Hij.
    assert (j < length (acc ++ [k]))%nat as Hjl by by apply lookup_lt_Some in Hj.
    rewrite length_app in Hjl. cbn in Hjl.
    rewrite lookup_app_l in Hi by lia.
    destruct (decide (j < length acc)%nat) as [Hjl'|Hjl'].
    { rewrite lookup_app_l in Hj by lia. by apply (Hd i j x). }
    assert (j = length acc) as -> by lia.
    rewrite lookup_app_r, Nat.sub_diag in Hj by lia. injection Hj as <-.
    destruct (decide (4096 < length acc - i)%nat) as [|Hn]; [done|]. destruct Ec.
    destruct Hwf as (_ & -> & _). rewrite Ho. apply elem_of_list_to_set.
    apply list_elem_of_lookup. exists (i - (length acc - 4096))%nat.
    rewrite lookup_drop. rewrite <- Hi. f_equal. lia.
Qed.

Lemma dedup_run_inv es : dedup_inv (dedup_run es).
Proof.
  unfold dedup_run.
  assert (forall st, dedup_inv st -> dedup_inv (fold_left dedup_step es st)) as H.
  { induction es as [|e es IH]; intros st Hst; [done|]. cbn. by apply IH, dedup_inv_step. }
  apply H. split; [|split; [done|split; [done|]]].
  - split; [constructor|]. split; [done|]. cbn. split; lia.
  - intros i j x Hi. cbn [snd] in Hi. by rewrite lookup_nil in Hi.
Qed.

(** ** The text of a block *)

Lemma block_hex_reads `{HL : HexLib} `{!HexLaws} header coinbase txs :
  Z.of_nat (length txs) < 2 ^ 64 - 1 ->
  exists rest, hex_decode (assemble_block_hex header coinbase txs) = Some (header ++ rest) /\
    read_varint rest = Some (1 + Z.of_nat (length txs), coinbase ++ concat txs).
Proof.
  intros Hl. unfold assemble_block_hex. rewrite hex_decode_encode. eexists. split; [done|].
  rewrite encode_varint_read; [do 2 f_equal; lia | unfold is_u; lia].
Qed.
