(* ===== verification/Reference.v ===== *)
(** Concrete instances of the interfaces of [Externals], with their laws:
    base16, SHA-256 (FIPS 180-4), the transaction wire format and a stand-in
    for address parsing.  The theorems of the development hold for every
    instance; the witnesses evaluate them on these. *)
From S2P Require Export ValidatorFacts.
From Stdlib Require Import Strings.Ascii.

(** ** Base16 *)
Definition ref_hex_chars (b : list byte) : list ascii :=
  concat (map (fun x => hex_chars 2 (b2z x)) b).
Fixpoint ref_unhex (l : list ascii) : option (list byte) :=
  match l with
  | [] => Some []
  | a :: b :: l =>
      match to_digit16 a, to_digit16 b, ref_unhex l with
      | Some x, Some y, Some r => Some (z2b (x * 16 + y) :: r)
      | _, _, _ => None
      end
  | _ => None
  end.
Lemma ref_unhex_length n l b :
  (length l <= n)%nat -> ref_unhex l = Some b -> length l = (2 * length b)%nat.
Proof.
  revert l b; induction n as [|n IH]; intros [|x [|y l]] b Hn Hb; cbn in Hn, Hb; try lia; try done.
  1,2: by injection Hb as <-.
  destruct (to_digit16 x); [|done]. destruct (to_digit16 y); [|done].
  destruct (ref_unhex l) as [r|] eqn:E; [|done]. injection Hb as <-.
  apply IH in E; [|lia]. cbn. lia.
Qed.
#[export] Instance ref_hex : HexLib := {
  hex_encode b := String.string_of_list_ascii (ref_hex_chars b);
  hex_decode s := ref_unhex (String.list_ascii_of_string s);
}.
#[export] Instance ref_hex_laws : HexLaws.
Proof.
  split.
  - intros b. cbn. rewrite list_of_string_of_list. unfold ref_hex_chars.
    induction b as [|x b IH]; [done|]. cbn [map concat].
    set (tl := concat _) in *. clearbody tl. cbn [hex_chars app ref_unhex].
    pose proof (b2z_range x) as Hx. pose proof (Z.div_mod (b2z x) 16).
    pose proof (Z.mod_pos_bound (b2z x) 16). pose proof (Z.mod_pos_bound (b2z x / 16) 16).
    rewrite !to_digit16_hex_digit by lia. rewrite IH.
    rewrite (Z.mod_small (b2z x / 16)).
    2: { split; [apply Z.div_pos; lia | apply Z.div_lt_upper_bound; lia]. }
    replace (b2z x / 16 * 16 + b2z x mod 16) with (b2z x) by lia. by rewrite z2b_b2z.
  - intros b. cbn [hex_encode ref_hex]. rewrite to_of_list. unfold ref_hex_chars.
    induction b as [|x b IH]; [done|]. cbn [map concat hex_chars app forallb]. unfold is_ascii_hexdigit in *.
    pose proof (b2z_range x). rewrite !to_digit16_hex_digit by (apply Z.mod_pos_bound; lia). done.
  - intros s b. cbn. rewrite <- (String.string_of_list_ascii_of_string s) at 2.
    generalize (String.list_ascii_of_string s) as l. intros l.
    assert (String.length (String.string_of_list_ascii l) = length l) as ->.
    { induction l; cbn; congruence. }
    by apply (ref_unhex_length (length l)).
Qed.

(** ** SHA-256 *)
(** The constants as FIPS 180-4 defines them: the first 32 bits of the
    fractional parts of the cube roots (round constants) and square roots
    (initial state) of the first primes. *)
Definition first_primes (n : nat) : list Z :=
  take n (List.filter
    (fun p => forallb (fun d => (p <=? d) || negb (p mod d =? 0)) (map Z.of_nat (seq 2 16)))
    (map Z.of_nat (seq 2 320))).
Fixpoint cube_root (bits : nat) (x acc : Z) : Z :=
  match bits with
  | O => acc
  | S b =>
      let t := acc + 2 ^ Z.of_nat b in
      cube_root b x (if t * t * t <=? x then t else acc)
  end.
Definition sha_k : list Z :=
  Eval vm_compute in map (fun p => wrap 32 (cube_root 36 (p * 2 ^ 96) 0)) (first_primes 64).
Definition sha_init : list Z :=
  Eval vm_compute in map (fun p => wrap 32 (Z.sqrt (p * 2 ^ 64))) (first_primes 8).

Definition rotr (n x : Z) : Z :=
  Z.lor (Z.shiftr x n) (wrap 32 (Z.shiftl x (32 - n))).
Definition sigma (a b c x : Z) : Z := Z.lxor (Z.lxor (rotr a x) (rotr b x)) (Z.shiftr x c).
Definition bsigma (a b c x : Z) : Z := Z.lxor (Z.lxor (rotr a x) (rotr b x)) (rotr c x).
Definition nth0 (l : list Z) (i : nat) : Z := nth i l 0.

(** The message schedule, newest word first. *)
Fixpoint sha_extend (n : nat) (w : list Z) : list Z :=
  match n with
  | O => w
  | S n =>
      sha_extend n (wrap 32 (sigma 17 19 10 (nth0 w 1) + nth0 w 6 + sigma 7 18 3 (nth0 w 14) + nth0 w 15)
                      :: w)
  end.
Definition sha_round (st : list Z) (kw : Z * Z) : list Z :=
  match st with
  | [a; b; c; d; e; f; g; h] =>
      let ch := Z.lxor (Z.land e f) (Z.land (not32 e) g) in
      let maj := Z.lxor (Z.lxor (Z.land a b) (Z.land a c)) (Z.land b c) in
      let t1 := h + bsigma 6 11 25 e + ch + fst kw + snd kw in
      let t2 := bsigma 2 13 22 a + maj in
      [wrap 32 (t1 + t2); a; b; c; wrap 32 (d + t1); e; f; g]
  | _ => st
  end.
Definition sha_block (st : list Z) (block : list byte) : list Z :=
  let w := rev (sha_extend 48 (rev (map be2z (chunks 4 block)))) in
  map (fun p => wrap 32 (fst p + snd p)) (combine st (fold_left sha_round (combine sha_k w) st)).
Definition sha_pad (m : list byte) : list byte :=
  let l := length m in
  m ++ [x80] ++ replicate (Z.to_nat ((55 - Z.of_nat l) mod 64)) x00 ++ be_bytes 8 (8 * Z.of_nat l).
(** Eight output words, four bytes each. *)
Definition sha_output (st : list Z) : list byte :=
  concat (map (fun i => be_bytes 4 (nth0 st i)) (seq 0 8)).
#[export] Instance ref_sha256 : Sha256Lib := fun m =>
  sha_output (fold_left sha_block (chunks 64 (sha_pad m)) sha_init).
#[export] Instance ref_sha256_laws : Sha256Laws.
Proof. intros m. unfold sha256_digest, ref_sha256, sha_output. by rewrite !length_concat. Qed.

Example sha256_abc :
  hex_encode (sha256_digest (str_bytes "abc")) =
  "ba7816bf8f01cfea414140de5dae2223b00361a396177a9cb410ff61f20015ad".
Proof. vm_compute. reflexivity. Qed.

(** ** Transactions and addresses

    An address stands for the script of its own bytes. *)
Definition ref_is_address (s : string) : bool := String.prefix "bc1" s || String.prefix "bcrt1" s.
#[export] Instance ref_bitcoin : BitcoinLib := {
  serialize_tx := wire_tx;
  address_script_pubkey s := if ref_is_address s then Some (str_bytes s) else None;
  address_is_valid_for s n :=
    ref_is_address s &&
    match n with
    | Bitcoin => String.prefix "bc1" s
    | Regtest => String.prefix "bcrt1" s
    | _ => false
    end;
}.
#[export] Instance ref_bitcoin_laws : BitcoinLaws.
Proof.
  split; [done|]. intros s n. cbn. intros H. apply andb_true_iff in H as [-> _]. eauto.
Qed.
