(* ===== verification/Float64.v ===== *)
(** Rust's [f64] as IEEE 754 binary64, on the standard library's
    [spec_float] (an executable specification; no primitive floats, so no
    axioms): the arithmetic operators, comparisons, [clamp], [min], [max],
    [round], [sqrt], the [as] conversions and [Duration::as_secs_f64]. *)
From S2P Require Export Prelude.
From Stdlib Require Export Floats.SpecFloat.

Abbreviation f64 := spec_float.
Abbreviation prec := 53.
Abbreviation emax := 1024.

(** ** Constants and conversions *)

(** [m] times [2 ^ e], rounded to nearest, ties to even. *)
Definition f64_lit (m e : Z) : f64 := binary_normalize prec emax m e false.
(** [x as f64] for an unsigned [x]. *)
Definition f64_of_Z (z : Z) : f64 := f64_lit z 0.
Definition f64_zero : f64 := S754_zero false.
Definition f64_one : f64 := S754_finite false (2 ^ 52) (-52).
Definition f64_infinity : f64 := S754_infinity false.

(** ** Arithmetic and comparison *)

Definition f64_add : f64 -> f64 -> f64 := SFadd prec emax.
Definition f64_sub : f64 -> f64 -> f64 := SFsub prec emax.
Definition f64_mul : f64 -> f64 -> f64 := SFmul prec emax.
Definition f64_div : f64 -> f64 -> f64 := SFdiv prec emax.
Definition f64_sqrt : f64 -> f64 := SFsqrt prec emax.
Definition f64_lt : f64 -> f64 -> bool := SFltb.
Definition f64_le : f64 -> f64 -> bool := SFleb.
(** [(lo..=hi).contains(&x)]: false for a NaN. *)
Definition f64_in (lo hi x : f64) : bool := f64_le lo x && f64_le x hi.
Definition f64_is_finite (x : f64) : bool :=
  match x with S754_zero _ | S754_finite _ _ _ => true | _ => false end.

(** [x.clamp(lo, hi)] panics unless [lo <= hi]; a NaN stays a NaN. *)
Definition f64_clamp (x lo hi : f64) : option f64 :=
  if f64_le lo hi then Some (if f64_lt x lo then lo else if f64_lt hi x then hi else x)
  else None.
(** [f64::min] and [f64::max] return the other operand of a NaN. *)
Definition f64_min (x y : f64) : f64 :=
  match x, y with
  | S754_nan, _ => y
  | _, S754_nan => x
  | _, _ => if f64_lt y x then y else x
  end.
Definition f64_max (x y : f64) : f64 :=
  match x, y with
  | S754_nan, _ => y
  | _, S754_nan => x
  | _, _ => if f64_lt x y then y else x
  end.

(** ** Rounding to integers *)

(** [x.round()]: to the nearest integer, ties away from zero. *)
Definition f64_round (x : f64) : f64 :=
  match x with
  | S754_finite s m e =>
      if 0 <=? e then x
      else
        let q := (2 * Zpos m + 2 ^ (- e)) / 2 ^ (1 - e) in
        if q =? 0 then S754_zero s
        else if s then SFopp (f64_of_Z q) else f64_of_Z q
  | _ => x
  end.
(** [x as u64]: truncated, saturated, zero for a NaN. *)
Definition f64_to_u (w : Z) (x : f64) : Z :=
  match x with
  | S754_nan | S754_zero _ => 0
  | S754_infinity s => if s then 0 else umax w
  | S754_finite s m e => if s then 0 else Z.min (umax w) (Z.shiftl (Zpos m) e)
  end.

Lemma f64_to_u_range w x : 0 < w -> is_u w (f64_to_u w x).
Proof.
  intros Hw. unfold is_u, f64_to_u, umax.
  assert (0 < 2 ^ w) by (apply Z.pow_pos_nonneg; lia).
  destruct x as [?|[]| |[] m e]; try lia.
  pose proof (proj2 (Z.shiftl_nonneg (Zpos m) e) (Pos2Z.is_nonneg m)). lia.
Qed.

(** [Duration::as_secs_f64] of a duration in nanoseconds. *)
Definition NANOS : Z := 1000000000.
Definition as_secs_f64 (d : Z) : f64 :=
  f64_add (f64_of_Z (d / NANOS)) (f64_div (f64_of_Z (d mod NANOS)) (f64_of_Z NANOS)).

(** ** Clamping between a number and its reciprocal

    [step.clamp(1.0 / factor, factor)] panics unless [1.0 / factor <= factor]. *)

Lemma digits2_log2 m : Zpos (digits2_pos m) = Z.log2 (Zpos m) + 1.
Proof.
  induction m as [p IH|p IH|]; cbn [digits2_pos]; rewrite ?Pos2Z.inj_succ, ?IH; [| |done].
  - rewrite (Pos2Z.inj_xI p), Z.log2_succ_double; lia.
  - rewrite (Pos2Z.inj_xO p), Z.log2_double; lia.
Qed.
Lemma digits2_bounds m d :
  Zpos (digits2_pos m) = d -> 2 ^ (d - 1) <= Zpos m < 2 ^ d.
Proof.
  rewrite digits2_log2. intros <-. replace (Z.log2 (Zpos m) + 1 - 1) with (Z.log2 (Zpos m)) by lia.
  rewrite Z.add_1_r. by apply Z.log2_spec.
Qed.
(** A mantissa within the precision is left alone. *)
Lemma shr_fexp_id q e l :
  0 <= q < 2 ^ 53 -> -1074 <= e -> fst (shr_fexp prec emax q e l) = shr_record_of_loc q l /\
  snd (shr_fexp prec emax q e l) = e.
Proof.
  intros [Hq Hq'] He. unfold shr_fexp, shr.
  assert (fexp 53 1024 (Zdigits2 q + e) - e <= 0) as Hn.
  { assert (Zdigits2 q <= 53).
    { destruct q as [|p|p]; cbn [Zdigits2]; [lia| |lia]. rewrite digits2_log2.
      apply Z.log2_lt_pow2 in Hq'; lia. }
    unfold fexp, emin. lia. }
  destruct (_ - e) eqn:E; [done| |done]. lia.
Qed.
(** The result of rounding a mantissa of at most 53 bits, inexact or not. *)
Lemma round_aux_small q e l :
  0 < q < 2 ^ 53 -> -1074 <= e < 0 ->
  exists m' e', binary_round_aux prec emax false q e l = S754_finite false m' e' /\
    (e' = e \/ (e' = e + 1 /\ Zpos m' = 2 ^ 52)).
Proof.
  intros Hq He. unfold binary_round_aux.
  destruct (shr_fexp_id q e l) as [H1 H2]; [lia..|].
  destruct (shr_fexp prec emax q e l) as [mrs e1]. cbn in H1, H2. subst.
  set (r := round_nearest_even _ _).
  assert (q <= r <= q + 1) as Hr.
  { unfold r, round_nearest_even, loc_of_shr_record, shr_record_of_loc.
    destruct l as [|[]]; cbn; try destruct (Z.even q); lia. }
  clearbody r. destruct (decide (r = 2 ^ 53)) as [->|Hne].
  - unfold shr_fexp, shr. replace (Zdigits2 (2 ^ 53)) with 54 by reflexivity.
    replace (fexp 53 1024 (54 + e) - e) with 1 by (unfold fexp, emin; lia).
    cbn [iter_pos]. replace (shr_1 _) with (Build_shr_record (2 ^ 52) false false) by reflexivity.
    cbn [shr_m]. change (2 ^ 52) with (Zpos (2 ^ 52)).
    assert ((e + 1 <=? 1024 - 53) = true) as -> by (apply Z.leb_le; lia).
    eexists _, _. split; [reflexivity|]. right. done.
  - destruct (shr_fexp_id r e loc_Exact) as [H1 H2]; [lia..|].
    destruct (shr_fexp prec emax r e loc_Exact) as [mrs e1]. cbn in H1, H2. subst. cbn.
    destruct r as [|p|p]; [lia| |lia].
    assert ((e <=? 1024 - 53) = true) as E by (apply Z.leb_le; lia). cbn in E. rewrite E.
    eexists _, _. split; [reflexivity|]. by left.
Qed.
Lemma round_aux_pow53 e :
  -1074 <= e < 0 -> binary_round_aux prec emax false (2 ^ 53) e loc_Exact = S754_finite false (2 ^ 52) (e + 1).
Proof.
  intros He. unfold binary_round_aux.
  assert (shr_fexp 53 1024 (2 ^ 53) e loc_Exact = (Build_shr_record (2 ^ 52) false false, e + 1)) as ->.
  { unfold shr_fexp, shr. replace (Zdigits2 (2 ^ 53)) with 54 by reflexivity.
    replace (fexp 53 1024 (54 + e) - e) with 1 by (unfold fexp, emin; lia). reflexivity. }
  cbn [shr_m round_nearest_even loc_of_shr_record].
  destruct (shr_fexp_id (2 ^ 52) (e + 1) loc_Exact) as [H1 H2]; [lia..|].
  destruct (shr_fexp prec emax (2 ^ 52) (e + 1) loc_Exact) as [mrs e1]. cbn [fst snd] in H1, H2. subst.
  cbn [shr_record_of_loc shr_m]. change (2 ^ 52) with (Zpos (2 ^ 52)).
  by assert ((e + 1 <=? 1024 - 53) = true) as -> by (apply Z.leb_le; lia).
Qed.
Lemma f64_le_finite m1 e1 m2 e2 :
  e1 < e2 \/ (e1 = e2 /\ Zpos m1 <= Zpos m2) ->
  f64_le (S754_finite false m1 e1) (S754_finite false m2 e2) = true.
Proof.
  intros H. unfold f64_le, SFleb, SFcompare.
  destruct (Z.compare_spec e1 e2); [|done|lia].
  change (Pos.compare_cont Eq m1 m2) with (m1 ?= m2)%positive.
  destruct (Pos.compare_spec m1 m2); [done..|]. lia.
Qed.
Lemma f64_one_le_inv x :
  valid_binary prec emax x = true -> f64_is_finite x = true -> f64_le f64_one x = true ->
  exists m e, x = S754_finite false m e /\ -52 <= e <= 971 /\ 2 ^ 52 <= Zpos m < 2 ^ 53.
Proof.
  destruct x as [?|?| |[] m e]; try done. cbn [valid_binary]. unfold bounded, canonical_mantissa.
  intros Hv _ Hle. b2p.
  assert (-52 <= e).
  { unfold f64_le, SFleb, SFcompare, f64_one in Hle. destruct (Z.compare_spec (-52) e); [lia|lia|done]. }
  assert (Hd : Zpos (digits2_pos m) = 53) by (unfold fexp, emin in *; lia).
  apply digits2_bounds in Hd. eexists _, _. split; [done|]. split; lia.
Qed.
Lemma recip_le x :
  valid_binary prec emax x = true -> f64_is_finite x = true -> f64_le f64_one x = true ->
  f64_le (f64_div f64_one x) x = true.
Proof.
  intros Hv Hf Hle. destruct (f64_one_le_inv x) as (m & e & -> & He & Hm); [done..|].
  unfold f64_div, f64_one, SFdiv, SFdiv_core_binary. cbn [xorb].
  change (Zdigits2 (Zpos (2 ^ 52))) with 53.
  assert (Zdigits2 (Zpos m) = 53) as ->.
  { cbn [Zdigits2]. rewrite digits2_log2.
    assert (Z.log2 (Zpos m) = 52) by (apply Z.log2_unique; lia). lia. }
  set (e' := Z.min (fexp 53 1024 _) _).
  assert (e' = Z.max (-105 - e) (-1074)) as He' by (unfold e', fexp, emin; lia). clearbody e'.
  assert (exists s, -52 - e - e' = Zpos s /\ Zpos s <= 53) as (s & Es & Hs).
  { destruct (-52 - e - e') as [|s|s] eqn:E; [lia| |lia]. exists s. split; [done|lia]. }
  rewrite Es, Z.shiftl_mul_pow2 by lia.
  change (Zpos (2 ^ 52)) with (2 ^ 52). rewrite <- Z.pow_add_r by lia.
  pose proof (Z_div_mod (2 ^ (52 + Zpos s)) (Zpos m) ltac:(lia)) as Hdiv.
  destruct (Z.div_eucl _ _) as [q r]. destruct Hdiv as [Hq Hr].
  assert (2 ^ (52 + Zpos s) = 2 ^ 52 * 2 ^ Zpos s) as Hpow by (apply Z.pow_add_r; lia).
  assert (2 ^ Zpos s <= 2 ^ 53) by (apply Z.pow_le_mono_r; lia).
  assert (2 ^ 51 <= 2 ^ Zpos s) by (apply Z.pow_le_mono_r; lia).
  destruct (decide (q = 2 ^ 53)) as [->|Hne].
  - assert (r = 0) as -> by nia. 
    assert (new_location (Zpos m) 0 = loc_Exact) as ->
      by (unfold new_location; by destruct (Z.even (Zpos m))).
    rewrite round_aux_pow53 by lia. apply f64_le_finite.
    change (Zpos (2 ^ 52)) with (2 ^ 52). lia.
  - assert (0 < q < 2 ^ 53) by nia.
    destruct (round_aux_small q e' (new_location (Zpos m) r)) as (m' & e'' & -> & Hcase); [lia..|].
    apply f64_le_finite. lia.
Qed.
