(* ===== verification/Config.v ===== *)
(** The configuration of the pool (config.rs): the records as they are after
    loading, the checks that refuse a configuration that would misbehave
    later, and the [SOLO_POOL_*] environment overrides. The [toml] crate's
    [Value] is the data the overrides rewrite; turning it into the records is
    the crate's own deserialisation and is not modelled. *)
From S2P Require Export Text Float64.
From Stdlib Require Import Strings.Ascii.

Abbreviation empty_str := String.EmptyString.

(** ** The records *)

Record PoolConfig := {
  listen_addr : string;
  coinbase_address : string;
  coinbase_tag : string;
  initial_difficulty : Z;
  extranonce1_size : Z;
  extranonce2_size : Z;
  max_connections : Z;
  idle_timeout_secs : Z;
  found_block_dir : string;
  pool_network : option string;
}.
Record Sv2Config := {
  sv2_enabled : bool;
  persist_authority_key : bool;
  authority_key_file : string;
  cert_validity_secs : Z;
}.
Definition default_sv2_config : Sv2Config := {|
  sv2_enabled := true;
  persist_authority_key := true;
  authority_key_file := "sv2-authority.key";
  cert_validity_secs := 365 * 24 * 60 * 60;
|}.
Record RpcConfig := {
  url : string;
  cookie_path : option string;
  user : option string;
  password : option string;
  timeout_secs : Z;
}.
Record ZmqConfig := {
  hashblock_endpoint : string;
  poll_fallback : bool;
  poll_interval_ms : Z;
}.
Record VardiffConfig := {
  target_share_time_secs : Z;
  retarget_interval_secs : Z;
  min_difficulty : Z;
  max_difficulty : Z;
  max_retarget_factor : f64;
}.
Record SecurityConfig := {
  max_connections_per_ip : Z;
  max_shares_per_sec : Z;
  ban_duration_secs : Z;
  max_invalid_shares : Z;
  max_message_bytes : Z;
  max_worker_name_len : Z;
  max_authorizations_per_session : Z;
}.
Record MetricsConfig := {
  prometheus_addr : string;
  stats_db_path : option string;
  allow_runtime_settings : bool;
  allowed_hosts : list string;
}.
Record LoggingConfig := {
  level : string;
  json : bool;
  log_dir_raw : option string;
  log_max_files : Z;
}.
Record Config := {
  pool : PoolConfig;
  bitcoin_rpc : RpcConfig;
  zmq : ZmqConfig;
  vardiff : VardiffConfig;
  security : SecurityConfig;
  metrics : MetricsConfig;
  logging : LoggingConfig;
  sv2 : Sv2Config;
  env_overrides : list string;
}.

(** [LoggingConfig::log_dir]: an empty or blank value counts as unset. *)
Definition log_dir (l : LoggingConfig) : option string :=
  match log_dir_raw l with
  | Some d => if bool_decide (trim d = empty_str) then None else Some (trim d)
  | None => None
  end.

(** [RpcConfig::read_cookie] on the file's contents, [None] when unreadable. *)
Definition parse_cookie (contents : option string) : option (string * string) :=
  match contents with
  | Some c => split_once ":" (trim c)
  | None => None
  end.
(** [RpcConfig::rpc_auth]: the cookie first, then explicit credentials. *)
Definition rpc_auth (cfg : RpcConfig) (cookie_file : option string) : option (string * string) :=
  match parse_cookie cookie_file with
  | Some up => Some up
  | None =>
      match user cfg, password cfg with
      | Some u, Some p => Some (u, p)
      | _, _ => None
      end
  end.

(** ** Validation *)

(** The refusals of [Config::validate], one per [bail!]. *)
Inductive ConfigError :=
| LogMaxFilesZero
| AllowedHostNotBare (entry : string)
| ExtranonceTotalZero
| ExtranonceTooWide (en_total : Z)
| Extranonce1Zero
| ScriptSigTooLong (script_sig_len : Z)
| AuthorityKeyFileEmpty
| MinDifficultyZero
| DifficultyRangeInverted
| RetargetFactorBad
| TargetShareTimeZero
| RetargetIntervalZero.

Definition MAX_SCRIPT_SIG : Z := 100.
Definition HEIGHT_PUSH_MAX : Z := 5.

(** [Config::validate_vardiff]. *)
Definition validate_vardiff (v : VardiffConfig) : outcome ConfigError unit :=
  if min_difficulty v =? 0 then Err MinDifficultyZero
  else if max_difficulty v <? min_difficulty v then Err DifficultyRangeInverted
  else if negb (f64_is_finite (max_retarget_factor v)) || f64_lt (max_retarget_factor v) f64_one then
    Err RetargetFactorBad
  else if target_share_time_secs v =? 0 then Err TargetShareTimeZero
  else if retarget_interval_secs v =? 0 then Err RetargetIntervalZero
  else Ok tt.

(** The loop over [allowed_hosts]. *)
Definition host_entry_bad (entry : string) : bool :=
  bool_decide (entry = empty_str) || str_contains "://" entry || str_contains "/" entry.
Fixpoint check_hosts (l : list string) : outcome ConfigError unit :=
  match l with
  | [] => Ok tt
  | e :: l => if host_entry_bad (trim e) then Err (AllowedHostNotBare (trim e)) else check_hosts l
  end.

(** [Config::validate]. *)
Definition validate (c : Config) : outcome ConfigError unit :=
  let p := pool c in
  if log_max_files (logging c) =? 0 then Err LogMaxFilesZero
  else
    _ ← check_hosts (allowed_hosts (metrics c));
    let en_total := wrap 64 (extranonce1_size p + extranonce2_size p) in
    if en_total =? 0 then Err ExtranonceTotalZero
    else if 32 <? en_total then Err (ExtranonceTooWide en_total)
    else if extranonce1_size p =? 0 then Err Extranonce1Zero
    else
      let script_sig_len := HEIGHT_PUSH_MAX + str_len (coinbase_tag p) + Z.max en_total 4 in
      if MAX_SCRIPT_SIG <? script_sig_len then Err (ScriptSigTooLong script_sig_len)
      else if sv2_enabled (sv2 c) && persist_authority_key (sv2 c)
              && trim_is_empty (authority_key_file (sv2 c)) then Err AuthorityKeyFileEmpty
      else validate_vardiff (vardiff c).

(** ** Credentials in a readable file *)

(** [credential_exposure_warning] on Unix: [mode] are the permission bits of
    the file (octal 077 masks the group and other bits), [None] when its metadata cannot be read. *)
Definition credential_exposed (mode : option Z) (c : Config) : option Z :=
  let from_env key := bool_decide (key ∈ env_overrides c) in
  let has_password :=
    negb (from_env "bitcoin_rpc.password") &&
    match password (bitcoin_rpc c) with
    | Some p => negb (bool_decide (p = empty_str))
    | None => false
    end in
  let in_url := negb (from_env "bitcoin_rpc.url") && str_contains "@" (url (bitcoin_rpc c)) in
  if negb has_password && negb in_url then None
  else
    match mode with
    | None => None
    | Some mode => if Z.land mode 0x3f =? 0 then None else Some (Z.land mode 0x1ff)
    end.

(** ** Environment overrides *)

(** The [toml] crate's [Value], for the values the overrides look at. *)
Inductive toml_value :=
| TString (s : string)
| TInteger (i : Z)
| TFloat (f : f64)
| TBoolean (b : bool)
| TOther
| TTable (t : gmap string toml_value).

(** [parse::<f64>()]: a sign, [inf], [infinity] or [nan] in any case, or
    digits with an optional point and exponent, correctly rounded. *)
Fixpoint span_digits (l : list ascii) : list ascii * list ascii :=
  match l with
  | c :: r =>
      if (48 <=? ord c) && (ord c <=? 57) then
        let '(d, rest) := span_digits r in (c :: d, rest)
      else ([], l)
  | [] => ([], [])
  end.
(** The double nearest to [n * 10 ^ e]. *)
Definition f64_decimal (neg : bool) (n e : Z) : f64 :=
  let x :=
    match n with
    | Zpos m =>
        if 0 <=? e then f64_of_Z (n * 10 ^ e)
        else SFdiv prec emax (S754_finite false m 0) (S754_finite false (Z.to_pos (10 ^ (- e))) 0)
    | _ => f64_zero
    end in
  if neg then SFopp x else x.
Definition parse_exponent (l : list ascii) : option Z :=
  match l with
  | [] => Some 0
  | c :: r =>
      if (ord c =? 101) || (ord c =? 69) then
        let '(neg, ds) :=
          match r with
          | d :: r' => if ord d =? 45 then (true, r') else if ord d =? 43 then (false, r') else (false, r)
          | [] => (false, [])
          end in
        match ds with
        | [] => None
        | _ => (fun z => if neg : bool then - z else z) <$> digits_value 0 ds
        end
      else None
  end.
Definition parse_f64 (s : string) : option f64 :=
  let '(neg, l) :=
    match to_list s with
    | c :: r => if ord c =? 45 then (true, r) else if ord c =? 43 then (false, r) else (false, c :: r)
    | [] => (false, [])
    end in
  let word := to_ascii_lowercase (of_list l) in
  if bool_decide (word = "inf") || bool_decide (word = "infinity") then Some (S754_infinity neg)
  else if bool_decide (word = "nan") then Some S754_nan
  else
    let '(int, rest) := span_digits l in
    let '(frac, rest) :=
      match rest with
      | c :: r => if ord c =? 46 then span_digits r else ([], rest)
      | [] => ([], [])
      end in
    if bool_decide (int ++ frac = []) then None
    else
      match parse_exponent rest, digits_value 0 (int ++ frac) with
      | Some e, Some n => Some (f64_decimal neg n (e - Z.of_nat (length frac)))
      | _, _ => None
      end.
Example parse_f64_ex :
  parse_f64 "1.5" = Some (f64_lit 3 (-1)) /\ parse_f64 "-25e-1" = Some (SFopp (f64_lit 5 (-1)))
  /\ parse_f64 "." = None /\ parse_f64 ".5x" = None.
Proof. vm_compute. done. Qed.

(** [infer_toml_scalar]: surrounding double quotes force a string. *)
Definition quote : string := of_list [chr 34].
Definition infer_toml_scalar (raw : string) : toml_value :=
  match str_strip_prefix quote raw ≫= str_strip_suffix quote with
  | Some quoted => TString quoted
  | None =>
      if bool_decide (raw = "true") || bool_decide (raw = "false") then
        TBoolean (bool_decide (raw = "true"))
      else
        match parse_i64 raw with
        | Some i => TInteger i
        | None => match parse_f64 raw with Some f => TFloat f | None => TString raw end
        end
  end.

Inductive OverrideError :=
| RootNotTable
| MissingSeparator (name : string)
| EmptySectionOrKey (name : string)
| SectionNotTable (section : string)
| BadValue (name : string)
| NonScalar (name : string).

Definition ENV_PREFIX : string := "SOLO_POOL_".

(** The typing of one override by the value it replaces. *)
Definition parse_as (name raw : string) (old : option toml_value) : outcome OverrideError toml_value :=
  match old with
  | Some (TInteger _) => TInteger <$> ok_or (BadValue name) (parse_i64 raw)
  | Some (TFloat _) => TFloat <$> ok_or (BadValue name) (parse_f64 raw)
  | Some (TBoolean _) => TBoolean <$> ok_or (BadValue name) (parse_bool raw)
  | Some (TString _) => Ok (TString raw)
  | Some _ => Err (NonScalar name)
  | None => Ok (infer_toml_scalar raw)
  end.
(** One iteration of the loop of [apply_env_overrides]. *)
Definition apply_override (root : gmap string toml_value) (name raw : string)
    : outcome OverrideError (gmap string toml_value * option string) :=
  match str_strip_prefix ENV_PREFIX name with
  | None => Ok (root, None)
  | Some rest =>
      match split_once "__" rest with
      | None => Err (MissingSeparator name)
      | Some (section, key) =>
          let section := to_ascii_lowercase section in
          let key := to_ascii_lowercase key in
          if bool_decide (section = empty_str) || bool_decide (key = empty_str) then
            Err (EmptySectionOrKey name)
          else
            match default (TTable ∅) (root !! section) with
            | TTable table =>
                parsed ← parse_as name raw (table !! key);
                Ok (<[section := TTable (<[key := parsed]> table)]> root,
                    Some (section ++ "." ++ key)%string)
            | _ => Err (SectionNotTable section)
            end
      end
  end.
Fixpoint apply_overrides_loop (root : gmap string toml_value) (vars : list (string * string))
    (applied : list string) : outcome OverrideError (gmap string toml_value * list string) :=
  match vars with
  | [] => Ok (root, applied)
  | (name, raw) :: vars =>
      r ← apply_override root name raw;
      apply_overrides_loop (fst r) vars (applied ++ match snd r with Some k => [k] | None => [] end)
  end.
Definition apply_env_overrides (value : toml_value) (vars : list (string * string))
    : outcome OverrideError (toml_value * list string) :=
  match value with
  | TTable root =>
      r ← apply_overrides_loop root vars [];
      Ok (TTable (fst r), snd r)
  | _ => Err RootNotTable
  end.

(** [expand_tilde]: a leading tilde is the home directory ([Path::join] of an
    absolute path is that path). *)
Definition path_join (base rest : string) : string :=
  if starts_with "/" rest then rest
  else if bool_decide (base = empty_str) || ends_with "/" base then base +:+ rest
  else base +:+ "/" +:+ rest.
Definition expand_tilde (home : option string) (path : string) : string :=
  match str_strip_prefix "~/" path, home with
  | Some rest, Some home => path_join home rest
  | _, _ => path
  end.

(** ** Loading *)

(** Crate [toml]: the parser, and the derived reading of a table as a
    [Config] without its list of overrides. *)
Class TomlLib := {
  toml_from_str : string -> outcome string toml_value;
  config_of_toml : toml_value -> outcome string Config;
}.
Inductive LoadError :=
| OpeningFile (path : string)
| ParsingToml (e : string)
| Overriding (e : OverrideError)
| Interpreting (e : string)
| NotAccepted (e : ConfigError).
Definition load_step {E A} (f : E -> LoadError) (r : outcome E A) : outcome LoadError A :=
  match r with Ok a => Ok a | Err e => Err (f e) | Panic => Panic end.
Definition with_overrides (c : Config) (names : list string) : Config := {|
  pool := pool c; bitcoin_rpc := bitcoin_rpc c; zmq := zmq c; vardiff := vardiff c; security := security c;
  metrics := metrics c; logging := logging c; sv2 := sv2 c; env_overrides := names |}.
Definition load `{TomlLib} (read : string -> option string) (vars : list (string * string)) (path : string)
    : outcome LoadError Config :=
  raw ← ok_or (OpeningFile path) (read path);
  value ← load_step ParsingToml (toml_from_str raw);
  '(value, names) ← load_step Overriding (apply_env_overrides value vars);
  config ← load_step Interpreting (config_of_toml value);
  let config := with_overrides config names in
  _ ← load_step NotAccepted (validate config);
  Ok config.
(** Nothing is started from a configuration that was not checked. *)
Lemma load_validated `{TomlLib} read vars path c : load read vars path = Ok c -> validate c = Ok tt.
Proof.
  unfold load. intros Hl. apply outcome_bind_ok in Hl as (raw & _ & Hl). apply outcome_bind_ok in Hl as (value & _ & Hl).
  apply outcome_bind_ok in Hl as ([value' names] & _ & Hl). apply outcome_bind_ok in Hl as (config & _ & Hl). cbv zeta in Hl.
  destruct (validate (with_overrides config names)) as [[]|e|] eqn:Ev; [|done..]. cbn in Hl. by injection Hl as <-.
Qed.

(** What acceptance says of the sections the sessions start from. *)
Definition extranonces_u64 (c : Config) : Prop :=
  0 <= extranonce1_size (pool c) < 2 ^ 63 /\ 0 <= extranonce2_size (pool c) < 2 ^ 63.
Lemma validate_vardiff_section c : validate c = Ok tt -> validate_vardiff (vardiff c) = Ok tt.
Proof.
  intros H. unfold validate in H. destruct (_ =? _); [discriminate|].
  apply outcome_bind_ok in H as (? & _ & H). cbv zeta in H.
  repeat (break_in H; try discriminate). exact H.
Qed.
Lemma validate_extranonces c :
  validate c = Ok tt -> extranonces_u64 c ->
  1 <= extranonce1_size (pool c) /\ extranonce1_size (pool c) + extranonce2_size (pool c) <= 32.
Proof.
  intros H [H1 H2]. unfold validate in H. destruct (_ =? _); [discriminate|].
  apply outcome_bind_ok in H as (? & _ & H). cbv zeta in H. unfold wrap in H. rewrite Z.mod_small in H by lia.
  repeat (break_in H; try discriminate; b2p). lia.
Qed.
