(* ===== verification/Vardiff.v ===== *)
(** Per-session variable difficulty (mining/vardiff.rs).

    An [Instant] is a number of nanoseconds on the monotonic clock and a
    [Duration] a non-negative number of nanoseconds; every reading of the
    clock is an argument, in the order the code takes them. *)
From S2P Require Export Config.

(** ** Instants and durations of the standard library *)

Definition from_secs (s : Z) : Z := s * NANOS.
(** [a.duration_since(b)] saturates at zero. *)
Definition duration_since (a b : Z) : Z := Z.max 0 (a - b).
(** An instant holds a signed 64-bit number of seconds. *)
Definition INSTANT_MIN : Z := - 2 ^ 63 * NANOS.
Definition INSTANT_END : Z := 2 ^ 63 * NANOS.
Definition instant_checked_sub (t d : Z) : option Z := if t - d <? INSTANT_MIN then None else Some (t - d).
(** [t + d], which panics on overflow. *)
Definition instant_add (t d : Z) : option Z := if t + d <? INSTANT_END then Some (t + d) else None.

(** ** Constants *)

Definition SHARE_RETENTION : Z := from_secs 86400.
Definition MIN_OBSERVATION : Z := from_secs 30.
Definition RETARGET_HYSTERESIS : f64 := f64_lit 3 (-1).
Definition RETARGET_WINDOW_SHARES : Z := 20.
Definition FULL_STEP_BEYOND : f64 := f64_lit 3 0.

(** ** The share record that travels between sessions *)

Record ShareHistory := {
  hist_share_times : list (Z * Z);
  hist_started_at : Z;
}.

Definition from_unix_rows (rows : list (Z * Z)) (now_unix now : Z) : option ShareHistory :=
  let share_times :=
    omap (fun r : Z * Z =>
      let age := from_secs (saturating_sub now_unix (fst r)) in
      if SHARE_RETENTION <? age then None
      else (fun at_ => (at_, snd r)) <$> instant_checked_sub now age) rows in
  match share_times with
  | [] => None
  | (t, _) :: _ => Some {| hist_share_times := share_times; hist_started_at := t |}
  end.

(** ** The session's difficulty state *)

Record Vardiff := {
  cfg : VardiffConfig;
  share_times : list (Z * Z);
  last_retarget : Z;
  current : Z;
  previous : Z;
  started_at : Z;
  suggest_applied : bool;
}.

Definition new_vardiff (c : VardiffConfig) (initial : Z) (now1 now2 : Z) : Vardiff := {|
  cfg := c;
  share_times := [];
  last_retarget := now1;
  current := initial;
  previous := initial;
  started_at := now2;
  suggest_applied := false;
|}.

Definition set_current (v : Vardiff) (difficulty : Z) : Vardiff :=
  if difficulty =? current v then v
  else {| cfg := cfg v; share_times := share_times v; last_retarget := last_retarget v;
          current := difficulty; previous := current v;
          started_at := started_at v; suggest_applied := suggest_applied v |}.
Definition set_last_retarget (v : Vardiff) (t : Z) : Vardiff :=
  {| cfg := cfg v; share_times := share_times v; last_retarget := t;
     current := current v; previous := previous v;
     started_at := started_at v; suggest_applied := suggest_applied v |}.
Definition grant_suggest (v : Vardiff) (now : Z) : Vardiff :=
  {| cfg := cfg v; share_times := share_times v; last_retarget := now;
     current := current v; previous := previous v;
     started_at := started_at v; suggest_applied := true |}.
Definition set_share_record (v : Vardiff) (times : list (Z * Z)) (started : Z) : Vardiff :=
  {| cfg := cfg v; share_times := times; last_retarget := last_retarget v;
     current := current v; previous := previous v;
     started_at := started; suggest_applied := suggest_applied v |}.

(** [Vardiff::suggest]; [None] is the panic of [u64::clamp]. *)
Definition suggest (v : Vardiff) (difficulty now : Z) : option (Vardiff * Z) :=
  clamped ← clamp difficulty (min_difficulty (cfg v)) (max_difficulty (cfg v));
  let v := set_current v clamped in
  Some (if suggest_applied v then v else grant_suggest v now, clamped).

Definition credit_for (v : Vardiff) (hash_difficulty : Z) : Z :=
  if current v <=? hash_difficulty then current v
  else if previous v <=? hash_difficulty then previous v
  else min_difficulty (cfg v).

Definition expired (now : Z) (e : Z * Z) : bool := SHARE_RETENTION <? duration_since now (fst e).
Definition record_share (v : Vardiff) (assigned_difficulty now : Z) : Vardiff :=
  set_share_record v (drop_while (expired now) (share_times v ++ [(now, assigned_difficulty)]))
    (started_at v).

Definition take_share_history (v : Vardiff) (now : Z) : Vardiff * ShareHistory :=
  (set_share_record v [] now,
   {| hist_share_times := share_times v; hist_started_at := started_at v |}).

Definition restore_share_history (v : Vardiff) (h : ShareHistory) (now : Z) : Vardiff :=
  set_share_record v
    (List.filter (fun e => negb (expired now e)) (hist_share_times h) ++ share_times v)
    (Z.min (started_at v) (hist_started_at h)).

Definition retarget_interval (v : Vardiff) : Z := from_secs (retarget_interval_secs (cfg v)).
Definition retarget_due (v : Vardiff) : option Z := instant_add (last_retarget v) (retarget_interval v).

Definition saturating_sum (l : list Z) : Z := fold_left (fun sum d => saturating_add 64 sum d) l 0.
Definition in_window (now window : Z) (e : Z * Z) : bool := duration_since now (fst e) <=? window.
Definition work_in_window (v : Vardiff) (window now : Z) : Z * Z :=
  (saturating_sum (map snd (List.filter (in_window now window) (share_times v))),
   Z.min (duration_since now (started_at v)) window).

(** ** Retargeting *)

(** The window a retarget judges. *)
Definition lookback (v : Vardiff) : Z :=
  Z.max (from_secs (saturating_mul 64 (target_share_time_secs (cfg v)) RETARGET_WINDOW_SHARES))
        (retarget_interval v).
(** The observed rate as a multiple of the target rate. *)
Definition retarget_ratio (v : Vardiff) (work : Z) (observed : f64) : f64 :=
  let target_sps := f64_of_Z (target_share_time_secs (cfg v)) in
  let proven := if work =? 0 then f64_of_Z (current v) else f64_of_Z work in
  let ideal := f64_div (f64_mul proven target_sps) observed in
  f64_div ideal (f64_of_Z (current v)).
(** The difficulty a ratio outside the band moves to. *)
Definition retarget_step (v : Vardiff) (ratio : f64) : option Z :=
  let step :=
    if f64_in (f64_div f64_one FULL_STEP_BEYOND) FULL_STEP_BEYOND ratio then f64_sqrt ratio else ratio in
  let factor := max_retarget_factor (cfg v) in
  bounded ← f64_clamp step (f64_div f64_one factor) factor;
  clamp (f64_to_u 64 (f64_round (f64_mul (f64_of_Z (current v)) bounded)))
    (min_difficulty (cfg v)) (max_difficulty (cfg v)).

(** [Vardiff::check_retarget]; the clock is read for the due check, for the
    new mark and for the window; [None] is a panic of a [clamp]. *)
Definition check_retarget (v : Vardiff) (now1 now2 now3 : Z) : option (Vardiff * option Z) :=
  if duration_since now1 (last_retarget v) <? retarget_interval v then Some (v, None)
  else
    let v := set_last_retarget v now2 in
    let '(work, observed) := work_in_window v (lookback v) now3 in
    let observed := as_secs_f64 observed in
    if f64_le observed f64_zero then Some (v, None)
    else
      let ratio := retarget_ratio v work observed in
      if f64_in (f64_div f64_one RETARGET_HYSTERESIS) RETARGET_HYSTERESIS ratio then Some (v, None)
      else
        new_diff ← retarget_step v ratio;
        if new_diff =? current v then Some (v, None)
        else Some (set_current v new_diff, Some new_diff).

(** [Vardiff::estimated_hashrate_in_window]. *)
Definition estimated_hashrate_in_window (v : Vardiff) (window now : Z) : f64 :=
  let '(sum_diff, observed) := work_in_window v window now in
  if observed <? Z.min MIN_OBSERVATION window then f64_zero
  else if sum_diff =? 0 then f64_zero
  else f64_div (f64_mul (f64_of_Z sum_diff) (f64_of_Z (2 ^ 32))) (as_secs_f64 observed).

(** ** Facts *)

Lemma saturating_sum_exact l :
  Forall (fun d => 0 <= d) l -> saturating_sum l = Z.min (foldr Z.add 0 l) (umax 64).
Proof.
  intros Hl. unfold saturating_sum.
  assert (forall acc, 0 <= acc <= umax 64 ->
    fold_left (fun s d => saturating_add 64 s d) l acc = Z.min (acc + foldr Z.add 0 l) (umax 64)) as H.
  { induction Hl as [|d l Hd Hl IH]; intros acc Hacc; cbn [fold_left foldr]; [lia|].
    assert (0 <= foldr Z.add 0 l) by (clear IH; induction Hl; cbn [foldr]; lia).
    unfold saturating_add at 2. generalize dependent (umax 64). intros m IH Hacc. rewrite IH by lia. lia. }
  rewrite H; [done|]. by split.
Qed.

Lemma filter_drop_while {A} (f g : A -> bool) (l : list A) :
  (forall x, f x = true -> g x = false) ->
  List.filter g (drop_while f l) = List.filter g l.
Proof.
  intros H. induction l as [|x l IH]; [done|]. cbn [drop_while].
  destruct (f x) eqn:E; [|done]. cbn [List.filter]. by rewrite (H x E).
Qed.
Lemma filter_filter_weaker {A} (f g : A -> bool) (l : list A) :
  (forall x, g x = true -> f x = true) -> List.filter g (List.filter f l) = List.filter g l.
Proof.
  intros H. induction l as [|x l IH]; [done|]. cbn [List.filter].
  destruct (f x) eqn:E; cbn [List.filter]; destruct (g x) eqn:E'; try congruence.
  specialize (H x E'). congruence.
Qed.
(** An expired share is outside every window within the retention, then and
    later. *)
Lemma expired_out_of_window now now' window e :
  now <= now' -> window <= SHARE_RETENTION -> expired now e = true -> in_window now' window e = false.
Proof.
  unfold expired, in_window, duration_since. generalize SHARE_RETENTION as R.
  intros R ?? E. b2p. apply Z.leb_gt. lia.
Qed.

Lemma credit_for_cases v h :
  (current v <= h /\ credit_for v h = current v)
  \/ (h < current v /\ previous v <= h /\ credit_for v h = previous v)
  \/ (h < current v /\ h < previous v /\ credit_for v h = min_difficulty (cfg v)).
Proof. unfold credit_for. repeat break_goal; b2p; lia. Qed.

Lemma set_current_cfg v d : cfg (set_current v d) = cfg v.
Proof. unfold set_current. by destruct (_ =? _). Qed.
Lemma set_current_current v d : current (set_current v d) = d.
Proof. unfold set_current. destruct (Z.eqb_spec d (current v)); cbn; congruence. Qed.
Lemma set_current_last v d : last_retarget (set_current v d) = last_retarget v.
Proof. unfold set_current. by destruct (_ =? _). Qed.
Lemma set_current_applied v d : suggest_applied (set_current v d) = suggest_applied v.
Proof. unfold set_current. by destruct (_ =? _). Qed.
#[export] Hint Rewrite set_current_cfg set_current_current set_current_last set_current_applied : pool_len.

Lemma validate_vardiff_ok c :
  validate_vardiff c = Ok tt <->
  min_difficulty c ≠ 0 /\ min_difficulty c <= max_difficulty c
  /\ f64_is_finite (max_retarget_factor c) = true
  /\ f64_lt (max_retarget_factor c) f64_one = false
  /\ target_share_time_secs c ≠ 0 /\ retarget_interval_secs c ≠ 0.
Proof.
  unfold validate_vardiff. split.
  - intros H. repeat break_in H; try discriminate; b2p.
    destruct (f64_is_finite _); [|discriminate]. repeat split; try done; try lia.
  - intros (H1 & H2 & H3 & H4 & H5 & H6). rewrite H3, H4. cbn [negb orb].
    repeat (break_goal; b2p; try lia). done.
Qed.

(** A finite factor not below one is at least one. *)
Lemma f64_one_le x :
  f64_is_finite x = true -> f64_lt x f64_one = false -> f64_le f64_one x = true.
Proof.
  unfold f64_one. generalize (2 ^ 52)%positive as k. intros k.
  destruct x as [s|s| |s m e]; [done|done|done|]. intros _.
  unfold f64_lt, f64_le, SFltb, SFleb, SFcompare.
  destruct s; [done|]. rewrite (Z.compare_antisym e). destruct (e ?= -52); cbn [CompOpp]; [|done|done].
  change (Pos.compare_cont Eq) with Pos.compare.
  rewrite (Pos.compare_antisym m k). by destruct (m ?= k)%positive.
Qed.
(** A loaded configuration never makes a retarget panic. *)
Lemma retarget_step_total v ratio :
  validate_vardiff (cfg v) = Ok tt -> valid_binary prec emax (max_retarget_factor (cfg v)) = true ->
  exists d, retarget_step v ratio = Some d /\ min_difficulty (cfg v) <= d <= max_difficulty (cfg v).
Proof.
  intros Hc Hv. apply validate_vardiff_ok in Hc as (H1 & H2 & H3 & H4 & _).
  unfold retarget_step, f64_clamp. rewrite (recip_le _ Hv H3 (f64_one_le _ H3 H4)). cbn.
  match goal with |- exists d, clamp ?x ?lo ?hi = _ /\ _ =>
    destruct (clamp_total x lo hi H2) as [d Hd] end.
  exists d. split; [done|]. by apply clamp_in_range in Hd.
Qed.
(** The whole of a retarget check under a configuration that was accepted. *)
Lemma check_retarget_spec v now1 now2 now3 :
  validate_vardiff (cfg v) = Ok tt -> valid_binary prec emax (max_retarget_factor (cfg v)) = true ->
  exists v' r, check_retarget v now1 now2 now3 = Some (v', r) /\
    cfg v' = cfg v /\ share_times v' = share_times v /\ started_at v' = started_at v /\
    (duration_since now1 (last_retarget v) < retarget_interval v -> v' = v /\ r = None) /\
    (retarget_interval v <= duration_since now1 (last_retarget v) -> last_retarget v' = now2) /\
    match r with
    | None => current v' = current v /\ previous v' = previous v
    | Some d => min_difficulty (cfg v) <= d <= max_difficulty (cfg v) /\ d ≠ current v
                /\ current v' = d /\ previous v' = current v
    end.
Proof.
  intros Hc Hv. unfold check_retarget.
  destruct (Z.ltb_spec (duration_since now1 (last_retarget v)) (retarget_interval v)).
  { eexists _, _. split; [done|]. repeat split; lia. }
  destruct (work_in_window _ _ _) as [work observed].
  destruct (f64_le _ _). { eexists _, _. split; [done|]. repeat split; lia. }
  destruct (f64_in _ _ _). { eexists _, _. split; [done|]. repeat split; lia. }
  match goal with |- context [retarget_step ?a ?b] =>
    destruct (retarget_step_total a b) as (d & Hd & Hr); [exact Hc|exact Hv|]; rewrite Hd end.
  cbn. destruct (Z.eqb_spec d (current v)).
  { eexists _, _. split; [done|]. repeat split; lia. }
  eexists _, _. split; [done|]. unfold set_current. cbn.
  destruct (Z.eqb_spec d (current v)); [done|]. cbn in *. repeat split; lia.
Qed.
