(* ===== verification/Settings.v ===== *)
(** The payout address that can be changed at run time (settings.rs). The
    network comes from the node and never changes; the address is usable only
    while it is valid for that network. *)
From S2P Require Export Config Error.

Section settings.
Context {HB : BitcoinLib}.

(** [AddressState] inside [RuntimeSettings]. *)
Record RuntimeSettings := {
  rs_network : string;
  rs_address : string;
  rs_valid : bool;
}.

Definition network_of (network : string) : option Network :=
  if bool_decide (network = "mainnet") then Some Bitcoin
  else if bool_decide (network = "testnet") then Some Testnet
  else if bool_decide (network = "testnet4") then Some Testnet4
  else if bool_decide (network = "signet") then Some Signet
  else if bool_decide (network = "regtest") then Some Regtest
  else None.
(** Why an address is refused. *)
Inductive AddressError :=
| UnknownNetwork (network : string)
| NotAnAddress
| WrongNetwork (network : string).
Definition validate (address network : string) : outcome AddressError unit :=
  match network_of network with
  | None => Err (UnknownNetwork network)
  | Some net =>
      match address_script_pubkey address with
      | None => Err NotAnAddress
      | Some _ => if address_is_valid_for address net then Ok tt else Err (WrongNetwork network)
      end
  end.
Definition is_ok {E A} (r : outcome E A) : bool := match r with Ok _ => true | _ => false end.

(** The node's [getblockchaininfo] chain name as a network name. *)
Definition chain_network (node_chain : string) : option string :=
  if bool_decide (node_chain = "main") then Some "mainnet"
  else if bool_decide (node_chain = "test") then Some "testnet"
  else if bool_decide (node_chain = "testnet4") then Some "testnet4"
  else if bool_decide (node_chain = "signet") then Some "signet"
  else if bool_decide (node_chain = "regtest") then Some "regtest"
  else None.
Inductive SettingsError := UnrecognizedChain (chain : string) | NetworkMismatch (asserted network : string).

(** [RuntimeSettings::new]. *)
Definition settings_new (pool_cfg : PoolConfig) (node_chain : string) : outcome SettingsError RuntimeSettings :=
  match chain_network node_chain with
  | None => Err (UnrecognizedChain node_chain)
  | Some network =>
      let mismatch :=
        match pool_network pool_cfg with
        | Some asserted => if bool_decide (asserted = network) then None else Some asserted
        | None => None
        end in
      match mismatch with
      | Some asserted => Err (NetworkMismatch asserted network)
      | None =>
          Ok {| rs_network := network; rs_address := coinbase_address pool_cfg;
                rs_valid := is_ok (validate (coinbase_address pool_cfg) network) |}
      end
  end.

Definition set_address (s : RuntimeSettings) (address : string) : RuntimeSettings :=
  {| rs_network := rs_network s; rs_address := address; rs_valid := true |}.
Definition apply_persisted (s : RuntimeSettings) (address : option string) : RuntimeSettings :=
  match address with
  | None => s
  | Some addr => if is_ok (validate addr (rs_network s)) then set_address s addr else s
  end.
Definition update (s : RuntimeSettings) (address : string) : RuntimeSettings * outcome AddressError unit :=
  match validate address (rs_network s) with
  | Ok _ => (set_address s address, Ok tt)
  | e => (s, e)
  end.
Definition paused_reason (s : RuntimeSettings) : option AddressError :=
  if rs_valid s then None
  else match validate (rs_address s) (rs_network s) with Err e => Some e | _ => None end.
Definition valid_coinbase_address (s : RuntimeSettings) : option string :=
  if rs_valid s then Some (rs_address s) else None.

(** ** The gate: a usable address is valid on the node's network *)

Inductive settings_op := OpApplyPersisted (a : option string) | OpUpdate (a : string).
Definition settings_step (s : RuntimeSettings) (op : settings_op) : RuntimeSettings :=
  match op with
  | OpApplyPersisted a => apply_persisted s a
  | OpUpdate a => fst (update s a)
  end.
Definition settings_inv (net : string) (s : RuntimeSettings) : Prop :=
  rs_network s = net /\ rs_valid s = is_ok (validate (rs_address s) net).

Lemma settings_new_inv pool_cfg chain s :
  settings_new pool_cfg chain = Ok s ->
  exists net, chain_network chain = Some net /\ settings_inv net s.
Proof.
  unfold settings_new. destruct (chain_network chain) as [net|]; [|done].
  cbv zeta. intros H. exists net. split; [done|].
  assert (s = {| rs_network := net; rs_address := coinbase_address pool_cfg;
                 rs_valid := is_ok (validate (coinbase_address pool_cfg) net) |}) as ->; [|done].
  destruct (pool_network pool_cfg) as [a|]; [|congruence].
  destruct (bool_decide (a = net)); congruence.
Qed.
Lemma settings_step_inv net s op : settings_inv net s -> settings_inv net (settings_step s op).
Proof.
  intros [Hn Hv]. destruct op as [[a|]|a]; cbn; [|done|].
  - destruct (validate a (rs_network s)) eqn:E; [|done..]. split; [done|]. cbn. by rewrite <- Hn, E.
  - unfold update. destruct (validate a (rs_network s)) eqn:E; [|done..]. split; [done|].
    cbn. by rewrite <- Hn, E.
Qed.
Lemma validate_ok address network :
  validate address network = Ok tt <->
  exists net, network_of network = Some net /\ is_Some (address_script_pubkey address)
              /\ address_is_valid_for address net = true.
Proof.
  unfold validate. split.
  - intros H. destruct (network_of network) as [net|]; [|done]. exists net.
    destruct (address_script_pubkey address) as [spk|]; [|done].
    destruct (address_is_valid_for address net); [|done]. eauto.
  - intros (net & -> & [spk ->] & ->). done.
Qed.
End settings.
