(* ===== verification/Rpc.v ===== *)
(** The wrapper around the node's RPC (bitcoin/rpc.rs): the template parser,
    the reading of [submitblock] answers, recovery from a rotated cookie, the
    redaction of URLs. The transport is [bitcoincore_rpc]'s: a call's answer
    is an argument. *)
From S2P Require Export Template Config.
From Stdlib Require Import Strings.Ascii.

(** ** URLs and timeouts *)

(** The characters before the first [c] and the rest from [c] on. *)
Definition split_at_char (c : ascii) (s : string) : string * string :=
  match split_once (of_list [c]) s with
  | Some (a, b) => (a, of_list (c :: to_list b))
  | None => (s, empty_str)
  end.
Definition redact_url (url : string) : string :=
  match split_once "://" url with
  | None => url
  | Some (scheme, rest) =>
      let '(authority, path) := split_at_char (chr 47) rest in
      match rsplit_once "@" authority with
      | Some (_, host) => (scheme ++ "://***@" ++ host ++ path)%string
      | None => url
      end
  end.
Example redact_ex :
  redact_url "http://alice:p@ss@node.lan:8332/wallet/x" = "http://***@node.lan:8332/wallet/x"
  /\ redact_url "http://h/a@b" = "http://h/a@b".
Proof. split; reflexivity. Qed.

Definition MIN_TIMEOUT_SECS : Z := 5.
Definition effective_timeout_secs (configured : Z) : Z :=
  if configured <? MIN_TIMEOUT_SECS then MIN_TIMEOUT_SECS else configured.

(** ** The client and its cookie *)

Definition map_rpc {A} (r : outcome RpcError A) : outcome PoolError A :=
  match r with Ok a => Ok a | Err e => Err (Rpc e) | Panic => Panic end.

Section client.
Context {Client : Type}.
(** [build_client] with the user and password of a cookie. *)
Context (build_client : string -> string * string -> Z -> outcome PoolError Client).

Record Inner := { client : Client; cookie : option (string * string) }.

(** [RpcClient::new]: the configuration with its timeout raised, and the
    client built from the cookie or the explicit credentials. *)
Definition with_timeout (c : RpcConfig) (t : Z) : RpcConfig := {|
  url := url c; cookie_path := cookie_path c; user := user c; password := password c; timeout_secs := t |}.
Definition rpc_new (cfg : RpcConfig) (cookie_file : option string) : outcome PoolError (RpcConfig * Inner) :=
  let cfg := with_timeout cfg (effective_timeout_secs (timeout_secs cfg)) in
  let cookie := parse_cookie cookie_file in
  auth ← ok_or (Other "No RPC credentials available. Provide a readable cookie_path or explicit user/password.")
           (rpc_auth cfg cookie_file);
  c ← build_client (url cfg) auth (timeout_secs cfg);
  Ok (cfg, {| client := c; cookie := cookie |}).

(** [call_with_refresh]: [f] and [retry] are the call as it answers the first
    and the second time, [cookie_file] the cookie file's contents in between. *)
Definition call_with_refresh {T} (cfg : RpcConfig) (f retry : Client -> outcome PoolError T)
    (cookie_file : option string) (st : Inner) : Inner * outcome PoolError T :=
  match f (client st) with
  | Err first_err =>
      match parse_cookie cookie_file with
      | None => (st, Err first_err)
      | Some fresh =>
          if bool_decide (cookie st = Some fresh) then (st, Err first_err)
          else
            match build_client (url cfg) fresh (timeout_secs cfg) with
            | Ok c => ({| client := c; cookie := Some fresh |}, retry c)
            | Err e => (st, Err e)
            | Panic => (st, Panic)
            end
      end
  | r => (st, r)
  end.
(** The calls that only pass an answer on. *)
Definition best_block_hash (cfg : RpcConfig) (f retry : Client -> outcome RpcError string) (cookie_file : option string) (st : Inner) :=
  call_with_refresh cfg (fun c => map_rpc (f c)) (fun c => map_rpc (retry c)) cookie_file st.
Definition network_hashrate {T} (cfg : RpcConfig) (f retry : Client -> outcome RpcError T) (cookie_file : option string) (st : Inner) :=
  call_with_refresh cfg (fun c => map_rpc (f c)) (fun c => map_rpc (retry c)) cookie_file st.
End client.
Arguments Inner : clear implicits.

(** ** Reading the node's answers *)

Section answers.
Context {F64 : Type} {HJ : JsonLib F64} {HL : HexLib}.

(** [value.get(key)]. *)
Definition json_get (v : Value) (key : string) : option Value :=
  m ← as_object v; jmap_get m key.
Definition missing_field (key : string) : PoolError :=
  Other ("missing or invalid getblocktemplate field: " ++ key)%string.
Definition value_as_string (v : Value) (key : string) : outcome PoolError string :=
  ok_or (missing_field key) (json_get v key ≫= as_str).
Definition value_as_u64 (v : Value) (key : string) : outcome PoolError Z :=
  ok_or (missing_field key) (json_get v key ≫= as_u64).
Definition value_as_u32 (v : Value) (key : string) : outcome PoolError Z :=
  n ← value_as_u64 v key;
  if n <? 2 ^ 32 then Ok n
  else Err (Other ("getblocktemplate field out of range for u32: " ++ key)%string).

Definition parse_gbt_transaction (tx : Value) : outcome PoolError GbtTransaction :=
  data_hex ← ok_or (Other "GBT transaction missing data field") (json_get tx "data" ≫= as_str);
  data ← ok_or (Other "GBT transaction data hex decode") (hex_decode data_hex);
  txid ← value_as_string tx "txid";
  fee ← value_as_u64 tx "fee";
  weight ← value_as_u64 tx "weight";
  Ok {| gtx_data := data; gtx_txid := txid;
        gtx_hash := match json_get tx "hash" ≫= as_str with
                    | Some h => h
                    | None => default empty_str (json_get tx "wtxid" ≫= as_str)
                    end;
        gtx_fee := fee; gtx_weight := weight |}.

(** The second half of [get_block_template], from the node's answer. *)
Definition parse_block_template (result : Value) : outcome PoolError GbtResult :=
  transactions ← match json_get result "transactions" ≫= as_array with
                 | Some txs => collect_res parse_gbt_transaction txs
                 | None => Ok []
                 end;
  version ← value_as_u32 result "version";
  prev ← value_as_string result "previousblockhash";
  bits ← value_as_string result "bits";
  cur ← value_as_u32 result "curtime";
  height ← value_as_u64 result "height";
  reward ← value_as_u64 result "coinbasevalue";
  Ok {| gbt_version := version; gbt_prev_hash := prev; gbt_bits := bits; gbt_cur_time := cur;
        gbt_min_time := match value_as_u32 result "mintime" with
                        | Ok t => t
                        | _ => match value_as_u32 result "curtime" with Ok t => t | _ => 0 end
                        end;
        gbt_height := height; gbt_coinbase_value := reward; gbt_transactions := transactions;
        gbt_longpoll_id := json_get result "longpollid" ≫= as_str;
        gbt_default_witness_commitment := json_get result "default_witness_commitment" ≫= as_str;
        gbt_rules := match json_get result "rules" ≫= as_array with
                     | Some rules => omap as_str rules
                     | None => []
                     end |}.

(** [submit_block] after the call. *)
Definition submit_block_result (result : Value) : outcome PoolError () :=
  if is_null result then Ok tt
  else
    match as_str result with
    | Some reason =>
        if bool_decide (reason ∈ ["duplicate"; "duplicate-inconclusive"; "inconclusive"]) then Ok tt
        else Err (SubmitBlockRejected reason)
    | None => Err (Other ("unexpected submitblock response: " ++ to_string result)%string)
    end.
Definition submit_block (answer : outcome RpcError Value) : outcome PoolError () :=
  match answer with
  | Ok v => submit_block_result v
  | Err e => Err (Rpc e)
  | Panic => Panic
  end.

(** [chain]: the node's network. *)
Definition chain_result (info : Value) : outcome PoolError string :=
  ok_or (Other "getblockchaininfo response missing 'chain'") (json_get info "chain" ≫= as_str).
End answers.

(** ** The dashboard's estimate of the next difficulty *)

Section estimate.
(** The node's answers: the height, the hash at a height, the time of the
    block with a hash. *)
Context (get_block_count : outcome RpcError Z) (get_block_hash : Z -> outcome RpcError string)
        (get_block_time : string -> outcome RpcError Z).
(** [estimate_difficulty_change_pct]: not a number without an interval to
    measure. *)
Definition estimate_difficulty_change_pct : outcome PoolError f64 :=
  height ← map_rpc get_block_count;
  let into_epoch := height mod 2016 in
  if into_epoch =? 0 then Ok S754_nan
  else
    let epoch_start := height - into_epoch in
    tip_hash ← map_rpc (get_block_hash height);
    start_hash ← map_rpc (get_block_hash epoch_start);
    tip_time ← map_rpc (get_block_time tip_hash);
    start_time ← map_rpc (get_block_time start_hash);
    let elapsed := f64_of_Z (tip_time - start_time) in
    if f64_le elapsed f64_zero then Ok S754_nan
    else
      let expected := f64_mul (f64_of_Z into_epoch) (f64_of_Z 600) in
      or_panic (f64_clamp (f64_mul (f64_sub (f64_div expected elapsed) f64_one) (f64_of_Z 100)) (f64_of_Z (-75)) (f64_of_Z 300)).
(** The estimate is not a number or within the protocol's limits. *)
Lemma estimate_in_protocol_limits pct :
  estimate_difficulty_change_pct = Ok pct ->
  pct = S754_nan \/ f64_lt pct (f64_of_Z (-75)) = false /\ f64_lt (f64_of_Z 300) pct = false.
Proof.
  unfold estimate_difficulty_change_pct. intros H. apply outcome_bind_ok in H as (h & _ & H). cbv zeta in H.
  destruct (_ =? 0); [left; congruence|]. do 4 apply outcome_bind_ok in H as (? & _ & H).
  destruct (f64_le _ f64_zero); [left; congruence|]. right.
  set (y := f64_mul (f64_sub _ _) _) in H. clearbody y.
  assert (f64_clamp y (f64_of_Z (-75)) (f64_of_Z 300) = Some pct) as Hc by (destruct (f64_clamp y _ _); cbn in H; congruence).
  clear H. unfold f64_clamp in Hc. change (f64_le (f64_of_Z (-75)) (f64_of_Z 300)) with true in Hc. cbv iota in Hc.
  destruct (f64_lt y (f64_of_Z (-75))) eqn:E1; [injection Hc as <-; split; vm_compute; reflexivity|].
  destruct (f64_lt (f64_of_Z 300) y) eqn:E2; injection Hc as <-; [split; vm_compute; reflexivity|done].
Qed.
End estimate.
Example estimate_ex :
  estimate_difficulty_change_pct (Ok 2116) (fun h => Ok (dec h)) (fun h => if bool_decide (h = "2116") then Ok 60000 else Ok 0)
  = Ok f64_zero.
Proof. vm_compute. reflexivity. Qed.
