(* ===== verification/Zmq.v ===== *)
(** The new-block signal (bitcoin/zmq.rs): the verdict on a subscription that
    may be silently dead, and the polling loop as a step function. The ZMQ
    socket and the RPC call are the environment: what they deliver is an
    argument of a step. *)
From S2P Require Export Text.

Definition ZMQ_GRACE_SECS : Z := 10.

Inductive ZmqVerdict := Delivered | Pending | Silent.
#[global] Instance ZmqVerdict_eq_dec : EqDecision ZmqVerdict.
Proof. solve_decision. Defined.

(** [poll_interval_ms.div_ceil(1_000) + 1]. *)
Definition poll_slack_secs (poll_interval_ms : Z) : Z := (poll_interval_ms + 999) / 1000 + 1.

Definition zmq_verdict (zmq_last_seen observed_at now slack : Z) : ZmqVerdict :=
  if observed_at <=? zmq_last_seen + slack then Delivered
  else if ZMQ_GRACE_SECS <? saturating_sub now observed_at then Silent
  else Pending.

(** The variables of [run_poll_fallback], with the number of signals sent on
    the watch channel and of silent verdicts reported. *)
Record Poll := {
  last_hash : string;
  seq_no : Z;
  awaiting_zmq : option Z;
  signals : list Z;
  silent_reports : Z;
}.
Definition poll_init : Poll :=
  {| last_hash := String.EmptyString; seq_no := 0; awaiting_zmq := None; signals := []; silent_reports := 0 |}.

(** The verdict at the top of the loop. *)
Definition poll_verdict (p : Poll) (zmq_last_seen now slack : Z) : Poll :=
  match awaiting_zmq p with
  | None => p
  | Some observed_at =>
      match zmq_verdict zmq_last_seen observed_at now slack with
      | Pending => p
      | Delivered => {| last_hash := last_hash p; seq_no := seq_no p; awaiting_zmq := None;
                        signals := signals p; silent_reports := silent_reports p |}
      | Silent => {| last_hash := last_hash p; seq_no := seq_no p; awaiting_zmq := None;
                     signals := signals p; silent_reports := silent_reports p + 1 |}
      end
  end.
(** The answer of [best_block_hash]; [None] for a failed call. *)
Definition poll_observe (p : Poll) (answer : option string) (now : Z) : Poll :=
  match answer with
  | None => p
  | Some hash =>
      if bool_decide (hash = last_hash p) then p
      else
        {| last_hash := hash;
           seq_no := seq_no p + 1;
           awaiting_zmq :=
             if negb (bool_decide (last_hash p = String.EmptyString)) && bool_decide (awaiting_zmq p = None)
             then Some now else awaiting_zmq p;
           signals := signals p ++ [seq_no p + 1];
           silent_reports := silent_reports p |}
  end.
(** One iteration: [zmq_last_seen] and the clock as the iteration reads them. *)
Definition poll_step (poll_interval_ms : Z) (p : Poll) (zmq_last_seen now1 : Z) (answer : option string)
    (now2 : Z) : Poll :=
  poll_observe (poll_verdict p zmq_last_seen now1 (poll_slack_secs poll_interval_ms)) answer now2.

(** Several iterations, each with its readings. *)
Definition poll_input : Type := Z * Z * option string * Z.
Definition poll_run (poll_interval_ms : Z) (l : list poll_input) : Poll :=
  fold_left (fun p '(seen, now1, answer, now2) => poll_step poll_interval_ms p seen now1 answer now2)
    l poll_init.

(** The tip changes a list of answers shows, from a last known hash. *)
Fixpoint tip_changes (last : string) (l : list (option string)) : nat :=
  match l with
  | [] => 0
  | Some h :: l => if bool_decide (h = last) then tip_changes last l else S (tip_changes h l)
  | None :: l => tip_changes last l
  end.

Lemma poll_step_signals ms p seen now1 answer now2 :
  last_hash (poll_step ms p seen now1 answer now2) = default (last_hash p) answer /\
  seq_no (poll_step ms p seen now1 answer now2) - seq_no p
    = Z.of_nat (tip_changes (last_hash p) [answer]) /\
  (seq_no p = Z.of_nat (length (signals p)) ->
   seq_no (poll_step ms p seen now1 answer now2)
     = Z.of_nat (length (signals (poll_step ms p seen now1 answer now2)))).
Proof.
  unfold poll_step.
  assert (forall q, q = poll_verdict p seen now1 (poll_slack_secs ms) ->
    last_hash q = last_hash p /\ seq_no q = seq_no p /\ signals q = signals p) as Hq.
  { intros q ->. unfold poll_verdict. destruct (awaiting_zmq p); [|done]. by destruct (zmq_verdict _ _ _ _). }
  destruct (Hq _ eq_refl) as (Hh & Hs & Hg). clear Hq. set (q := poll_verdict _ _ _ _) in *. clearbody q.
  unfold poll_observe. destruct answer as [h|]; cbn; rewrite ?Hh; [|split; [done|split; [lia|congruence]]].
  destruct (bool_decide (h = last_hash p)) eqn:E; cbn.
  - apply bool_decide_eq_true in E as ->. split; [done|]. split; [lia|]. congruence.
  - split; [done|]. split; [lia|]. rewrite length_app, Hg, Hs. cbn. lia.
Qed.
