(* ===== verification/Engine.v ===== *)
(** The template engine (mining/engine.rs): the current job, the job history
    behind stale-share accounting, the broadcast of jobs, the submission of
    found blocks and their archive.

    The node, the clock and the payout address are read by the code as it
    runs; here they are arguments. What the code does besides changing its own
    state (a broadcast, a task it spawns, a statistic it publishes) is an
    effect in the list an operation returns, in order. *)
From stdpp Require Import sorting.
From S2P Require Export Validator Settings Vardiff Rpc.
From Stdlib Require Import Strings.Ascii.

Definition JOB_HISTORY_DEPTH : nat := 8.
Definition NTIME_REFRESH_SECS : Z := 30.
Definition SUBMIT_INLINE_ATTEMPTS : nat := 3.
Definition SUBMIT_RETRY_INTERVAL : Z := from_secs 10.
Definition SUBMIT_RETRY_DEADLINE : Z := from_secs (2 * 60 * 60).

Definition tip_moved (current_prev_hash : option string) (new_prev_hash : string) : bool :=
  negb (bool_decide (current_prev_hash = Some new_prev_hash)).

Record JobBroadcast := { jb_job : StratumJob; jb_clean : bool }.

Record TemplateEngine := {
  current_job : option StratumJob;
  job_history : list JobEntry;
  last_template_ok : option Z;
  last_template_error : option string;
}.
Definition engine_new : TemplateEngine :=
  {| current_job := None; job_history := []; last_template_ok := None; last_template_error := None |}.

Record TemplateHealth := { age_secs : option Z; health_error : option string }.
Definition template_health (e : TemplateEngine) (now : Z) : TemplateHealth := {|
  age_secs := (fun t => duration_since now t / NANOS) <$> last_template_ok e;
  health_error := last_template_error e |}.

Definition note_template_failure (e : TemplateEngine) (why : string) : TemplateEngine := {|
  current_job := current_job e; job_history := job_history e;
  last_template_ok := last_template_ok e; last_template_error := Some why |}.

Inductive engine_effect :=
| PublishTemplateStats (height coinbase_value transactions : Z)
| Broadcast (b : JobBroadcast).

(** ** Building and publishing a job *)

Section refresh.
Context {HL : HexLib} {HS : Sha256Lib} {HB : BitcoinLib}.

(** The compare-and-set of the current job, under its write guard; the job
    goes out clean when asked for or when the tip moved. *)
Definition commit_job (e : TemplateEngine) (job : StratumJob) (clean_jobs : bool) (now : Z)
    : TemplateEngine * bool :=
  let tip_changed := tip_moved (prev_hash <$> current_job e) (prev_hash job) in
  ({| current_job := Some job; job_history := job_history e;
      last_template_ok := Some now; last_template_error := None |},
   clean_jobs || tip_changed).
(** The push into the history, under its own write guard. *)
Definition push_history (e : TemplateEngine) (job : StratumJob) (clean : bool) (now : Z) : TemplateEngine :=
  let h := job_history e in
  let h := if (JOB_HISTORY_DEPTH <=? length h)%nat then tail h else h in
  {| current_job := current_job e;
     job_history := h ++ [{| je_job := job; je_created_at := now; je_clean := clean; je_superseded_by_clean := false |}];
     last_template_ok := last_template_ok e; last_template_error := last_template_error e |}.

(** What a refresh builds before it touches the engine: [gbt] is the node's
    answer, [ids] the process-wide job counter; an error is the failure noted
    for the health report. *)
Definition refresh_job (settings : RuntimeSettings) (pool_cfg : PoolConfig) (ids : JobIds)
    (gbt : outcome PoolError GbtResult) : JobIds * outcome string StratumJob :=
  match valid_coinbase_address settings with
  | None => (ids, Err "mining paused: no valid payout address for the node's network")
  | Some address =>
      match gbt with
      | Panic => (ids, Panic)
      | Err err => (ids, Err ("getblocktemplate failed: " ++ display err)%string)
      | Ok gbt =>
          let '(ids, built) :=
            build_job ids gbt address (coinbase_tag pool_cfg) (Z.to_nat (extranonce1_size pool_cfg))
              (Z.to_nat (extranonce2_size pool_cfg)) in
          (ids, match built with
                | Panic => Panic
                | Err err => Err ("failed to build job: " ++ display err)%string
                | Ok job => Ok job
                end)
      end
  end.
(** [refresh], run without interruption. *)
Definition refresh (settings : RuntimeSettings) (pool_cfg : PoolConfig) (ids : JobIds)
    (gbt : outcome PoolError GbtResult) (now1 now2 : Z) (e : TemplateEngine) (clean_jobs : bool)
    : outcome PoolError (JobIds * TemplateEngine * list engine_effect) :=
  let '(ids, built) := refresh_job settings pool_cfg ids gbt in
  match built with
  | Panic => Panic
  | Err why => Ok (ids, note_template_failure e why, [])
  | Ok job =>
      let '(e, clean) := commit_job e job clean_jobs now1 in
      Ok (ids, push_history e job clean now2,
          [PublishTemplateStats (height job) (coinbase_value job) (Z.of_nat (length (transactions job)));
           Broadcast {| jb_job := job; jb_clean := clean |}])
  end.
(** Where a refresh stands between two of its awaits: its job is built, then
    current, then in the history; the broadcast ends it. *)
Inductive phase := Built (job : StratumJob) (clean : bool) | Committed (job : StratumJob) (clean : bool)
                 | Pushed (job : StratumJob) (clean : bool).

(** [find_job]: the first entry with the id, superseded when any later entry
    is clean. *)
Fixpoint find_entry (h : list JobEntry) (id : string) : option JobEntry :=
  match h with
  | [] => None
  | x :: rest =>
      if bool_decide (job_id (je_job x) = id) then
        Some {| je_job := je_job x; je_created_at := je_created_at x; je_clean := je_clean x;
                je_superseded_by_clean := existsb je_clean rest |}
      else find_entry rest id
  end.
Definition find_job (e : TemplateEngine) (id : string) : option JobEntry := find_entry (job_history e) id.
End refresh.

(** ** Submitting a found block *)

Definition is_permanent_reject (e : PoolError) : bool :=
  match e with SubmitBlockRejected _ => true | _ => false end.
Definition is_node_side_error (e : PoolError) : bool :=
  match e with Rpc (JsonRpcRpc _) => true | _ => false end.

(** [try_submit]: the call runs on a task of its own, so a panic of it is an
    error of the join. *)
Definition try_submit (answer : outcome PoolError ()) : outcome PoolError () :=
  match answer with Panic => Err (Other "submitblock task panicked") | r => r end.

(** What submission does, in order. *)
Inductive submit_effect :=
| ArchiveBlock (height : Z) (hash_hex block_hex : string)
| InflightAdd (n : Z)
| Attempt (block_hex : string)
| Backoff (millis : Z)
| MarkSubmitted (height : Z) (hash_hex : string)
| SpawnResubmit (height : Z) (hash_hex block_hex : string) (credit : option string)
| CreditBlock (worker hash_hex : string) (height : Z)
| GiveUp (height : Z) (hash_hex : string).

(** The attempt loop, from attempt number [attempt]; [answers] are the node's
    answers to the attempts that remain. The result is [inl] once the block
    is settled, [inr] the last transient error otherwise. *)
Fixpoint inline_attempts (height : Z) (hash_hex block_hex : string) (n attempt : nat)
    (answers : nat -> outcome PoolError ()) (last_err : option PoolError)
    : list submit_effect * (outcome PoolError () + option PoolError) :=
  match n with
  | O => ([], inr last_err)
  | S n =>
      match try_submit (answers attempt) with
      | Ok _ => ([Attempt block_hex; MarkSubmitted height hash_hex], inl (Ok tt))
      | Err e =>
          if is_permanent_reject e then ([Attempt block_hex], inl (Err e))
          else
            let wait := if (attempt <? SUBMIT_INLINE_ATTEMPTS)%nat
                        then [Backoff (Z.shiftl 500 (Z.of_nat attempt))] else [] in
            let '(effs, r) := inline_attempts height hash_hex block_hex n (S attempt) answers (Some e) in
            (Attempt block_hex :: wait ++ effs, r)
      | Panic => ([Attempt block_hex], inl Panic)
      end
  end.
Definition submit_found_block (height : Z) (hash_hex block_hex worker : string)
    (answers : nat -> outcome PoolError ()) : list submit_effect * outcome PoolError () :=
  let '(effs, r) := inline_attempts height hash_hex block_hex SUBMIT_INLINE_ATTEMPTS 1 answers None in
  let before := [ArchiveBlock height hash_hex block_hex; InflightAdd 1] in
  match r with
  | inl r => (before ++ effs ++ [InflightAdd (-1)], r)
  | inr last_err =>
      (before ++ effs ++ [SpawnResubmit height hash_hex block_hex (Some worker); InflightAdd (-1)],
       Err (default (Other "submitblock never attempted") last_err))
  end.

(** The background task: each element of the list is the clock at the loop's
    head and the node's answer. *)
Fixpoint resubmit_loop (height : Z) (hash_hex block_hex : string) (credit : option string) (deadline : Z)
    (l : list (Z * outcome PoolError ())) : list submit_effect :=
  match l with
  | [] => []
  | (now, answer) :: l =>
      if now <? deadline then
        Backoff 10000 :: Attempt block_hex ::
        match try_submit answer with
        | Ok _ =>
            MarkSubmitted height hash_hex ::
            match credit with Some worker => [CreditBlock worker hash_hex height] | None => [] end
        | Err e => if is_permanent_reject e then [] else resubmit_loop height hash_hex block_hex credit deadline l
        | Panic => []
        end
      else [GiveUp height hash_hex]
  end.
Definition spawn_resubmit_task (height : Z) (hash_hex block_hex : string) (credit : option string) (start : Z)
    (l : list (Z * outcome PoolError ())) : list submit_effect :=
  resubmit_loop height hash_hex block_hex credit (start + SUBMIT_RETRY_DEADLINE) l.

(** [wait_for_inflight_submits]: each element is the count and the clock as
    one iteration reads them. *)
Fixpoint wait_for_inflight_submits (deadline : Z) (l : list (Z * Z)) : option bool :=
  match l with
  | [] => None
  | (count, now) :: l =>
      if 0 <? count then
        if deadline <=? now then Some false else wait_for_inflight_submits deadline l
      else Some true
  end.

(** ** The archive of found blocks *)

(** The file name inside [found_block_dir]. *)
Definition archive_name (height : Z) (hash_hex : string) : string :=
  ("block_" ++ dec height ++ "_" ++ hash_hex ++ ".hex")%string.
Definition parse_archive_name (name : string) : option (Z * string) :=
  stem ← str_strip_suffix ".hex" name;
  rest ← str_strip_prefix "block_" stem;
  '(height, hash) ← split_once "_" rest;
  height ← parse_uint 64 height;
  if (str_len hash =? 64) && forallb is_ascii_hexdigit (to_list hash) then Some (height, hash) else None.

(** The directory: files by name at the top level and in the two buckets. *)
Record Archive := {
  arch_top : gmap string string;
  arch_submitted : gmap string string;
  arch_rejected : gmap string string;
}.
Inductive bucket := BSubmitted | BRejected.

Definition archive_found_block (a : Archive) (height : Z) (hash_hex block_hex : string) : Archive :=
  {| arch_top := <[archive_name height hash_hex := block_hex]> (arch_top a);
     arch_submitted := arch_submitted a; arch_rejected := arch_rejected a |}.
(** A rename replaces a file already in the bucket. *)
Definition file_archived_block (a : Archive) (name : string) (b : bucket) : Archive :=
  match arch_top a !! name with
  | None => a
  | Some hex =>
      {| arch_top := delete name (arch_top a);
         arch_submitted := match b with BSubmitted => <[name := hex]> (arch_submitted a) | _ => arch_submitted a end;
         arch_rejected := match b with BRejected => <[name := hex]> (arch_rejected a) | _ => arch_rejected a end |}
  end.
(** [list_archived_blocks]: the top-level files with extension [hex], sorted. *)
Definition has_hex_extension (name : string) : bool :=
  ends_with ".hex" name && negb (bool_decide (name = ".hex")).
Definition name_le (a b : string) : Prop := String.leb a b = true.
#[global] Instance name_le_dec a b : Decision (name_le a b).
Proof. unfold name_le. apply _. Defined.
Definition list_archived_blocks (a : Archive) : list string :=
  merge_sort name_le (List.filter has_hex_extension (map fst (map_to_list (arch_top a)))).

Inductive replay_effect :=
| ReplayAttempt (name block_hex : string)
| ReplayResubmit (height : Z) (hash_hex block_hex : string).

(** One file of [replay_archived_blocks]. *)
Definition replay_one (answers : string -> outcome PoolError ()) (a : Archive) (name : string)
    : Archive * list replay_effect :=
  let '(height, hash_hex) := default (0, name) (parse_archive_name name) in
  match arch_top a !! name with
  | None => (a, [])
  | Some contents =>
      let block_hex := trim contents in
      match try_submit (answers name) with
      | Ok _ => (file_archived_block a name BSubmitted, [ReplayAttempt name block_hex])
      | Err e =>
          if is_permanent_reject e || is_node_side_error e then
            (file_archived_block a name BRejected, [ReplayAttempt name block_hex])
          else (a, [ReplayAttempt name block_hex; ReplayResubmit height hash_hex block_hex])
      | Panic => (a, [ReplayAttempt name block_hex])
      end
  end.
Fixpoint replay_loop (answers : string -> outcome PoolError ()) (a : Archive) (l : list string)
    : Archive * list replay_effect :=
  match l with
  | [] => (a, [])
  | name :: l =>
      let '(a, e1) := replay_one answers a name in
      let '(a, e2) := replay_loop answers a l in
      (a, e1 ++ e2)
  end.
Definition replay_archived_blocks (answers : string -> outcome PoolError ()) (a : Archive)
    : Archive * list replay_effect :=
  replay_loop answers a (list_archived_blocks a).
