(* ===== verification/EngineFacts.v ===== *)
(** Lemmas about the template engine: the history invariant, runs of
    refreshes, refreshes that overlap, the submission loop and the archive. *)
From stdpp Require Import sorting.
From S2P Require Export Engine.
From Stdlib Require Import Strings.Ascii.

(** ** The job history *)

(** A job that did not go out clean has the same tip as the one before. *)
Fixpoint linked (h : list JobEntry) : Prop :=
  match h with
  | x :: ((y :: _) as r) =>
      (je_clean y = false -> prev_hash (je_job x) = prev_hash (je_job y)) /\ linked r
  | _ => True
  end.
Definition engine_inv (e : TemplateEngine) : Prop :=
  (length (job_history e) <= JOB_HISTORY_DEPTH)%nat /\ linked (job_history e) /\
  current_job e = je_job <$> last (job_history e).

Lemma linked_tail h : linked h -> linked (tail h).
Proof. destruct h as [|x [|y h]]; cbn; tauto. Qed.
Lemma last_snoc_cons {A} (x : A) l : last (x :: l) = Some (default x (last l)).
Proof. revert x; induction l as [|y l IH]; intros x; [done|]. change (last (x :: y :: l)) with (last (y :: l)). rewrite IH. done. Qed.
Lemma linked_snoc h x :
  linked h -> (je_clean x = false -> forall l, last h = Some l -> prev_hash (je_job l) = prev_hash (je_job x)) ->
  linked (h ++ [x]).
Proof.
  induction h as [|a [|b h] IH]; intros Hl Hx; [done| |].
  - cbn. split; [|done]. intros Hc. by apply (Hx Hc a).
  - destruct Hl as [Hab Hl]. cbn. split; [done|]. apply IH; [done|]. intros Hc l Hlast. by apply Hx.
Qed.
Lemma find_entry_tip h id en l :
  linked h -> last h = Some l -> find_entry h id = Some en -> je_superseded_by_clean en = false ->
  prev_hash (je_job en) = prev_hash (je_job l).
Proof.
  induction h as [|x h IH]; [done|]. intros Hl Hlast Hf Hs. cbn in Hf.
  destruct (bool_decide _).
  - injection Hf as <-. cbn in *. clear IH. revert x Hl Hlast Hs.
    induction h as [|y h IH]; intros x Hl Hlast Hs; [by injection Hlast as ->|].
    destruct Hl as [Hxy Hl]. cbn in Hs. apply orb_false_iff in Hs as [Hy Hs].
    rewrite (Hxy Hy). by apply IH.
  - destruct h as [|y h]; [done|]. destruct Hl as [_ Hl]. by apply IH.
Qed.
Lemma find_entry_In h id en :
  find_entry h id = Some en -> exists x, x ∈ h /\ je_job x = je_job en /\ job_id (je_job en) = id.
Proof.
  induction h as [|x h IH]; [done|]. cbn. destruct (bool_decide _) eqn:E.
  - intros [= <-]. exists x. apply bool_decide_eq_true in E. split; [by left|done].
  - intros H. destruct (IH H) as (y & ? & ? & ?). exists y. split; [by right|done].
Qed.

Lemma last_tail_keep {A} (h : list A) : (1 < length h)%nat -> last (tail h) = last h.
Proof. destruct h as [|x [|y h]]; cbn; [lia|lia|done]. Qed.

Lemma push_commit_inv e job clean now1 now2 :
  engine_inv e ->
  let '(e', c) := commit_job e job clean now1 in engine_inv (push_history e' job c now2).
Proof.
  intros (Hlen & Hl & Hcur). unfold commit_job, push_history, engine_inv. cbn [job_history current_job].
  set (h := if (JOB_HISTORY_DEPTH <=? length (job_history e))%nat then _ else _).
  assert ((length h < JOB_HISTORY_DEPTH)%nat /\ linked h /\ last h = last (job_history e)) as (H1 & H2 & H3).
  { unfold h, JOB_HISTORY_DEPTH in *. destruct (Nat.leb_spec 8 (length (job_history e))).
    - split; [|split; [by apply linked_tail|apply last_tail_keep; lia]].
      destruct (job_history e); cbn in *; lia.
    - done. }
  clearbody h. split; [rewrite length_app; cbn; lia|]. split; [|by rewrite last_snoc].
  apply linked_snoc; [done|]. cbn. intros Hc l Hlast.
  apply orb_false_iff in Hc as [_ Hc]. rewrite Hcur, <- H3, Hlast in Hc. cbn in Hc.
  unfold tip_moved in Hc. apply negb_false_iff, bool_decide_eq_true in Hc. congruence.
Qed.

Section refresh.
Context {HL : HexLib} {HS : Sha256Lib} {HB : BitcoinLib}.

(** Every way a refresh ends. *)
Lemma refresh_cases settings pool_cfg ids gbt now1 now2 e clean ids' e' effs :
  refresh settings pool_cfg ids gbt now1 now2 e clean = Ok (ids', e', effs) ->
  (exists why, e' = note_template_failure e why /\ effs = []) \/
  (exists address g job, valid_coinbase_address settings = Some address /\ gbt = Ok g /\
     build_job ids g address (coinbase_tag pool_cfg) (Z.to_nat (extranonce1_size pool_cfg))
       (Z.to_nat (extranonce2_size pool_cfg)) = (ids', Ok job) /\
     let '(e1, c) := commit_job e job clean now1 in
     e' = push_history e1 job c now2 /\
     effs = [PublishTemplateStats (height job) (coinbase_value job) (Z.of_nat (length (transactions job)));
             Broadcast {| jb_job := job; jb_clean := c |}]).
Proof.
  unfold refresh, refresh_job. destruct (valid_coinbase_address settings) as [a|].
  2: { intros [= <- <- <-]. left. eauto. }
  destruct gbt as [g|err|]; [|intros [= <- <- <-]; left; eauto|done].
  destruct (build_job _ _ _ _ _ _) as [ids1 [job|err|]] eqn:E; [|intros [= <- <- <-]; left; eauto|done].
  intros [= <- <- <-]. right. exists a, g, job. done.
Qed.

Record refresh_input := {
  ri_settings : RuntimeSettings;
  ri_gbt : outcome PoolError GbtResult;
  ri_now1 : Z;
  ri_now2 : Z;
  ri_clean : bool;
}.
(** The engine after a sequence of refreshes, one after the other. *)
Fixpoint refresh_run (pool_cfg : PoolConfig) (ids : JobIds) (e : TemplateEngine) (l : list refresh_input)
    : outcome PoolError (JobIds * TemplateEngine * list engine_effect) :=
  match l with
  | [] => Ok (ids, e, [])
  | i :: l =>
      '(ids, e, effs) ← refresh (ri_settings i) pool_cfg ids (ri_gbt i) (ri_now1 i) (ri_now2 i) e (ri_clean i);
      '(ids, e, effs') ← refresh_run pool_cfg ids e l;
      Ok (ids, e, effs ++ effs')
  end.

Lemma refresh_inv settings pool_cfg ids gbt now1 now2 e clean ids' e' effs :
  engine_inv e -> refresh settings pool_cfg ids gbt now1 now2 e clean = Ok (ids', e', effs) -> engine_inv e'.
Proof.
  intros Hi H. apply refresh_cases in H as [(why & -> & _)|(a & g & job & _ & _ & _ & H)]; [done|].
  pose proof (push_commit_inv e job clean now1 now2 Hi) as Hp.
  destruct (commit_job _ _ _ _) as [e1 c]. by destruct H as [-> _].
Qed.
Lemma refresh_run_inv pool_cfg ids e l ids' e' effs :
  engine_inv e -> refresh_run pool_cfg ids e l = Ok (ids', e', effs) -> engine_inv e'.
Proof.
  revert ids e effs; induction l as [|i l IH]; intros ids e effs Hi H; cbn [refresh_run] in H.
  { injection H as <- <- <-. done. }
  apply outcome_bind_ok in H as ([[ids1 e1] effs1] & H1 & H).
  apply outcome_bind_ok in H as ([[ids2 e2] effs2] & H2 & H). injection H as <- <- <-.
  eapply IH; [|exact H2]. by eapply refresh_inv.
Qed.
Lemma engine_new_inv : engine_inv engine_new.
Proof. split; [cbn; lia|done]. Qed.
End refresh.

(** ** Refreshes that overlap

    [force_refresh] runs on a dashboard request's task, the periodic refresh
    on the engine's: each builds its job, commits it, pushes it and broadcasts
    it, and the other may run in between. *)
Record system := { engine : TemplateEngine; tasks : list phase; sent : list JobBroadcast }.

Inductive sys_step : system -> system -> Prop :=
| step_build s job clean :
    sys_step s {| engine := engine s; tasks := tasks s ++ [Built job clean]; sent := sent s |}
| step_commit e ts1 job clean ts2 out now e' c :
    commit_job e job clean now = (e', c) ->
    sys_step {| engine := e; tasks := ts1 ++ Built job clean :: ts2; sent := out |}
             {| engine := e'; tasks := ts1 ++ Committed job c :: ts2; sent := out |}
| step_push e ts1 job c ts2 out now :
    sys_step {| engine := e; tasks := ts1 ++ Committed job c :: ts2; sent := out |}
             {| engine := push_history e job c now; tasks := ts1 ++ Pushed job c :: ts2; sent := out |}
| step_broadcast e ts1 job c ts2 out :
    sys_step {| engine := e; tasks := ts1 ++ Pushed job c :: ts2; sent := out |}
             {| engine := e; tasks := ts1 ++ ts2; sent := out ++ [{| jb_job := job; jb_clean := c |}] |}.
Definition sys_init (e : TemplateEngine) : system := {| engine := e; tasks := []; sent := [] |}.

(** ** Submission *)

Definition transient (answer : outcome PoolError ()) : Prop :=
  exists e, try_submit answer = Err e /\ is_permanent_reject e = false.
Definition settled (answer : outcome PoolError ()) : Prop :=
  answer = Ok tt \/ exists e, answer = Err e /\ is_permanent_reject e = true.
Lemma transient_or_settled answer : transient answer \/ settled answer.
Proof.
  destruct answer as [[]|e|].
  - right. by left.
  - destruct (is_permanent_reject e) eqn:E; [right; right; eauto|left; by exists e].
  - left. by exists (Other "submitblock task panicked").
Qed.
Lemma settled_not_transient answer : settled answer -> ~ transient answer.
Proof. intros [->|(e & -> & He)] (e' & H & He'); cbn in H; [done|]. injection H as <-. congruence. Qed.

(** What the first settled answer leads to. *)
Definition settle_effects (height : Z) (hash_hex block_hex : string) (answer : outcome PoolError ()) : list submit_effect :=
  match answer with Ok _ => [Attempt block_hex; MarkSubmitted height hash_hex] | _ => [Attempt block_hex] end.
Definition retry_effects (block_hex : string) (attempt : nat) : list submit_effect :=
  Attempt block_hex :: if (attempt <? SUBMIT_INLINE_ATTEMPTS)%nat then [Backoff (Z.shiftl 500 (Z.of_nat attempt))] else [].

Lemma inline_attempts_step height hash block_hex n attempt answers last_err :
  transient (answers attempt) ->
  exists e, try_submit (answers attempt) = Err e /\
  inline_attempts height hash block_hex (S n) attempt answers last_err =
    (retry_effects block_hex attempt ++ (inline_attempts height hash block_hex n (S attempt) answers (Some e)).1,
     (inline_attempts height hash block_hex n (S attempt) answers (Some e)).2).
Proof.
  intros (e & He & Hp). exists e. split; [done|]. cbn [inline_attempts]. rewrite He, Hp.
  destruct (inline_attempts _ _ _ _ _ _ _) as [effs r]. cbn [fst snd]. unfold retry_effects. done.
Qed.
Lemma inline_attempts_settled height hash block_hex n attempt answers last_err :
  settled (answers attempt) ->
  inline_attempts height hash block_hex (S n) attempt answers last_err =
    (settle_effects height hash block_hex (answers attempt), inl (answers attempt)).
Proof. intros [H|(e & H & He)]; cbn [inline_attempts]; rewrite H; cbn; [done|]. by rewrite He. Qed.

(** ** The archive *)

Lemma split_once_char c a b :
  c ∉ to_list a -> split_once (of_list [c]) (a ++ of_list [c] ++ b)%string = Some (a, b).
Proof.
  intros Hc. unfold split_once. rewrite !to_list_app, to_of_list. cbn [app].
  rewrite split_list_char by done. cbn. by rewrite !of_to_list.
Qed.
Lemma parse_archive_name_of height hash :
  is_u64 height -> str_len hash = 64 -> forallb is_ascii_hexdigit (to_list hash) = true ->
  parse_archive_name (archive_name height hash) = Some (height, hash).
Proof.
  intros Hh Hl Hx. unfold parse_archive_name, archive_name.
  assert (("block_" ++ dec height ++ "_" ++ hash ++ ".hex")%string
          = (("block_" ++ dec height ++ "_" ++ hash) ++ ".hex")%string) as ->.
  { apply (inj to_list). rewrite !to_list_app, <- !app_assoc. done. }
  rewrite str_strip_suffix_app. cbn [mbind option_bind]. rewrite str_strip_prefix_app.
  cbn [mbind option_bind]. change ("_") with (of_list [chr 95]) at 1 2.
  rewrite split_once_char.
  2: { apply dec_no_char; [apply Hh|]. unfold is_digit. rewrite ord_chr; lia. }
  cbn [mbind option_bind]. rewrite parse_uint_dec by done. cbn [mbind option_bind].
  by rewrite Hl, Hx.
Qed.
Lemma hex_digit_is_hex d : 0 <= d < 16 -> is_ascii_hexdigit (hex_digit d) = true.
Proof. intros H. unfold is_ascii_hexdigit. by rewrite to_digit16_hex_digit. Qed.

(** Replaying a file touches that file only. *)
Lemma replay_one_other answers a name n :
  n ≠ name ->
  let a' := (replay_one answers a name).1 in
  arch_top a' !! n = arch_top a !! n /\ arch_submitted a' !! n = arch_submitted a !! n /\ arch_rejected a' !! n = arch_rejected a !! n.
Proof.
  intros Hn. unfold replay_one. destruct (default _ _) as [height hash].
  destruct (arch_top a !! name) as [hex|] eqn:E; [|done].
  assert (forall b, arch_top (file_archived_block a name b) !! n = arch_top a !! n /\
    arch_submitted (file_archived_block a name b) !! n = arch_submitted a !! n /\
    arch_rejected (file_archived_block a name b) !! n = arch_rejected a !! n) as Hf.
  { intros b. unfold file_archived_block. rewrite E. cbn.
    destruct b; cbn; rewrite lookup_delete_ne, ?lookup_insert_ne by congruence; done. }
  destruct (try_submit _) as [|e|]; [apply Hf| |done]. destruct (_ || _); [apply Hf|done].
Qed.
(** Where a file is after its replay. *)
Definition replayed (answer : outcome PoolError ()) (a : Archive) (name hex : string) : Prop :=
  match try_submit answer with
  | Ok _ => arch_top a !! name = None /\ arch_submitted a !! name = Some hex
  | Err e =>
      if is_permanent_reject e || is_node_side_error e
      then arch_top a !! name = None /\ arch_rejected a !! name = Some hex
      else arch_top a !! name = Some hex
  | Panic => False
  end.
Lemma replay_one_self answers a name hex :
  arch_top a !! name = Some hex -> replayed (answers name) (replay_one answers a name).1 name hex.
Proof.
  intros E. unfold replay_one, replayed. destruct (default _ _) as [height hash]. rewrite E.
  destruct (try_submit (answers name)) as [|e|] eqn:Ha.
  - unfold file_archived_block. rewrite E. cbn. by rewrite lookup_delete_eq, lookup_insert_eq.
  - destruct (_ || _); [|done]. unfold file_archived_block. rewrite E. cbn.
    by rewrite lookup_delete_eq, lookup_insert_eq.
  - by destruct (answers name).
Qed.
Lemma replay_loop_other answers l a n :
  n ∉ l ->
  let a' := (replay_loop answers a l).1 in
  arch_top a' !! n = arch_top a !! n /\ arch_submitted a' !! n = arch_submitted a !! n /\ arch_rejected a' !! n = arch_rejected a !! n.
Proof.
  revert a; induction l as [|x l IH]; intros a Hn; [done|].
  apply not_elem_of_cons in Hn as [Hx Hn]. cbn [replay_loop].
  pose proof (replay_one_other answers a x n Hx) as H1. destruct (replay_one answers a x) as [a1 e1].
  specialize (IH a1 Hn). destruct (replay_loop answers a1 l) as [a2 e2]. cbn in *.
  destruct H1 as (-> & -> & ->) in IH. exact IH.
Qed.
Lemma replayed_ext answer a a' name hex :
  arch_top a' !! name = arch_top a !! name -> arch_submitted a' !! name = arch_submitted a !! name ->
  arch_rejected a' !! name = arch_rejected a !! name -> replayed answer a name hex -> replayed answer a' name hex.
Proof. unfold replayed. by intros -> -> ->. Qed.
Lemma replay_loop_spec answers l a n hex :
  NoDup l -> n ∈ l -> arch_top a !! n = Some hex -> replayed (answers n) (replay_loop answers a l).1 n hex.
Proof.
  revert a; induction l as [|x l IH]; intros a Hnd Hn Ht; [by apply not_elem_of_nil in Hn|].
  apply NoDup_cons in Hnd as [Hx Hnd]. cbn [replay_loop].
  destruct (decide (n = x)) as [->|Hne].
  - pose proof (replay_one_self answers a x hex Ht) as H1. destruct (replay_one answers a x) as [a1 e1].
    destruct (replay_loop_other answers l a1 x Hx) as (A & B & C).
    destruct (replay_loop answers a1 l) as [a2 e2]. by eapply replayed_ext.
  - apply elem_of_cons in Hn as [?|Hn]; [done|].
    destruct (replay_one_other answers a x n Hne) as (A & _ & _).
    destruct (replay_one answers a x) as [a1 e1]. cbn in A. rewrite <- A in Ht.
    specialize (IH a1 Hnd Hn Ht). by destruct (replay_loop answers a1 l) as [a2 e2].
Qed.
Lemma list_archived_NoDup a : NoDup (list_archived_blocks a).
Proof.
  unfold list_archived_blocks. rewrite merge_sort_Permutation.
  apply NoDup_ListNoDup, List.NoDup_filter, NoDup_ListNoDup. exact (NoDup_fst_map_to_list (arch_top a)).
Qed.
Lemma elem_of_list_archived a n :
  n ∈ list_archived_blocks a <-> is_Some (arch_top a !! n) /\ has_hex_extension n = true.
Proof.
  unfold list_archived_blocks. rewrite merge_sort_Permutation, list_elem_of_In, List.filter_In.
  rewrite <- list_elem_of_In, list_elem_of_fmap. split; intros [H Hx]; (split; [|done]).
  - destruct H as ([k v] & -> & H). apply elem_of_map_to_list in H. cbn. eauto.
  - destruct H as [v H]. exists (n, v). split; [done|]. by apply elem_of_map_to_list.
Qed.
