(* ===== verification/BlockArchive.v ===== *)
(** The life of found blocks across processes: the tasks that write a block's
    archive file, submit it, resubmit it and move its file, in any
    interleaving, with crashes at any moment and the replay of every boot. *)
From S2P Require Export EngineFacts.
From Stdlib Require Import Strings.Ascii.

(** What runs beside the sessions: the effects a submission has left, the
    write of an archive file, the move of one to [submitted/], the replay. *)
Inductive block_task :=
| Effects (l : list submit_effect)
| Archiving (height : Z) (hash_hex block_hex : string)
| Marking (height : Z) (hash_hex : string)
| Replaying (l : list string).
(** The archive and the tasks, with two facts the theorems speak of: the names
    under which a block was found, and the files that were written. *)
Record Blocks := {
  bk_dir : Archive;
  bk_tasks : list block_task;
  bk_found : gset string;
  bk_landed : gmap string string;
}.
Definition bk_init : Blocks :=
  {| bk_dir := {| arch_top := ∅; arch_submitted := ∅; arch_rejected := ∅ |}; bk_tasks := []; bk_found := ∅; bk_landed := ∅ |}.
Definition bk_with (s : Blocks) (dir : Archive) (tasks : list block_task) : Blocks :=
  {| bk_dir := dir; bk_tasks := tasks; bk_found := bk_found s; bk_landed := bk_landed s |}.
(** Once the node took a block, its file is moved aside, if it is there. *)
Definition mark_archived_submitted (a : Archive) (height : Z) (hash_hex : string) : Archive :=
  let name := archive_name height hash_hex in
  match arch_top a !! name with Some _ => file_archived_block a name BSubmitted | None => a end.
(** The writes a task has before it, by the name of the file. *)
Definition archive_of (x : submit_effect) : option string :=
  match x with ArchiveBlock height hash _ => Some (archive_name height hash) | _ => None end.
Definition writes (t : block_task) : list string :=
  match t with
  | Effects l => omap archive_of l
  | Archiving height hash _ => [archive_name height hash]
  | _ => []
  end.
Definition pending (tasks : list block_task) : list string := concat (map writes tasks).

Section blocks.
(** The names under which the node took, or refused for good, what it was
    given. *)
Context (accepts refuses : string -> Prop).

(** The tasks an effect starts; the retrier's node answers as it may. *)
Inductive spawns : submit_effect -> list block_task -> Prop :=
| sp_archive height hash block_hex : spawns (ArchiveBlock height hash block_hex) [Archiving height hash block_hex]
| sp_mark height hash : spawns (MarkSubmitted height hash) [Marking height hash]
| sp_retry height hash block_hex credit start l : (Ok tt ∈ map snd l -> accepts (archive_name height hash)) ->
    spawns (SpawnResubmit height hash block_hex credit) [Effects (spawn_resubmit_task height hash block_hex credit start l)]
| sp_none x : archive_of x = None -> (forall height hash, x ≠ MarkSubmitted height hash) -> spawns x [].
Definition replay_spawns (e : replay_effect) (ts : list block_task) : Prop :=
  match e with
  | ReplayAttempt _ _ => ts = []
  | ReplayResubmit height hash hex => exists start l, ts = [Effects (spawn_resubmit_task height hash hex None start l)] /\
      (Ok tt ∈ map snd l -> accepts (archive_name height hash))
  end.

Inductive bk_step (s : Blocks) : Blocks -> Prop :=
| bk_find height hash block_hex worker answers : let n := archive_name height hash in n ∉ bk_found s ->
    ((exists k, answers k = Ok tt) -> accepts n) ->
    bk_step s {| bk_dir := bk_dir s;
      bk_tasks := bk_tasks s ++ [Effects (submit_found_block height hash block_hex worker answers).1];
      bk_found := {[n]} ∪ bk_found s; bk_landed := bk_landed s |}
| bk_effect pre post x l ts : bk_tasks s = pre ++ Effects (x :: l) :: post -> spawns x ts ->
    bk_step s (bk_with s (bk_dir s) (pre ++ Effects l :: post ++ ts))
| bk_write pre post height hash block_hex : bk_tasks s = pre ++ Archiving height hash block_hex :: post ->
    bk_step s {| bk_dir := archive_found_block (bk_dir s) height hash block_hex; bk_tasks := pre ++ post;
      bk_found := bk_found s; bk_landed := <[archive_name height hash := block_hex]> (bk_landed s) |}
| bk_write_fails pre post height hash block_hex : bk_tasks s = pre ++ Archiving height hash block_hex :: post ->
    bk_step s (bk_with s (bk_dir s) (pre ++ post))
| bk_mark pre post height hash dir : bk_tasks s = pre ++ Marking height hash :: post ->
    dir = bk_dir s \/ dir = mark_archived_submitted (bk_dir s) height hash ->
    bk_step s (bk_with s dir (pre ++ post))
| bk_replay pre post name l answers dir effs tss : bk_tasks s = pre ++ Replaying (name :: l) :: post ->
    (answers name = Ok tt -> accepts name) ->
    (forall e, answers name = Err e -> is_permanent_reject e || is_node_side_error e = true -> refuses name) ->
    replay_one answers (bk_dir s) name = (dir, effs) -> Forall2 replay_spawns effs tss ->
    bk_step s (bk_with s dir (pre ++ Replaying l :: post ++ concat tss))
| bk_crash torn : (forall n part, torn !! n = Some part -> n ∈ pending (bk_tasks s)) ->
    bk_step s (bk_with s {| arch_top := torn ∪ arch_top (bk_dir s); arch_submitted := arch_submitted (bk_dir s);
                            arch_rejected := arch_rejected (bk_dir s) |} [])
| bk_boot : bk_tasks s = [] -> bk_step s (bk_with s (bk_dir s) [Replaying (list_archived_blocks (bk_dir s))]).

(** ** The invariant *)

(** A written file is where the node's answer put it. *)
Definition kept (dir : Archive) (n hex : string) : Prop :=
  arch_top dir !! n = Some hex \/
  (arch_top dir !! n = None /\ arch_submitted dir !! n = Some hex /\ accepts n) \/
  (arch_top dir !! n = None /\ arch_rejected dir !! n = Some hex /\ refuses n).
Definition task_fair (t : block_task) : Prop :=
  match t with
  | Effects l => forall height hash, MarkSubmitted height hash ∈ l -> accepts (archive_name height hash)
  | Marking height hash => accepts (archive_name height hash)
  | _ => True
  end.
Record bk_inv (s : Blocks) : Prop := {
  bi_fair : Forall task_fair (bk_tasks s);
  bi_once : NoDup (pending (bk_tasks s));
  bi_found n : n ∈ pending (bk_tasks s) -> n ∈ bk_found s /\ bk_landed s !! n = None;
  bi_landed n hex : bk_landed s !! n = Some hex -> n ∈ bk_found s /\ has_hex_extension n = true /\ kept (bk_dir s) n hex;
}.

Lemma pending_app a b : pending (a ++ b) = pending a ++ pending b.
Proof. unfold pending. by rewrite map_app, concat_app. Qed.
Lemma archive_name_hex height hash : has_hex_extension (archive_name height hash) = true.
Proof.
  unfold has_hex_extension, archive_name, ends_with. apply andb_true_iff. split.
  - apply bool_decide_eq_true. exists ("block_" ++ dec height ++ "_" ++ hash)%string.
    rewrite <- str_strip_suffix_app with (p := ".hex"). f_equal.
    apply (inj to_list). by rewrite !to_list_app, <- !app_assoc.
  - apply negb_true_iff, bool_decide_eq_false. intros Heq. by apply (f_equal to_list) in Heq.
Qed.
(** The places an element of a list built by the engine can be. *)
Ltac elem_cases H :=
  first [ by apply elem_of_nil in H
        | apply elem_of_app in H as [H|H]; elem_cases H
        | apply elem_of_cons in H as [H|H]; [try discriminate H|elem_cases H]
        | idtac ].
(** Only the first effect of a submission writes the file, and a file is
    marked only when the node accepted. *)
Lemma inline_no_archive height hash block_hex n attempt answers last_err :
  omap archive_of (inline_attempts height hash block_hex n attempt answers last_err).1 = [].
Proof.
  revert attempt last_err. induction n as [|n IH]; intros attempt last_err; [done|]. cbn [inline_attempts].
  destruct (try_submit (answers attempt)) as [u|e|]; [done| |done]. destruct (is_permanent_reject e); [done|].
  specialize (IH (S attempt) (Some e)). destruct (inline_attempts _ _ _ _ _ _ _) as [effs r]. cbn [fst] in *.
  cbn [omap list_omap archive_of]. rewrite omap_app, IH. by destruct (attempt <? SUBMIT_INLINE_ATTEMPTS)%nat.
Qed.
Lemma inline_mark height hash block_hex n attempt answers last_err h x :
  MarkSubmitted h x ∈ (inline_attempts height hash block_hex n attempt answers last_err).1 ->
  h = height /\ x = hash /\ exists k, answers k = Ok tt.
Proof.
  revert attempt last_err. induction n as [|n IH]; intros attempt last_err; cbn [inline_attempts]; [by intros ?%elem_of_nil|].
  destruct (try_submit (answers attempt)) as [u|e|] eqn:Et; [| |intros Hin; elem_cases Hin].
  - intros Hin. elem_cases Hin. injection Hin as -> ->. split; [done|]. split; [done|]. exists attempt.
    by destruct (answers attempt) as [[]| |].
  - destruct (is_permanent_reject e); [intros Hin; elem_cases Hin|].
    specialize (IH (S attempt) (Some e)). destruct (inline_attempts _ _ _ _ _ _ _) as [effs r]. cbn [fst] in *.
    intros Hin. destruct (attempt <? SUBMIT_INLINE_ATTEMPTS)%nat; elem_cases Hin; by apply IH.
Qed.
Lemma submit_archive height hash block_hex worker answers :
  omap archive_of (submit_found_block height hash block_hex worker answers).1 = [archive_name height hash].
Proof.
  unfold submit_found_block. pose proof (inline_no_archive height hash block_hex SUBMIT_INLINE_ATTEMPTS 1 answers None) as H.
  destruct (inline_attempts _ _ _ _ _ _ _) as [effs [r|last_err]]; cbn [fst] in *; rewrite !omap_app, H; done.
Qed.
Lemma submit_mark height hash block_hex worker answers h x :
  MarkSubmitted h x ∈ (submit_found_block height hash block_hex worker answers).1 -> h = height /\ x = hash /\ exists k, answers k = Ok tt.
Proof.
  unfold submit_found_block. pose proof (inline_mark height hash block_hex SUBMIT_INLINE_ATTEMPTS 1 answers None h x) as H.
  destruct (inline_attempts _ _ _ _ _ _ _) as [effs [r|last_err]]; cbn [fst] in *; intros Hin; elem_cases Hin; by apply H.
Qed.
Lemma resubmit_no_archive height hash block_hex credit deadline l : omap archive_of (resubmit_loop height hash block_hex credit deadline l) = [].
Proof.
  induction l as [|[now a] l IH]; [done|]. cbn [resubmit_loop]. destruct (now <? deadline); [|done]. cbn [omap list_omap archive_of].
  destruct (try_submit a) as [u|e|]; [by destruct credit| |done]. by destruct (is_permanent_reject e).
Qed.
Lemma resubmit_mark height hash block_hex credit deadline l h x :
  MarkSubmitted h x ∈ resubmit_loop height hash block_hex credit deadline l -> h = height /\ x = hash /\ Ok tt ∈ map snd l.
Proof.
  induction l as [|[now a] l IH]; cbn [resubmit_loop]; [by intros ?%elem_of_nil|].
  destruct (now <? deadline); [|intros Hin; elem_cases Hin]. cbn [map snd]. intros Hin. elem_cases Hin. revert Hin.
  destruct (try_submit a) as [u|e|] eqn:Et; [| |intros Hin; elem_cases Hin].
  - intros Hin. assert (a = Ok tt) as -> by by destruct a as [[]| |].
    destruct credit; elem_cases Hin; injection Hin as -> ->; (split; [done|]; split; [done|]; apply elem_of_cons; by left).
  - destruct (is_permanent_reject e); intros Hin; elem_cases Hin. destruct (IH Hin) as (-> & -> & Hok).
    split; [done|]. split; [done|]. apply elem_of_cons. by right.
Qed.

(** What the operations on the archive do to a file that was written. *)
Lemma kept_mark dir n height hash hex :
  kept dir n hex -> accepts (archive_name height hash) -> kept (mark_archived_submitted dir height hash) n hex.
Proof.
  intros Hk Ha. unfold mark_archived_submitted, file_archived_block. cbv zeta. set (name := archive_name height hash) in *.
  destruct (arch_top dir !! name) as [h|] eqn:Et; [|done]. unfold kept; cbn. destruct (decide (n = name)) as [->|Hne].
  - rewrite lookup_delete_eq, lookup_insert_eq. destruct Hk as [Hk|[[Hk _]|[Hk _]]]; [|congruence..].
    right. left. split; [done|]. split; [congruence|done].
  - rewrite lookup_delete_ne, lookup_insert_ne by done. exact Hk.
Qed.
Lemma kept_replay answers dir n name hex :
  kept dir n hex -> (answers name = Ok tt -> accepts name) ->
  (forall e, answers name = Err e -> is_permanent_reject e || is_node_side_error e = true -> refuses name) ->
  kept (replay_one answers dir name).1 n hex.
Proof.
  intros Hk Ha Hr. destruct (decide (n = name)) as [->|Hne].
  2: { destruct (replay_one_other answers dir name n Hne) as (H1 & H2 & H3). unfold kept. by rewrite H1, H2, H3. }
  destruct Hk as [Hk|Hk].
  - pose proof (replay_one_self answers dir name hex Hk) as H. unfold replayed in H.
    destruct (answers name) as [[]|e|]; cbn [try_submit] in H.
    + right. left. destruct H. auto.
    + destruct (_ || _) eqn:Er; [|by left]. right. right. destruct H. split; [done|]. split; [done|]. by eapply Hr.
    + by left.
  - assert (arch_top dir !! name = None) as Hn by (destruct Hk as [[? _]|[? _]]; done).
    unfold replay_one. destruct (default _ _). rewrite Hn. by right.
Qed.
Lemma kept_write dir height hash block_hex n hex :
  n ≠ archive_name height hash -> kept dir n hex -> kept (archive_found_block dir height hash block_hex) n hex.
Proof. intros Hne Hk. unfold kept, archive_found_block; cbn. by rewrite lookup_insert_ne. Qed.

(** The writes that remain after a step were there before it. *)
Lemma spawns_pending x ts : spawns x ts -> pending ts = option_list (archive_of x).
Proof.
  destruct 1 as [height hash block_hex|height hash|height hash block_hex credit start l _|x Hx _]; try done.
  - unfold pending. cbn. unfold spawn_resubmit_task. by rewrite resubmit_no_archive.
  - by rewrite Hx.
Qed.
Lemma replay_pending effs tss : Forall2 replay_spawns effs tss -> pending (concat tss) = [].
Proof.
  induction 1 as [|e ts effs tss He _ IH]; [done|]. cbn [concat]. rewrite pending_app, IH, app_nil_r.
  destruct e as [name hex|height hash hex]; [by rewrite He|]. destruct He as (start & l & -> & _).
  unfold pending. cbn. unfold spawn_resubmit_task. by rewrite resubmit_no_archive.
Qed.
Lemma spawns_fair x ts l :
  spawns x ts -> task_fair (Effects (x :: l)) -> Forall task_fair ts.
Proof.
  destruct 1 as [height hash block_hex|height hash|height hash block_hex credit start l' Ha|x Hx _]; intros Hf; repeat constructor.
  - apply Hf. apply elem_of_cons. by left.
  - intros h y (-> & -> & Hin)%resubmit_mark. by apply Ha.
Qed.
Lemma replay_fair effs tss : Forall2 replay_spawns effs tss -> Forall task_fair (concat tss).
Proof.
  induction 1 as [|e ts effs tss He _ IH]; [by constructor|]. cbn [concat]. apply Forall_app. split; [|done].
  destruct e as [name hex|height hash hex]; [rewrite He; by constructor|]. destruct He as (start & l & -> & Ha).
  repeat constructor. intros h y (-> & -> & Hin)%resubmit_mark. by apply Ha.
Qed.

Lemma bk_inv_with s dir tasks :
  bk_inv s -> Forall task_fair tasks -> pending tasks ⊆+ pending (bk_tasks s) ->
  (forall n hex, bk_landed s !! n = Some hex -> kept (bk_dir s) n hex -> kept dir n hex) -> bk_inv (bk_with s dir tasks).
Proof.
  intros [Hf Ho Hn Hl] Hf' Hp Hk. split; cbn [bk_with bk_dir bk_tasks bk_found bk_landed].
  - done.
  - apply submseteq_Permutation in Hp as [rest Hp]. rewrite Hp in Ho. by apply NoDup_app in Ho as [Ho _].
  - intros n Hin. apply Hn. by eapply elem_of_submseteq.
  - intros n hex H. destruct (Hl n hex H) as (H1 & H2 & H3). split; [done|]. split; [done|]. by apply Hk.
Qed.
(** The task in the middle of the list goes on as [new], with [ts] started. *)
Lemma bk_inv_task s dir pre t post new ts :
  bk_inv s -> bk_tasks s = pre ++ t :: post -> Forall task_fair new -> Forall task_fair ts ->
  pending new ++ pending ts ⊆+ writes t ->
  (forall n hex, bk_landed s !! n = Some hex -> kept (bk_dir s) n hex -> kept dir n hex) ->
  bk_inv (bk_with s dir (pre ++ new ++ post ++ ts)).
Proof.
  intros Hi Ht Hnew Hts Hp Hk. pose proof (bi_fair _ Hi) as Hf. rewrite Ht in Hf. apply Forall_app in Hf as [Hpre Hpost].
  apply Forall_cons in Hpost as [_ Hpost]. apply bk_inv_with; [done| | |done].
  - by repeat (apply Forall_app; split).
  - rewrite Ht, !pending_app. change (pending (t :: post)) with (writes t ++ pending post).
    transitivity (pending pre ++ (pending new ++ pending ts) ++ pending post); [apply Permutation_submseteq; solve_Permutation|].
    apply submseteq_app; [done|]. by apply submseteq_app.
Qed.
Lemma bk_step_inv s s' : bk_inv s -> bk_step s s' -> bk_inv s'.
Proof.
  intros Hi Hs. pose proof Hi as [Hf Ho Hn Hl].
  destruct Hs as [height hash block_hex worker answers n Hnew Ha|pre post x l ts Ht Hx
    |pre post height hash block_hex Ht|pre post height hash block_hex Ht|pre post height hash dir Ht Hd
    |pre post name l answers dir effs tss Ht Ha Hr He Hts|torn Ht|Ht].
  - assert (pending (bk_tasks s ++ [Effects (submit_found_block height hash block_hex worker answers).1]) = pending (bk_tasks s) ++ [n])
      as Hp by (rewrite pending_app; unfold pending at 2; cbn [map concat writes]; by rewrite submit_archive).
    split; cbn [bk_dir bk_tasks bk_found bk_landed].
    + apply Forall_app. split; [done|]. repeat constructor. intros h y (-> & -> & Hk)%submit_mark. by apply Ha.
    + rewrite Hp. apply NoDup_app. split; [done|]. split; [|by apply NoDup_singleton].
      intros m Hm ->%list_elem_of_singleton. by destruct (Hn _ Hm).
    + rewrite Hp. intros m [Hm| ->%list_elem_of_singleton]%elem_of_app; [destruct (Hn _ Hm); split; [set_solver|done]|].
      split; [set_solver|]. destruct (bk_landed s !! n) as [hex|] eqn:E; [|done]. by destruct (Hl _ _ E).
    + intros m hex H. destruct (Hl m hex H) as (H1 & H2 & H3). split; [set_solver|done].
  - assert (task_fair (Effects (x :: l))) as Hfx by (rewrite Ht in Hf; by apply Forall_app in Hf as [_ [Hfx _]%Forall_cons]).
    apply (bk_inv_task s (bk_dir s) pre _ post [Effects l] ts Hi Ht); [| | |done].
    + repeat constructor. intros h y Hin. apply Hfx. apply elem_of_cons. by right.
    + by eapply spawns_fair.
    + rewrite (spawns_pending _ _ Hx). unfold pending. cbn [map concat writes]. rewrite app_nil_r.
      apply Permutation_submseteq. cbn [omap list_omap]. destruct (archive_of x); cbn; [solve_Permutation|by rewrite app_nil_r].
  - pose proof Ho as Ho'. rewrite Ht, pending_app in Ho'. change (pending (Archiving height hash block_hex :: post)) with
      (archive_name height hash :: pending post) in Ho'. set (n := archive_name height hash) in *.
    assert (n ∈ pending (bk_tasks s)) as Hin by (rewrite Ht, pending_app; apply elem_of_app; right; apply elem_of_cons; by left).
    destruct (Hn n Hin) as [Hnf Hnl].
    pose proof (bk_inv_task s (bk_dir s) pre _ post [] [] Hi Ht) as H. rewrite (app_nil_r post) in H.
    destruct H as [Hf' Ho2 Hn' _]; [by constructor..|apply submseteq_nil_l|done|]. split; cbn [bk_with bk_dir bk_tasks bk_found bk_landed app] in *.
    + done.
    + done.
    + intros m Hm. destruct (Hn' m Hm) as [H1 H2]. split; [done|]. rewrite lookup_insert_ne; [done|]. intros <-.
      rewrite pending_app in Hm. apply NoDup_app in Ho' as (_ & Hd & [Hp _]%NoDup_cons).
      apply elem_of_app in Hm as [Hm|Hm]; [|done]. apply (Hd n Hm), elem_of_cons. by left.
    + intros m hex [[<- <-]|[Hne Hm]]%lookup_insert_Some.
      * split; [done|]. split; [apply archive_name_hex|]. left. cbn. apply lookup_insert_eq.
      * destruct (Hl m hex Hm) as (H1 & H2 & H3). split; [done|]. split; [done|]. by apply kept_write.
  - pose proof (bk_inv_task s (bk_dir s) pre _ post [] [] Hi Ht) as H. rewrite (app_nil_r post) in H.
    apply H; [by constructor..|apply submseteq_nil_l|done].
  - pose proof (bk_inv_task s dir pre _ post [] [] Hi Ht) as H. rewrite (app_nil_r post) in H.
    assert (accepts (archive_name height hash)) as Ha by (rewrite Ht in Hf; by apply Forall_app in Hf as [_ [Ha _]%Forall_cons]).
    apply H; [by constructor..|done|]. intros n hex _ Hk. destruct Hd as [->| ->]; [done|by apply kept_mark].
  - apply (bk_inv_task s dir pre _ post [Replaying l] (concat tss) Hi Ht); [by repeat constructor|by eapply replay_fair| |].
    + by rewrite (replay_pending _ _ Hts).
    + intros n hex _ Hk. pose proof (kept_replay answers (bk_dir s) n name hex Hk Ha Hr) as H. by rewrite He in H.
  - apply bk_inv_with; [done|by constructor|apply submseteq_nil_l|]. intros n hex H Hk.
    assert (torn !! n = None) as Hnt by (destruct (torn !! n) eqn:E; [destruct (Hn _ (Ht _ _ E)); congruence|done]).
    assert ((torn ∪ arch_top (bk_dir s)) !! n = arch_top (bk_dir s) !! n) as Heq by (by apply lookup_union_r).
    unfold kept; cbn. by rewrite Heq.
  - apply bk_inv_with; [done|by repeat constructor| |done]. apply submseteq_nil_l.
Qed.
Lemma bk_reach_inv s : rtc bk_step bk_init s -> bk_inv s.
Proof.
  revert s. apply (rtc_ind_r bk_inv bk_init); [|intros s s' _ Hs Hi; by eapply bk_step_inv].
  split; cbn; [by constructor|by constructor| |].
  - by intros n ?%elem_of_nil.
  - intros n hex. by rewrite lookup_empty.
Qed.
End blocks.
