(* ===== verification/Broadcast.v ===== *)
(** The channel jobs are broadcast on, tokio's [sync::broadcast], as the engine
    and the sessions use it: every receiver has the jobs sent since it
    subscribed, of which it keeps the newest [JOB_BROADCAST_CAP]. *)
From S2P Require Export Engine.
From Stdlib Require Import Strings.Ascii.

Definition JOB_BROADCAST_CAP : nat := 64.

(** One receiver: [rx_subscribe] is a new one, [rx_send] what a send on a
    channel of the given capacity does to it. [rx_recv] is [None] while there
    is nothing to receive; the receiver that missed jobs is told so once
    ([Some (None, _)], the crate's [Lagged]) and goes on with the oldest it
    still has. *)
Class BroadcastLib := {
  Rx : Type;
  rx_subscribe : Rx;
  rx_send : nat -> JobBroadcast -> Rx -> Rx;
  rx_recv : Rx -> option (option JobBroadcast * Rx);
}.
(** [rx_pending] is what the receiver still has, oldest first. *)
Class BroadcastLaws `{BroadcastLib} := {
  rx_pending : Rx -> list JobBroadcast;
  rx_subscribe_pending : rx_pending rx_subscribe = [];
  rx_send_pending cap b rx : (0 < cap)%nat -> rx_pending (rx_send cap b rx) = lastn cap (rx_pending rx ++ [b]);
  rx_recv_pending rx :
    match rx_recv rx with
    | None => rx_pending rx = []
    | Some (Some b, rx') => rx_pending rx = b :: rx_pending rx'
    | Some (None, rx') => rx_pending rx' = rx_pending rx
    end;
}.

(** The newest job a receiver has for the session that works on [job]. *)
Definition newest_job `{BroadcastLaws} (rx : Rx) (job : option StratumJob) : option StratumJob :=
  match last (rx_pending rx) with Some b => Some (jb_job b) | None => job end.
Section newest.
Context `{BroadcastLaws}.
Lemma newest_subscribe job : newest_job rx_subscribe job = job.
Proof. unfold newest_job. by rewrite rx_subscribe_pending. Qed.
Lemma newest_send b rx job : newest_job (rx_send JOB_BROADCAST_CAP b rx) job = Some (jb_job b).
Proof.
  unfold newest_job. rewrite rx_send_pending by (unfold JOB_BROADCAST_CAP; lia).
  unfold JOB_BROADCAST_CAP. by rewrite lastn_snoc, last_snoc.
Qed.
Lemma newest_recv rx b rx' job : rx_recv rx = Some (Some b, rx') -> newest_job rx' (Some (jb_job b)) = newest_job rx job.
Proof.
  intros E. pose proof (rx_recv_pending rx) as Hr. rewrite E in Hr. unfold newest_job. rewrite Hr.
  rewrite last_cons. by destruct (last (rx_pending rx')).
Qed.
Lemma newest_lagged rx rx' job : rx_recv rx = Some (None, rx') -> newest_job rx' job = newest_job rx job.
Proof. intros E. pose proof (rx_recv_pending rx) as Hr. rewrite E in Hr. unfold newest_job. by rewrite Hr. Qed.
Lemma newest_empty rx job : rx_recv rx = None -> newest_job rx job = job.
Proof. intros E. pose proof (rx_recv_pending rx) as Hr. rewrite E in Hr. unfold newest_job. by rewrite Hr. Qed.
(** A job the session takes up from elsewhere when it has none. *)
Lemma newest_default rx job : newest_job rx (match job with Some j => Some j | None => newest_job rx job end) = newest_job rx job.
Proof. unfold newest_job. destruct (last (rx_pending rx)); [done|]. by destruct job. Qed.
End newest.

(** A concrete receiver: what it has, and whether it missed something. *)
#[export] Instance ref_broadcast : BroadcastLib := {
  Rx := list JobBroadcast * bool;
  rx_subscribe := ([], false);
  rx_send cap b rx := (lastn cap (rx.1 ++ [b]), rx.2 || (cap <? length (rx.1 ++ [b]))%nat);
  rx_recv rx :=
    if rx.2 then Some (None, (rx.1, false))
    else match rx.1 with [] => None | b :: l => Some (Some b, (l, false)) end;
}.
#[export] Instance ref_broadcast_laws : BroadcastLaws.
Proof. refine {| rx_pending := fst : Rx -> list JobBroadcast |}; [done|done|]. intros [[|b l] [|]]; done. Defined.
