(* ===== verification/Signals.v ===== *)
(** From a block notification to a clean job: the listener and the poll of
    bitcoin/zmq.rs, the watch channel they share, and the loop of
    [TemplateEngine::run] (mining/engine.rs), as one step relation with the
    node's tip beside it. *)
From S2P Require Export Zmq EngineFacts.
From Stdlib Require Import Strings.Ascii.

(** Crate [tokio], the [watch] channel with its one receiver: [changed()]
    completes when a value was sent that the receiver has not marked as seen,
    and marks it. *)
Class WatchLib := {
  Watch : Type;
  watch_channel : Z -> Watch;
  watch_send : Z -> Watch -> Watch;
  watch_unseen : Watch -> bool;
  watch_mark_seen : Watch -> Watch;
}.
Class WatchLaws `{WatchLib} : Prop := {
  watch_unseen_send v w : watch_unseen (watch_send v w) = true;
  watch_unseen_mark w : watch_unseen (watch_mark_seen w) = false;
}.

(** ** The senders *)

Section signals.
Context {HW : WatchLib}.
Record Listener := { zl_seq : Z; zl_last_seen : Z }.
(** A message of [run_zmq_listener]; the sequence number starts again when the
    listener reconnects. *)
Definition listener_message (l : Listener) (w : Watch) (now : Z) : Listener * Watch :=
  let seq := wrap 64 (zl_seq l + 1) in
  ({| zl_seq := seq; zl_last_seen := now |}, watch_send seq w).
Definition listener_reconnect (l : Listener) : Listener := {| zl_seq := 0; zl_last_seen := zl_last_seen l |}.
(** [run_zmq_listener] over what its subscription yields, with the clock at
    each: it ends at the first error or at the end of the stream, and [None]
    is a listener that still waits. *)
Inductive ListenerError := ReceiveError (e : string) | StreamClosed.
Fixpoint run_zmq_listener (l : Listener) (w : Watch) (stream : list (option (outcome string ()) * Z))
    : Listener * Watch * option ListenerError :=
  match stream with
  | [] => (l, w, None)
  | (Some (Ok _), now) :: stream => let '(l, w) := listener_message l w now in run_zmq_listener l w stream
  | (Some (Err e), _) :: _ => (l, w, Some (ReceiveError e))
  | (Some Panic, _) :: _ | (None, _) :: _ => (l, w, Some StreamClosed)
  end.
(** The task [start] spawns: whenever the listener ends, a new one connects. *)
Fixpoint zmq_task (last_seen : Z) (w : Watch) (connections : list (list (option (outcome string ()) * Z))) : Z * Watch :=
  match connections with
  | [] => (last_seen, w)
  | stream :: connections =>
      let '(l, w, _) := run_zmq_listener {| zl_seq := 0; zl_last_seen := last_seen |} w stream in
      zmq_task (zl_last_seen l) w connections
  end.
(** A turn of [run_poll_fallback] with what it sends. *)
Definition poll_turn (poll_interval_ms : Z) (p : Poll) (w : Watch) (zmq_last_seen now1 : Z) (answer : option string)
    (now2 : Z) : Poll * Watch :=
  let p' := poll_step poll_interval_ms p zmq_last_seen now1 answer now2 in
  (p', fold_left (fun w seq => watch_send seq w) (drop (length (signals p)) (signals p')) w).
End signals.

(** ** The engine's loop *)

(** What [select!] completes with; the first refresh comes before the loop. *)
Inductive engine_arm := NewBlock | NtimeTick | ChannelClosed.
(** Whether the arm refreshes, and as a clean job. *)
Definition run_arm (a : engine_arm) : option bool :=
  match a with NewBlock => Some true | NtimeTick => Some false | ChannelClosed => None end.

(** ** The pipeline *)

Section pipeline.
Context {HL : HexLib} {HS : Sha256Lib} {HB : BitcoinLib} {HW : WatchLib}.
Context (poll_interval_ms : Z) (pool_cfg : PoolConfig).

(** The process, the node's tip, and two facts the theorems speak of: whether
    a signal was sent since the tip last changed, and whether the engine
    made its first refresh. *)
Record Pipe := {
  w_watch : Watch; w_listener : Listener; w_poll : Poll; w_engine : TemplateEngine; w_ids : JobIds;
  w_tip : string; w_signalled : bool; w_started : bool;
}.
Definition pipe_init (ids : JobIds) (tip : string) : Pipe := {|
  w_watch := watch_channel 0; w_listener := {| zl_seq := 0; zl_last_seen := 0 |}; w_poll := poll_init;
  w_engine := engine_new; w_ids := ids; w_tip := tip; w_signalled := false; w_started := false |}.
(** The node answers [getblocktemplate] with a template on its tip. *)
Definition on_node_tip (tip : string) (gbt : outcome PoolError GbtResult) : Prop :=
  match gbt with Ok g => gbt_prev_hash g = tip | _ => True end.
Definition with_watch (w : Pipe) (watch : Watch) (l : Listener) (p : Poll) (signalled : bool) : Pipe := {|
  w_watch := watch; w_listener := l; w_poll := p; w_engine := w_engine w; w_ids := w_ids w;
  w_tip := w_tip w; w_signalled := signalled; w_started := w_started w |}.
Definition with_refreshed (w : Pipe) (watch : Watch) (e : TemplateEngine) (ids : JobIds) : Pipe := {|
  w_watch := watch; w_listener := w_listener w; w_poll := w_poll w; w_engine := e; w_ids := ids;
  w_tip := w_tip w; w_signalled := w_signalled w; w_started := true |}.
Definition poll_of (w : Pipe) (answered : bool) (now1 now2 : Z) : Poll * Watch :=
  poll_turn poll_interval_ms (w_poll w) (w_watch w) (zl_last_seen (w_listener w)) now1
    (if answered then Some (w_tip w) else None) now2.

Inductive pipe_step : Pipe -> Pipe -> Prop :=
| ps_tip w hash : hash ≠ w_tip w -> pipe_step w
    {| w_watch := w_watch w; w_listener := w_listener w; w_poll := w_poll w; w_engine := w_engine w; w_ids := w_ids w;
       w_tip := hash; w_signalled := false; w_started := w_started w |}
| ps_zmq w now : pipe_step w
    (let '(l, watch) := listener_message (w_listener w) (w_watch w) now in with_watch w watch l (w_poll w) true)
| ps_reconnect w : pipe_step w (with_watch w (w_watch w) (listener_reconnect (w_listener w)) (w_poll w) (w_signalled w))
| ps_poll w answered now1 now2 : pipe_step w
    (let '(p, watch) := poll_of w answered now1 now2 in
     with_watch w watch (w_listener w) p (w_signalled w || negb (seq_no p =? seq_no (w_poll w))))
| ps_start w settings gbt n1 n2 ids e effs : w_started w = false -> on_node_tip (w_tip w) gbt ->
    refresh settings pool_cfg (w_ids w) gbt n1 n2 (w_engine w) true = Ok (ids, e, effs) ->
    pipe_step w (with_refreshed w (w_watch w) e ids)
| ps_new_block w settings gbt n1 n2 ids e effs clean : w_started w = true -> watch_unseen (w_watch w) = true ->
    on_node_tip (w_tip w) gbt -> run_arm NewBlock = Some clean ->
    refresh settings pool_cfg (w_ids w) gbt n1 n2 (w_engine w) clean = Ok (ids, e, effs) ->
    pipe_step w (with_refreshed w (watch_mark_seen (w_watch w)) e ids)
| ps_ntime w settings gbt n1 n2 ids e effs clean : w_started w = true ->
    on_node_tip (w_tip w) gbt -> run_arm NtimeTick = Some clean ->
    refresh settings pool_cfg (w_ids w) gbt n1 n2 (w_engine w) clean = Ok (ids, e, effs) ->
    pipe_step w (with_refreshed w (w_watch w) e ids).

(** ** Its invariant *)

Definition job_on (tip : string) (e : TemplateEngine) : Prop :=
  exists job, current_job e = Some job /\ stratum_prev_hash tip = Ok (prev_hash job).
(** The number of a poll's signals is its counter; once the signals are seen
    and one was sent since the tip changed, the last refresh was on this tip. *)
Definition pipe_inv (w : Pipe) : Prop :=
  seq_no (w_poll w) = Z.of_nat (length (signals (w_poll w))) /\
  (watch_unseen (w_watch w) = false -> w_signalled w = true -> w_started w = true ->
   last_template_error (w_engine w) = None -> job_on (w_tip w) (w_engine w)).

Lemma refresh_on_tip settings tip ids gbt n1 n2 e clean ids' e' effs :
  on_node_tip tip gbt -> refresh settings pool_cfg ids gbt n1 n2 e clean = Ok (ids', e', effs) ->
  (is_Some (last_template_error e') /\ effs = []) \/
  (job_on tip e' /\ exists stats b, effs = [stats; Broadcast b] /\ current_job e' = Some (jb_job b) /\ (clean = true -> jb_clean b = true)).
Proof.
  intros Ht H. apply refresh_cases in H as [(why & -> & ->)|(a & g & job & _ & -> & Hb & H)]; [left; cbn; by eauto|].
  right. unfold commit_job in H. destruct H as [-> ->]. split.
  - exists job. split; [done|]. cbn in Ht. subst tip.
    unfold build_job in Hb. destruct (next_job_id ids) as [id ids1]. injection Hb as _ Hj.
    apply outcome_bind_ok in Hj as ((cb & off) & _ & Hj). apply outcome_bind_ok in Hj as (? & _ & Hj).
    apply outcome_bind_ok in Hj as (txids & _ & Hj). apply outcome_bind_ok in Hj as (branch & _ & Hj).
    apply outcome_bind_ok in Hj as (prev & Hprev & Hj). apply outcome_bind_ok in Hj as (target & _ & Hj).
    by injection Hj as <-.
  - do 2 eexists. split; [reflexivity|]. split; [done|]. by intros ->.
Qed.

Lemma poll_step_sends p seen now1 answer now2 :
  let p' := poll_step poll_interval_ms p seen now1 answer now2 in
  (seq_no p' = seq_no p /\ signals p' = signals p) \/ (seq_no p' = seq_no p + 1 /\ signals p' = signals p ++ [seq_no p + 1]).
Proof.
  cbv zeta. unfold poll_step.
  assert (seq_no (poll_verdict p seen now1 (poll_slack_secs poll_interval_ms)) = seq_no p /\
          signals (poll_verdict p seen now1 (poll_slack_secs poll_interval_ms)) = signals p) as [Hn Hs].
  { unfold poll_verdict. destruct (awaiting_zmq p); [|done]. by destruct (zmq_verdict _ _ _ _). }
  set (q := poll_verdict _ _ _ _) in *. clearbody q. unfold poll_observe. destruct answer as [h|]; [|by left].
  destruct (bool_decide _); [by left|]. right. cbn. by rewrite Hn, Hs.
Qed.
Context {HWL : WatchLaws}.
Lemma poll_of_sends w answered now1 now2 :
  let '(p, watch) := poll_of w answered now1 now2 in
  (seq_no p = seq_no (w_poll w) /\ signals p = signals (w_poll w) /\ watch = w_watch w) \/
  (seq_no p = seq_no (w_poll w) + 1 /\ signals p = signals (w_poll w) ++ [seq_no (w_poll w) + 1] /\ watch_unseen watch = true).
Proof.
  unfold poll_of, poll_turn. cbv zeta. set (p' := poll_step _ _ _ _ _ _).
  destruct (poll_step_sends (w_poll w) (zl_last_seen (w_listener w)) now1 (if answered then Some (w_tip w) else None) now2)
    as [[H1 H2]|[H1 H2]]; fold p' in H1, H2; rewrite H1, H2.
  - left. by rewrite drop_all.
  - right. rewrite drop_app_length. split; [done|]. split; [done|]. apply watch_unseen_send.
Qed.
Lemma pipe_step_inv w w' : pipe_inv w -> pipe_step w w' -> pipe_inv w'.
Proof.
  intros [Hn Hj] Hs. destruct Hs as [w hash _|w now|w|w answered now1 now2|w st gbt n1 n2 ids e effs _ Ht Hr
    |w st gbt n1 n2 ids e effs c _ _ Ht _ Hr|w st gbt n1 n2 ids e effs c _ Ht _ Hr].
  - split; [done|]. cbn. done.
  - split; [done|]. cbn. intros Hu. by rewrite watch_unseen_send in Hu.
  - split; [done|]. exact Hj.
  - pose proof (poll_of_sends w answered now1 now2) as Hp. destruct (poll_of w answered now1 now2) as [p watch].
    destruct Hp as [(H1 & H2 & ->)|(H1 & H2 & Hu)]; (split; cbn; [rewrite H1, H2, ?length_app; cbn; lia|]).
    + rewrite H1, Z.eqb_refl, orb_false_r. exact Hj.
    + intros Hu'. congruence.
  - apply (refresh_on_tip _ (w_tip w)) in Hr; [|done]. split; [done|]. cbn. intros _ _ _ He.
    destruct Hr as [[[? Hr] _]|[Hr _]]; [congruence|done].
  - apply (refresh_on_tip _ (w_tip w)) in Hr; [|done]. split; [done|]. cbn. intros _ _ _ He.
    destruct Hr as [[[? Hr] _]|[Hr _]]; [congruence|done].
  - apply (refresh_on_tip _ (w_tip w)) in Hr; [|done]. split; [done|]. cbn. intros _ _ _ He.
    destruct Hr as [[[? Hr] _]|[Hr _]]; [congruence|done].
Qed.
Lemma pipe_reachable_inv ids tip w : rtc pipe_step (pipe_init ids tip) w -> pipe_inv w.
Proof.
  intros Hr. assert (pipe_inv (pipe_init ids tip)) as H0 by done.
  induction Hr as [|x y z Hs Hr IH]; [done|]. by apply IH, (pipe_step_inv x).
Qed.
End pipeline.
