(* ===== verification/Security.v ===== *)
(** The DoS protection layer (security/mod.rs): the ban list, the per-address
    connection limiter, worker-name validation, the token bucket and the
    invalid-share counter of a session.

    The concurrent maps are [gmap]s: each operation locks the entries it
    touches and the accept loop is the only caller that inserts. Iteration
    over a [DashMap] has no order; [map_to_list] gives one. *)
From S2P Require Export Error Vardiff.

Definition MAX_TRACKED_IPS : nat := 65536.

Section maps.
Context {Ip : Type} `{!EqDecision Ip} `{!Countable Ip}.

(** ** Ban list *)

Record BanList := {
  ban_entries : gmap Ip Z;   (** address to the end of its ban *)
  ban_duration : Z;
  ban_max_entries : nat;
}.
Definition banlist_new (ban_duration_secs : Z) (max_entries : nat) : BanList :=
  {| ban_entries := ∅; ban_duration := from_secs ban_duration_secs; ban_max_entries := max_entries |}.
Definition with_bans (b : BanList) (m : gmap Ip Z) : BanList :=
  {| ban_entries := m; ban_duration := ban_duration b; ban_max_entries := ban_max_entries b |}.

Definition ban_prune (b : BanList) (now : Z) : BanList :=
  with_bans b (filter (fun kv => now < kv.2) (ban_entries b)).
(** [min_by_key(|e| e.until)]. *)
Fixpoint earliest (l : list (Ip * Z)) : option (Ip * Z) :=
  match l with
  | [] => None
  | x :: l =>
      match earliest l with
      | Some y => if y.2 <? x.2 then Some y else Some x
      | None => Some x
      end
  end.
(** The room made for an address that is not listed. *)
Definition ban_make_room (b : BanList) (ip : Ip) (now : Z) : BanList :=
  if (ban_max_entries b <=? size (ban_entries b))%nat && negb (bool_decide (is_Some (ban_entries b !! ip))) then
    let b := ban_prune b now in
    if (ban_max_entries b <=? size (ban_entries b))%nat then
      match earliest (map_to_list (ban_entries b)) with
      | Some (victim, _) => with_bans b (delete victim (ban_entries b))
      | None => b
      end
    else b
  else b.
(** [BanList::ban]; [None] is the panic of [Instant + Duration]. *)
Definition ban (b : BanList) (ip : Ip) (now1 now2 : Z) : option BanList :=
  let b := ban_make_room b ip now1 in
  until ← instant_add now2 (ban_duration b);
  Some (with_bans b (<[ip := until]> (ban_entries b))).
Definition is_banned (b : BanList) (ip : Ip) (now1 now2 : Z) : BanList * bool :=
  let expired_now := match ban_entries b !! ip with Some until => until <=? now2 | None => false end in
  let cleaned := if expired_now then with_bans b (delete ip (ban_entries b)) else b in
  match ban_entries b !! ip with
  | Some until => if now1 <? until then (b, true) else (cleaned, false)
  | None => (cleaned, false)
  end.

(** ** Connection limiter *)

Record ConnectionRateLimiter := {
  windows : gmap Ip (list Z);
  max_per_minute : Z;
  max_tracked : nat;
}.
Definition limiter_new (max_per_minute : Z) (max_tracked : nat) : ConnectionRateLimiter :=
  {| windows := ∅; max_per_minute := max_per_minute; max_tracked := max_tracked |}.
Definition with_windows (l : ConnectionRateLimiter) (m : gmap Ip (list Z)) : ConnectionRateLimiter :=
  {| windows := m; max_per_minute := max_per_minute l; max_tracked := max_tracked l |}.
Definition MINUTE : Z := from_secs 60.

Definition after (cutoff t : Z) : bool := cutoff <? t.
Definition limiter_prune (l : ConnectionRateLimiter) (now : Z) : ConnectionRateLimiter :=
  match instant_checked_sub now MINUTE with
  | None => l
  | Some cutoff => with_windows l (filter (fun kv => existsb (after cutoff) kv.2 = true) (windows l))
  end.
(** The entry of [ip], trimmed and possibly extended. *)
Definition record_in_window (l : ConnectionRateLimiter) (ip : Ip) (one_minute_ago : option Z) (now : Z)
    : ConnectionRateLimiter * bool :=
  let entry := default [] (windows l !! ip) in
  let entry := match one_minute_ago with Some c => List.filter (after c) entry | None => entry end in
  if max_per_minute l <=? Z.of_nat (length entry) then
    (with_windows l (<[ip := entry]> (windows l)), false)
  else (with_windows l (<[ip := entry ++ [now]]> (windows l)), true).
(** [check_and_record]: the clock is read for the cutoff, for a prune, and
    for the new entry. *)
Definition check_and_record (l : ConnectionRateLimiter) (ip : Ip) (now1 now2 now3 : Z)
    : ConnectionRateLimiter * bool :=
  let one_minute_ago := instant_checked_sub now1 MINUTE in
  if (max_tracked l <=? size (windows l))%nat && negb (bool_decide (is_Some (windows l !! ip))) then
    let l := limiter_prune l now2 in
    if (max_tracked l <=? size (windows l))%nat then (l, false)
    else record_in_window l ip one_minute_ago now3
  else record_in_window l ip one_minute_ago now3.
End maps.
Arguments BanList Ip {_ _}.
Arguments ConnectionRateLimiter Ip {_ _}.

(** ** Worker names *)

Definition invalid_worker (detail : string) : PoolError := InvalidParams "worker name" detail.
Definition validate_worker_name (name : string) (max_len : Z) : outcome PoolError () :=
  if bool_decide (name = empty_str) then Err (invalid_worker "worker name must not be empty")
  else if max_len <? str_len name then Err (invalid_worker "worker name too long")
  else if existsb (fun c => is_control c || is_whitespace c) (str_chars name) then
    Err (invalid_worker "worker name must not contain control or whitespace characters")
  else Ok tt.

(** ** Share rate limiter: a token bucket *)

Record ShareRateLimiter := { tokens : f64; max_per_sec : f64; last_refill : Z }.
Definition share_limiter_new (max_per_sec : Z) (now : Z) : ShareRateLimiter :=
  let rate := f64_of_Z max_per_sec in {| tokens := rate; max_per_sec := rate; last_refill := now |}.
Definition try_consume (s : ShareRateLimiter) (now1 now2 : Z) : ShareRateLimiter * bool :=
  let elapsed := as_secs_f64 (duration_since now1 (last_refill s)) in
  let refilled := f64_min (f64_add (tokens s) (f64_mul elapsed (max_per_sec s))) (max_per_sec s) in
  if f64_le f64_one refilled then
    ({| tokens := f64_sub refilled f64_one; max_per_sec := max_per_sec s; last_refill := now2 |}, true)
  else ({| tokens := refilled; max_per_sec := max_per_sec s; last_refill := now2 |}, false).

(** ** Invalid-share counter *)

Record InvalidShareCounter := { inv_count : Z; inv_max : Z }.
Definition counter_new (max : Z) : InvalidShareCounter := {| inv_count := 0; inv_max := max |}.
(** The result says whether to disconnect. *)
Definition record_invalid (c : InvalidShareCounter) : InvalidShareCounter * bool :=
  if inv_max c =? 0 then (c, false)
  else
    let count := wrap 32 (inv_count c + 1) in
    ({| inv_count := count; inv_max := inv_max c |}, inv_max c <=? count).

(** ** The guard of a session *)

Record SessionGuard := {
  share_rate : ShareRateLimiter;
  invalid_shares : InvalidShareCounter;
  g_max_message_bytes : Z;
  g_max_worker_name_len : Z;
  authorizations : Z;
  max_authorizations : Z;
}.
Definition guard_new (cfg : SecurityConfig) (now : Z) : SessionGuard := {|
  share_rate := share_limiter_new (max_shares_per_sec cfg) now;
  invalid_shares := counter_new (max_invalid_shares cfg);
  g_max_message_bytes := max_message_bytes cfg;
  g_max_worker_name_len := max_worker_name_len cfg;
  authorizations := 0;
  max_authorizations := max_authorizations_per_session cfg |}.
Definition with_share_rate (g : SessionGuard) (r : ShareRateLimiter) : SessionGuard := {|
  share_rate := r; invalid_shares := invalid_shares g; g_max_message_bytes := g_max_message_bytes g;
  g_max_worker_name_len := g_max_worker_name_len g; authorizations := authorizations g;
  max_authorizations := max_authorizations g |}.
Definition with_invalid (g : SessionGuard) (c : InvalidShareCounter) : SessionGuard := {|
  share_rate := share_rate g; invalid_shares := c; g_max_message_bytes := g_max_message_bytes g;
  g_max_worker_name_len := g_max_worker_name_len g; authorizations := authorizations g;
  max_authorizations := max_authorizations g |}.
(** [false] once the cap is exceeded. *)
Definition record_new_authorization (g : SessionGuard) : SessionGuard * bool :=
  if max_authorizations g =? 0 then (g, true)
  else
    let n := wrap 32 (authorizations g + 1) in
    ({| share_rate := share_rate g; invalid_shares := invalid_shares g;
        g_max_message_bytes := g_max_message_bytes g; g_max_worker_name_len := g_max_worker_name_len g;
        authorizations := n; max_authorizations := max_authorizations g |},
     negb (max_authorizations g <? n)).
Definition check_message_size (g : SessionGuard) (len : Z) : outcome PoolError () :=
  if g_max_message_bytes g <? len then Err (MessageTooLarge len) else Ok tt.
Definition check_worker_name (g : SessionGuard) (name : string) : outcome PoolError () :=
  validate_worker_name name (g_max_worker_name_len g).
