(* ===== verification/Server.v ===== *)
(** The accept loop (network/server.rs): the connection budget shared by the
    acceptor and the session tasks, the checks an accepted connection passes,
    and the protocol detection. *)
From S2P Require Export Security.

Definition HANDSHAKE_TIMEOUT_SECS : Z := 10.

(** ** Checks on an accepted connection, in order *)

Inductive refusal := Capacity | BannedIp | RateLimit.
Section accept.
Context {Ip : Type} `{!EqDecision Ip} `{!Countable Ip}.
(** What one accepted connection does to the ban list and the limiter once a
    slot was found free ([reserved]) or not. *)
Definition admission (reserved : bool) (bans : BanList Ip) (lim : ConnectionRateLimiter Ip) (ip : Ip)
    (b1 b2 r1 r2 r3 : Z) : BanList Ip * ConnectionRateLimiter Ip * option refusal :=
  if negb reserved then (bans, lim, Some Capacity)
  else
    let '(bans, banned) := is_banned bans ip b1 b2 in
    if banned then (bans, lim, Some BannedIp)
    else
      let '(lim, allowed) := check_and_record lim ip r1 r2 r3 in
      if allowed then (bans, lim, None) else (bans, lim, Some RateLimit).
End accept.

(** ** The protocol of a connection *)

(** The outcome of the peek at the first byte. *)
Inductive peeked := PeekTimeout | PeekClosed | PeekByte (b : byte) | PeekError.
Inductive protocol := RunSv1 | RunSv2 | Sv2Rejected | NoSession.
Definition detect (sv2_on : bool) (p : peeked) : protocol :=
  match p with
  | PeekTimeout | PeekClosed | PeekError => NoSession
  | PeekByte b => if b2z b =? 123 then RunSv1 else if sv2_on then RunSv2 else Sv2Rejected
  end.

(** ** The budget of connections

    One acceptor and any number of session tasks share the counter
    [active_count]; every load, compare-exchange and decrement is one step.
    A session ends by returning or by panicking: its [ConnectionSlot] is
    dropped either way. *)
Inductive acceptor := Idle | Loaded (current : Z) | Reserved.
Record budget := { active : Z; acc : acceptor; live : Z; refused : list refusal }.
Definition budget_init : budget := {| active := 0; acc := Idle; live := 0; refused := [] |}.

Inductive budget_step (max_connections : Z) : budget -> budget -> Prop :=
| b_load a s r : budget_step max_connections
    {| active := a; acc := Idle; live := s; refused := r |}
    {| active := a; acc := Loaded a; live := s; refused := r |}
| b_full a c s r : max_connections <= c -> budget_step max_connections
    {| active := a; acc := Loaded c; live := s; refused := r |}
    {| active := a; acc := Idle; live := s; refused := r ++ [Capacity] |}
| b_cas_ok a s r : a < max_connections -> budget_step max_connections
    {| active := a; acc := Loaded a; live := s; refused := r |}
    {| active := wrap 64 (a + 1); acc := Reserved; live := s; refused := r |}
| b_cas_lost a c s r : c < max_connections -> a ≠ c -> budget_step max_connections
    {| active := a; acc := Loaded c; live := s; refused := r |}
    {| active := a; acc := Loaded a; live := s; refused := r |}
| b_refuse a s r why : why ≠ Capacity -> budget_step max_connections
    {| active := a; acc := Reserved; live := s; refused := r |}
    {| active := wrap 64 (a - 1); acc := Idle; live := s; refused := r ++ [why] |}
| b_spawn a s r : budget_step max_connections
    {| active := a; acc := Reserved; live := s; refused := r |}
    {| active := a; acc := Idle; live := s + 1; refused := r |}
| b_exit a c s r : 0 < s -> budget_step max_connections
    {| active := a; acc := c; live := s; refused := r |}
    {| active := wrap 64 (a - 1); acc := c; live := s - 1; refused := r |}.

Definition held (c : acceptor) : Z := match c with Reserved => 1 | _ => 0 end.
Definition budget_inv (max_connections : Z) (b : budget) : Prop :=
  active b = live b + held (acc b) /\ 0 <= live b /\ active b <= max_connections.
Lemma budget_step_inv mc b b' :
  0 <= mc < 2 ^ 64 -> budget_inv mc b -> budget_step mc b b' -> budget_inv mc b'.
Proof.
  intros Hmc (Ha & Hl & Hm) Hs. destruct Hs; unfold budget_inv in *; cbn in *; try lia.
  all: unfold wrap; rewrite Z.mod_small; destruct_or?; try (destruct c; cbn in *); lia.
Qed.
