(* ===== verification/SecurityFacts.v ===== *)
(** Lemmas about the protection layer: the connection limiter's windows
    against the list of connections it let through, and the ban list. *)
From S2P Require Export Server.

Section limiter.
Context {Ip : Type} `{!EqDecision Ip} `{!Countable Ip}.
Implicit Types (l : ConnectionRateLimiter Ip) (ip : Ip).

(** What reaches the limiter: connections, with the three clock readings of
    the call, and the background prune. *)
Inductive lim_event := EConnect (ip : Ip) (n1 n2 n3 : Z) | EPrune (now : Z).
Definition lim_step l (e : lim_event) : ConnectionRateLimiter Ip * list (Ip * Z) :=
  match e with
  | EConnect ip n1 n2 n3 =>
      let '(l, ok) := check_and_record l ip n1 n2 n3 in (l, if ok then [(ip, n3)] else [])
  | EPrune now => (limiter_prune l now, [])
  end.
Fixpoint lim_run l (evs : list lim_event) : ConnectionRateLimiter Ip * list (Ip * Z) :=
  match evs with
  | [] => (l, [])
  | e :: evs =>
      let '(l, a1) := lim_step l e in
      let '(l, a2) := lim_run l evs in (l, a1 ++ a2)
  end.
(** The clock does not run backwards, from one reading to the next. *)
Fixpoint ordered (from : Z) (evs : list lim_event) : Prop :=
  match evs with
  | [] => True
  | EConnect _ n1 n2 n3 :: evs => from <= n1 <= n2 /\ n2 <= n3 /\ ordered n3 evs
  | EPrune now :: evs => from <= now /\ ordered now evs
  end.

(** The times at which [ip] was let through, and the number inside a window. *)
Definition times_of ip (a : list (Ip * Z)) : list Z :=
  map snd (List.filter (fun x => bool_decide (x.1 = ip)) a).
Definition within (T t : Z) : bool := (T - MINUTE <? t) && (t <=? T).
Definition count_within (T : Z) (ts : list Z) : Z := Z.of_nat (length (List.filter (within T) ts)).

(** The limiter's window of an address agrees with the history of accepted
    connections on the last minute. *)
Definition lim_inv (max now : Z) l (a : list (Ip * Z)) : Prop :=
  max_per_minute l = max /\
  forall ip,
    Forall (fun t => t <= now) (times_of ip a) /\
    (forall c, now - MINUTE <= c ->
       List.filter (after c) (times_of ip a) = List.filter (after c) (default [] (windows l !! ip))) /\
    (forall T, count_within T (times_of ip a) <= max).

Lemma filter_length_le {A} (f : A -> bool) (l : list A) : (length (List.filter f l) <= length l)%nat.
Proof. induction l as [|x l IH]; cbn; [lia|]. destruct (f x); cbn; lia. Qed.
Lemma filter_none {A} (f : A -> bool) (l : list A) : existsb f l = false -> List.filter f l = [].
Proof. induction l as [|x l IH]; cbn; [done|]. intros [-> H]%orb_false_iff. by apply IH. Qed.
Lemma filter_after_weaker c c' (l : list Z) :
  c' <= c -> List.filter (after c) (List.filter (after c') l) = List.filter (after c) l.
Proof. intros H. apply filter_filter_weaker. unfold after. intros x Hx. b2p. apply Z.ltb_lt. lia. Qed.

Lemma lim_inv_later max now now' l a : now <= now' -> lim_inv max now l a -> lim_inv max now' l a.
Proof.
  intros Hn [Hm Hi]. split; [done|]. intros ip. destruct (Hi ip) as (H1 & H2 & H3).
  split; [eapply Forall_impl; [exact H1|]; cbn; lia|]. split; [|done]. intros c Hc. apply H2. lia.
Qed.
Lemma lim_prune_inv max now l a : lim_inv max now l a -> lim_inv max now (limiter_prune l now) a.
Proof.
  intros [Hm Hi]. unfold limiter_prune, instant_checked_sub.
  destruct (_ <? _); [by split|]. split; [done|]. intros ip. destruct (Hi ip) as (H1 & H2 & H3).
  split; [done|]. split; [|done]. intros c Hc. rewrite (H2 c Hc). cbn [windows with_windows].
  rewrite map_lookup_filter. destruct (windows l !! ip) as [ts|] eqn:E; [|done]. cbn.
  destruct (existsb (after (now - MINUTE)) ts) eqn:Ex; [done|].
  cbn. rewrite <- (filter_after_weaker c (now - MINUTE)) by done. by rewrite (filter_none _ ts Ex).
Qed.

Lemma times_of_snoc ip ip' t a :
  times_of ip (a ++ [(ip', t)]) = times_of ip a ++ (if bool_decide (ip' = ip) then [t] else []).
Proof.
  unfold times_of. rewrite List.filter_app, map_app. cbn. by destruct (bool_decide (ip' = ip)).
Qed.
Lemma count_within_app T ts t :
  count_within T (ts ++ [t]) = count_within T ts + if within T t then 1 else 0.
Proof. unfold count_within. rewrite List.filter_app, length_app. cbn. destruct (within T t); cbn; lia. Qed.
Lemma count_within_after T c ts :
  c <= T - MINUTE -> count_within T ts <= Z.of_nat (length (List.filter (after c) ts)).
Proof.
  intros Hc. unfold count_within. rewrite <- (filter_filter_weaker (after c) (within T)).
  - pose proof (filter_length_le (within T) (List.filter (after c) ts)). lia.
  - unfold within, after. intros t Ht. b2p. apply Z.ltb_lt. lia.
Qed.

(** A cutoff a call computed, or none, keeps what the invariant needs. *)
Lemma trim_keeps (cut : option Z) now c (ts : list Z) :
  (forall k, cut = Some k -> k <= now - MINUTE) -> now - MINUTE <= c ->
  List.filter (after c) (match cut with Some c => List.filter (after c) ts | None => ts end)
    = List.filter (after c) ts.
Proof.
  intros Hk Hc. destruct cut as [k|]; [|done]. specialize (Hk k eq_refl). apply filter_after_weaker. lia.
Qed.

Lemma record_in_window_inv max l a ip n1 n3 cut l' ok :
  (forall k, cut = Some k -> k <= n1 - MINUTE) -> n1 <= n3 -> lim_inv max n1 l a ->
  record_in_window l ip cut n3 = (l', ok) ->
  lim_inv max n3 l' (a ++ if ok then [(ip, n3)] else []).
Proof.
  intros Hcut Hn Hinv. pose proof Hinv as [Hm Hi]. unfold record_in_window.
  set (ts := default [] (windows l !! ip)).
  set (entry := match cut with Some c => List.filter (after c) ts | None => ts end).
  assert (forall c, n1 - MINUTE <= c -> List.filter (after c) entry = List.filter (after c) (times_of ip a)) as He.
  { intros c Hc. destruct (Hi ip) as (_ & H2 & _). rewrite H2 by done. by apply trim_keeps with n1. }
  destruct (Z.leb_spec (max_per_minute l) (Z.of_nat (length entry))); intros [= <- <-].
  - rewrite app_nil_r. split; [done|]. intros ip'. destruct (Hi ip') as (H1 & H2 & H3).
    split; [eapply Forall_impl; [exact H1|]; cbn; lia|]. split; [|done]. intros c Hc.
    cbn [windows with_windows]. destruct (decide (ip = ip')) as [<-|Hne].
    + rewrite lookup_insert_eq. cbn. symmetry. apply He. lia.
    + rewrite lookup_insert_ne by done. apply H2. lia.
  - split; [done|]. intros ip'. destruct (Hi ip') as (H1 & H2 & H3). rewrite times_of_snoc.
    split; [|split].
    + apply Forall_app. split; [eapply Forall_impl; [exact H1|]; cbn; lia|].
      destruct (bool_decide _); by repeat constructor.
    + intros c Hc. cbn [windows with_windows]. destruct (decide (ip = ip')) as [<-|Hne].
      * rewrite lookup_insert_eq, bool_decide_eq_true_2 by done. 
        change (default [] (Some (entry ++ [n3]))) with (entry ++ [n3]).
        rewrite !List.filter_app, He by lia. done.
      * rewrite lookup_insert_ne, bool_decide_eq_false_2 by done. rewrite app_nil_r. apply H2. lia.
    + intros T. destruct (decide (ip = ip')) as [<-|Hne].
      2: { rewrite bool_decide_eq_false_2, app_nil_r by done. apply H3. }
      rewrite bool_decide_eq_true_2, count_within_app by done.
      destruct (within T n3) eqn:Hw; [|specialize (H3 T); lia].
      unfold within in Hw. b2p.
      pose proof (count_within_after T (n1 - MINUTE) (times_of ip a) ltac:(lia)) as Hc.
      rewrite <- He in Hc by lia. pose proof (filter_length_le (after (n1 - MINUTE)) entry). lia.
Qed.
Lemma check_and_record_inv max now l a ip n1 n2 n3 l' ok :
  now <= n1 -> n1 <= n2 -> n2 <= n3 -> lim_inv max now l a ->
  check_and_record l ip n1 n2 n3 = (l', ok) ->
  lim_inv max n3 l' (a ++ if ok then [(ip, n3)] else []).
Proof.
  intros H1 H2 H3 Hi. unfold check_and_record.
  set (cut := instant_checked_sub n1 MINUTE).
  assert (forall k, cut = Some k -> k = n1 - MINUTE) as Hcut.
  { intros k. unfold cut, instant_checked_sub. by destruct (_ <? _); [|intros [= <-]]. }
  clearbody cut. destruct (_ && _).
  - pose proof (lim_prune_inv _ _ _ _ (lim_inv_later max now n2 l a ltac:(lia) Hi)) as Hp.
    destruct (Nat.leb _ _).
    + intros [= <- <-]. rewrite app_nil_r. by eapply lim_inv_later; [|exact Hp].
    + intros H. eapply record_in_window_inv; [|exact H3|exact Hp|exact H].
      intros k Hk. apply Hcut in Hk. lia.
  - intros H. apply (record_in_window_inv max l a ip n1 n3 cut); [|lia|by apply (lim_inv_later max now)|exact H].
    intros k Hk. apply Hcut in Hk. lia.
Qed.
Lemma lim_run_inv max now l a evs :
  lim_inv max now l a -> ordered now evs ->
  exists now', lim_inv max now' (lim_run l evs).1 (a ++ (lim_run l evs).2).
Proof.
  revert now l a; induction evs as [|e evs IH]; intros now l a Hi Ho.
  { exists now. cbn. by rewrite app_nil_r. }
  destruct e as [ip n1 n2 n3|now']; cbn [lim_run lim_step].
  - destruct Ho as ([Ho1 Ho2] & Ho3 & Ho). destruct (check_and_record l ip n1 n2 n3) as [l1 ok] eqn:E.
    pose proof (check_and_record_inv _ _ _ _ _ _ _ _ _ _ Ho1 Ho2 Ho3 Hi E) as Hi1.
    destruct (IH _ _ _ Hi1 Ho) as [now' H]. exists now'.
    destruct (lim_run l1 evs) as [l2 a2]. cbn in *. by rewrite app_assoc.
  - destruct Ho as [Ho1 Ho]. pose proof (lim_prune_inv _ _ _ _ (lim_inv_later _ _ _ _ _ Ho1 Hi)) as Hi1.
    destruct (IH _ _ _ Hi1 Ho) as [now'' H]. exists now''.
    by destruct (lim_run (limiter_prune l now') evs) as [l2 a2].
Qed.
Lemma limiter_new_inv max cap now : 0 <= max -> lim_inv max now (limiter_new max cap) [].
Proof.
  intros Hm. split; [done|]. intros ip. split; [constructor|]. split; [|done].
  intros c Hc. cbn. by rewrite lookup_empty.
Qed.
End limiter.
Arguments lim_event Ip : clear implicits.

(** ** The ban list *)

Section bans.
Context {Ip : Type} `{!EqDecision Ip} `{!Countable Ip}.
Implicit Types (b : BanList Ip) (ip : Ip).

Lemma earliest_In l (x : Ip * Z) : earliest l = Some x -> x ∈ l.
Proof.
  revert x; induction l as [|y l IH]; [done|]. intros x H. cbn in H. destruct (earliest l) as [z|].
  - destruct (_ <? _); injection H as <-; [right; by apply IH|by left].
  - injection H as <-. by left.
Qed.
Lemma earliest_None l : @earliest Ip l = None -> l = [].
Proof. destruct l as [|x l]; [done|]. cbn. destruct (earliest l) as [y|]; [by destruct (_ <? _)|done]. Qed.
Lemma make_room_size b ip now :
  (0 < ban_max_entries b)%nat -> (size (ban_entries b) <= ban_max_entries b)%nat ->
  is_Some (ban_entries b !! ip) \/
  (size (ban_entries (ban_make_room b ip now)) < ban_max_entries b)%nat.
Proof.
  intros Hmax Hsz. destruct (ban_entries b !! ip) as [u|] eqn:E; [by left|right].
  unfold ban_make_room. rewrite E, bool_decide_eq_false_2 by (by intros [? ?]). cbn [negb]. rewrite andb_true_r.
  destruct (Nat.leb_spec (ban_max_entries b) (size (ban_entries b))); [|done].
  cbn [ban_max_entries ban_entries ban_prune with_bans].
  destruct (Nat.leb_spec (ban_max_entries b) (size (filter (fun kv : Ip * Z => now < kv.2) (ban_entries b)))); [|done].
  destruct (earliest _) as [[victim u]|] eqn:Ev.
  - apply earliest_In, elem_of_map_to_list in Ev. cbn [ban_entries with_bans].
    rewrite map_size_delete_Some by eauto.
    pose proof (map_filter_subseteq (fun kv : Ip * Z => now < kv.2) (ban_entries b)) as Hsub.
    apply map_subseteq_size in Hsub. lia.
  - apply earliest_None in Ev. apply map_to_list_empty_iff in Ev. rewrite Ev, map_size_empty in *. lia.
Qed.

(** *** Bans over time

    [log] is every ban so far: the address and the reading the end of its ban
    was computed from. *)
Implicit Types (log : list (Ip * Z)).

Lemma earliest_min l (x y : Ip * Z) : earliest l = Some x -> y ∈ l -> x.2 <= y.2.
Proof.
  revert x; induction l as [|z l IH]; intros x H Hy; [by apply not_elem_of_nil in Hy|].
  cbn in H. destruct (earliest l) as [m|] eqn:E.
  - specialize (IH m eq_refl). apply elem_of_cons in Hy as [->|Hy]; [|specialize (IH Hy)];
      destruct (Z.ltb_spec m.2 z.2); injection H as <-; lia.
  - injection H as <-. apply earliest_None in E. subst l. apply elem_of_cons in Hy as [->|Hy]; [done|by apply not_elem_of_nil in Hy].
Qed.
(** As many other addresses as the list holds were banned from [t] on. *)
Definition crowded (max : nat) log ip (t : Z) : Prop :=
  exists X : gset Ip, (max <= size X)%nat /\ ip ∉ X /\ forall x, x ∈ X -> exists t', (x, t') ∈ log /\ t <= t'.
Record bans_inv b log (now : Z) : Prop := {
  bi_from : forall ip u, ban_entries b !! ip = Some u -> (ip, u - ban_duration b) ∈ log;
  bi_past : forall ip t, (ip, t) ∈ log -> t <= now;
  bi_held : forall ip t, (ip, t) ∈ log ->
    t + ban_duration b <= now \/
    (exists u, ban_entries b !! ip = Some u /\ t + ban_duration b <= u) \/ crowded (ban_max_entries b) log ip t;
}.
Lemma crowded_app max log log' ip t : crowded max log ip t -> crowded max (log ++ log') ip t.
Proof.
  intros (X & Hs & Hi & HX). exists X. split; [done|]. split; [done|]. intros x Hx.
  destruct (HX x Hx) as (t' & Hin & Ht). exists t'. split; [|done]. apply elem_of_app. by left.
Qed.
Lemma bans_inv_later b log now now' : now <= now' -> bans_inv b log now -> bans_inv b log now'.
Proof.
  intros Hle [H1 H2 H3]. split; [done| |].
  - intros ip t Hin. specialize (H2 _ _ Hin). lia.
  - intros ip t Hin. destruct (H3 _ _ Hin) as [|]; [left; lia|by right].
Qed.
(** Dropping entries that are over. *)
Lemma bans_inv_sub b (m : gmap Ip Z) log now :
  m ⊆ ban_entries b -> (forall ip u, ban_entries b !! ip = Some u -> m !! ip = None -> u <= now) ->
  bans_inv b log now -> bans_inv (with_bans b m) log now.
Proof.
  intros Hsub Hgone [H1 H2 H3]. split; cbn [ban_entries with_bans ban_duration ban_max_entries]; [|done|].
  - intros ip u Hu. apply H1. by eapply lookup_weaken.
  - intros ip t Hin. destruct (H3 _ _ Hin) as [|[(u & Hu & Hle)|]]; [by left| |by right; right].
    destruct (m !! ip) as [v|] eqn:E.
    + right; left. exists u. pose proof (lookup_weaken _ _ _ _ E Hsub). split; [congruence|done].
    + left. specialize (Hgone _ _ Hu E). lia.
Qed.
Lemma ban_prune_inv b log now : bans_inv b log now -> bans_inv (ban_prune b now) log now.
Proof.
  apply bans_inv_sub; [apply map_filter_subseteq|]. intros ip u Hu Hn.
  rewrite map_lookup_filter_None in Hn. destruct Hn as [|Hn]; [congruence|]. specialize (Hn _ Hu). cbn in Hn. lia.
Qed.
Lemma is_banned_inv b log now ip n1 n2 :
  now <= n1 -> n1 <= n2 -> bans_inv b log now -> bans_inv (is_banned b ip n1 n2).1 log n2.
Proof.
  intros Hn Hb Hi. apply (bans_inv_later _ _ _ n2) in Hi; [|lia]. unfold is_banned.
  assert (bans_inv (with_bans b (delete ip (ban_entries b))) log n2 \/
          ~ (exists u, ban_entries b !! ip = Some u /\ u <= n2)) as Hd.
  { destruct (ban_entries b !! ip) as [u|] eqn:E; [|right; by intros (? & ? & _)].
    destruct (Z.le_gt_cases u n2); [left|right; intros (? & [= <-] & ?); lia].
    apply bans_inv_sub; [apply delete_subseteq| |done]. intros x v Hx Hv.
    destruct (decide (x = ip)) as [->|]; [congruence|rewrite lookup_delete_ne in Hv by done; congruence]. }
  destruct (ban_entries b !! ip) as [u|] eqn:E; [|exact Hi].
  destruct (n1 <? u); [exact Hi|]. destruct (Z.leb_spec u n2); [|exact Hi].
  destruct Hd as [Hd|Hd]; [exact Hd|]. exfalso. apply Hd. by exists u.
Qed.
Lemma is_banned_admits b log now ip n1 n2 t :
  bans_inv b log now -> now <= n1 -> (is_banned b ip n1 n2).2 = false -> (ip, t) ∈ log ->
  t + ban_duration b <= n1 \/ crowded (ban_max_entries b) log ip t.
Proof.
  intros [_ _ H3] Hn Hf Hin. unfold is_banned in Hf.
  destruct (H3 _ _ Hin) as [|[(u & Hu & Hle)|]]; [left; lia| |by right]. left.
  rewrite Hu in Hf. destruct (Z.ltb_spec n1 u); [done|lia].
Qed.
(** Making room drops entries that are over, or the one closest to its end,
    which the others and the newcomer outlast. *)
Lemma ban_make_room_inv b log now ip t' :
  bans_inv b log now -> now <= t' ->
  let b' := ban_make_room b ip now in
  ban_duration b' = ban_duration b /\ ban_max_entries b' = ban_max_entries b /\
  (forall x u, ban_entries b' !! x = Some u -> ban_entries b !! x = Some u) /\
  forall x t, (x, t) ∈ log -> t + ban_duration b <= now \/
    (exists u, ban_entries b' !! x = Some u /\ t + ban_duration b <= u) \/
    crowded (ban_max_entries b) (log ++ [(ip, t')]) x t.
Proof.
  intros Hi Ht'. cbv zeta. unfold ban_make_room.
  assert (forall c, bans_inv c log now -> forall x t, (x, t) ∈ log -> t + ban_duration c <= now \/
    (exists u, ban_entries c !! x = Some u /\ t + ban_duration c <= u) \/
    crowded (ban_max_entries c) (log ++ [(ip, t')]) x t) as Hkeep.
  { intros c [_ _ H3] x t Hin. destruct (H3 _ _ Hin) as [|[|Hc]]; [by left|by right; left|right; right; by apply crowded_app]. }
  destruct (_ && negb _) eqn:Hfull; [|split; [done|]; split; [done|]; split; [done|by apply Hkeep]].
  apply andb_true_iff in Hfull as [_ Hnew]. apply negb_true_iff, bool_decide_eq_false in Hnew.
  pose proof (ban_prune_inv b log now Hi) as Hp.
  assert (ban_entries (ban_prune b now) ⊆ ban_entries b) as Hsub by apply map_filter_subseteq.
  change (ban_duration b) with (ban_duration (ban_prune b now)).
  change (ban_max_entries b) with (ban_max_entries (ban_prune b now)).
  assert (ban_entries (ban_prune b now) !! ip = None) as Hip.
  { apply eq_None_not_Some. intros [u Hu]. apply Hnew. exists u. by eapply lookup_weaken. }
  set (c := ban_prune b now) in *. cbv zeta. clearbody c.
  destruct (Nat.leb_spec (ban_max_entries c) (size (ban_entries c))) as [Hsz|];
    [|split; [done|]; split; [done|]; split; [intros ? ? ?; by eapply lookup_weaken|by apply Hkeep]].
  destruct (earliest _) as [[victim v]|] eqn:Ev;
    [|split; [done|]; split; [done|]; split; [intros ? ? ?; by eapply lookup_weaken|by apply Hkeep]].
  split; [done|]. split; [done|]. cbn [ban_entries with_bans]. split.
  { intros x u Hx. apply lookup_delete_Some in Hx as [_ Hx]. by eapply lookup_weaken. }
  intros x t Hin. destruct (Hkeep c Hp x t Hin) as [|[(u & Hu & Hle)|]]; [by left| |by right; right].
  right. destruct (decide (x = victim)) as [->|Hx]; [right|left; exists u; by rewrite lookup_delete_ne].
  pose proof (earliest_In _ _ Ev) as Hv. apply elem_of_map_to_list in Hv.
  assert (u = v) as -> by congruence. exists ({[ip]} ∪ (dom (ban_entries c) ∖ {[victim]})).
  assert (victim ≠ ip) as Hvi by congruence. split; [|split; [set_solver|]].
  - rewrite size_union by (apply disjoint_singleton_l; rewrite elem_of_difference, elem_of_dom, Hip; by intros [[? ?] _]).
    rewrite size_difference by (apply singleton_subseteq_l, elem_of_dom; eauto). rewrite !size_singleton, size_dom.
    assert (size (ban_entries c) ≠ 0%nat) by (intros H0; apply map_size_empty_iff in H0; by rewrite H0 in Hv). lia.
  - intros y Hy. apply elem_of_union in Hy as [Hy|Hy].
    + apply elem_of_singleton in Hy as ->. exists t'. split; [apply elem_of_app; right; by left|].
      pose proof (bi_past _ _ _ Hp _ _ Hin). lia.
    + apply elem_of_difference in Hy as [Hy _]. apply elem_of_dom in Hy as [w Hw].
      exists (w - ban_duration c). split; [apply elem_of_app; left; by apply (bi_from _ _ _ Hp)|].
      apply elem_of_map_to_list in Hw. pose proof (earliest_min _ _ _ Ev Hw) as Hmin. cbn in Hmin. lia.
Qed.
Lemma ban_inv b log now ip n1 n2 b' :
  now <= n1 -> n1 <= n2 -> bans_inv b log now -> ban b ip n1 n2 = Some b' ->
  ban_duration b' = ban_duration b /\ ban_max_entries b' = ban_max_entries b /\ bans_inv b' (log ++ [(ip, n2)]) n2.
Proof.
  intros Hn Hle Hi Hban. apply (bans_inv_later _ _ _ n1) in Hi; [|done].
  destruct (ban_make_room_inv b log n1 ip n2 Hi Hle) as (Hd & Hm & Hsub & Hheld). unfold ban in Hban. cbv zeta in Hheld.
  set (c := ban_make_room b ip n1) in *. clearbody c. unfold instant_add in Hban.
  destruct (_ <? INSTANT_END); [|done]. injection Hban as <-. split; [done|]. split; [done|].
  split; cbn [ban_entries ban_duration ban_max_entries with_bans].
  - intros x u Hx. apply elem_of_app. destruct (decide (x = ip)) as [->|Hne].
    + rewrite lookup_insert_eq in Hx. injection Hx as <-. right. rewrite Z.add_simpl_r. by left.
    + rewrite lookup_insert_ne in Hx by done. left. rewrite Hd. by apply (bi_from _ _ _ Hi), Hsub.
  - intros x t Hin. apply elem_of_app in Hin as [Hin|Hin]; [pose proof (bi_past _ _ _ Hi _ _ Hin); lia|].
    apply list_elem_of_singleton in Hin. by injection Hin as -> ->.
  - intros x t Hin. rewrite Hd, Hm. destruct (decide (x = ip)) as [->|Hne].
    + right; left. exists (n2 + ban_duration b). rewrite lookup_insert_eq. split; [done|].
      apply elem_of_app in Hin as [Hin|Hin]; [pose proof (bi_past _ _ _ Hi _ _ Hin); lia|].
      apply list_elem_of_singleton in Hin. by injection Hin as ->.
    + rewrite lookup_insert_ne by done. apply elem_of_app in Hin as [Hin|Hin].
      * destruct (Hheld x t Hin) as [|[|]]; [left; lia|by right; left|by right; right].
      * apply list_elem_of_singleton in Hin. congruence.
Qed.
End bans.
