(* ===== verification/Sv1.v ===== *)
(** Stratum V1 messages (protocol/sv1.rs): the parameters of each method the
    pool understands, parsed from JSON values, and the builders of responses
    and notifications. Turning a line into a [StratumRequest] is code that
    serde derives; it is the parameter [request_from_str]. *)
From S2P Require Export Error Float64.

Section sv1.
Context {HJ : JsonLib f64} {HL : HexLib}.

Record StratumRequest := { req_id : Value; req_method : string; req_params : Value }.
Context (request_from_str : string -> outcome string StratumRequest).
Definition request_parse (line : string) : outcome PoolError StratumRequest :=
  match request_from_str line with
  | Ok r => Ok r
  | Err e => Err (Parse e)
  | Panic => Panic
  end.

Definition elem_str (arr : list Value) (i : nat) : option string := (arr !! i) ≫= as_str.
(** [str_at]. *)
Definition str_at (arr : list Value) (idx : nat) (method field : string) : outcome PoolError string :=
  ok_or (InvalidParams method
           ("missing or non-string field `" ++ field ++ "` at index " ++ dec (Z.of_nat idx))%string)
    (elem_str arr idx).

(** ** mining.subscribe *)
Record SubscribeParams := { user_agent : option string; subscribe_session_id : option string }.
Definition parse_subscribe (params : Value) : outcome PoolError SubscribeParams :=
  let at_ i := arr ← as_array params; elem_str arr i in
  Ok {| user_agent := at_ 0%nat; subscribe_session_id := at_ 1%nat |}.

(** ** mining.authorize *)
Record AuthorizeParams := { auth_worker : string; auth_password : option string }.
Definition parse_authorize (params : Value) : outcome PoolError AuthorizeParams :=
  arr ← ok_or (InvalidParams "mining.authorize" "params must be an array") (as_array params);
  worker ← ok_or (InvalidParams "mining.authorize" "missing worker name") (elem_str arr 0);
  Ok {| auth_worker := worker; auth_password := elem_str arr 1 |}.

(** ** mining.submit *)
Record SubmitParams := {
  submit_worker : string;
  submit_job_id : string;
  submit_extranonce2 : list byte;
  submit_ntime : Z;
  submit_nonce : Z;
  submit_version_bits : option Z;
}.
Definition parse_submit (params : Value) : outcome PoolError SubmitParams :=
  let m := "mining.submit" in
  arr ← ok_or (InvalidParams m "params must be an array") (as_array params);
  worker ← str_at arr 0 m "worker";
  job_id ← str_at arr 1 m "job_id";
  en2_hex ← str_at arr 2 m "extranonce2";
  ntime_hex ← str_at arr 3 m "ntime";
  nonce_hex ← str_at arr 4 m "nonce";
  extranonce2 ← ok_or (InvalidParams m "extranonce2 is not valid hex") (hex_decode en2_hex);
  ntime ← ok_or (InvalidParams m "ntime is not valid hex u32") (from_str_radix16 32 ntime_hex);
  nonce ← ok_or (InvalidParams m "nonce is not valid hex u32") (from_str_radix16 32 nonce_hex);
  Ok {| submit_worker := worker; submit_job_id := job_id; submit_extranonce2 := extranonce2;
        submit_ntime := ntime; submit_nonce := nonce;
        submit_version_bits := elem_str arr 5 ≫= from_str_radix16 32 |}.

(** ** mining.configure *)
Record ConfigureParams := {
  version_rolling : bool;
  cfg_version_rolling_mask : option Z;
  cfg_min_bit_count : option Z;
  minimum_difficulty : option Z;
  subscribe_extranonce : bool;
}.
Definition default_configure : ConfigureParams :=
  {| version_rolling := false; cfg_version_rolling_mask := None; cfg_min_bit_count := None;
     minimum_difficulty := None; subscribe_extranonce := false |}.
(** One extension of the request. *)
Definition parse_extension (ext_params : JMap) (r : ConfigureParams) (ext : Value) : ConfigureParams :=
  match as_str ext with
  | Some name =>
      if bool_decide (name = "version-rolling") then
        {| version_rolling := true;
           cfg_version_rolling_mask :=
             match jmap_get ext_params "version-rolling.mask" ≫= as_str with
             | Some mask_str => from_str_radix16 32 mask_str
             | None => cfg_version_rolling_mask r
             end;
           cfg_min_bit_count :=
             match jmap_get ext_params "version-rolling.min-bit-count" ≫= as_u64 with
             | Some min_bits => Some (wrap 32 min_bits)
             | None => cfg_min_bit_count r
             end;
           minimum_difficulty := minimum_difficulty r;
           subscribe_extranonce := subscribe_extranonce r |}
      else if bool_decide (name = "minimum-difficulty") then
        {| version_rolling := version_rolling r; cfg_version_rolling_mask := cfg_version_rolling_mask r;
           cfg_min_bit_count := cfg_min_bit_count r;
           minimum_difficulty := jmap_get ext_params "minimum-difficulty.value" ≫= as_u64;
           subscribe_extranonce := subscribe_extranonce r |}
      else if bool_decide (name = "subscribe-extranonce") then
        {| version_rolling := version_rolling r; cfg_version_rolling_mask := cfg_version_rolling_mask r;
           cfg_min_bit_count := cfg_min_bit_count r; minimum_difficulty := minimum_difficulty r;
           subscribe_extranonce := true |}
      else r
  | None => r
  end.
Definition parse_configure (params : Value) : outcome PoolError ConfigureParams :=
  let extensions := default [] (arr ← as_array params; v ← arr !! 0%nat; as_array v) in
  let ext_params := default jmap_empty (arr ← as_array params; v ← arr !! 1%nat; as_object v) in
  Ok (fold_left (parse_extension ext_params) extensions default_configure).

(** ** mining.suggest_difficulty *)
Definition parse_suggest_difficulty (params : Value) : outcome PoolError Z :=
  let v := match as_array params ≫= (fun a => a !! 0%nat) with Some v => v | None => params end in
  d ← ok_or (InvalidParams "mining.suggest_difficulty" "expected a numeric difficulty") (as_f64 v);
  if negb (f64_is_finite d) || f64_lt d f64_one then
    Err (InvalidParams "mining.suggest_difficulty" "difficulty must be a finite number >= 1")
  else Ok (f64_to_u 64 d).

(** ** Dispatch on the method *)
Inductive ClientMessage :=
| Subscribe (p : SubscribeParams)
| Authorize (p : AuthorizeParams)
| Submit (p : SubmitParams)
| Configure (p : ConfigureParams)
| SuggestDifficulty (difficulty : Z)
| UnknownMethodMsg (method : string).
Definition from_request (req : StratumRequest) : outcome PoolError ClientMessage :=
  let m := req_method req in
  if bool_decide (m = "mining.subscribe") then Subscribe <$> parse_subscribe (req_params req)
  else if bool_decide (m = "mining.authorize") then Authorize <$> parse_authorize (req_params req)
  else if bool_decide (m = "mining.submit") then Submit <$> parse_submit (req_params req)
  else if bool_decide (m = "mining.configure") then Configure <$> parse_configure (req_params req)
  else if bool_decide (m = "mining.suggest_difficulty") then
    SuggestDifficulty <$> parse_suggest_difficulty (req_params req)
  else Ok (UnknownMethodMsg m).

(** ** Responses and notifications *)

Definition obj (l : list (string * Value)) : Value :=
  json_object (fold_left (fun m kv => jmap_insert kv.1 kv.2 m) l jmap_empty).
Definition response_ok (id result : Value) : string :=
  to_string (obj [("id", id); ("result", result); ("error", json_null)]).
Definition response_err (id error : Value) : string :=
  to_string (obj [("id", id); ("result", json_null); ("error", error)]).
Definition response_subscribe (id : Value) (session_id extranonce1_hex : string) (extranonce2_size : Z) : string :=
  response_ok id (json_array
    [json_array [json_array [json_str "mining.set_difficulty"; json_str session_id];
                 json_array [json_str "mining.notify"; json_str session_id]];
     json_str extranonce1_hex; json_u64 extranonce2_size]).
Definition response_configure (id : Value) (rolling : bool) (our_mask : Z) (min_difficulty : option Z)
    (sub_extranonce : bool) : string :=
  let fields :=
    (if rolling then [("version-rolling", json_bool true);
                      ("version-rolling.mask", json_str (hex_fixed 8 our_mask))] else []) ++
    match min_difficulty with
    | Some md => [("minimum-difficulty", json_bool true); ("minimum-difficulty.value", json_u64 md)]
    | None => []
    end ++
    (if sub_extranonce then [("subscribe-extranonce", json_bool true)] else []) in
  response_ok id (obj fields).
Definition notification (method : string) (params : list Value) : string :=
  to_string (obj [("id", json_null); ("method", json_str method); ("params", json_array params)]).
Definition set_difficulty_msg (difficulty : Z) : string :=
  notification "mining.set_difficulty" [json_u64 difficulty].
Definition notify_msg (job_id prev_hash coinbase1 coinbase2 : string) (merkle_branch : list string)
    (version : Z) (bits : string) (ntime : Z) (clean_jobs : bool) : string :=
  notification "mining.notify"
    [json_str job_id; json_str prev_hash; json_str coinbase1; json_str coinbase2;
     json_array (map json_str merkle_branch); json_str (hex_fixed 8 version); json_str bits;
     json_str (hex_fixed 8 ntime); json_bool clean_jobs].
End sv1.
