(* ===== verification/Session.v ===== *)
(** A Stratum V1 session (network/session.rs): its state, the handlers of the
    five methods, the bounded line reader and the arms of its [select!] loop.

    A handler returns the new state, what it did to the statistics, metrics
    and the engine in order, and its [HandleResult]. The clock, the node's
    answers to a submission and the share record a returning worker had
    stashed are arguments; [None] is a panic of the session's task. *)
From S2P Require Export Sv1 Security Engine.
From Stdlib Require Import Strings.Ascii.

(** ** State *)

(** [shares_accepted] and [shares_rejected] are [u64]s; the peer's address is
    only logged and banned. *)
Record Session := {
  s_worker : option string;
  s_user_agent : option string;
  s_session_id : string;
  s_subscribed : bool;
  s_authorized : bool;
  s_version_rolling_enabled : bool;
  s_version_rolling_mask : Z;
  s_version_rolling_min_bit_count : option Z;
  s_extranonce1 : list byte;
  s_extranonce2_size : Z;
  s_current_job : option StratumJob;
  s_difficulty : Z;
  s_vardiff : Vardiff;
  s_vardiff_cfg : VardiffConfig;
  s_share_set : ShareSet;
  s_guard : SessionGuard;
  s_shares_accepted : Z;
  s_shares_rejected : Z;
  s_connect_time : Z;
}.
Definition with_rolling (s : Session) (version_rolling_enabled : bool) (version_rolling_mask : Z) (version_rolling_min_bit_count : option Z) : Session := {|
  s_worker := s_worker s; s_user_agent := s_user_agent s; s_session_id := s_session_id s;
  s_subscribed := s_subscribed s; s_authorized := s_authorized s;
  s_version_rolling_enabled := version_rolling_enabled;
  s_version_rolling_mask := version_rolling_mask;
  s_version_rolling_min_bit_count := version_rolling_min_bit_count;
  s_extranonce1 := s_extranonce1 s; s_extranonce2_size := s_extranonce2_size s;
  s_current_job := s_current_job s; s_difficulty := s_difficulty s; s_vardiff := s_vardiff s;
  s_vardiff_cfg := s_vardiff_cfg s; s_share_set := s_share_set s; s_guard := s_guard s;
  s_shares_accepted := s_shares_accepted s; s_shares_rejected := s_shares_rejected s;
  s_connect_time := s_connect_time s |}.
Definition with_difficulty (s : Session) (difficulty : Z) (vardiff : Vardiff) : Session := {|
  s_worker := s_worker s; s_user_agent := s_user_agent s; s_session_id := s_session_id s;
  s_subscribed := s_subscribed s; s_authorized := s_authorized s;
  s_version_rolling_enabled := s_version_rolling_enabled s;
  s_version_rolling_mask := s_version_rolling_mask s;
  s_version_rolling_min_bit_count := s_version_rolling_min_bit_count s;
  s_extranonce1 := s_extranonce1 s; s_extranonce2_size := s_extranonce2_size s;
  s_current_job := s_current_job s; s_difficulty := difficulty; s_vardiff := vardiff;
  s_vardiff_cfg := s_vardiff_cfg s; s_share_set := s_share_set s; s_guard := s_guard s;
  s_shares_accepted := s_shares_accepted s; s_shares_rejected := s_shares_rejected s;
  s_connect_time := s_connect_time s |}.
Definition with_subscribed (s : Session) (user_agent : option string) : Session := {|
  s_worker := s_worker s; s_user_agent := user_agent; s_session_id := s_session_id s;
  s_subscribed := true; s_authorized := s_authorized s;
  s_version_rolling_enabled := s_version_rolling_enabled s;
  s_version_rolling_mask := s_version_rolling_mask s;
  s_version_rolling_min_bit_count := s_version_rolling_min_bit_count s;
  s_extranonce1 := s_extranonce1 s; s_extranonce2_size := s_extranonce2_size s;
  s_current_job := s_current_job s; s_difficulty := s_difficulty s; s_vardiff := s_vardiff s;
  s_vardiff_cfg := s_vardiff_cfg s; s_share_set := s_share_set s; s_guard := s_guard s;
  s_shares_accepted := s_shares_accepted s; s_shares_rejected := s_shares_rejected s;
  s_connect_time := s_connect_time s |}.
Definition with_identity (s : Session) (worker : option string) (authorized : bool) : Session := {|
  s_worker := worker; s_user_agent := s_user_agent s; s_session_id := s_session_id s;
  s_subscribed := s_subscribed s; s_authorized := authorized;
  s_version_rolling_enabled := s_version_rolling_enabled s;
  s_version_rolling_mask := s_version_rolling_mask s;
  s_version_rolling_min_bit_count := s_version_rolling_min_bit_count s;
  s_extranonce1 := s_extranonce1 s; s_extranonce2_size := s_extranonce2_size s;
  s_current_job := s_current_job s; s_difficulty := s_difficulty s; s_vardiff := s_vardiff s;
  s_vardiff_cfg := s_vardiff_cfg s; s_share_set := s_share_set s; s_guard := s_guard s;
  s_shares_accepted := s_shares_accepted s; s_shares_rejected := s_shares_rejected s;
  s_connect_time := s_connect_time s |}.
Definition with_vardiff (s : Session) (vardiff : Vardiff) : Session := {|
  s_worker := s_worker s; s_user_agent := s_user_agent s; s_session_id := s_session_id s;
  s_subscribed := s_subscribed s; s_authorized := s_authorized s;
  s_version_rolling_enabled := s_version_rolling_enabled s;
  s_version_rolling_mask := s_version_rolling_mask s;
  s_version_rolling_min_bit_count := s_version_rolling_min_bit_count s;
  s_extranonce1 := s_extranonce1 s; s_extranonce2_size := s_extranonce2_size s;
  s_current_job := s_current_job s; s_difficulty := s_difficulty s; s_vardiff := vardiff;
  s_vardiff_cfg := s_vardiff_cfg s; s_share_set := s_share_set s; s_guard := s_guard s;
  s_shares_accepted := s_shares_accepted s; s_shares_rejected := s_shares_rejected s;
  s_connect_time := s_connect_time s |}.
Definition with_job (s : Session) (current_job : option StratumJob) : Session := {|
  s_worker := s_worker s; s_user_agent := s_user_agent s; s_session_id := s_session_id s;
  s_subscribed := s_subscribed s; s_authorized := s_authorized s;
  s_version_rolling_enabled := s_version_rolling_enabled s;
  s_version_rolling_mask := s_version_rolling_mask s;
  s_version_rolling_min_bit_count := s_version_rolling_min_bit_count s;
  s_extranonce1 := s_extranonce1 s; s_extranonce2_size := s_extranonce2_size s;
  s_current_job := current_job; s_difficulty := s_difficulty s; s_vardiff := s_vardiff s;
  s_vardiff_cfg := s_vardiff_cfg s; s_share_set := s_share_set s; s_guard := s_guard s;
  s_shares_accepted := s_shares_accepted s; s_shares_rejected := s_shares_rejected s;
  s_connect_time := s_connect_time s |}.
Definition with_share_set (s : Session) (share_set : ShareSet) : Session := {|
  s_worker := s_worker s; s_user_agent := s_user_agent s; s_session_id := s_session_id s;
  s_subscribed := s_subscribed s; s_authorized := s_authorized s;
  s_version_rolling_enabled := s_version_rolling_enabled s;
  s_version_rolling_mask := s_version_rolling_mask s;
  s_version_rolling_min_bit_count := s_version_rolling_min_bit_count s;
  s_extranonce1 := s_extranonce1 s; s_extranonce2_size := s_extranonce2_size s;
  s_current_job := s_current_job s; s_difficulty := s_difficulty s; s_vardiff := s_vardiff s;
  s_vardiff_cfg := s_vardiff_cfg s; s_share_set := share_set; s_guard := s_guard s;
  s_shares_accepted := s_shares_accepted s; s_shares_rejected := s_shares_rejected s;
  s_connect_time := s_connect_time s |}.
Definition with_guard (s : Session) (guard : SessionGuard) : Session := {|
  s_worker := s_worker s; s_user_agent := s_user_agent s; s_session_id := s_session_id s;
  s_subscribed := s_subscribed s; s_authorized := s_authorized s;
  s_version_rolling_enabled := s_version_rolling_enabled s;
  s_version_rolling_mask := s_version_rolling_mask s;
  s_version_rolling_min_bit_count := s_version_rolling_min_bit_count s;
  s_extranonce1 := s_extranonce1 s; s_extranonce2_size := s_extranonce2_size s;
  s_current_job := s_current_job s; s_difficulty := s_difficulty s; s_vardiff := s_vardiff s;
  s_vardiff_cfg := s_vardiff_cfg s; s_share_set := s_share_set s; s_guard := guard;
  s_shares_accepted := s_shares_accepted s; s_shares_rejected := s_shares_rejected s;
  s_connect_time := s_connect_time s |}.
Definition with_accepted (s : Session) (shares_accepted : Z) (vardiff : Vardiff) : Session := {|
  s_worker := s_worker s; s_user_agent := s_user_agent s; s_session_id := s_session_id s;
  s_subscribed := s_subscribed s; s_authorized := s_authorized s;
  s_version_rolling_enabled := s_version_rolling_enabled s;
  s_version_rolling_mask := s_version_rolling_mask s;
  s_version_rolling_min_bit_count := s_version_rolling_min_bit_count s;
  s_extranonce1 := s_extranonce1 s; s_extranonce2_size := s_extranonce2_size s;
  s_current_job := s_current_job s; s_difficulty := s_difficulty s; s_vardiff := vardiff;
  s_vardiff_cfg := s_vardiff_cfg s; s_share_set := s_share_set s; s_guard := s_guard s;
  s_shares_accepted := shares_accepted; s_shares_rejected := s_shares_rejected s;
  s_connect_time := s_connect_time s |}.
Definition with_rejected (s : Session) (shares_rejected : Z) : Session := {|
  s_worker := s_worker s; s_user_agent := s_user_agent s; s_session_id := s_session_id s;
  s_subscribed := s_subscribed s; s_authorized := s_authorized s;
  s_version_rolling_enabled := s_version_rolling_enabled s;
  s_version_rolling_mask := s_version_rolling_mask s;
  s_version_rolling_min_bit_count := s_version_rolling_min_bit_count s;
  s_extranonce1 := s_extranonce1 s; s_extranonce2_size := s_extranonce2_size s;
  s_current_job := s_current_job s; s_difficulty := s_difficulty s; s_vardiff := s_vardiff s;
  s_vardiff_cfg := s_vardiff_cfg s; s_share_set := s_share_set s; s_guard := s_guard s;
  s_shares_accepted := s_shares_accepted s; s_shares_rejected := shares_rejected;
  s_connect_time := s_connect_time s |}.

(** [Session::new]; the clock is read for the retarget mark, the share
    record's start, the token bucket and the connect time. *)
Definition session_new (cfg : Config) (extranonce1 : list byte) (random : Z) (n1 n2 n3 n4 : Z) : Session := {|
  s_worker := None; s_user_agent := None; s_session_id := hex_fixed 16 random;
  s_subscribed := false; s_authorized := false;
  s_version_rolling_enabled := false; s_version_rolling_mask := VERSION_ROLLING_MASK;
  s_version_rolling_min_bit_count := None;
  s_extranonce1 := extranonce1; s_extranonce2_size := extranonce2_size (pool cfg);
  s_current_job := None; s_difficulty := initial_difficulty (pool cfg);
  s_vardiff := new_vardiff (vardiff cfg) (initial_difficulty (pool cfg)) n1 n2;
  s_vardiff_cfg := vardiff cfg; s_share_set := ShareSet_new; s_guard := guard_new (security cfg) n3;
  s_shares_accepted := 0; s_shares_rejected := 0; s_connect_time := n4 |}.

(** ** What a session does to the rest of the pool *)

Inductive session_effect :=
| MetricShareRejected (reason worker : string)
| StatsShareRejected
| WorkerShareRejected (worker reason : string)
| LogShare (worker : string) (credited : Z)
| MetricShareAccepted (credited : Z) (worker : string)
| StatsShareAccepted (hash_difficulty credited : Z)
| WorkerShareAccepted (worker : string) (hash_difficulty : Z)
| MarkWorkerSubmit (worker : string)
| SubmitBlock (effs : list submit_effect)
| MetricBlockFound
| MetricBlockSubmissionSuccess
| MetricBlockSubmissionFailure (label : string)
| StatsBlockFound (worker hash_hex : string) (height : Z)
| MarkWorkerOnline (worker : string) (difficulty : Z)
| MarkWorkerOffline (worker : string)
| SetWorkerProtocol (worker protocol : string)
| StashShareHistory (worker : string) (history : ShareHistory)
| TakeShareHistory (worker : string)
| MetricVardiffRetarget (worker : string) (old new : Z)
| UpdateWorkerVardiff (worker : string) (difficulty : Z)
| MetricMinerDisconnect (reason worker : string)
| UpdateWorkerHashrate (worker : string) (h60s h10m h3h h24h : f64)
| BanPeer (reason : string)
| MinerConnected
| MinerDisconnected
| SessionClosed (worker : option string) (shares uptime : Z).

Inductive HandleResult := Messages (msgs : list string) | Disconnect (reason : string).
Definition handled : Type := option (Session * list session_effect * HandleResult).

(** What a turn of the session reads from outside: the engine, the node's
    answers if the turn submits a block, the history the statistics hold for
    an authorising worker, and the clock, reading by reading. *)
Record Env := {
  e_engine : TemplateEngine;
  e_answers : nat -> outcome PoolError ();
  e_stash : string -> option ShareHistory;
  e_clk : nat -> Z;
}.

(** ** Extranonces *)

(** [generate_extranonce1], with the counter it reads and increments. *)
Definition generate_extranonce1 (counter size : Z) : Z * list byte :=
  (wrap 64 (counter + 1),
   if size <=? 8 then drop (Z.to_nat (8 - size)) (be_bytes 8 counter)
   else replicate (Z.to_nat (size - 8)) x00 ++ be_bytes 8 counter).

(** ** The line reader *)

(** How a call of [read_line_bounded] ends: a line of the given length, the
    end of the stream, a line above the limit, or dropped by [select!] while
    it waits for more input. *)
Inductive read_result := Line (len : Z) | Eof | TooLong | Waiting.
Fixpoint find_newline (l : list byte) : option nat :=
  match l with
  | [] => None
  | b :: l => if b2z b =? 10 then Some 0%nat else S <$> find_newline l
  end.
Definition strip_cr (buf : list byte) : list byte :=
  match last buf with
  | Some b => if b2z b =? 13 then removelast buf else buf
  | None => buf
  end.
(** [send_messages] on a writer whose [k]-th write, and then its flush, does
    what [ok] says: the lines that were written whole, and the result. *)
Fixpoint send_messages (msgs : list string) (ok : nat -> bool) (k : nat) : list string * bool :=
  match msgs with
  | [] => ([], ok k)
  | msg :: msgs =>
      if ok k then let '(sent, r) := send_messages msgs ok (S k) in ((msg +:+ of_list [chr 10]) :: sent, r)
      else ([], false)
  end.
Lemma send_messages_in_order msgs ok k sent r :
  send_messages msgs ok k = (sent, r) ->
  (exists rest, map (fun msg => msg +:+ of_list [chr 10]) msgs = sent ++ rest) /\
  (r = true -> sent = map (fun msg => msg +:+ of_list [chr 10]) msgs).
Proof.
  revert k sent. induction msgs as [|msg msgs IH]; intros k sent; cbn [send_messages].
  - intros [= <- _]. by split; [exists []|].
  - destruct (ok k); [|intros [= <- <-]; split; [by eexists|done]].
    destruct (send_messages msgs ok (S k)) as [sent' r'] eqn:E. intros [= <- <-]. destruct (IH _ _ E) as [[rest Hr] Hs].
    cbn [map]. split; [exists rest; by rewrite Hr|]. intros H. by rewrite (Hs H).
Qed.
(** [chunks] are the buffers [fill_buf] returns, an empty one at the end of
    the stream; what is left of them is returned. *)
Fixpoint read_line_bounded (chunks : list (list byte)) (buf : list byte) (max : Z)
    : read_result * list byte * list (list byte) :=
  match chunks with
  | [] => (Waiting, buf, [])
  | [] :: rest =>
      (match buf with [] => Eof | _ => Line (Z.of_nat (length buf)) end, buf, [] :: rest)
  | available :: rest =>
      match find_newline available with
      | Some pos =>
          let buf := strip_cr (buf ++ take pos available) in
          let rest := match drop (pos + 1) available with [] => rest | r => r :: rest end in
          (if max <? Z.of_nat (length buf) then TooLong else Line (Z.of_nat (length buf)), buf, rest)
      | None =>
          let buf := buf ++ available in
          if max <? Z.of_nat (length buf) then (TooLong, buf, rest) else read_line_bounded rest buf max
      end
  end.

Section session.
Context {HJ : JsonLib f64} {HL : HexLib} {HS : Sha256Lib}.
Context (request_from_str : string -> outcome string StratumRequest).

Definition build_notify (job : StratumJob) (clean : bool) : string :=
  notify_msg (job_id job) (prev_hash job) (hex_encode (coinbase1 job)) (hex_encode (coinbase2 job))
    (merkle_branch job) (version job) (bits job) (cur_time job) clean.

(** ** Handlers *)

Definition handle_configure (s : Session) (req : StratumRequest) (p : ConfigureParams)
    : Session * HandleResult :=
  let s :=
    if version_rolling p then
      let negotiated :=
        match cfg_version_rolling_mask p with
        | Some m => Z.land m (s_version_rolling_mask s)
        | None => s_version_rolling_mask s
        end in
      let min_bits_ok :=
        match cfg_min_bit_count p with
        | Some min_bits => min_bits <=? count_ones32 negotiated
        | None => true
        end in
      with_rolling s (min_bits_ok && negb (negotiated =? 0)) negotiated (cfg_min_bit_count p)
    else s in
  (s, Messages [response_configure (req_id req) (s_version_rolling_enabled s) (s_version_rolling_mask s)
                  (Some (s_difficulty s)) (subscribe_extranonce p)]).

Definition handle_suggest_difficulty (s : Session) (req : StratumRequest) (difficulty now : Z)
    : option (Session * HandleResult) :=
  '(v, applied) ← suggest (s_vardiff s) difficulty now;
  let s := with_difficulty s applied v in
  Some (s, Messages (response_ok (req_id req) (json_bool true)
                       :: if s_subscribed s then [set_difficulty_msg applied] else [])).

Definition handle_subscribe (s : Session) (req : StratumRequest) (p : SubscribeParams)
    : Session * HandleResult :=
  let s := with_subscribed s (user_agent p) in
  (s, Messages [response_subscribe (req_id req) (s_session_id s) (hex_encode (s_extranonce1 s))
                  (s_extranonce2_size s)]).

(** The handling of an identity the session does not have yet. *)
Definition adopt_worker (s : Session) (env : Env) (worker : string) : Session * list session_effect :=
  let '(s, gone) :=
    match s_worker s with
    | Some prev =>
        let '(v, history) := take_share_history (s_vardiff s) (e_clk env 2) in
        (with_vardiff (with_identity s None (s_authorized s)) v,
         [MarkWorkerOffline prev; StashShareHistory prev history])
    | None => (s, [])
    end in
  let s :=
    match e_stash env worker with
    | Some history => with_vardiff s (restore_share_history (s_vardiff s) history (e_clk env 3))
    | None => s
    end in
  (s, gone ++ [MarkWorkerOnline worker (s_difficulty s); SetWorkerProtocol worker "sv1"; TakeShareHistory worker]).
Definition handle_authorize (s : Session) (req : StratumRequest) (p : AuthorizeParams) (env : Env)
    : Session * list session_effect * HandleResult :=
  if negb (s_subscribed s) then
    (s, [], Messages [response_err (req_id req) (to_stratum_error NotSubscribed)])
  else
    match check_worker_name (s_guard s) (auth_worker p) with
    | Err e => (s, [], Messages [response_err (req_id req) (to_stratum_error e)])
    | _ =>
        let fresh := negb (bool_decide (s_worker s = Some (auth_worker p))) in
        let '(s, within_cap) :=
          if fresh then
            let '(g, ok) := record_new_authorization (s_guard s) in (with_guard s g, ok)
          else (s, true) in
        if negb within_cap then (s, [], Disconnect "too many worker identities")
        else
          let '(s, effs) := if fresh then adopt_worker s env (auth_worker p) else (s, []) in
          let s := with_identity s (Some (auth_worker p)) true in
          let job := match s_current_job s with Some j => Some j | None => current_job (e_engine env) end in
          let s := match job with Some j => with_job s (Some j) | None => s end in
          (s, effs,
           Messages (response_ok (req_id req) (json_bool true) :: set_difficulty_msg (s_difficulty s)
                       :: match job with Some j => [build_notify j true] | None => [] end))
    end.

(** *** Submissions *)

(** An error that counts toward the disconnect: not a low-difficulty share
    and not work that simply is not current any more. *)
Definition is_malicious (e : PoolError) : bool :=
  match e with LowDifficulty | StaleJob _ => false | _ => true end.
Definition reject_reason (e : PoolError) : string :=
  match e with
  | StaleJob _ => "stale"
  | DuplicateShare => "duplicate"
  | LowDifficulty => "low_difficulty"
  | _ => "invalid"
  end.
Definition reply_err (req : StratumRequest) (e : PoolError) : HandleResult :=
  Messages [response_err (req_id req) (to_stratum_error e)].
(** A rejection that counts: the session is dropped once it has too many. *)
Definition count_invalid (s : Session) (req : StratumRequest) (e : PoolError) : Session * HandleResult :=
  let '(c, disconnect) := record_invalid (invalid_shares (s_guard s)) in
  (with_guard s (with_invalid (s_guard s) c),
   if disconnect then Disconnect "too many invalid shares" else reply_err req e).
(** Crediting an accepted share. *)
Definition credit_share (s : Session) (hash_difficulty now : Z) : Session * Z :=
  let credited := credit_for (s_vardiff s) hash_difficulty in
  (with_accepted s (wrap 64 (s_shares_accepted s + 1)) (record_share (s_vardiff s) credited now), credited).
Definition share_params (s : Session) (p : SubmitParams) (worker : string) : ShareParams := {|
  sp_worker := worker; sp_job_id := submit_job_id p; sp_extranonce2 := submit_extranonce2 p;
  sp_ntime := submit_ntime p; sp_nonce := submit_nonce p;
  sp_version_bits := if s_version_rolling_enabled s then submit_version_bits p else None;
  sp_version_rolling_mask :=
    if s_version_rolling_enabled s then Some (s_version_rolling_mask s) else None |}.

(** The outcome of validation after the duplicate check. *)
Definition handle_verdict (s : Session) (req : StratumRequest) (env : Env) (worker : string)
    (job_height : Z) (verdict : outcome PoolError ShareResult) : Session * list session_effect * HandleResult :=
  match verdict with
  | Ok (Valid assigned hash_difficulty hash) =>
      let '(s, credited) := credit_share s hash_difficulty (e_clk env 2) in
      (s, [LogShare worker credited; MetricShareAccepted credited worker;
           StatsShareAccepted hash_difficulty credited; WorkerShareAccepted worker hash_difficulty;
           MarkWorkerSubmit worker],
       Messages [response_ok (req_id req) (json_bool true)])
  | Ok (Block hash_difficulty block_hex hash) =>
      let block_hash_hex := hash_display_hex hash in
      let '(effs, submit_result) := submit_found_block job_height block_hash_hex block_hex worker (e_answers env) in
      match submit_result with
      | Ok _ =>
          let '(s, credited) := credit_share s hash_difficulty (e_clk env 2) in
          (s, [SubmitBlock effs; MetricBlockFound; MetricBlockSubmissionSuccess;
               StatsBlockFound worker block_hash_hex job_height; LogShare worker credited;
               StatsShareAccepted hash_difficulty credited; WorkerShareAccepted worker hash_difficulty;
               MarkWorkerSubmit worker],
           Messages [response_ok (req_id req) (json_bool true)])
      | Err e => (s, [SubmitBlock effs; MetricBlockSubmissionFailure (submit_failure_label e)], reply_err req e)
      | Panic => (s, [SubmitBlock effs], Disconnect "internal error")
      end
  | Err e =>
      let s := with_rejected s (wrap 64 (s_shares_rejected s + 1)) in
      let effs := [MetricShareRejected (reject_reason e) worker; StatsShareRejected;
                   WorkerShareRejected worker (reject_reason e)] in
      if is_malicious e then
        let '(s, r) := count_invalid s req e in (s, effs, r)
      else (s, effs, reply_err req e)
  | Panic => (s, [], Disconnect "internal error")
  end.
Definition handle_submit (s : Session) (req : StratumRequest) (p : SubmitParams) (env : Env)
    : Session * list session_effect * HandleResult :=
  let worker := default "?" (s_worker s) in
  if negb (s_authorized s) then
    (s, [MetricShareRejected "unauthorized" worker; StatsShareRejected], reply_err req NotAuthorized)
  else if negb (Z.of_nat (length (submit_extranonce2 p)) =? s_extranonce2_size s) then
    let '(s, r) :=
      count_invalid s req (BadExtranonceSize (Z.of_nat (length (submit_extranonce2 p))) (s_extranonce2_size s)) in
    (s, [MetricShareRejected "bad_extranonce" worker; StatsShareRejected;
         WorkerShareRejected worker "bad_extranonce"], r)
  else
    match find_job (e_engine env) (submit_job_id p) with
    | None =>
        (s, [MetricShareRejected "job_not_found" worker; StatsShareRejected;
             WorkerShareRejected worker "job_not_found"], reply_err req (StaleJob (submit_job_id p)))
    | Some job_entry =>
        match validate_share_no_dedup (share_params s p worker) (je_job job_entry) job_entry
                (s_extranonce1 s) (min_difficulty (s_vardiff_cfg s)) with
        | Panic => (s, [], Disconnect "internal error")
        | validation_result =>
            let '(set, verdict) := ShareSet_dedup (s_share_set s) validation_result in
            handle_verdict (with_share_set s set) req env worker (height (je_job job_entry)) verdict
        end
    end.

Definition no_effects (x : Session * HandleResult) : Session * list session_effect * HandleResult :=
  (x.1, [], x.2).
(** The dispatch of [handle_line] on the message. *)
Definition handle_message (s : Session) (req : StratumRequest) (env : Env) (m : ClientMessage) : handled :=
  match m with
  | Configure p => Some (no_effects (handle_configure s req p))
  | Subscribe p => Some (no_effects (handle_subscribe s req p))
  | Authorize p => Some (handle_authorize s req p env)
  | Submit p => Some (handle_submit s req p env)
  | SuggestDifficulty d => no_effects <$> handle_suggest_difficulty s req d (e_clk env 2)
  | UnknownMethodMsg m => Some (s, [], reply_err req (UnknownMethod m))
  end.
(** [handle_line]. *)
Definition handle_line (s : Session) (line : string) (env : Env) : handled :=
  if trim_is_empty line then Some (s, [], Messages [])
  else
    let '(rate, allowed) := try_consume (share_rate (s_guard s)) (e_clk env 0) (e_clk env 1) in
    let s := with_guard s (with_share_rate (s_guard s) rate) in
    if negb allowed then
      Some (s, [MetricShareRejected "rate_limited" (default "?" (s_worker s))], Disconnect "rate limited")
    else
      match request_parse request_from_str line with
      | Err _ => Some (s, [], Disconnect "parse error")
      | Panic => None
      | Ok req =>
          match from_request req with
          | Err e => Some (s, [], reply_err req e)
          | Panic => None
          | Ok m => handle_message s req env m
          end
      end.

(** ** The session loop *)

(** What one iteration of [select!] completes with. The write of the messages
    can fail, which ends the session; it is the flag of the arms that write. *)
Inductive session_event :=
| ReadTimeout
| ReadInvalid
| ReadError
| ReadEof
| ReadLine (line : option string) (written : bool)   (** [None]: not UTF-8 *)
| RetargetTimer (written : bool)
| JobReceived (b : JobBroadcast) (written : bool)
| JobLagged
| JobClosed.

(** [true] when the loop goes on. *)
Definition arm_result : Type := option (Session * list session_effect * list string * bool).

Definition hashrate_effects (s : Session) (now : nat -> Z) : list session_effect :=
  match s_worker s with
  | Some worker =>
      let hr w i := estimated_hashrate_in_window (s_vardiff s) (from_secs w) (now i) in
      [UpdateWorkerHashrate worker (hr 60 10%nat) (hr 600 11%nat) (hr 10800 12%nat) (hr 86400 13%nat)]
  | None => []
  end.
Definition on_line (s : Session) (line : string) (env : Env) (written : bool) : arm_result :=
  match handle_line s line env with
  | None => None
  | Some (s, effs, Disconnect reason) =>
      Some (s, effs ++ match s_worker s with Some w => [MetricMinerDisconnect reason w] | None => [] end,
            [], false)
  | Some (s, effs, Messages msgs) =>
      if written then Some (s, effs ++ hashrate_effects s (e_clk env), msgs, true)
      else Some (s, effs, msgs, false)
  end.
(** The retarget arm is enabled only once the miner receives work. *)
Definition retarget_enabled (s : Session) : bool := s_subscribed s && s_authorized s.
Definition on_retarget (s : Session) (env : Env) (written : bool) : arm_result :=
  '(v, r) ← check_retarget (s_vardiff s) (e_clk env 0) (e_clk env 1) (e_clk env 2);
  match r with
  | None => Some (with_vardiff s v, [], [], true)
  | Some new_diff =>
      let old := s_difficulty s in
      let s := with_difficulty s new_diff v in
      Some (s, match s_worker s with
               | Some w => [MetricVardiffRetarget w old new_diff; UpdateWorkerVardiff w new_diff]
               | None => []
               end, [set_difficulty_msg new_diff], written)
  end.
Definition on_job (s : Session) (b : JobBroadcast) (written : bool) : arm_result :=
  let s := if jb_clean b then with_share_set s (ShareSet_clear (s_share_set s)) else s in
  if s_subscribed s && s_authorized s then
    Some (with_job s (Some (jb_job b)), [],
          [set_difficulty_msg (s_difficulty s); build_notify (jb_job b) (jb_clean b)], written)
  else Some (with_job s (Some (jb_job b)), [], [], true).
Definition session_step (s : Session) (env : Env) (e : session_event) : arm_result :=
  match e with
  | ReadTimeout | ReadError | ReadEof | JobClosed => Some (s, [], [], false)
  | ReadInvalid => Some (s, [BanPeer "message too large"], [], false)
  | ReadLine None _ => Some (s, [], [], false)
  | ReadLine (Some line) written => on_line s line env written
  | RetargetTimer written => if retarget_enabled s then on_retarget s env written else Some (s, [], [], true)
  | JobReceived b written => on_job s b written
  | JobLagged => Some (s, [], [], true)
  end.
(** The deadline of the read arm. *)
Definition read_deadline (s : Session) (last_inbound idle_timeout preauth_deadline : Z) : Z :=
  if s_authorized s then last_inbound + idle_timeout else preauth_deadline.

(** What runs after the loop, on every way out of it. *)
Definition session_close (s : Session) (now1 now2 : Z) : list session_effect :=
  MinerDisconnected ::
  match s_worker s with
  | Some worker =>
      [MarkWorkerOffline worker; StashShareHistory worker (take_share_history (s_vardiff s) now2).2]
  | None => []
  end ++
  [SessionClosed (s_worker s) (wrap 64 (s_shares_accepted s + s_shares_rejected s))
     (duration_since now1 (s_connect_time s))].

(** The start of [run]: a banned address gets no session; otherwise the
    current job is cached for the authorisation. *)
Definition session_start (banned : bool) (cfg : Config) (counter random : Z) (engine : TemplateEngine)
    (n1 n2 n3 n4 : Z) : Z * option (Session * list session_effect) :=
  if banned then (counter, None)
  else
    let '(counter, en1) := generate_extranonce1 counter (extranonce1_size (pool cfg)) in
    let s := session_new cfg en1 random n1 n2 n3 n4 in
    (counter, Some (match current_job engine with Some j => with_job s (Some j) | None => s end, [MinerConnected])).

(** A session from its start: the events it goes through, each with its
    environment, until the loop ends or the events do. *)
Fixpoint session_run (s : Session) (l : list (Env * session_event))
    : option (Session * list session_effect * list string) :=
  match l with
  | [] => Some (s, [], [])
  | (env, e) :: l =>
      match session_step s env e with
      | None => None
      | Some (s, effs, msgs, go) =>
          if go then
            '(s, effs', msgs') ← session_run s l;
            Some (s, effs ++ effs', msgs ++ msgs')
          else Some (s, effs, msgs)
      end
  end.
End session.
