(* ===== verification/SessionFacts.v ===== *)
(** Lemmas about the Stratum V1 session: the invariant its handlers keep, the
    branches of a submission, the line reader and the extranonce counter. *)
From S2P Require Export Session ValidatorFacts.
From Stdlib Require Import Strings.Ascii.

(** ** The session invariant *)

(** [e1] and [n2] are the extranonce the session was given, [c] the vardiff
    configuration and [d0] the initial difficulty. *)
Record session_inv (c : VardiffConfig) (d0 : Z) (e1 : list byte) (n2 : Z) (s : Session) : Prop := {
  inv_mask : Z.land (s_version_rolling_mask s) VERSION_ROLLING_MASK = s_version_rolling_mask s;
  inv_difficulty : s_difficulty s = current (s_vardiff s);
  inv_cfg : cfg (s_vardiff s) = c /\ s_vardiff_cfg s = c;
  inv_range : s_difficulty s = d0 \/ min_difficulty c <= s_difficulty s <= max_difficulty c;
  inv_authorized : s_authorized s = true -> s_subscribed s = true /\ is_Some (s_worker s);
  inv_extranonce : s_extranonce1 s = e1 /\ s_extranonce2_size s = n2;
}.

Lemma credit_share_vardiff s h now :
  let '(s', _) := credit_share s h now in
  cfg (s_vardiff s') = cfg (s_vardiff s) /\ current (s_vardiff s') = current (s_vardiff s).
Proof. done. Qed.

Section inv.
Context {HJ : JsonLib f64} {HL : HexLib} {HS : Sha256Lib}.
Context (request_from_str : string -> outcome string StratumRequest).
Context (c : VardiffConfig) (d0 : Z) (e1 : list byte) (n2 : Z).
Abbreviation inv := (session_inv c d0 e1 n2).
Implicit Types (s : Session) (env : Env).

Lemma session_new_inv cf en1 random t1 t2 t3 t4 :
  vardiff cf = c -> initial_difficulty (pool cf) = d0 -> en1 = e1 -> extranonce2_size (pool cf) = n2 ->
  inv (session_new cf en1 random t1 t2 t3 t4).
Proof. intros <- <- <- <-. split; cbn; auto; try done. Qed.

Lemma handle_configure_inv s req p : inv s -> inv (handle_configure s req p).1.
Proof.
  intros [Hm Hd Hc Hr Ha He]. unfold handle_configure. destruct (version_rolling p); [|by split].
  split; cbn; try done. destruct (cfg_version_rolling_mask p) as [m|]; [|done].
  by rewrite <- Z.land_assoc, Hm.
Qed.
Lemma suggest_spec v d now :
  min_difficulty (cfg v) <= max_difficulty (cfg v) ->
  exists v' x, suggest v d now = Some (v', x) /\ current v' = x /\ cfg v' = cfg v /\
    min_difficulty (cfg v) <= x <= max_difficulty (cfg v).
Proof.
  intros Hle. destruct (clamp_total d _ _ Hle) as [x Hx]. unfold suggest. rewrite Hx. cbn.
  eexists _, x. split; [reflexivity|]. apply clamp_in_range in Hx.
  destruct (suggest_applied _); cbn; by rewrite set_current_current, set_current_cfg.
Qed.
Lemma handle_suggest_inv s req d now :
  min_difficulty c <= max_difficulty c -> inv s ->
  exists s' r, handle_suggest_difficulty s req d now = Some (s', r) /\ inv s'.
Proof.
  intros Hle [Hm Hd [Hc Hc'] Hr Ha He]. unfold handle_suggest_difficulty.
  rewrite <- Hc in Hle. destruct (suggest_spec (s_vardiff s) d now Hle) as (v' & x & -> & Hcur & Hcfg & Hx).
  cbn. eexists _, _. split; [reflexivity|]. split; cbn; try done; [by rewrite Hcfg|].
  right. by rewrite <- Hc.
Qed.
Lemma handle_subscribe_inv s req p : inv s -> inv (handle_subscribe s req p).1.
Proof. intros [Hm Hd Hc Hr Ha He]. split; cbn; try done. intros Hauth. by destruct (Ha Hauth). Qed.
Lemma adopt_worker_inv s env w :
  inv s -> s_subscribed (adopt_worker s env w).1 = s_subscribed s /\
  inv (with_identity (adopt_worker s env w).1 (Some w) (s_subscribed s)).
Proof.
  intros [Hm Hd Hc Hr Ha He]. unfold adopt_worker.
  destruct (s_worker s) as [prev|]; cbn; destruct (e_stash env w) as [h|]; cbn;
    (split; [done|by split]).
Qed.
Lemma handle_authorize_inv s req p env : inv s -> inv (handle_authorize s req p env).1.1.
Proof.
  intros Hi. pose proof Hi as [Hm Hd Hc Hr Ha He]. unfold handle_authorize.
  destruct (s_subscribed s) eqn:Hsub; [|done]. cbn [negb].
  assert (forall s1, inv s1 -> s_subscribed s1 = true -> s_worker s1 = s_worker s ->
    forall ok : bool,
    inv (if negb ok then (s1, [], Disconnect "too many worker identities") else
      let '(s2, effs) := if negb (bool_decide (s_worker s = Some (auth_worker p)))
                         then adopt_worker s1 env (auth_worker p) else (s1, []) in
      let s2 := with_identity s2 (Some (auth_worker p)) true in
      let job := match s_current_job s2 with Some j => Some j | None => current_job (e_engine env) end in
      let s3 := match job with Some j => with_job s2 (Some j) | None => s2 end in
      (s3, effs, Messages (response_ok (req_id req) (json_bool true) :: set_difficulty_msg (s_difficulty s3)
                       :: match job with Some j => [build_notify j true] | None => [] end))).1.1) as Hgo.
  { intros s1 Hi1 Hs1 Hw1 [|]; cbn [negb]; [|done].
    assert (exists s2 effs, (if negb (bool_decide (s_worker s = Some (auth_worker p)))
        then adopt_worker s1 env (auth_worker p) else (s1, [])) = (s2, effs) /\
        inv (with_identity s2 (Some (auth_worker p)) true)) as (s2 & effs & -> & Hi2).
    { destruct (negb _); [|eexists _, _; split; [done|]].
      - destruct (adopt_worker s1 env (auth_worker p)) as [s2 effs] eqn:E. exists s2, effs. split; [done|].
        pose proof (adopt_worker_inv s1 env (auth_worker p) Hi1) as [_ H]. by rewrite E, Hs1 in H.
      - destruct Hi1. by split. }
    cbn zeta. destruct (match s_current_job _ with Some _ => _ | None => _ end) as [j|]; cbn [fst]; [|done].
    destruct Hi2. by split. }
  destruct (check_worker_name _ _) as [[]|e|]; [|done|].
  - destruct (negb (bool_decide _)) eqn:Ef.
    + destruct (record_new_authorization (s_guard s)) as [g ok]. apply (Hgo (with_guard s g)); [|done..].
      destruct Hi. by split.
    + by apply (Hgo s Hi Hsub eq_refl true).
  - destruct (negb (bool_decide _)) eqn:Ef.
    + destruct (record_new_authorization (s_guard s)) as [g ok]. apply (Hgo (with_guard s g)); [|done..].
      destruct Hi. by split.
    + by apply (Hgo s Hi Hsub eq_refl true).
Qed.
Lemma handle_submit_inv s req p env : inv s -> inv (handle_submit s req p env).1.1.
Proof.
  intros Hi. pose proof Hi as [Hm Hd Hc Hr Ha He]. unfold handle_submit.
  destruct (negb (s_authorized s)); [done|]. destruct (negb _).
  { unfold count_invalid. destruct (record_invalid _). by split. }
  destruct (find_job _ _) as [entry|]; [|done].
  assert (forall v set, inv (handle_verdict (with_share_set s set) req env (default "?" (s_worker s))
            (height (je_job entry)) v).1.1) as Hv.
  { intros v set. unfold handle_verdict. destruct v as [[a h hash|h hex hash]|e|].
    - by split.
    - destruct (submit_found_block _ _ _ _ _) as [effs [[]|e|]]; by split.
    - destruct (is_malicious e); [|by split]. unfold count_invalid. destruct (record_invalid _). by split.
    - by split. }
  destruct (validate_share_no_dedup _ _ _ _ _) as [r|e|]; [| |done];
    destruct (ShareSet_dedup _ _) as [set verdict]; apply Hv.
Qed.

(** *** The loop *)

Lemma ok_or_no_panic {E A} (e : E) (o : option A) : ok_or e o ≠ Panic.
Proof. by destruct o. Qed.
Lemma bind_no_panic {E A B} (m : outcome E A) (f : A -> outcome E B) :
  m ≠ Panic -> (forall a, m = Ok a -> f a ≠ Panic) -> (m ≫= f) ≠ Panic.
Proof. intros Hm Hf. destruct m; cbn; [by apply Hf|done|done]. Qed.
Lemma fmap_no_panic {E A B} (m : outcome E A) (f : A -> B) : m ≠ Panic -> (f <$> m) ≠ Panic.
Proof. by destruct m. Qed.
Lemma from_request_no_panic req : from_request req ≠ Panic.
Proof.
  unfold from_request. repeat (destruct (bool_decide _); [apply fmap_no_panic|]); try done;
    unfold parse_authorize, parse_submit, parse_suggest_difficulty, str_at;
    repeat (apply bind_no_panic; [apply ok_or_no_panic|intros]); try done.
  destruct (_ || _); done.
Qed.

Context (Hpanic : forall line, request_from_str line ≠ Panic).
Context (Hcfg : validate_vardiff c = Ok tt) (Hfloat : valid_binary prec emax (max_retarget_factor c) = true).

Lemma handle_line_inv s line env :
  inv s -> exists s' effs r, handle_line request_from_str s line env = Some (s', effs, r) /\ inv s'.
Proof.
  intros Hi. unfold handle_line. destruct (trim_is_empty line); [by eexists _, _, _|].
  destruct (try_consume _ _ _) as [rate allowed].
  set (s1 := with_guard s _). assert (inv s1) as Hi1 by (destruct Hi; by split). clearbody s1.
  destruct (negb allowed); [by eexists _, _, _|].
  assert (request_parse request_from_str line ≠ Panic) as Hp.
  { unfold request_parse. specialize (Hpanic line). by destruct (request_from_str line). }
  destruct (request_parse _ _) as [req|e|]; [|by eexists _, _, _|done].
  pose proof (from_request_no_panic req) as Hq.
  destruct (from_request req) as [m|e|]; [|by eexists _, _, _|done].
  destruct m as [p|p|p|p|d|m]; cbn [handle_message].
  - eexists _, _, _. split; [done|]. by apply handle_subscribe_inv.
  - pose proof (handle_authorize_inv s1 req p env Hi1) as H.
    destruct (handle_authorize s1 req p env) as [[s2 effs] r]. by eexists _, _, _.
  - pose proof (handle_submit_inv s1 req p env Hi1) as H.
    destruct (handle_submit s1 req p env) as [[s2 effs] r]. by eexists _, _, _.
  - eexists _, _, _. split; [done|]. by apply handle_configure_inv.
  - apply validate_vardiff_ok in Hcfg as (_ & Hle & _).
    destruct (handle_suggest_inv s1 req d (e_clk env 2) Hle Hi1) as (s2 & r & -> & H). by eexists _, _, _.
  - by eexists _, _, _.
Qed.
Lemma on_retarget_inv s env written :
  inv s -> exists s' effs msgs go, on_retarget s env written = Some (s', effs, msgs, go) /\ inv s'.
Proof.
  intros [Hm Hd [Hc Hc'] Hr Ha He]. unfold on_retarget.
  destruct (check_retarget_spec (s_vardiff s) (e_clk env 0) (e_clk env 1) (e_clk env 2))
    as (v & r & -> & Hcfg' & _ & _ & _ & _ & Hres); [by rewrite Hc..|]. cbn.
  destruct r as [d|]; eexists _, _, _, _; (split; [done|]); split; cbn; try done.
  - by destruct Hres as (_ & _ & -> & _).
  - by rewrite Hcfg'.
  - right. rewrite <- Hc. apply Hres.
  - destruct Hres as [-> _]. done.
  - by rewrite Hcfg'.
Qed.
Lemma session_step_inv s env e :
  inv s -> exists s' effs msgs go, session_step request_from_str s env e = Some (s', effs, msgs, go) /\ inv s'.
Proof.
  intros Hi. destruct e as [| | | |[line|] w|w|b w| |]; cbn; try by eexists _, _, _, _.
  - unfold on_line. destruct (handle_line_inv s line env Hi) as (s' & effs & [msgs|reason] & -> & Hi').
    + destruct w; by eexists _, _, _, _.
    + by eexists _, _, _, _.
  - destruct (retarget_enabled s); [by apply on_retarget_inv|by eexists _, _, _, _].
  - unfold on_job. set (s1 := if jb_clean b then _ else s).
    assert (inv s1) as Hi1 by (unfold s1; destruct (jb_clean b); [destruct Hi; by split|done]). clearbody s1.
    destruct (_ && _); eexists _, _, _, _; (split; [done|]); destruct Hi1; by split.
Qed.
Lemma session_run_inv l s :
  inv s -> exists s' effs msgs, session_run request_from_str s l = Some (s', effs, msgs) /\ inv s'.
Proof.
  revert s; induction l as [|[env e] l IH]; intros s Hi; [by eexists _, _, _|]. cbn [session_run].
  destruct (session_step_inv s env e Hi) as (s1 & effs & msgs & go & -> & Hi1).
  destruct go; [|by eexists _, _, _].
  destruct (IH s1 Hi1) as (s2 & effs2 & msgs2 & -> & Hi2). by eexists _, _, _.
Qed.
End inv.

(** ** The line reader *)

Lemma read_line_resume l1 l2 buf max :
  match read_line_bounded l1 buf max with
  | (Waiting, buf', _) => read_line_bounded (l1 ++ l2) buf max = read_line_bounded l2 buf' max
  | (r, buf', rest) => read_line_bounded (l1 ++ l2) buf max = (r, buf', rest ++ l2)
  end.
Proof.
  revert buf; induction l1 as [|[|b chunk] l1 IH]; intros buf; [done| |].
  { cbn. by destruct buf. }
  cbn [read_line_bounded app]. destruct (find_newline (b :: chunk)) as [pos|].
  - destruct (max <? _); by destruct (drop (pos + 1) (b :: chunk)).
  - destruct (max <? _); [done|]. apply IH.
Qed.
Lemma find_newline_le l pos : find_newline l = Some pos -> (pos < length l)%nat.
Proof.
  revert pos; induction l as [|b l IH]; intros pos; [done|]. cbn. destruct (_ =? _); [intros [= <-]; lia|].
  destruct (find_newline l) as [p|]; [|done]. intros [= <-]. specialize (IH p eq_refl). lia.
Qed.
Lemma strip_cr_length buf : (length (strip_cr buf) <= length buf)%nat.
Proof.
  unfold strip_cr. destruct (last buf) as [b|]; [|done]. destruct (_ =? _); [|done].
  rewrite List.removelast_firstn_len, length_take. lia.
Qed.
Lemma read_line_bound l buf max k r buf' rest :
  Z.of_nat (length buf) <= max -> Forall (fun ch : list byte => Z.of_nat (length ch) <= k) l -> 0 <= k ->
  read_line_bounded l buf max = (r, buf', rest) ->
  Z.of_nat (length buf') <= max + k /\
  match r with
  | Line len => len = Z.of_nat (length buf') /\ len <= max
  | Waiting | Eof => Z.of_nat (length buf') <= max
  | TooLong => max < Z.of_nat (length buf')
  end.
Proof.
  revert buf; induction l as [|[|b ch] l IH]; intros buf Hb Hk Hk0 H.
  - injection H as <- <- <-. lia.
  - cbn in H. destruct buf; injection H as <- <- <-; cbn [length] in *; lia.
  - apply Forall_cons in Hk as [Hch Hk]. cbn [read_line_bounded] in H.
    destruct (find_newline (b :: ch)) as [pos|] eqn:E.
    + apply find_newline_le in E. pose proof (strip_cr_length (buf ++ take pos (b :: ch))) as Hs.
      rewrite length_app, length_take in Hs.
      destruct (Z.ltb_spec max (Z.of_nat (length (strip_cr (buf ++ take pos (b :: ch))))));
        injection H as <- <- <-; lia.
    + destruct (Z.ltb_spec max (Z.of_nat (length (buf ++ b :: ch)))).
      * injection H as <- <- <-. rewrite length_app in *. lia.
      * by apply (IH (buf ++ b :: ch)).
Qed.

(** ** Extranonces *)

Lemma generate_extranonce1_value counter size :
  is_u64 counter -> 0 <= size ->
  be2z (generate_extranonce1 counter size).2 = counter mod 256 ^ size /\
  Z.of_nat (length (generate_extranonce1 counter size).2) = size.
Proof.
  intros Hc Hs. unfold generate_extranonce1. cbn [snd]. destruct (Z.leb_spec size 8).
  - rewrite length_drop, length_be_bytes. split; [|lia].
    pose proof (take_drop (Z.to_nat (8 - size)) (be_bytes 8 counter)) as Heq.
    pose proof (be2z_be_bytes 8 counter) as Hv. rewrite <- Heq in Hv. rewrite be2z_app in Hv.
    rewrite length_drop, length_be_bytes in Hv.
    replace (Z.of_nat (8 - Z.to_nat (8 - size))) with size in Hv by lia.
    pose proof (be2z_range (drop (Z.to_nat (8 - size)) (be_bytes 8 counter))) as Hr.
    rewrite length_drop, length_be_bytes in Hr.
    replace (Z.of_nat (8 - Z.to_nat (8 - size))) with size in Hr by lia.
    change (256 ^ Z.of_nat 8) with (2 ^ 64) in Hv. rewrite (Z.mod_small counter) in Hv by exact Hc.
    apply (Z.mod_unique_pos _ _ (be2z (take (Z.to_nat (8 - size)) (be_bytes 8 counter)))); [done|].
    rewrite Z.mul_comm. by symmetry.
  - rewrite be2z_zeros, length_app, length_replicate, length_be_bytes, be2z_be_bytes. split; [|lia].
    change (256 ^ Z.of_nat 8) with (2 ^ 64). unfold is_u in Hc. rewrite !Z.mod_small; [done| |lia].
    assert (2 ^ 64 <= 256 ^ size) by (change (2 ^ 64) with (256 ^ 8); apply Z.pow_le_mono_r; lia). lia.
Qed.

(** ** The ways a submission can go *)

(** The verdict of validation and the duplicate check on an honoured job. *)
Definition submit_verdict `{HL : HexLib} `{HS : Sha256Lib} (s : Session) (p : SubmitParams) (entry : JobEntry)
    : ShareSet * outcome PoolError ShareResult :=
  ShareSet_dedup (s_share_set s)
    (validate_share_no_dedup (share_params s p (default "?" (s_worker s))) (je_job entry) entry
       (s_extranonce1 s) (min_difficulty (s_vardiff_cfg s))).

Inductive submit_outcome `{HJ : JsonLib f64} `{HL : HexLib} `{HS : Sha256Lib}
    (s : Session) (req : StratumRequest) (p : SubmitParams) (env : Env)
    : Session * list session_effect * HandleResult -> Prop :=
| so_unauthorized :
    s_authorized s = false ->
    submit_outcome s req p env
      (s, [MetricShareRejected "unauthorized" (default "?" (s_worker s)); StatsShareRejected],
       reply_err req NotAuthorized)
| so_size s' r :
    s_authorized s = true -> Z.of_nat (length (submit_extranonce2 p)) ≠ s_extranonce2_size s ->
    count_invalid s req
      (BadExtranonceSize (Z.of_nat (length (submit_extranonce2 p))) (s_extranonce2_size s)) = (s', r) ->
    submit_outcome s req p env
      (s', [MetricShareRejected "bad_extranonce" (default "?" (s_worker s)); StatsShareRejected;
            WorkerShareRejected (default "?" (s_worker s)) "bad_extranonce"], r)
| so_no_job :
    s_authorized s = true -> Z.of_nat (length (submit_extranonce2 p)) = s_extranonce2_size s ->
    find_job (e_engine env) (submit_job_id p) = None ->
    submit_outcome s req p env
      (s, [MetricShareRejected "job_not_found" (default "?" (s_worker s)); StatsShareRejected;
           WorkerShareRejected (default "?" (s_worker s)) "job_not_found"],
       reply_err req (StaleJob (submit_job_id p)))
| so_panic entry :
    s_authorized s = true -> Z.of_nat (length (submit_extranonce2 p)) = s_extranonce2_size s ->
    find_job (e_engine env) (submit_job_id p) = Some entry ->
    (submit_verdict s p entry).2 = Panic ->
    submit_outcome s req p env (s, [], Disconnect "internal error")
| so_verdict entry set verdict :
    s_authorized s = true -> Z.of_nat (length (submit_extranonce2 p)) = s_extranonce2_size s ->
    find_job (e_engine env) (submit_job_id p) = Some entry ->
    submit_verdict s p entry = (set, verdict) ->
    submit_outcome s req p env
      (handle_verdict (with_share_set s set) req env (default "?" (s_worker s)) (height (je_job entry)) verdict).

Section submissions.
Context `{HJ : JsonLib f64} `{HL : HexLib} `{HS : Sha256Lib}.

Lemma handle_submit_outcome s req p env : submit_outcome s req p env (handle_submit s req p env).
Proof.
  unfold handle_submit.
  destruct (s_authorized s) eqn:Ha; cbn [negb]; [|by apply so_unauthorized].
  destruct (Z.eqb_spec (Z.of_nat (length (submit_extranonce2 p))) (s_extranonce2_size s)) as [Hl|Hl]; cbn [negb].
  2: { destruct (count_invalid _ _ _) as [s' r] eqn:E. by apply so_size. }
  destruct (find_job _ _) as [entry|] eqn:Ef; [|by apply so_no_job].
  destruct (validate_share_no_dedup _ _ _ _ _) as [x|e|] eqn:Ev.
  3: { apply (so_panic _ _ _ _ entry); try done. unfold submit_verdict. by rewrite Ev. }
  all: destruct (ShareSet_dedup _ _) as [set verdict] eqn:Ed.
  all: apply so_verdict; try done; unfold submit_verdict; by rewrite Ev.
Qed.

(** A superseded job's verdict is the stale-job error. *)
Lemma submit_verdict_superseded s p entry :
  je_superseded_by_clean entry = true ->
  submit_verdict s p entry = (s_share_set s, Err (StaleJob (submit_job_id p))).
Proof. intros Hs. unfold submit_verdict, validate_share_no_dedup. by rewrite Hs. Qed.

(** What a verdict does to the session's guard. *)
Lemma count_invalid_spec s req e s' r c disc :
  record_invalid (invalid_shares (s_guard s)) = (c, disc) -> count_invalid s req e = (s', r) ->
  invalid_shares (s_guard s') = c /\ (r = Disconnect "too many invalid shares" <-> disc = true).
Proof.
  unfold count_invalid. intros ->. intros [= <- <-]. split; [done|]. by destruct disc; split.
Qed.
Lemma handle_verdict_malicious s req env w h e s' effs r c disc :
  is_malicious e = true -> record_invalid (invalid_shares (s_guard s)) = (c, disc) ->
  handle_verdict s req env w h (Err e) = (s', effs, r) ->
  invalid_shares (s_guard s') = c /\ (r = Disconnect "too many invalid shares" <-> disc = true).
Proof.
  intros He Hr. cbn. rewrite He. destruct (count_invalid _ _ _) as [s1 r1] eqn:E. intros [= <- _ <-].
  by eapply (count_invalid_spec (with_rejected s _)).
Qed.
Lemma handle_verdict_harmless s req env w h verdict s' effs r :
  (forall e, verdict = Err e -> is_malicious e = false) ->
  handle_verdict s req env w h verdict = (s', effs, r) ->
  s_guard s' = s_guard s /\ r ≠ Disconnect "too many invalid shares" /\
  forall e, verdict = Err e -> r = reply_err req e.
Proof.
  intros Hm. destruct verdict as [[a hd hash|hd hex hash]|e|]; cbn.
  - by intros [= <- _ <-].
  - by destruct (submit_found_block _ _ _ _ _) as [? [[]| |]]; intros [= <- _ <-].
  - rewrite (Hm e) by done. intros [= <- _ <-]. split; [done|]. split; [done|]. by intros e' [= <-].
  - by intros [= <- _ <-].
Qed.

(** What crediting looks like: only the two accepting arms log a share. *)
Definition is_log (e : session_effect) : bool := match e with LogShare _ _ => true | _ => false end.
Lemma no_log worker credited effs : LogShare worker credited ∈ effs -> existsb is_log effs = true.
Proof. intros Hin. apply existsb_exists. apply list_elem_of_In in Hin. by eexists. Qed.
Lemma handle_verdict_credits s req env w h verdict s' effs r worker credited :
  handle_verdict s req env w h verdict = (s', effs, r) -> LogShare worker credited ∈ effs ->
  exists res, verdict = Ok res /\ worker = w /\ List.filter is_log effs = [LogShare worker credited] /\
    r = Messages [response_ok (req_id req) (json_bool true)] /\ s_share_set s' = s_share_set s /\
    match res with
    | Valid _ d _ => credited = credit_for (s_vardiff s) d
    | Block d hex hash =>
        credited = credit_for (s_vardiff s) d /\
        (submit_found_block h (hash_display_hex hash) hex w (e_answers env)).2 = Ok tt
    end.
Proof.
  destruct verdict as [[a d hash|d hex hash]|e|]; cbn.
  - intros [= <- <- <-] Hin. exists (Valid a d hash). rewrite !elem_of_cons in Hin.
    destruct Hin as [[= -> ->]|[?|[?|[?|[?|?%not_elem_of_nil]]]]]; done.
  - destruct (submit_found_block _ _ _ _ _) as [beffs [[]|e|]] eqn:Es; intros [= <- <- <-] Hin;
      [|by apply no_log in Hin..].
    exists (Block d hex hash). rewrite Es. rewrite !elem_of_cons in Hin.
    destruct Hin as [?|[?|[?|[?|[[= -> ->]|[?|[?|[?|?%not_elem_of_nil]]]]]]]]; done.
  - destruct (is_malicious e); [destruct (count_invalid _ _ _) as [? ?]|]; intros [= <- <- <-] Hin; by apply no_log in Hin.
  - intros [= <- <- <-] Hin. by apply no_log in Hin.
Qed.
(** The duplicate check lets a result through only if its hash is new, and
    remembers it. *)
Lemma ShareSet_dedup_ok set0 v set res :
  ShareSet_dedup set0 v = (set, Ok res) ->
  v = Ok res /\ ShareResult_hash res ∉ seen set0 /\ ShareResult_hash res ∈ seen set.
Proof.
  unfold ShareSet_dedup. destruct v as [x|e|]; [|done..]. destruct (ShareSet_contains _ _) eqn:Ec; [done|].
  intros [= <- <-]. split; [done|]. pose proof Ec as Hc. unfold ShareSet_contains in Ec.
  apply bool_decide_eq_false in Ec. split; [done|]. unfold ShareSet_insert. rewrite Hc. cbn. set_solver.
Qed.
End submissions.
