(* ===== verification/Stats.v ===== *)
(** Pool statistics (stats.rs): the per-worker reject window, the database the
    all-time figures are kept in, and the counters and maps the sessions update
    and the dashboard reads.

    An operation is a function on [PoolStats]. Its readings of the wall clock
    (whole seconds) are arguments, and so is the outcome of each database
    statement it runs: [None] when it succeeds, the database's error text when
    it fails and changes nothing. A table is the collection of its rows and a
    statement the update its SQL text says. *)
From stdpp Require Import sorting.
From S2P Require Export Session.
From Stdlib Require Import Strings.Ascii.

Definition IDLE_WORKER_EVICT_SECS : Z := 86400.
Definition MAX_WORKER_BEST_SHARES : nat := 512.
Definition HASHRATE_WINDOW_60S : Z := 60.
Definition HASHRATE_WINDOW_10M : Z := 600.
Definition HASHRATE_WINDOW_3H : Z := 10800.
Definition HASHRATE_WINDOW_24H : Z := 86400.

Definition window_overlap (elapsed window_secs : Z) : f64 :=
  f64_max (f64_sub f64_one (f64_div (f64_of_Z elapsed) (f64_of_Z window_secs))) f64_zero.

Definition REJECT_WINDOW_MINUTES : Z := 60.
Definition MAX_RECENT_OTHER_REJECTS : nat := 256.
Definition is_stale_reason (reason : string) : bool :=
  bool_decide (reason = "stale") || bool_decide (reason = "job_not_found").

(** ** The reject window *)

(** The counts are [u32]s. *)
Record MinuteCounts := { mc_minute : Z; mc_accepted : Z; mc_stale : Z }.
#[export] Instance MinuteCounts_id : FieldwiseId MinuteCounts :=
  fun r => {| mc_minute := mc_minute r; mc_accepted := mc_accepted r; mc_stale := mc_stale r |}.
Definition MinuteCounts_default : MinuteCounts := {| mc_minute := 0; mc_accepted := 0; mc_stale := 0 |}.

(** A ring of 60 buckets, and the other rejects, oldest first. *)
Record RejectWindow := { rw_minutes : list MinuteCounts; rw_other : list (Z * string) }.
#[export] Instance RejectWindow_id : FieldwiseId RejectWindow :=
  fun r => {| rw_minutes := rw_minutes r; rw_other := rw_other r |}.
Definition RejectWindow_default : RejectWindow :=
  {| rw_minutes := replicate (Z.to_nat REJECT_WINDOW_MINUTES) MinuteCounts_default; rw_other := [] |}.

(** [bucket] ([rw_bucket] here) hands out a mutable reference to the bucket of [now]; here the
    write through it is the argument [f]. *)
Definition bucket_index (now : Z) : nat := Z.to_nat ((now / 60) mod REJECT_WINDOW_MINUTES).
Definition fresh_bucket (now : Z) (b : MinuteCounts) : MinuteCounts :=
  if mc_minute b =? now / 60 then b else {| mc_minute := now / 60; mc_accepted := 0; mc_stale := 0 |}.
Definition rw_bucket (w : RejectWindow) (now : Z) (f : MinuteCounts -> MinuteCounts) : RejectWindow :=
  w <! rw_minutes ::= alter (fun b => f (fresh_bucket now b)) (bucket_index now) !>.
Definition record_accepted (w : RejectWindow) (now : Z) : RejectWindow :=
  rw_bucket w now (fun b => b <! mc_accepted ::= fun n => saturating_add 32 n 1 !>).
Definition record_stale (w : RejectWindow) (now : Z) : RejectWindow :=
  rw_bucket w now (fun b => b <! mc_stale ::= fun n => saturating_add 32 n 1 !>).

Definition reject_cutoff (now : Z) : Z := saturating_sub now (REJECT_WINDOW_MINUTES * 60).
Definition rw_prune (w : RejectWindow) (now : Z) : RejectWindow :=
  w <! rw_other ::= drop_while (fun e : Z * string => fst e <=? reject_cutoff now) !>.
Definition record_other (w : RejectWindow) (now : Z) (reason : string) : RejectWindow :=
  rw_prune w now
    <! rw_other ::= fun l =>
         (if (length l =? MAX_RECENT_OTHER_REJECTS)%nat then tail l else l) ++ [(now, reason)] !>.

(** A map from reasons to how often each occurs. *)
Definition count_reason (m : gmap string Z) (reason : string) : gmap string Z :=
  <[reason := default 0 (m !! reason) + 1]> m.
Definition minute_in_window (now minute : Z) : bool :=
  (now / 60 <? minute + REJECT_WINDOW_MINUTES) && (minute <=? now / 60).
Definition summary (w : RejectWindow) (now : Z) : Z * Z * gmap string Z :=
  let live := List.filter (fun b => minute_in_window now (mc_minute b)) (rw_minutes w) in
  let other := List.filter (fun e : Z * string => reject_cutoff now <? fst e) (rw_other w) in
  (fold_left (fun n b => n + mc_accepted b) live 0, fold_left (fun n b => n + mc_stale b) live 0,
   fold_left (fun m e => count_reason m (snd e)) other ∅).

(** ** Found blocks and logged shares *)

Record FoundBlock := {
  fb_height : Z; fb_hash : string; fb_worker : string; fb_ts : Z; fb_round_work : f64; fb_network_difficulty : f64;
}.
Record LoggedShare := { ls_worker : string; ls_ts : Z; ls_credited : Z }.
Definition MAX_PENDING_SHARES : nat := Z.to_nat 65536.

(** [db_u64]: a [u64] saturated to an [i64]. *)
Definition db_u64 (v : Z) : Z := Z.min v (2 ^ 63 - 1).

(** ** The database *)

(** The single row of [pool_stats], the tables [worker_best_shares],
    [found_blocks] (rows in insertion order), [hashrate_history], [settings]
    and [share_log], and the recorded write failure. *)
Record StatsStore := {
  db_best_share_difficulty : Z;
  db_best_hashrate_hps : f64;
  db_round_work : f64;
  db_round_start_ts : Z;
  db_worker_best_shares : gmap string Z;
  db_found_blocks : list FoundBlock;
  db_hashrate_history : gmap Z f64;
  db_settings : gmap string string;
  db_share_log : list LoggedShare;
  db_write_error : option string;
}.
#[export] Instance StatsStore_id : FieldwiseId StatsStore := fun r => {|
  db_best_share_difficulty := db_best_share_difficulty r; db_best_hashrate_hps := db_best_hashrate_hps r;
  db_round_work := db_round_work r; db_round_start_ts := db_round_start_ts r;
  db_worker_best_shares := db_worker_best_shares r; db_found_blocks := db_found_blocks r;
  db_hashrate_history := db_hashrate_history r; db_settings := db_settings r;
  db_share_log := db_share_log r; db_write_error := db_write_error r |}.

Definition failed (db : StatsStore) (msg : string) : StatsStore := db <! db_write_error := Some msg !>.
Definition succeeded (db : StatsStore) : StatsStore := db <! db_write_error := None !>.
(** Running a statement: its effect, or the failure's report. *)
Definition execute (db : StatsStore) (io : option string) (statement : StatsStore -> StatsStore) (report : string)
    : StatsStore :=
  match io with None => statement db | Some e => failed db (report +:+ e) end.

Definition get_setting (db : StatsStore) (key : string) (io : option string) : option string :=
  match io with None => db_settings db !! key | Some _ => None end.
Definition set_setting (db : StatsStore) (key value : string) (io : option string) : StatsStore * bool :=
  (execute db io (fun db => db <! db_settings ::= <[key := value]> !>)
     ("Failed to persist setting " +:+ key +:+ ": "),
   match io with None => true | Some _ => false end).

(** The order of a map's entries, from the largest value down; which of two
    equal values comes first is not specified, and nothing proved here
    depends on it. *)
Definition by_value_desc (a b : string * Z) : Prop := snd b <= snd a.
#[export] Instance by_value_desc_dec a b : Decision (by_value_desc a b).
Proof. unfold by_value_desc. apply _. Defined.
Definition top_by_value (keep : nat) (m : gmap string Z) : gmap string Z :=
  list_to_map (take keep (merge_sort by_value_desc (map_to_list m))).
Definition prune_worker_best_shares (db : StatsStore) (keep : nat) (io : option string) : StatsStore :=
  execute db io (fun db => db <! db_worker_best_shares ::= top_by_value keep !>)
    "Failed to prune worker_best_shares: ".

Definition set_round (db : StatsStore) (round_work : f64) (round_start_ts : Z) (io : option string) : StatsStore :=
  match io with
  | None => succeeded (db <! db_round_work := round_work !> <! db_round_start_ts := db_u64 round_start_ts !>)
  | Some e => failed db ("Failed to persist round state: " +:+ e)
  end.
(** The columns of a found block are clamped like every [u64]. *)
Definition found_block_row (b : FoundBlock) : FoundBlock := {|
  fb_height := db_u64 (fb_height b); fb_hash := fb_hash b; fb_worker := fb_worker b; fb_ts := db_u64 (fb_ts b);
  fb_round_work := fb_round_work b; fb_network_difficulty := fb_network_difficulty b |}.
(** INSERT OR IGNORE, with the hash as primary key. *)
Definition insert_or_ignore (l : list FoundBlock) (b : FoundBlock) : list FoundBlock :=
  if existsb (fun x => bool_decide (fb_hash x = fb_hash b)) l then l else l ++ [b].
Definition insert_found_block (db : StatsStore) (b : FoundBlock) (io : option string) : StatsStore :=
  execute db io (fun db => db <! db_found_blocks ::= fun l => insert_or_ignore l (found_block_row b) !>)
    ("Failed to persist found block " +:+ fb_hash b +:+ ": ").
Definition set_best_share_difficulty (db : StatsStore) (difficulty : Z) (io : option string) : StatsStore :=
  execute db io
    (fun db => if db_best_share_difficulty db <? db_u64 difficulty
               then db <! db_best_share_difficulty := db_u64 difficulty !> else db)
    "Failed to persist best_share_difficulty: ".
Definition set_best_hashrate_hps (db : StatsStore) (hps : f64) (io : option string) : StatsStore :=
  execute db io (fun db => if f64_lt (db_best_hashrate_hps db) hps then db <! db_best_hashrate_hps := hps !> else db)
    "Failed to persist best_hashrate_hps: ".
Definition force_best_hashrate_hps (db : StatsStore) (hps : f64) (io : option string) : StatsStore :=
  execute db io (fun db => db <! db_best_hashrate_hps := hps !>) "Failed to reset best_hashrate_hps: ".
Definition set_worker_best_share (db : StatsStore) (worker : string) (difficulty : Z) (io : option string) : StatsStore :=
  execute db io
    (fun db => match db_worker_best_shares db !! worker with
               | Some old => if old <? db_u64 difficulty
                             then db <! db_worker_best_shares ::= <[worker := db_u64 difficulty]> !> else db
               | None => db <! db_worker_best_shares ::= <[worker := db_u64 difficulty]> !>
               end)
    ("Failed to persist worker_best_share for " +:+ worker +:+ ": ").
(** The snapshot, and the pruning of entries older than six months; a failure
    of the second statement is ignored. *)
Definition store_hashrate_snapshot (db : StatsStore) (ts : Z) (hps : f64) (io1 io2 : option string) : StatsStore :=
  match io1 with
  | Some e => failed db ("Failed to record hashrate snapshot: " +:+ e)
  | None =>
      let db := succeeded (db <! db_hashrate_history ::= <[db_u64 ts := hps]> !>) in
      match io2 with
      | None =>
          let cutoff := db_u64 (saturating_sub ts (6 * 30 * 24 * 3600)) in
          db <! db_hashrate_history ::= filter (fun e => cutoff <= fst e) !>
      | Some _ => db
      end
  end.
Definition ts_le (a b : Z * f64) : Prop := fst a <= fst b.
#[export] Instance ts_le_dec a b : Decision (ts_le a b).
Proof. unfold ts_le. apply _. Defined.
Definition store_hashrate_history (db : StatsStore) (since_ts : Z) (io : option string) : list (Z * f64) :=
  match io with
  | Some _ => []
  | None =>
      List.filter (fun e => 0 <=? fst e)
        (merge_sort ts_le (map_to_list (filter (fun e => db_u64 since_ts <= fst e) (db_hashrate_history db))))
  end.
(** A batch in one transaction: all of it, or nothing. The error is that of
    opening it, or of a statement in it or its commit. *)
Definition logged_share_row (s : LoggedShare) : LoggedShare :=
  {| ls_worker := ls_worker s; ls_ts := db_u64 (ls_ts s); ls_credited := db_u64 (ls_credited s) |}.
Definition append_shares (db : StatsStore) (batch : list LoggedShare) (now : Z) (io_open io_write : option string)
    : StatsStore * bool :=
  match io_open with
  | Some e => (failed db ("Failed to open share_log transaction: " +:+ e), false)
  | None =>
      match io_write with
      | Some e =>
          (failed db ("Failed to write " +:+ dec (Z.of_nat (length batch)) +:+ " shares to share_log: " +:+ e), false)
      | None =>
          let cutoff := db_u64 (saturating_sub now HASHRATE_WINDOW_24H) in
          (succeeded (db <! db_share_log ::= fun l =>
             List.filter (fun s => cutoff <=? ls_ts s) (l ++ map logged_share_row batch) !>), true)
      end
  end.
Definition share_ts_le (a b : Z * Z) : Prop := fst a <= fst b.
#[export] Instance share_ts_le_dec a b : Decision (share_ts_le a b).
Proof. unfold share_ts_le. apply _. Defined.
Definition get_shares (db : StatsStore) (worker : string) (since_ts : Z) (io : option string) : list (Z * Z) :=
  match io with
  | Some _ => []
  | None =>
      let rows := List.filter (fun s => bool_decide (ls_worker s = worker) && (db_u64 since_ts <=? ls_ts s))
                    (db_share_log db) in
      List.filter (fun r : Z * Z => (0 <=? fst r) && (0 <=? snd r))
        (merge_sort share_ts_le (map (fun s => (ls_ts s, ls_credited s)) rows))
  end.

(** What the store hands back at boot. [get_u64] fails on a negative column;
    [conversion_error] is the text the database library gives that failure. *)
Record LoadedStats := {
  ld_best_share_difficulty : Z;
  ld_best_hashrate_hps : f64;
  ld_worker_best_shares : gmap string Z;
  ld_round_work : f64;
  ld_round_start_ts : Z;
  ld_found_blocks : list FoundBlock;
}.
Definition LoadedStats_default : LoadedStats := {|
  ld_best_share_difficulty := 0; ld_best_hashrate_hps := f64_zero; ld_worker_best_shares := ∅;
  ld_round_work := f64_zero; ld_round_start_ts := 0; ld_found_blocks := [] |}.
Definition block_le (a b : FoundBlock) : Prop := fb_ts a < fb_ts b \/ fb_ts a = fb_ts b /\ fb_height a <= fb_height b.
#[export] Instance block_le_dec a b : Decision (block_le a b).
Proof. unfold block_le. apply _. Defined.
Section loading.
Context (conversion_error : Z -> string).
Definition get_u64 (v : Z) : outcome string Z := if v <? 0 then Err (conversion_error v) else Ok v.
Definition load_block (b : FoundBlock) : outcome string FoundBlock :=
  h ← get_u64 (fb_height b);
  ts ← get_u64 (fb_ts b);
  Ok {| fb_height := h; fb_hash := fb_hash b; fb_worker := fb_worker b; fb_ts := ts;
        fb_round_work := fb_round_work b; fb_network_difficulty := fb_network_difficulty b |}.
(** [io] is the outcome of the queries themselves. *)
Definition load_values (db : StatsStore) (io : option string) : outcome string LoadedStats :=
  match io with
  | Some e => Err e
  | None =>
      best ← get_u64 (db_best_share_difficulty db);
      start ← get_u64 (db_round_start_ts db);
      workers ← collect_res (fun e : string * Z => d ← get_u64 (snd e); Ok (fst e, d))
                  (map_to_list (db_worker_best_shares db));
      blocks ← collect_res load_block (merge_sort block_le (db_found_blocks db));
      Ok {| ld_best_share_difficulty := best; ld_best_hashrate_hps := db_best_hashrate_hps db;
            ld_worker_best_shares := list_to_map workers; ld_round_work := db_round_work db;
            ld_round_start_ts := start; ld_found_blocks := blocks |}
  end.
End loading.

(** ** The counters and maps *)

Record WorkerState := {
  ws_worker : string;
  ws_protocol : string;
  ws_online : bool;
  ws_current_vardiff : Z;
  ws_shares_accepted : Z;
  ws_shares_rejected : Z;
  ws_shares_stale : Z;
  ws_reject_reasons : gmap string Z;
  ws_best_share_difficulty : Z;
  ws_active_sessions : Z;
  ws_connected_ts : Z;
  ws_last_submit_ts : Z;
  ws_hashrate_60s_hps : f64;
  ws_hashrate_10m_hps : f64;
  ws_hashrate_3h_hps : f64;
  ws_hashrate_24h_hps : f64;
  ws_last_hour_accepted : Z;
  ws_last_hour_stale : Z;
  ws_last_hour_other_rejects : gmap string Z;
  ws_last_other_reject_ts : Z;
  ws_last_other_reject_reason : option string;
  ws_reject_window : RejectWindow;
}.
#[export] Instance WorkerState_id : FieldwiseId WorkerState := fun r => {|
  ws_worker := ws_worker r; ws_protocol := ws_protocol r; ws_online := ws_online r;
  ws_current_vardiff := ws_current_vardiff r; ws_shares_accepted := ws_shares_accepted r;
  ws_shares_rejected := ws_shares_rejected r; ws_shares_stale := ws_shares_stale r;
  ws_reject_reasons := ws_reject_reasons r; ws_best_share_difficulty := ws_best_share_difficulty r;
  ws_active_sessions := ws_active_sessions r; ws_connected_ts := ws_connected_ts r;
  ws_last_submit_ts := ws_last_submit_ts r; ws_hashrate_60s_hps := ws_hashrate_60s_hps r;
  ws_hashrate_10m_hps := ws_hashrate_10m_hps r; ws_hashrate_3h_hps := ws_hashrate_3h_hps r;
  ws_hashrate_24h_hps := ws_hashrate_24h_hps r; ws_last_hour_accepted := ws_last_hour_accepted r;
  ws_last_hour_stale := ws_last_hour_stale r; ws_last_hour_other_rejects := ws_last_hour_other_rejects r;
  ws_last_other_reject_ts := ws_last_other_reject_ts r;
  ws_last_other_reject_reason := ws_last_other_reject_reason r; ws_reject_window := ws_reject_window r |}.
(** The state of a worker with nothing recorded yet: that of a first
    authorization, and of a worker the dashboard knows from its best share
    only. *)
Definition worker_state_new (worker protocol : string) (online : bool) (current_vardiff best active connected_ts : Z)
    : WorkerState := {|
  ws_worker := worker; ws_protocol := protocol; ws_online := online; ws_current_vardiff := current_vardiff;
  ws_shares_accepted := 0; ws_shares_rejected := 0; ws_shares_stale := 0; ws_reject_reasons := ∅;
  ws_best_share_difficulty := best; ws_active_sessions := active; ws_connected_ts := connected_ts;
  ws_last_submit_ts := 0; ws_hashrate_60s_hps := f64_zero; ws_hashrate_10m_hps := f64_zero;
  ws_hashrate_3h_hps := f64_zero; ws_hashrate_24h_hps := f64_zero; ws_last_hour_accepted := 0;
  ws_last_hour_stale := 0; ws_last_hour_other_rejects := ∅; ws_last_other_reject_ts := 0;
  ws_last_other_reject_reason := None; ws_reject_window := RejectWindow_default |}.

(** The hashrates and other [f64]s kept as bits in an [AtomicU64] are the
    [f64]s themselves. *)
Record PoolStats := {
  ps_shares_accepted : Z;
  ps_shares_rejected : Z;
  ps_blocks_found : Z;
  ps_connected_miners : Z;
  ps_current_height : Z;
  ps_current_coinbase_value : Z;
  ps_current_block_transaction_count : Z;
  ps_best_share_difficulty : Z;
  ps_session_best_share_difficulty : Z;
  ps_best_hashrate_hps : f64;
  ps_session_best_hashrate_hps : f64;
  ps_network_hashrate_hps : f64;
  ps_network_difficulty : f64;
  ps_est_difficulty_change_pct : f64;
  ps_last_block_worker : option string;
  ps_last_block_hash : option string;
  ps_last_block_ts : Z;
  ps_round_work : f64;
  ps_round_start_ts : Z;
  ps_found_blocks : list FoundBlock;
  ps_worker_hashrates_60s : gmap string f64;
  ps_worker_hashrates_10m : gmap string f64;
  ps_worker_hashrates_3h : gmap string f64;
  ps_worker_hashrates_24h : gmap string f64;
  ps_worker_hashrate_updated_ts : gmap string Z;
  ps_worker_share_history : gmap string ShareHistory;
  ps_pending_shares : list LoggedShare;
  ps_worker_protocol : gmap string string;
  ps_worker_last_submit_ts : gmap string Z;
  ps_worker_best_shares : gmap string Z;
  ps_worker_states : gmap string WorkerState;
  ps_start_time : Z;
  ps_store : option StatsStore;
  ps_store_open_error : option string;
}.
#[export] Instance PoolStats_id : FieldwiseId PoolStats := fun r => {|
  ps_shares_accepted := ps_shares_accepted r; ps_shares_rejected := ps_shares_rejected r;
  ps_blocks_found := ps_blocks_found r; ps_connected_miners := ps_connected_miners r;
  ps_current_height := ps_current_height r; ps_current_coinbase_value := ps_current_coinbase_value r;
  ps_current_block_transaction_count := ps_current_block_transaction_count r;
  ps_best_share_difficulty := ps_best_share_difficulty r;
  ps_session_best_share_difficulty := ps_session_best_share_difficulty r;
  ps_best_hashrate_hps := ps_best_hashrate_hps r; ps_session_best_hashrate_hps := ps_session_best_hashrate_hps r;
  ps_network_hashrate_hps := ps_network_hashrate_hps r; ps_network_difficulty := ps_network_difficulty r;
  ps_est_difficulty_change_pct := ps_est_difficulty_change_pct r;
  ps_last_block_worker := ps_last_block_worker r; ps_last_block_hash := ps_last_block_hash r;
  ps_last_block_ts := ps_last_block_ts r; ps_round_work := ps_round_work r;
  ps_round_start_ts := ps_round_start_ts r; ps_found_blocks := ps_found_blocks r;
  ps_worker_hashrates_60s := ps_worker_hashrates_60s r; ps_worker_hashrates_10m := ps_worker_hashrates_10m r;
  ps_worker_hashrates_3h := ps_worker_hashrates_3h r; ps_worker_hashrates_24h := ps_worker_hashrates_24h r;
  ps_worker_hashrate_updated_ts := ps_worker_hashrate_updated_ts r;
  ps_worker_share_history := ps_worker_share_history r; ps_pending_shares := ps_pending_shares r;
  ps_worker_protocol := ps_worker_protocol r; ps_worker_last_submit_ts := ps_worker_last_submit_ts r;
  ps_worker_best_shares := ps_worker_best_shares r; ps_worker_states := ps_worker_states r;
  ps_start_time := ps_start_time r; ps_store := ps_store r; ps_store_open_error := ps_store_open_error r |}.

(** [PoolStats::new_with_store]: [opened] is [None] without a configured
    path, otherwise the path and the result of opening it (the tables found,
    or the error). The clock is read for the first round and the start. *)
Definition pool_stats_of (loaded : LoadedStats) (store : option StatsStore) (store_open_error : option string)
    (round_start_ts start_time : Z) : PoolStats :=
  let last_block := last (ld_found_blocks loaded) in {|
  ps_shares_accepted := 0; ps_shares_rejected := 0;
  ps_blocks_found := Z.of_nat (length (ld_found_blocks loaded)); ps_connected_miners := 0; ps_current_height := 0;
  ps_current_coinbase_value := 0; ps_current_block_transaction_count := 0;
  ps_best_share_difficulty := ld_best_share_difficulty loaded; ps_session_best_share_difficulty := 0;
  ps_best_hashrate_hps := ld_best_hashrate_hps loaded; ps_session_best_hashrate_hps := f64_zero;
  ps_network_hashrate_hps := f64_zero; ps_network_difficulty := f64_zero; ps_est_difficulty_change_pct := S754_nan;
  ps_last_block_worker := fb_worker <$> last_block; ps_last_block_hash := fb_hash <$> last_block;
  ps_last_block_ts := default 0 (fb_ts <$> last_block); ps_round_work := ld_round_work loaded;
  ps_round_start_ts := round_start_ts; ps_found_blocks := ld_found_blocks loaded;
  ps_worker_hashrates_60s := ∅; ps_worker_hashrates_10m := ∅; ps_worker_hashrates_3h := ∅;
  ps_worker_hashrates_24h := ∅; ps_worker_hashrate_updated_ts := ∅; ps_worker_share_history := ∅;
  ps_pending_shares := []; ps_worker_protocol := ∅; ps_worker_last_submit_ts := ∅;
  ps_worker_best_shares := ld_worker_best_shares loaded; ps_worker_states := ∅; ps_start_time := start_time;
  ps_store := store; ps_store_open_error := store_open_error |}.
Definition new_with_store (conversion_error : Z -> string) (opened : option (string * outcome string StatsStore))
    (io : nat -> option string) (now start_time : Z) : PoolStats :=
  let '(store, loaded, store_open_error) :=
    match opened with
    | None => (None, LoadedStats_default, None)
    | Some (path, r) =>
        if bool_decide (path = empty_str) then (None, LoadedStats_default, None)
        else
          match r with
          | Ok db =>
              let db := prune_worker_best_shares db MAX_WORKER_BEST_SHARES (io 0%nat) in
              match load_values conversion_error db (io 1%nat) with
              | Ok loaded => (Some db, loaded, None)
              | Err e =>
                  (None, LoadedStats_default, Some ("could not load stats from " +:+ path +:+ ": " +:+ e))
              | Panic => (None, LoadedStats_default, None)
              end
          | Err e =>
              (None, LoadedStats_default, Some ("could not open stats database " +:+ path +:+ ": " +:+ e))
          | Panic => (None, LoadedStats_default, None)
          end
    end in
  match store with
  | Some db =>
      if ld_round_start_ts loaded =? 0 then
        pool_stats_of loaded (Some (set_round db (ld_round_work loaded) now (io 2%nat))) store_open_error now start_time
      else pool_stats_of loaded store store_open_error (ld_round_start_ts loaded) start_time
  | None => pool_stats_of loaded store store_open_error (ld_round_start_ts loaded) start_time
  end.

(** ** Operations *)

(** A map's entries in the order its concurrent implementation yields them. *)
Class DashIter := dash_iter : forall {A : Type}, gmap string A -> list (string * A).
Class DashIterLaws `{DashIter} := dash_iter_permutation A (m : gmap string A) : dash_iter m ≡ₚ map_to_list m.
Definition f64_sum (l : list f64) : f64 := fold_left f64_add l f64_zero.

Definition on_store (ps : PoolStats) (f : StatsStore -> StatsStore) : PoolStats := ps <! ps_store ::= fmap f !>.
Definition store_error (ps : PoolStats) : option string :=
  match ps_store_open_error ps with Some e => Some e | None => db ← ps_store ps; db_write_error db end.
Definition store_configured (ps : PoolStats) : bool :=
  bool_decide (is_Some (ps_store ps)) || bool_decide (is_Some (ps_store_open_error ps)).
Definition has_store (ps : PoolStats) : bool := bool_decide (is_Some (ps_store ps)).
Definition load_setting (ps : PoolStats) (key : string) (io : option string) : option string :=
  db ← ps_store ps; get_setting db key io.
Definition save_setting (ps : PoolStats) (key value : string) (io : option string) : PoolStats * bool :=
  match ps_store ps with
  | Some db => let '(db, ok) := set_setting db key value io in (ps <! ps_store := Some db !>, ok)
  | None => (ps, false)
  end.

Definition fetch_add (n : Z) : Z := wrap 64 (n + 1).
Definition fetch_sub (n : Z) : Z := wrap 64 (n - 1).
Definition miner_connected (ps : PoolStats) : PoolStats := ps <! ps_connected_miners ::= fetch_add !>.
Definition miner_disconnected (ps : PoolStats) : PoolStats := ps <! ps_connected_miners ::= fetch_sub !>.
Definition reset_best_hashrate (ps : PoolStats) (io : option string) : PoolStats :=
  on_store (ps <! ps_best_hashrate_hps := f64_zero !> <! ps_session_best_hashrate_hps := f64_zero !>)
    (fun db => force_best_hashrate_hps db f64_zero io).

(** [share_accepted] when no other session interferes; [cas_step] below has
    its compare-and-swap loops under interference. *)
Definition share_accepted (ps : PoolStats) (difficulty credited : Z) (io : option string) : PoolStats :=
  let ps := ps <! ps_shares_accepted ::= fetch_add !>
               <! ps_round_work ::= fun w => f64_add w (f64_of_Z credited) !> in
  let ps := if ps_best_share_difficulty ps <? difficulty
            then on_store (ps <! ps_best_share_difficulty := difficulty !>)
                   (fun db => set_best_share_difficulty db difficulty io)
            else ps in
  if ps_session_best_share_difficulty ps <? difficulty
  then ps <! ps_session_best_share_difficulty := difficulty !> else ps.
Definition share_rejected (ps : PoolStats) : PoolStats := ps <! ps_shares_rejected ::= fetch_add !>.

(** [block_found] in its two critical sections: the duplicate test, and the
    record with its push, which end at [block_push]. *)
Definition block_known (ps : PoolStats) (hash : string) : bool :=
  existsb (fun b => bool_decide (fb_hash b = hash)) (ps_found_blocks ps).
Definition block_push (ps : PoolStats) (worker hash : string) (height now : Z) (io : nat -> option string) : PoolStats :=
  let block := {| fb_height := height; fb_hash := hash; fb_worker := worker; fb_ts := now;
                  fb_round_work := ps_round_work ps; fb_network_difficulty := ps_network_difficulty ps |} in
  let ps := ps <! ps_round_work := f64_zero !>
               <! ps_blocks_found ::= fetch_add !>
               <! ps_last_block_worker := Some worker !>
               <! ps_last_block_hash := Some hash !>
               <! ps_last_block_ts := now !>
               <! ps_round_start_ts := now !>
               <! ps_found_blocks ::= fun l => l ++ [block] !> in
  on_store ps (fun db => set_round (insert_found_block db block (io 0%nat)) f64_zero now (io 1%nat)).
Definition block_found (ps : PoolStats) (worker hash : string) (height now : Z) (io : nat -> option string) : PoolStats :=
  if block_known ps hash then ps else block_push ps worker hash height now io.
Definition persist_round_state (ps : PoolStats) (io : option string) : PoolStats :=
  on_store ps (fun db => set_round db (ps_round_work ps) (ps_round_start_ts ps) io).

Definition update_height (ps : PoolStats) (height coinbase_value transaction_count : Z) : PoolStats :=
  ps <! ps_current_height := height !>
     <! ps_current_coinbase_value := coinbase_value !>
     <! ps_current_block_transaction_count := transaction_count !>.
Definition set_network_hashrate (ps : PoolStats) (hps : f64) : PoolStats := ps <! ps_network_hashrate_hps := hps !>.
Definition set_network_difficulty (ps : PoolStats) (d : f64) : PoolStats := ps <! ps_network_difficulty := d !>.
Definition set_est_difficulty_change_pct (ps : PoolStats) (pct : f64) : PoolStats :=
  ps <! ps_est_difficulty_change_pct := pct !>.

(** *** Hashrates *)

Definition worker_online (ps : PoolStats) (worker : string) : bool :=
  match ps_worker_states ps !! worker with Some s => ws_online s | None => false end.
(** The estimates for 60 s, 10 min, 3 h and 24 h. *)
Definition worker_hashrates (ps : PoolStats) (worker : string) (now : Z) : f64 * f64 * f64 * f64 :=
  let get (m : gmap string f64) := default f64_zero (m !! worker) in
  let hr_60s := get (ps_worker_hashrates_60s ps) in
  let hr_10m := get (ps_worker_hashrates_10m ps) in
  let hr_3h := get (ps_worker_hashrates_3h ps) in
  let hr_24h := get (ps_worker_hashrates_24h ps) in
  if worker_online ps worker then (hr_60s, hr_10m, hr_3h, hr_24h)
  else
    let elapsed := saturating_sub now (default 0 (ps_worker_hashrate_updated_ts ps !! worker)) in
    (f64_mul hr_60s (window_overlap elapsed HASHRATE_WINDOW_60S),
     f64_mul hr_10m (window_overlap elapsed HASHRATE_WINDOW_10M),
     f64_mul hr_3h (window_overlap elapsed HASHRATE_WINDOW_3H),
     f64_mul hr_24h (window_overlap elapsed HASHRATE_WINDOW_24H)).
Definition hashrate_10m (ps : PoolStats) (worker : string) (now : Z) : f64 :=
  let '(_, hr_10m, _, _) := worker_hashrates ps worker now in hr_10m.
Definition total_hashrate_10m `{DashIter} (ps : PoolStats) (now : Z) : f64 :=
  f64_sum (map (fun e => hashrate_10m ps (fst e) now) (dash_iter (ps_worker_hashrates_10m ps))).
(** The two compare-and-swap loops, run alone. *)
Definition raise_best_hashrate (ps : PoolStats) (total_10m : f64) (io : option string) : PoolStats :=
  let ps := if f64_lt (ps_best_hashrate_hps ps) total_10m
            then on_store (ps <! ps_best_hashrate_hps := total_10m !>)
                   (fun db => set_best_hashrate_hps db total_10m io)
            else ps in
  if f64_lt (ps_session_best_hashrate_hps ps) total_10m
  then ps <! ps_session_best_hashrate_hps := total_10m !> else ps.
Definition update_worker_hashrate `{DashIter} (ps : PoolStats) (worker : string) (hps_60s hps_10m hps_3h hps_24h : f64)
    (now : Z) (io : option string) : PoolStats :=
  let ps := ps <! ps_worker_hashrates_60s ::= <[worker := hps_60s]> !>
               <! ps_worker_hashrates_10m ::= <[worker := hps_10m]> !>
               <! ps_worker_hashrates_3h ::= <[worker := hps_3h]> !>
               <! ps_worker_hashrates_24h ::= <[worker := hps_24h]> !>
               <! ps_worker_hashrate_updated_ts ::= <[worker := now]> !> in
  raise_best_hashrate ps (total_hashrate_10m ps now) io.
Definition offline_worker_hashrates_10m `{DashIter} (ps : PoolStats) (now : Z) : list (string * f64) :=
  map (fun w => (w, hashrate_10m ps w now))
    (List.filter (fun w => negb (worker_online ps w)) (map fst (dash_iter (ps_worker_hashrates_10m ps)))).
Definition record_hashrate_snapshot `{DashIter} (ps : PoolStats) (ts : Z) (io : nat -> option string) : PoolStats :=
  let ps := on_store ps
    (fun db => store_hashrate_snapshot db ts (total_hashrate_10m ps ts) (io 0%nat) (io 1%nat)) in
  persist_round_state ps (io 2%nat).
Definition get_hashrate_history (ps : PoolStats) (since_ts : Z) (io : option string) : list (Z * f64) :=
  match ps_store ps with Some db => store_hashrate_history db since_ts io | None => [] end.

(** *** Workers *)

Definition on_worker (ps : PoolStats) (worker : string) (f : WorkerState -> WorkerState) : PoolStats :=
  ps <! ps_worker_states ::= alter f worker !>.
Definition set_worker_protocol (ps : PoolStats) (worker protocol : string) : PoolStats :=
  on_worker (ps <! ps_worker_protocol ::= <[worker := protocol]> !>) worker
    (fun s => s <! ws_protocol := protocol !>).
Definition mark_worker_submit (ps : PoolStats) (worker : string) (now : Z) : PoolStats :=
  on_worker (ps <! ps_worker_last_submit_ts ::= <[worker := now]> !>) worker
    (fun s => s <! ws_last_submit_ts := now !>).
Definition mark_worker_online (ps : PoolStats) (worker : string) (current_vardiff now : Z) : PoolStats :=
  match ps_worker_states ps !! worker with
  | Some _ =>
      on_worker ps worker (fun s =>
        s <! ws_online := true !> <! ws_current_vardiff := current_vardiff !> <! ws_connected_ts := now !>
          <! ws_active_sessions ::= fun n => saturating_add 64 n 1 !>)
  | None =>
      let best := default 0 (ps_worker_best_shares ps !! worker) in
      let protocol := default "sv1" (ps_worker_protocol ps !! worker) in
      ps <! ps_worker_states ::= <[worker := worker_state_new worker protocol true current_vardiff best 1 now]> !>
  end.
Definition mark_worker_offline (ps : PoolStats) (worker : string) : PoolStats :=
  on_worker ps worker (fun s =>
    if 1 <? ws_active_sessions s then s <! ws_active_sessions ::= fun n => n - 1 !>
    else s <! ws_active_sessions := 0 !> <! ws_online := false !>).
Definition update_worker_vardiff (ps : PoolStats) (worker : string) (vardiff now : Z) : PoolStats :=
  match ps_worker_states ps !! worker with
  | Some _ => on_worker ps worker (fun s => s <! ws_current_vardiff := vardiff !>)
  | None => mark_worker_online ps worker vardiff now
  end.
Definition worker_share_accepted (ps : PoolStats) (worker : string) (difficulty now : Z) (io : option string) : PoolStats :=
  let ps := on_worker ps worker (fun s =>
    let s := s <! ws_shares_accepted ::= fetch_add !> <! ws_reject_window ::= fun w => record_accepted w now !> in
    if ws_best_share_difficulty s <? difficulty then s <! ws_best_share_difficulty := difficulty !> else s) in
  let best := default 0 (ps_worker_best_shares ps !! worker) in
  if best <? difficulty
  then on_store (ps <! ps_worker_best_shares ::= <[worker := difficulty]> !>)
         (fun db => set_worker_best_share db worker difficulty io)
  else ps <! ps_worker_best_shares ::= <[worker := best]> !>.
Definition worker_share_rejected (ps : PoolStats) (worker reason : string) (now : Z) : PoolStats :=
  on_worker ps worker (fun s =>
    let s := s <! ws_shares_rejected ::= fetch_add !> <! ws_reject_reasons ::= fun m => count_reason m reason !> in
    let s := if bool_decide (reason = "stale") then s <! ws_shares_stale ::= fetch_add !> else s in
    if is_stale_reason reason then s <! ws_reject_window ::= fun w => record_stale w now !>
    else s <! ws_reject_window ::= fun w => record_other w now reason !>
           <! ws_last_other_reject_ts := now !> <! ws_last_other_reject_reason := Some reason !>).

(** (worker, online, last share) for the liveness gauges. *)
Definition worker_liveness `{DashIter} (ps : PoolStats) : list (string * bool * Z) :=
  map (fun e => (fst e, ws_online (snd e), default 0 (ps_worker_last_submit_ts ps !! fst e)))
    (dash_iter (ps_worker_states ps)).

(** *** Share records and the share log *)

Definition stash_share_history (ps : PoolStats) (worker : string) (history : ShareHistory) : PoolStats :=
  ps <! ps_worker_share_history ::= <[worker := history]> !>.
(** [now] is the wall clock; [inow] the monotonic one, read when the rows of
    the share log are converted. *)
Definition stats_take_share_history (ps : PoolStats) (worker : string) (now inow : Z) (io : option string)
    : PoolStats * option ShareHistory :=
  match ps_worker_share_history ps !! worker with
  | Some history => (ps <! ps_worker_share_history ::= delete worker !>, Some history)
  | None =>
      (ps, db ← ps_store ps;
           from_unix_rows (get_shares db worker (saturating_sub now HASHRATE_WINDOW_24H) io) now inow)
  end.
Definition log_share (ps : PoolStats) (worker : string) (credited now : Z) : PoolStats :=
  match ps_store ps with
  | None => ps
  | Some _ =>
      if (MAX_PENDING_SHARES <=? length (ps_pending_shares ps))%nat then ps
      else ps <! ps_pending_shares ::=
                 fun l => l ++ [{| ls_worker := worker; ls_ts := now; ls_credited := credited |}] !>
  end.
Definition flush_share_log (ps : PoolStats) (now : Z) (io_open io_write : option string) : PoolStats :=
  match ps_store ps with
  | None => ps
  | Some db =>
      let batch := ps_pending_shares ps in
      let ps := ps <! ps_pending_shares := [] !> in
      match batch with
      | [] => ps
      | _ => ps <! ps_store := Some (append_shares db batch now io_open io_write).1 !>
      end
  end.

(** *** Eviction *)

Definition idle_worker (ps : PoolStats) (cutoff : Z) (worker : string) (s : WorkerState) : bool :=
  negb (ws_online s) &&
  (Z.max (default (ws_last_submit_ts s) (ps_worker_last_submit_ts ps !! worker)) (ws_connected_ts s) <? cutoff).
Definition evict_worker (ps : PoolStats) (w : string) : PoolStats :=
  ps <! ps_worker_states ::= delete w !>
     <! ps_worker_hashrates_60s ::= delete w !>
     <! ps_worker_hashrates_10m ::= delete w !>
     <! ps_worker_hashrates_3h ::= delete w !>
     <! ps_worker_hashrates_24h ::= delete w !>
     <! ps_worker_hashrate_updated_ts ::= delete w !>
     <! ps_worker_share_history ::= delete w !>
     <! ps_worker_protocol ::= delete w !>
     <! ps_worker_last_submit_ts ::= delete w !>.
Definition prune_idle_workers `{DashIter} (ps : PoolStats) (now : Z) (io : option string) : PoolStats :=
  let cutoff := saturating_sub now IDLE_WORKER_EVICT_SECS in
  let stale := map fst (List.filter (fun e => idle_worker ps cutoff (fst e) (snd e)) (dash_iter (ps_worker_states ps))) in
  let ps := fold_left evict_worker stale ps in
  if (MAX_WORKER_BEST_SHARES <? size (ps_worker_best_shares ps))%nat then
    let all := merge_sort by_value_desc (dash_iter (ps_worker_best_shares ps)) in
    on_store (ps <! ps_worker_best_shares ::=
                fun m => fold_left (fun m e => delete (fst e) m) (drop MAX_WORKER_BEST_SHARES all) m !>)
      (fun db => prune_worker_best_shares db MAX_WORKER_BEST_SHARES io)
  else ps.

(** *** What the dashboard reads *)

Record WorkerHashrate := {
  wh_worker : string; wh_last_submit_ts : Z;
  wh_hashrate_60s_hps : f64; wh_hashrate_10m_hps : f64; wh_hashrate_3h_hps : f64; wh_hashrate_24h_hps : f64;
}.
Definition worker_hashrate_view (ps : PoolStats) (now : Z) (worker : string) : WorkerHashrate :=
  let '(hr_60s, hr_10m, hr_3h, hr_24h) := worker_hashrates ps worker now in {|
  wh_worker := worker; wh_last_submit_ts := default 0 (ps_worker_last_submit_ts ps !! worker);
  wh_hashrate_60s_hps := hr_60s; wh_hashrate_10m_hps := hr_10m; wh_hashrate_3h_hps := hr_3h;
  wh_hashrate_24h_hps := hr_24h |}.
Definition worker_state_view (ps : PoolStats) (now : Z) (worker : string) (s : WorkerState) : WorkerState :=
  let '(hr_60s, hr_10m, hr_3h, hr_24h) := worker_hashrates ps worker now in
  let '(accepted, stale, other) := summary (ws_reject_window s) now in
  s <! ws_worker := worker !>
    <! ws_hashrate_60s_hps := hr_60s !> <! ws_hashrate_10m_hps := hr_10m !>
    <! ws_hashrate_3h_hps := hr_3h !> <! ws_hashrate_24h_hps := hr_24h !>
    <! ws_protocol ::= fun p => default p (ps_worker_protocol ps !! worker) !>
    <! ws_last_submit_ts := default 0 (ps_worker_last_submit_ts ps !! worker) !>
    <! ws_best_share_difficulty ::= fun d => default d (ps_worker_best_shares ps !! worker) !>
    <! ws_last_hour_accepted := accepted !> <! ws_last_hour_stale := stale !>
    <! ws_last_hour_other_rejects := other !>.
(** The live workers, then those known from their best share only. *)
Definition snapshot_worker_states `{DashIter} (ps : PoolStats) (now : Z) : list WorkerState :=
  map (fun e => worker_state_view ps now (fst e) (snd e)) (dash_iter (ps_worker_states ps)) ++
  map (fun e => worker_state_new (fst e) (default "sv1" (ps_worker_protocol ps !! fst e)) false 0 (snd e) 0 0)
    (List.filter (fun e => bool_decide (ps_worker_states ps !! fst e = None)) (dash_iter (ps_worker_best_shares ps))).
Record StatsSnapshot := {
  ss_shares_accepted : Z; ss_shares_rejected : Z; ss_blocks_found : Z; ss_connected_miners : Z;
  ss_current_height : Z; ss_current_coinbase_value : Z; ss_current_block_transaction_count : Z;
  ss_template_version : Z; ss_best_share_difficulty : Z; ss_session_best_share_difficulty : Z;
  ss_best_hashrate_hps : f64; ss_total_hashrate_60s : f64; ss_total_hashrate_10m : f64;
  ss_total_hashrate_3h : f64; ss_total_hashrate_24h : f64; ss_network_hashrate_hps : f64;
  ss_network_difficulty : f64; ss_est_difficulty_change_pct : f64;
  ss_worker_hashrates : list WorkerHashrate; ss_worker_states : list WorkerState; ss_uptime_secs : Z;
  ss_session_best_hashrate_hps : f64; ss_last_block_worker : string; ss_last_block_hash : string;
  ss_last_block_ts : Z; ss_round_work : f64; ss_round_start_ts : Z; ss_found_blocks : list FoundBlock;
  ss_template_age_secs : option Z; ss_template_error : option string; ss_stats_store_error : option string;
}.
Definition snapshot `{DashIter} (ps : PoolStats) (now inow : Z) : StatsSnapshot :=
  let hashrates := map (fun e => worker_hashrate_view ps now (fst e)) (dash_iter (ps_worker_hashrates_10m ps)) in {|
  ss_shares_accepted := ps_shares_accepted ps; ss_shares_rejected := ps_shares_rejected ps;
  ss_blocks_found := ps_blocks_found ps; ss_connected_miners := ps_connected_miners ps;
  ss_current_height := ps_current_height ps; ss_current_coinbase_value := ps_current_coinbase_value ps;
  ss_current_block_transaction_count := ps_current_block_transaction_count ps; ss_template_version := 0;
  ss_best_share_difficulty := ps_best_share_difficulty ps;
  ss_session_best_share_difficulty := ps_session_best_share_difficulty ps;
  ss_best_hashrate_hps := ps_best_hashrate_hps ps;
  ss_total_hashrate_60s := f64_sum (map wh_hashrate_60s_hps hashrates);
  ss_total_hashrate_10m := f64_sum (map wh_hashrate_10m_hps hashrates);
  ss_total_hashrate_3h := f64_sum (map wh_hashrate_3h_hps hashrates);
  ss_total_hashrate_24h := f64_sum (map wh_hashrate_24h_hps hashrates);
  ss_network_hashrate_hps := ps_network_hashrate_hps ps; ss_network_difficulty := ps_network_difficulty ps;
  ss_est_difficulty_change_pct := ps_est_difficulty_change_pct ps; ss_worker_hashrates := hashrates;
  ss_worker_states := snapshot_worker_states ps now;
  ss_uptime_secs := duration_since inow (ps_start_time ps) / NANOS;
  ss_session_best_hashrate_hps := ps_session_best_hashrate_hps ps;
  ss_last_block_worker := default "—" (ps_last_block_worker ps);
  ss_last_block_hash := default "—" (ps_last_block_hash ps); ss_last_block_ts := ps_last_block_ts ps;
  ss_round_work := ps_round_work ps; ss_round_start_ts := ps_round_start_ts ps;
  ss_found_blocks := ps_found_blocks ps; ss_template_age_secs := None; ss_template_error := None;
  ss_stats_store_error := store_error ps |}.

(** ** The statistics under the sessions *)

(** What a session's effect does to the statistics: the calls session.rs makes. [now] and
    [inow] are the clocks and [io] the database's answers of that call. *)
Record StatsEnv := { se_now : Z; se_inow : Z; se_io : nat -> option string }.
Definition apply_effect `{DashIter} (ps : PoolStats) (x : StatsEnv * session_effect) : PoolStats :=
  let '(env, e) := x in
  let now := se_now env in
  let io := se_io env in
  match e with
  | StatsShareRejected => share_rejected ps
  | WorkerShareRejected worker reason => worker_share_rejected ps worker reason now
  | LogShare worker credited => log_share ps worker credited now
  | StatsShareAccepted difficulty credited => share_accepted ps difficulty credited (io 0%nat)
  | WorkerShareAccepted worker difficulty => worker_share_accepted ps worker difficulty now (io 0%nat)
  | MarkWorkerSubmit worker => mark_worker_submit ps worker now
  | StatsBlockFound worker hash_hex height => block_found ps worker hash_hex height now io
  | MarkWorkerOnline worker difficulty => mark_worker_online ps worker difficulty now
  | MarkWorkerOffline worker => mark_worker_offline ps worker
  | SetWorkerProtocol worker protocol => set_worker_protocol ps worker protocol
  | StashShareHistory worker history => stash_share_history ps worker history
  | TakeShareHistory worker => (stats_take_share_history ps worker now (se_inow env) (io 0%nat)).1
  | UpdateWorkerVardiff worker difficulty => update_worker_vardiff ps worker difficulty now
  | UpdateWorkerHashrate worker h60s h10m h3h h24h =>
      update_worker_hashrate ps worker h60s h10m h3h h24h now (io 0%nat)
  | MinerConnected => miner_connected ps
  | MinerDisconnected => miner_disconnected ps
  | MetricShareRejected _ _ | MetricShareAccepted _ _ | SubmitBlock _ | MetricBlockFound
  | MetricBlockSubmissionSuccess | MetricBlockSubmissionFailure _ | MetricVardiffRetarget _ _ _
  | MetricMinerDisconnect _ _ | BanPeer _ | SessionClosed _ _ _ => ps
  end.

(** ** The compare-and-swap loops *)

(** [share_accepted] and [update_worker_hashrate] raise a maximum with a loop
    over [compare_exchange_weak], which may fail spuriously. A thread raising
    the cell to [d] has yet to load it, is about to compare [d] with the value
    it last saw, or is done. *)
Inductive raiser := Start (d : Z) | Raising (d prev : Z) | Done (d : Z).
Inductive cas_step : Z * list raiser -> Z * list raiser -> Prop :=
| cas_load cell d pre post :
    cas_step (cell, pre ++ Start d :: post) (cell, pre ++ Raising d cell :: post)
| cas_low cell d prev pre post : d <= prev ->
    cas_step (cell, pre ++ Raising d prev :: post) (cell, pre ++ Done d :: post)
| cas_won cell d pre post : cell < d ->
    cas_step (cell, pre ++ Raising d cell :: post) (d, pre ++ Done d :: post)
| cas_lost cell d prev pre post : prev < d ->
    cas_step (cell, pre ++ Raising d prev :: post) (cell, pre ++ Raising d cell :: post).

(** ** Two sessions crediting one block *)

(** [block_found] tests for the hash and pushes the record under separate
    guards, so another caller can run between the two. A caller is before the
    test, past it, or done. *)
Inductive crediting := BeforeTest | PastTest | Credited.
Inductive credit_step (worker hash : string) (height now : Z) (io : nat -> option string)
    : PoolStats * list crediting -> PoolStats * list crediting -> Prop :=
| credit_known ps pre post : block_known ps hash = true ->
    credit_step worker hash height now io (ps, pre ++ BeforeTest :: post) (ps, pre ++ Credited :: post)
| credit_new ps pre post : block_known ps hash = false ->
    credit_step worker hash height now io (ps, pre ++ BeforeTest :: post) (ps, pre ++ PastTest :: post)
| credit_push ps pre post :
    credit_step worker hash height now io (ps, pre ++ PastTest :: post)
      (block_push ps worker hash height now io, pre ++ Credited :: post).
