(* ===== verification/StatsFacts.v ===== *)
(** Lemmas about the statistics: the reject window against the list of its
    events, who counts as online, the races on a maximum and on a found block. *)
From stdpp Require Import sorting.
From S2P Require Export Stats SessionFacts.
From Stdlib Require Import Strings.Ascii.

(** ** The reject window *)

Inductive reject_event := EvAccepted | EvStale | EvOther (reason : string).
#[export] Instance reject_event_eq_dec : EqDecision reject_event.
Proof. solve_decision. Defined.
Definition rw_step (w : RejectWindow) (e : Z * reject_event) : RejectWindow :=
  match snd e with
  | EvAccepted => record_accepted w (fst e)
  | EvStale => record_stale w (fst e)
  | EvOther reason => record_other w (fst e) reason
  end.
Definition rw_run (l : list (Z * reject_event)) : RejectWindow := fold_left rw_step l RejectWindow_default.
Definition others (l : list (Z * reject_event)) : list (Z * string) :=
  omap (fun e : Z * reject_event => match snd e with EvOther reason => Some (fst e, reason) | _ => None end) l.
Definition count_events (f : Z * reject_event -> bool) (l : list (Z * reject_event)) : Z :=
  Z.of_nat (length (List.filter f l)).
Definition not_later {A} (a b : Z * A) : Prop := fst a <= fst b.

Lemma rw_run_snoc l e : rw_run (l ++ [e]) = rw_step (rw_run l) e.
Proof. unfold rw_run. by rewrite fold_left_app. Qed.
Lemma sorted_snoc {A} (l : list (Z * A)) e :
  StronglySorted not_later (l ++ [e]) -> StronglySorted not_later l /\ Forall (fun x => fst x <= fst e) l.
Proof.
  intros H. induction l as [|x l IH]; [split; constructor|].
  cbn in H. apply StronglySorted_inv in H as [H Hx]. apply IH in H as [Hs Hf].
  apply Forall_app in Hx as [Hx He]. apply Forall_cons in He as [He _].
  unfold not_later in He. split; by constructor.
Qed.
Lemma sorted_snoc_intro {A} (l : list (Z * A)) e :
  StronglySorted not_later l -> Forall (fun x => fst x <= fst e) l -> StronglySorted not_later (l ++ [e]).
Proof.
  induction 1 as [|x l Hs IH Hx]; intros Hf; cbn; [repeat constructor|].
  apply Forall_cons in Hf as [Hxe Hf]. constructor; [by apply IH|].
  apply Forall_app. split; [done|]. by repeat constructor.
Qed.
Lemma sorted_drop {A} n (l : list (Z * A)) : StronglySorted not_later l -> StronglySorted not_later (drop n l).
Proof.
  intros H. revert n. induction H as [|x l Hs IH Hx]; intros [|n]; cbn; [constructor..| |apply IH]. by constructor.
Qed.
Lemma sorted_filter {A} f (l : list (Z * A)) :
  StronglySorted not_later l -> StronglySorted not_later (List.filter f l).
Proof.
  induction 1 as [|x l Hs IH Hx]; cbn; [constructor|]. destruct (f x); [|done]. constructor; [done|].
  rewrite Forall_forall in Hx |- *. intros y [Hy _]%list_elem_of_In%filter_In. apply Hx. by apply list_elem_of_In.
Qed.

Lemma Forall_lastn {A} (P : A -> Prop) n l : Forall P l -> Forall P (lastn n l).
Proof. apply Forall_drop. Qed.

(** Filtering by "not expired" and keeping the last [n] commute on a list in
    order, and dropping the expired prefix is filtering. *)
Definition unexpired {A} (cutoff : Z) (e : Z * A) : bool := cutoff <? fst e.
Lemma filter_unexpired_all {A} c (x : Z * A) l :
  StronglySorted not_later (x :: l) -> unexpired c x = true -> List.filter (unexpired c) l = l.
Proof.
  intros [_ H]%StronglySorted_inv Hx. apply forallb_filter_id, forallb_forall. intros y Hy.
  rewrite Forall_forall in H. specialize (H y ltac:(by apply list_elem_of_In)).
  unfold not_later, unexpired in *. apply Z.ltb_lt in Hx. apply Z.ltb_lt. lia.
Qed.
Lemma filter_lastn {A} c n (l : list (Z * A)) :
  StronglySorted not_later l ->
  List.filter (unexpired c) (lastn n l) = lastn n (List.filter (unexpired c) l).
Proof.
  induction l as [|x l IH]; [done|]. intros Hs. pose proof Hs as [Hl _]%StronglySorted_inv.
  destruct (Nat.le_gt_cases (length (x :: l)) n) as [Hn|Hn].
  { rewrite (lastn_short n (x :: l)) by done. rewrite lastn_short; [done|].
    etransitivity; [apply filter_length_le|done]. }
  cbn [length] in Hn. rewrite lastn_cons by lia. rewrite IH by done. cbn [List.filter].
  destruct (unexpired c x) eqn:Hx; [|done].
  rewrite (filter_unexpired_all c x l) by done. by rewrite lastn_cons by lia.
Qed.
Lemma drop_expired {A} c (l : list (Z * A)) :
  StronglySorted not_later l -> drop_while (fun e => fst e <=? c) l = List.filter (unexpired c) l.
Proof.
  induction l as [|x l IH]; [done|]. intros Hs. cbn [drop_while List.filter].
  assert (unexpired c x = negb (fst x <=? c)) as Hx by (unfold unexpired; lia).
  destruct (fst x <=? c); rewrite Hx; cbn [negb].
  - apply IH. by apply StronglySorted_inv in Hs as [? _].
  - by rewrite (filter_unexpired_all c x l Hs).
Qed.
Lemma filter_filter_later {A} c c' (l : list (Z * A)) :
  c <= c' -> List.filter (unexpired c') (List.filter (unexpired c) l) = List.filter (unexpired c') l.
Proof.
  intros H. induction l as [|x l IH]; [done|]. cbn [List.filter].
  destruct (unexpired c x) eqn:Hc; cbn [List.filter]; [by rewrite IH|].
  rewrite IH. unfold unexpired in *. by replace (c' <? fst x) with false by lia.
Qed.

(** *** The other rejects *)

Lemma reject_cutoff_mono t t' : t <= t' -> reject_cutoff t <= reject_cutoff t'.
Proof. unfold reject_cutoff, saturating_sub. lia. Qed.
Lemma bucket_other w now f : rw_other (rw_bucket w now f) = rw_other w.
Proof. done. Qed.

Definition others_inv (o : list (Z * string)) (w : RejectWindow) (last_ts : Z) : Prop :=
  exists g, StronglySorted not_later g /\ Forall (fun e => fst e <= last_ts) g /\
    rw_other w = lastn MAX_RECENT_OTHER_REJECTS g /\
    forall t, last_ts <= t ->
      List.filter (unexpired (reject_cutoff t)) g = List.filter (unexpired (reject_cutoff t)) o.
Lemma others_inv_later o w t t' : t <= t' -> others_inv o w t -> others_inv o w t'.
Proof.
  intros Ht (g & Hs & Hf & Hw & Hg). exists g. split; [done|]. split; [|split; [done|]].
  - eapply Forall_impl; [exact Hf|]. cbn. lia.
  - intros u Hu. apply Hg. lia.
Qed.
Lemma record_other_inv o w now reason :
  others_inv o w now -> others_inv (o ++ [(now, reason)]) (record_other w now reason) now.
Proof.
  intros (g & Hs & Hf & Hw & Hg). exists (List.filter (unexpired (reject_cutoff now)) g ++ [(now, reason)]).
  split; [|split; [|split]].
  - apply sorted_snoc_intro; [by apply sorted_filter|]. rewrite Forall_forall in Hf |- *.
    intros x [Hx _]%list_elem_of_In%filter_In. apply Hf. by apply list_elem_of_In.
  - apply Forall_app. split; [|by repeat constructor]. rewrite Forall_forall in Hf |- *.
    intros x [Hx _]%list_elem_of_In%filter_In. apply Hf. by apply list_elem_of_In.
  - unfold record_other, rw_prune. cbn [rw_other field_update]. rewrite Hw, drop_expired by by apply sorted_drop.
    rewrite filter_lastn by done. change MAX_RECENT_OTHER_REJECTS with (S 255). by rewrite lastn_snoc, lastn_pop.
  - intros t Ht. rewrite !List.filter_app, <- (Hg t Ht). f_equal.
    apply filter_filter_later. by apply reject_cutoff_mono.
Qed.

(** *** The buckets *)

Definition counted (e : Z * reject_event) : bool := match snd e with EvOther _ => false | _ => true end.
Definition minute (e : Z * reject_event) : Z := fst e / 60.
Definition at_minute (k : reject_event) (m : Z) (e : Z * reject_event) : bool :=
  bool_decide (snd e = k) && (minute e =? m).
Definition touches (i : nat) (e : Z * reject_event) : Prop := counted e = true /\ bucket_index (fst e) = i.
(** What bucket [i] holds after the events [l]: nothing, or the counts of the
    latest minute that fell to it. *)
Definition bucket_inv (l : list (Z * reject_event)) (i : nat) (b : MinuteCounts) : Prop :=
  (Forall (fun e => ~ touches i e) l /\ b = MinuteCounts_default) \/
  ((exists e, e ∈ l /\ touches i e /\ minute e = mc_minute b) /\
   Forall (fun e => touches i e -> minute e <= mc_minute b) l /\
   mc_accepted b = count_events (at_minute EvAccepted (mc_minute b)) l /\
   mc_stale b = count_events (at_minute EvStale (mc_minute b)) l).

Lemma count_events_app f l k : count_events f (l ++ k) = count_events f l + count_events f k.
Proof. unfold count_events. rewrite List.filter_app, length_app. lia. Qed.
Lemma count_events_zero f l : Forall (fun e => f e = false) l -> count_events f l = 0.
Proof. unfold count_events. induction 1 as [|x l Hx Hl IH]; [done|]. cbn. by rewrite Hx. Qed.
Lemma count_events_ext f g l : Forall (fun e => f e = g e) l -> count_events f l = count_events g l.
Proof.
  unfold count_events. induction 1 as [|x l Hx Hl IH]; [done|]. cbn. rewrite Hx. destruct (g x); cbn [length]; lia.
Qed.
Lemma count_events_le f l : 0 <= count_events f l <= Z.of_nat (length l).
Proof. unfold count_events. pose proof (filter_length_le f l). lia. Qed.
Lemma touches_minute i e now : counted e = true -> minute e = now / 60 -> bucket_index now = i -> touches i e.
Proof. intros Hc Hm <-. split; [done|]. unfold bucket_index. by rewrite <- Hm. Qed.
Lemma at_minute_counted k m e : k = EvAccepted \/ k = EvStale -> at_minute k m e = true -> counted e = true /\ minute e = m.
Proof.
  unfold at_minute, counted. intros Hk [H1%bool_decide_eq_true H2%Z.eqb_eq]%andb_prop. rewrite H1.
  by destruct Hk as [-> | ->].
Qed.

(** The bucket an event is about to write: its minute, with the counts so far. *)
Lemma fresh_bucket_inv l i b now :
  bucket_inv l i b -> bucket_index now = i -> Forall (fun x => fst x <= now) l ->
  mc_minute (fresh_bucket now b) = now / 60 /\
  mc_accepted (fresh_bucket now b) = count_events (at_minute EvAccepted (now / 60)) l /\
  mc_stale (fresh_bucket now b) = count_events (at_minute EvStale (now / 60)) l.
Proof.
  intros Hb Hi Hf.
  assert (forall k, k = EvAccepted \/ k = EvStale -> mc_minute b ≠ now / 60 \/ b = MinuteCounts_default ->
    b = MinuteCounts_default /\ Forall (fun e => ~ touches i e) l \/
    mc_minute b ≠ now / 60 /\ Forall (fun e => touches i e -> minute e <= mc_minute b) l /\ mc_minute b <= now / 60 ->
    count_events (at_minute k (now / 60)) l = 0) as Hzero.
  { intros k Hk _ Hcase. apply count_events_zero. rewrite Forall_forall. intros e He.
    apply not_true_iff_false. intros Hat. apply at_minute_counted in Hat as [Hc Hm]; [|done].
    pose proof (touches_minute i e now Hc Hm Hi) as Ht.
    destruct Hcase as [[_ Hno]|(Hne & Hle & Hnow)]; rewrite Forall_forall in *; [by apply (Hno e)|].
    specialize (Hle e He Ht). lia. }
  unfold fresh_bucket. destruct Hb as [[Hno ->]|((e & He & Ht & Hme) & Hle & Ha & Hs)].
  - rewrite !Hzero by auto. by destruct (Z.eqb_spec (mc_minute MinuteCounts_default) (now / 60)) as [<-|_].
  - destruct (Z.eqb_spec (mc_minute b) (now / 60)) as [Heq|Hne]; [by rewrite <- Heq|].
    assert (mc_minute b <= now / 60).
    { rewrite <- Hme. apply Z.div_le_mono; [done|]. rewrite Forall_forall in Hf. by apply Hf. }
    by rewrite !Hzero by auto.
Qed.

Lemma bucket_inv_other l i b e : ~ touches i e -> (counted e = false \/ minute e ≠ mc_minute b \/ b = MinuteCounts_default) ->
  bucket_inv l i b -> bucket_inv (l ++ [e]) i b.
Proof.
  intros Ht Hne [[Hno ->]|((x & Hx & Htx & Hmx) & Hle & Ha & Hs)].
  - left. split; [|done]. apply Forall_app. split; [done|]. by repeat constructor.
  - assert (forall k, k = EvAccepted \/ k = EvStale -> at_minute k (mc_minute b) e = false) as Hat.
    { intros k Hk. apply not_true_iff_false. intros Hat. apply at_minute_counted in Hat as [Hc Hm]; [|done].
      apply Ht. split; [done|]. destruct Htx as [_ <-]. unfold bucket_index. fold (minute e). fold (minute x). congruence. }
    right. split; [|split; [|split]].
    + exists x. split; [|done]. apply elem_of_app. by left.
    + apply Forall_app. split; [done|]. by repeat constructor.
    + rewrite count_events_app, Ha. unfold count_events at 3. cbn. rewrite Hat by auto. cbn. lia.
    + rewrite count_events_app, Hs. unfold count_events at 3. cbn. rewrite Hat by auto. cbn. lia.
Qed.

(** The whole ring after a list of events. *)
Definition ring_inv (l : list (Z * reject_event)) (w : RejectWindow) : Prop :=
  length (rw_minutes w) = Z.to_nat REJECT_WINDOW_MINUTES /\
  forall i b, rw_minutes w !! i = Some b -> bucket_inv l i b.
Lemma ring_write_inv l w now k (f : MinuteCounts -> MinuteCounts) :
  (k = EvAccepted \/ k = EvStale) -> ring_inv l w -> Forall (fun x => fst x <= now) l ->
  (forall b, mc_minute (f b) = mc_minute b) ->
  (forall b, mc_accepted b = count_events (at_minute EvAccepted (now / 60)) l ->
     mc_accepted (f b) = mc_accepted b + (if bool_decide (k = EvAccepted) then 1 else 0)) ->
  (forall b, mc_stale b = count_events (at_minute EvStale (now / 60)) l ->
     mc_stale (f b) = mc_stale b + (if bool_decide (k = EvStale) then 1 else 0)) ->
  ring_inv (l ++ [(now, k)]) (rw_bucket w now f).
Proof.
  intros Hk [Hlen Hw] Hf Hm Ha Hs. split; [cbn; by rewrite length_alter|].
  intros i b. cbn [rw_minutes rw_bucket field_update]. destruct (decide (bucket_index now = i)) as [Hi|Hi].
  - subst i. rewrite list_lookup_alter_eq. intros (b0 & Hb0 & ->)%fmap_Some.
    destruct (fresh_bucket_inv l _ b0 now (Hw _ _ Hb0) eq_refl Hf) as (Hfm & Hfa & Hfs).
    assert (touches (bucket_index now) (now, k)) as Ht by (split; [by destruct Hk as [-> | ->]|done]).
    right. rewrite Hm, Hfm. split; [|split; [|split]].
    + exists (now, k). split; [|done]. apply elem_of_app. right. by apply list_elem_of_singleton.
    + apply Forall_app. split; [|by repeat constructor]. eapply Forall_impl; [exact Hf|]. cbn.
      intros x Hx _. by apply Z.div_le_mono.
    + rewrite (Ha _ Hfa), Hfa, count_events_app. f_equal. unfold count_events, at_minute, minute. cbn.
      rewrite Z.eqb_refl. by destruct Hk as [-> | ->].
    + rewrite (Hs _ Hfs), Hfs, count_events_app. f_equal. unfold count_events, at_minute, minute. cbn.
      rewrite Z.eqb_refl. by destruct Hk as [-> | ->].
  - rewrite list_lookup_alter_ne by done. intros Hb. apply bucket_inv_other; [by intros [_ ?]| |by apply Hw].
    destruct (Hw _ _ Hb) as [[_ ->]|((x & _ & [_ Hx] & Hmx) & _)]; [by auto|].
    right; left. intros Heq. apply Hi. rewrite <- Hx. unfold bucket_index, minute in *. cbn in *. congruence.
Qed.

Lemma ring_inv_init : ring_inv [] RejectWindow_default.
Proof.
  split; [reflexivity|]. intros i b Hb.
  change (rw_minutes RejectWindow_default) with (replicate 60 MinuteCounts_default) in Hb.
  apply lookup_replicate in Hb as [-> _].
  left. by split; [constructor|].
Qed.
Lemma ring_inv_other l w now reason :
  ring_inv l w -> ring_inv (l ++ [(now, EvOther reason)]) (record_other w now reason).
Proof.
  intros [Hlen Hw]. split; [done|]. intros i b Hb. apply bucket_inv_other; [by intros [? _]|by left|by apply Hw].
Qed.
Lemma rw_run_ring l : StronglySorted not_later l -> Z.of_nat (length l) < 2 ^ 32 -> ring_inv l (rw_run l).
Proof.
  induction l as [|[now k] l IH] using rev_ind; [intros; apply ring_inv_init|].
  intros [Hs Hf]%sorted_snoc Hlen. rewrite length_app in Hlen. cbn in Hlen, Hf. rewrite rw_run_snoc.
  specialize (IH Hs ltac:(lia)).
  assert (forall f, count_events f l < 2 ^ 32 - 1) as Hc by (intros f; pose proof (count_events_le f l); lia).
  destruct k as [| |reason]; cbn [rw_step snd fst]; [| |by apply ring_inv_other].
  all: assert (forall n f, n = count_events f l -> saturating_add 32 n 1 = n + 1) as Hsat
    by (intros n f ->; specialize (Hc f); unfold saturating_add, umax; lia).
  all: apply ring_write_inv; auto; intros b Hb; case_bool_decide; try done; cbn; try apply (Hsat _ _ Hb); lia.
Qed.
Lemma rw_run_others l now :
  StronglySorted not_later l -> Forall (fun e => fst e <= now) l -> others_inv (others l) (rw_run l) now.
Proof.
  revert now. induction l as [|[t k] l IH] using rev_ind; intros now.
  { intros _ _. exists []. by repeat split; try constructor. }
  intros [Hs Hf]%sorted_snoc Hnow. apply Forall_app in Hnow as [_ Hnow]. apply Forall_cons in Hnow as [Hnow _].
  cbn in Hf, Hnow. specialize (IH t Hs Hf). apply (others_inv_later _ _ t); [done|].
  rewrite rw_run_snoc. unfold others. rewrite omap_app. destruct k; cbn [rw_step snd fst omap list_omap];
    rewrite ?app_nil_r; [exact IH..|]. by apply record_other_inv.
Qed.

(** *** Summing the ring *)

Definition sumZ (l : list Z) : Z := foldr Z.add 0 l.
Lemma fold_left_sum {A} (g : A -> Z) l a : fold_left (fun n b => n + g b) l a = a + sumZ (map g l).
Proof. revert a. induction l as [|x l IH]; intros a; cbn; [lia|]. rewrite IH. unfold sumZ. lia. Qed.
Lemma sum_filter {A} (p : A -> bool) (g : A -> Z) l :
  sumZ (map g (List.filter p l)) = sumZ (map (fun b => if p b then g b else 0) l).
Proof. induction l as [|x l IH]; cbn; [done|]. destruct (p x); cbn; unfold sumZ in *; lia. Qed.
Lemma sum_by_index {A} (L : list A) (g : A -> Z) (h : nat -> Z) k :
  (forall i b, L !! i = Some b -> g b = h (k + i)%nat) -> sumZ (map g L) = sumZ (map h (seq k (length L))).
Proof.
  revert k. induction L as [|x L IH]; intros k H; [done|]. cbn. unfold sumZ in *.
  rewrite (H 0%nat x eq_refl), Nat.add_0_r. f_equal. apply IH. intros i b Hb.
  rewrite (H (S i) b Hb). f_equal. lia.
Qed.
Lemma sum_seq_add (g h : nat -> Z) k n :
  sumZ (map (fun i => g i + h i) (seq k n)) = sumZ (map g (seq k n)) + sumZ (map h (seq k n)).
Proof. revert k. unfold sumZ. induction n as [|n IH]; intros k; cbn; [done|]. rewrite IH. lia. Qed.
Lemma sum_indicator (j k n : nat) :
  sumZ (map (fun i => if (j =? i)%nat then 1 else 0) (seq k n)) = if (k <=? j)%nat && (j <? k + n)%nat then 1 else 0.
Proof.
  revert k. unfold sumZ. induction n as [|n IH]; intros k; cbn [seq map foldr].
  - destruct (Nat.leb_spec k j), (Nat.ltb_spec j (k + 0)); cbn; lia.
  - rewrite IH. destruct (Nat.eqb_spec j k), (Nat.leb_spec (S k) j), (Nat.ltb_spec j (S k + n)), (Nat.leb_spec k j),
      (Nat.ltb_spec j (k + S n)); cbn; lia.
Qed.
Lemma count_partition f (idx : Z * reject_event -> nat) l n :
  (forall e, (idx e < n)%nat) ->
  sumZ (map (fun i => count_events (fun e => f e && (idx e =? i)%nat) l) (seq 0 n)) = count_events f l.
Proof.
  intros Hn. induction l as [|x l IH].
  { unfold sumZ. induction (seq 0 n) as [|y s IHs]; cbn; [done|]. rewrite IHs. done. }
  assert (forall g : Z * reject_event -> bool, count_events g (x :: l) = (if g x then 1 else 0) + count_events g l) as Hc.
  { intros g. unfold count_events. cbn. destruct (g x); cbn [length]; lia. }
  rewrite Hc, <- IH. rewrite (map_ext _ (fun i => (if f x && (idx x =? i)%nat then 1 else 0)
    + count_events (fun e => f e && (idx e =? i)%nat) l)) by (intros i; apply Hc).
  rewrite sum_seq_add. f_equal. destruct (f x); cbn [andb].
  - rewrite sum_indicator. specialize (Hn x).
    destruct (Nat.leb_spec 0 (idx x)), (Nat.ltb_spec (idx x) (0 + n)); cbn; lia.
  - clear IH Hc. unfold sumZ. induction (seq 0 n) as [|y s IHs]; cbn; [done|]. by rewrite IHs.
Qed.

(** A bucket contributes the events of its index that lie in the window. *)
Definition class_count (k : reject_event) (b : MinuteCounts) : Z :=
  match k with EvAccepted => mc_accepted b | EvStale => mc_stale b | EvOther _ => 0 end.
Definition in_hour (k : reject_event) (now : Z) (e : Z * reject_event) : bool :=
  bool_decide (snd e = k) && minute_in_window now (minute e).
Lemma same_minute now (m m' : Z) :
  minute_in_window now m = true -> m' <= m -> m' mod REJECT_WINDOW_MINUTES = m mod REJECT_WINDOW_MINUTES ->
  minute_in_window now m' = (m' =? m).
Proof.
  unfold minute_in_window, REJECT_WINDOW_MINUTES. intros [H1%Z.ltb_lt H2%Z.leb_le]%andb_prop Hle Hmod.
  pose proof (Z.div_mod m' 60 ltac:(done)). pose proof (Z.div_mod m 60 ltac:(done)).
  destruct (Z.eqb_spec m' m) as [->|Hne]; [|].
  - apply andb_true_iff. split; [by apply Z.ltb_lt|by apply Z.leb_le].
  - apply andb_false_iff. left. apply Z.ltb_ge. lia.
Qed.
Lemma bucket_contribution l i b now k :
  (k = EvAccepted \/ k = EvStale) -> bucket_inv l i b -> Forall (fun e => 0 <= fst e <= now) l ->
  (if minute_in_window now (mc_minute b) then class_count k b else 0) =
  count_events (fun e => in_hour k now e && (bucket_index (fst e) =? i)%nat) l.
Proof.
  intros Hk Hb Hf. rewrite Forall_forall in Hf.
  assert (forall e, in_hour k now e && (bucket_index (fst e) =? i)%nat = true -> touches i e) as Htouch.
  { unfold in_hour, touches, counted. intros e [[->%bool_decide_eq_true _]%andb_prop H%Nat.eqb_eq]%andb_prop.
    split; [by destruct Hk as [-> | ->]|done]. }
  destruct Hb as [[Hno ->]|((x & Hx & [Hcx Hix] & Hmx) & Hle & Ha & Hs)].
  { rewrite count_events_zero; [destruct (minute_in_window _ _); by destruct k|].
    eapply Forall_impl; [exact Hno|]. intros e Ht. apply not_true_iff_false. intros H. by apply Ht, Htouch. }
  assert (class_count k b = count_events (at_minute k (mc_minute b)) l) as -> by by destruct Hk as [-> | ->].
  rewrite Forall_forall in Hle.
  assert (forall e, e ∈ l -> bucket_index (fst e) = i -> counted e = true ->
    minute e <= mc_minute b /\ minute e mod REJECT_WINDOW_MINUTES = mc_minute b mod REJECT_WINDOW_MINUTES) as Hmod.
  { intros e He Hi Hc. split; [by apply Hle|]. rewrite <- Hmx, <- Hix in *. revert Hi. unfold bucket_index.
    fold (minute e) (minute x). pose proof (Z.mod_pos_bound (minute e) 60). pose proof (Z.mod_pos_bound (minute x) 60).
    unfold REJECT_WINDOW_MINUTES. lia. }
  destruct (minute_in_window now (mc_minute b)) eqn:Hw.
  - apply count_events_ext. rewrite Forall_forall. intros e He. unfold at_minute, in_hour.
    destruct (bool_decide (snd e = k)) eqn:Hke; [|done]. cbn [andb]. apply bool_decide_eq_true in Hke.
    assert (counted e = true) as Hc by (unfold counted; rewrite Hke; by destruct Hk as [-> | ->]).
    destruct (Nat.eqb_spec (bucket_index (fst e)) i) as [Hi|Hi]; rewrite ?andb_true_r, ?andb_false_r.
    + destruct (Hmod e He Hi Hc) as [H1 H2]. by rewrite (same_minute now (mc_minute b)).
    + apply Z.eqb_neq. intros Hm. apply Hi. rewrite <- Hix. unfold bucket_index.
      fold (minute e) (minute x). by rewrite Hm, Hmx.
  - symmetry. apply count_events_zero. rewrite Forall_forall. intros e He. apply not_true_iff_false.
    intros H. pose proof (Htouch e H) as [Hc Hi]. destruct (Hmod e He Hi Hc) as [H1 _].
    apply andb_prop in H as [[_ H]%andb_prop _]. unfold minute_in_window in *.
    assert (mc_minute b <= now / 60) by (rewrite <- Hmx; apply Z.div_le_mono; [done|apply Hf, Hx]).
    apply andb_prop in H as [H3%Z.ltb_lt _]. apply andb_false_iff in Hw as [H4%Z.ltb_ge|H4%Z.leb_gt]; lia.
Qed.
Lemma ring_total l w now k :
  (k = EvAccepted \/ k = EvStale) -> ring_inv l w -> Forall (fun e => 0 <= fst e <= now) l ->
  sumZ (map (class_count k) (List.filter (fun b => minute_in_window now (mc_minute b)) (rw_minutes w))) =
  count_events (in_hour k now) l.
Proof.
  intros Hk [Hlen Hw] Hf. rewrite sum_filter.
  rewrite (sum_by_index _ _ (fun i => count_events (fun e => in_hour k now e && (bucket_index (fst e) =? i)%nat) l) 0).
  - rewrite Hlen. apply count_partition. intros e. unfold bucket_index, REJECT_WINDOW_MINUTES.
    pose proof (Z.mod_pos_bound (fst e / 60) 60). lia.
  - intros i b Hb. apply bucket_contribution; [done|by apply Hw|done].
Qed.

(** How often each reason occurs in a list. *)
Definition reason_counts (l : list (Z * string)) : gmap string Z := fold_left (fun m e => count_reason m (snd e)) l ∅.
Lemma summary_of_run l now :
  StronglySorted not_later l -> Forall (fun e => 0 <= fst e <= now) l -> Z.of_nat (length l) < 2 ^ 32 ->
  summary (rw_run l) now =
    (count_events (in_hour EvAccepted now) l, count_events (in_hour EvStale now) l,
     reason_counts (lastn MAX_RECENT_OTHER_REJECTS (List.filter (unexpired (reject_cutoff now)) (others l)))).
Proof.
  intros Hs Hf Hlen. pose proof (rw_run_ring l Hs Hlen) as Hring.
  assert (Forall (fun e => fst e <= now) l) as Hf' by (eapply Forall_impl; [exact Hf|]; cbn; lia).
  destruct (rw_run_others l now Hs Hf') as (g & Hgs & _ & Hg & Heq). unfold summary. cbv zeta. rewrite !fold_left_sum, !Z.add_0_l.
  pose proof (ring_total l (rw_run l) now EvAccepted (or_introl eq_refl) Hring Hf) as Ha.
  pose proof (ring_total l (rw_run l) now EvStale (or_intror eq_refl) Hring Hf) as Hst.
  change (class_count EvAccepted) with mc_accepted in Ha. change (class_count EvStale) with mc_stale in Hst.
  rewrite Ha, Hst.
  f_equal. unfold reason_counts. f_equal. rewrite Hg. change (fun e : Z * string => reject_cutoff now <? fst e)
    with (@unexpired string (reject_cutoff now)). by rewrite filter_lastn, Heq by done.
Qed.

(** ** Who is online *)

(** The worker a session has online after an effect: it takes one only when
    it has none, drops the one it has, and re-rates only the one it has. *)
Definition holder_step (h : option string) (e : session_effect) : option (option string) :=
  match e with
  | MarkWorkerOnline worker _ => if bool_decide (h = None) then Some (Some worker) else None
  | MarkWorkerOffline worker => if bool_decide (h = Some worker) then Some None else None
  | UpdateWorkerVardiff worker _ => if bool_decide (h = Some worker) then Some h else None
  | _ => Some h
  end.
Fixpoint holder_run (h : option string) (l : list session_effect) : option (option string) :=
  match l with [] => Some h | e :: l => h ← holder_step h e; holder_run h l end.
Definition quiet (e : session_effect) : bool :=
  match e with MarkWorkerOnline _ _ | MarkWorkerOffline _ | UpdateWorkerVardiff _ _ => false | _ => true end.
Lemma holder_run_app h l k : holder_run h (l ++ k) = (h ← holder_run h l; holder_run h k).
Proof. revert h. induction l as [|e l IH]; intros h; [done|]. cbn. by destruct (holder_step h e); cbn. Qed.
Lemma holder_run_quiet h l : forallb quiet l = true -> holder_run h l = Some h.
Proof. induction l as [|e l IH]; [done|]. cbn. intros [He Hl]%andb_prop. destruct e; try done; by apply IH. Qed.

Section presence.
Context `{HJ : JsonLib f64} `{HL : HexLib} `{HS : Sha256Lib}.
Context (from_str : string -> outcome string StratumRequest).
#[local] Notation holds s effs s' := (holder_run (s_worker s) effs = Some (s_worker s')) (only parsing).

Lemma count_invalid_worker s req e : s_worker (count_invalid s req e).1 = s_worker s.
Proof. unfold count_invalid. by destruct (record_invalid _). Qed.
Lemma handle_verdict_quiet s req env w h verdict s' effs r :
  handle_verdict s req env w h verdict = (s', effs, r) -> s_worker s' = s_worker s /\ forallb quiet effs = true.
Proof.
  destruct verdict as [[a d hash|d hex hash]|e|]; cbn.
  - by intros [= <- <- <-].
  - by destruct (submit_found_block _ _ _ _ _) as [beffs [[]|e|]]; intros [= <- <- <-].
  - destruct (is_malicious e); [|by intros [= <- <- <-]].
    destruct (count_invalid _ _ _) as [s1 r1] eqn:E. intros [= <- <- <-].
    pose proof (f_equal (fun x => s_worker x.1) E) as Hw. cbn [fst] in Hw. by rewrite count_invalid_worker in Hw.
  - by intros [= <- <- <-].
Qed.
Lemma handle_submit_quiet s req p env s' effs r :
  handle_submit s req p env = (s', effs, r) -> s_worker s' = s_worker s /\ forallb quiet effs = true.
Proof.
  intros H. pose proof (handle_submit_outcome s req p env) as Ho. rewrite H in Ho.
  remember (s', effs, r) as out eqn:Hout. destruct Ho as [|s1 r1 _ _ Hc| | |entry set verdict].
  1,3,4: by injection Hout as <- <- <-.
  - injection Hout as <- <- <-. split; [|done]. pose proof (f_equal (fun x => s_worker x.1) Hc) as Hw.
    cbn [fst] in Hw. by rewrite count_invalid_worker in Hw.
  - by apply handle_verdict_quiet in Hout.
Qed.
Lemma cached_job_worker s (job : option StratumJob) :
  s_worker (match job with Some j => with_job s (Some j) | None => s end) = s_worker s.
Proof. by destruct job. Qed.
Lemma handle_authorize_holds s req p env s' effs r :
  handle_authorize s req p env = (s', effs, r) -> holds s effs s'.
Proof.
  unfold handle_authorize. destruct (s_subscribed s); cbn [negb]; [|by intros [= <- <- <-]].
  destruct (check_worker_name _ _) as [[]|e|]; [|by intros [= <- <- <-]|]; cbv zeta.
  all: destruct (bool_decide (s_worker s = Some (auth_worker p))) eqn:Hw; cbn [negb].
  1,3: apply bool_decide_eq_true in Hw; intros [= <- <- <-]; by rewrite cached_job_worker, Hw.
  all: destruct (record_new_authorization _) as [g [|]]; cbn [negb]; [|by intros [= <- <- <-]].
  all: unfold adopt_worker; cbn [with_guard s_worker]; destruct (s_worker s) as [prev|].
  all: destruct (e_stash env (auth_worker p)); intros [= <- <- <-]; rewrite cached_job_worker; cbn;
    by rewrite ?bool_decide_true by done.
Qed.
Lemma handle_line_holds s line env s' effs r :
  handle_line from_str s line env = Some (s', effs, r) -> holds s effs s'.
Proof.
  unfold handle_line. destruct (trim_is_empty line); [by intros [= <- <- <-]|].
  destruct (try_consume _ _ _) as [rate allowed]. destruct allowed; cbn [negb]; [|by intros [= <- <- <-]].
  destruct (request_parse _ _) as [req|e|]; [|by intros [= <- <- <-]|done].
  destruct (from_request req) as [m|e|]; [|by intros [= <- <- <-]|done].
  set (s1 := with_guard s _). change (s_worker s) with (s_worker s1). clearbody s1.
  destruct m as [p|p|p|p|d|u]; cbn [handle_message].
  - by intros [= <- <- <-].
  - intros [= H]. by apply handle_authorize_holds in H.
  - intros [= H]. apply handle_submit_quiet in H as [-> H]. by apply holder_run_quiet.
  - unfold no_effects, handle_configure. intros [= <- <- <-]. cbn. by destruct (version_rolling p).
  - unfold handle_suggest_difficulty, no_effects. destruct (suggest _ _ _) as [[v applied]|]; [|done].
    by intros [= <- <- <-].
  - by intros [= <- <- <-].
Qed.
Lemma session_step_holds s env e s' effs msgs go :
  session_step from_str s env e = Some (s', effs, msgs, go) -> holds s effs s'.
Proof.
  destruct e as [| | | |[line|] written|written|b written| |]; cbn [session_step]; try by intros [= <- <- _ _].
  - unfold on_line. destruct (handle_line _ _ _ _) as [[[s1 effs1] [msgs1|reason]]|] eqn:E; [| |done].
    all: apply handle_line_holds in E.
    + destruct written; [|by intros [= <- <- _ _]]. intros [= <- <- _ _]. rewrite holder_run_app, E. cbn.
      apply holder_run_quiet. unfold hashrate_effects. by destruct (s_worker s1).
    + intros [= <- <- _ _]. rewrite holder_run_app, E. cbn. apply holder_run_quiet. by destruct (s_worker s1).
  - destruct (retarget_enabled s); [|by intros [= <- <- _ _]]. unfold on_retarget.
    destruct (check_retarget _ _ _ _) as [[v [d|]]|]; [| |done]; cbn; intros [= <- <- _ _]; [|done].
    cbn. destruct (s_worker s) as [w|]; [|done]. cbn. by rewrite bool_decide_true by done.
  - unfold on_job. destruct (jb_clean b); cbn [with_share_set s_subscribed s_authorized];
      destruct (s_subscribed s && s_authorized s); by intros [= <- <- _ _].
Qed.
Lemma session_close_holds s now1 now2 : holder_run (s_worker s) (session_close s now1 now2) = Some None.
Proof. unfold session_close. destruct (s_worker s) as [w|] eqn:E; cbn; [|done]. by rewrite bool_decide_true by done. Qed.
End presence.

(** *** Counting sessions *)

(** [H] maps the live sessions that have a worker online to that worker. *)
Definition sessions_of (H : gmap nat string) (worker : string) : Z :=
  Z.of_nat (size (filter (fun p : nat * string => snd p = worker) H)).
Lemma sessions_of_insert H i w worker :
  H !! i = None -> sessions_of (<[i := w]> H) worker = sessions_of H worker + (if bool_decide (w = worker) then 1 else 0).
Proof.
  intros Hi. unfold sessions_of. case_bool_decide as Hw.
  - rewrite map_filter_insert_True by done. rewrite map_size_insert_None; [lia|]. by apply map_lookup_filter_None; left.
  - rewrite map_filter_insert_False by done. rewrite delete_id by done. lia.
Qed.
Lemma sessions_of_delete H i w worker :
  H !! i = Some w -> sessions_of (delete i H) worker = sessions_of H worker - (if bool_decide (w = worker) then 1 else 0).
Proof.
  intros Hi. rewrite <- (insert_delete_id H i w) at 2 by done.
  rewrite sessions_of_insert by apply lookup_delete_eq. lia.
Qed.
Lemma sessions_of_nonneg H w : 0 <= sessions_of H w <= Z.of_nat (size H).
Proof.
  unfold sessions_of. split; [lia|]. apply Nat2Z.inj_le. apply map_subseteq_size, map_filter_subseteq.
Qed.
Lemma sessions_of_positive H w : 0 < sessions_of H w <-> exists i, H !! i = Some w.
Proof.
  unfold sessions_of. split.
  - intros Hp. destruct (map_choose (filter (fun p : nat * string => snd p = w) H)) as (i & x & Hx).
    { intros He. rewrite He, map_size_empty in Hp. lia. }
    apply map_lookup_filter_Some in Hx as [Hx Heq]. cbn in Heq. subst. by exists i.
  - intros [i Hi]. assert (filter (fun p : nat * string => snd p = w) H !! i = Some w) as Hf
      by by apply map_lookup_filter_Some.
    destruct (decide (size (filter (fun p : nat * string => snd p = w) H) = 0%nat)) as [Hz|Hz]; [|lia].
    apply map_size_empty_inv in Hz. by rewrite Hz in Hf.
Qed.

(** A worker's entry agrees with the number of its live sessions. *)
Definition entry_tracks (o : option WorkerState) (n : Z) : Prop :=
  match o with
  | None => n = 0
  | Some s => ws_active_sessions s = n /\ (ws_online s = true <-> 0 < n)
  end.
Definition tracked (ps : PoolStats) (H : gmap nat string) : Prop :=
  forall w, entry_tracks (ps_worker_states ps !! w) (sessions_of H w).
(** An operation that leaves every entry's presence alone. *)
Definition presence (s : WorkerState) : Z * bool := (ws_active_sessions s, ws_online s).
Definition same_presence (ps ps' : PoolStats) : Prop :=
  forall w, presence <$> ps_worker_states ps' !! w = presence <$> ps_worker_states ps !! w.
Lemma tracked_same ps ps' H : same_presence ps ps' -> tracked ps H -> tracked ps' H.
Proof.
  intros Hsame Ht w. specialize (Hsame w). specialize (Ht w). unfold entry_tracks in *.
  destruct (ps_worker_states ps' !! w) as [s'|], (ps_worker_states ps !! w) as [s|]; cbn in Hsame; try done.
  by injection Hsame as -> ->.
Qed.
Lemma same_states ps ps' : ps_worker_states ps' = ps_worker_states ps -> same_presence ps ps'.
Proof. by intros H w; rewrite H. Qed.
Lemma on_worker_same ps w f : (forall s, presence (f s) = presence s) -> same_presence ps (on_worker ps w f).
Proof.
  intros Hf v. cbn. destruct (decide (v = w)) as [->|Hv].
  - rewrite lookup_alter_eq. destruct (_ !! w); cbn; [|done]. by rewrite Hf.
  - by rewrite lookup_alter_ne.
Qed.
Lemma on_worker_same_from ps ps1 w f :
  ps_worker_states ps1 = ps_worker_states ps -> (forall s, presence (f s) = presence s) ->
  same_presence ps (on_worker ps1 w f).
Proof. intros H Hf v. rewrite <- H. by apply on_worker_same. Qed.
Lemma same_presence_trans ps1 ps2 ps3 : same_presence ps1 ps2 -> same_presence ps2 ps3 -> same_presence ps1 ps3.
Proof. intros H1 H2 w. by rewrite H2, H1. Qed.

Lemma mark_online_tracked ps H i w d now :
  H !! i = None -> Z.of_nat (size H) < umax 64 -> tracked ps H ->
  tracked (mark_worker_online ps w d now) (<[i := w]> H).
Proof.
  intros Hi Hsz Ht v. rewrite sessions_of_insert by done. pose proof (Ht v) as Hv.
  pose proof (sessions_of_nonneg H v) as Hn. unfold mark_worker_online.
  destruct (ps_worker_states ps !! w) as [s|] eqn:Hw; cbn.
  - destruct (decide (v = w)) as [->|Hne]; [|rewrite lookup_alter_ne, bool_decide_false, Z.add_0_r by done; exact Hv].
    rewrite lookup_alter_eq, bool_decide_true by done. rewrite Hw in Hv |- *. cbn in Hv |- *.
    destruct Hv as [-> _]. unfold saturating_add. split; [lia|]. split; lia || done.
  - destruct (decide (v = w)) as [->|Hne]; [|rewrite lookup_insert_ne, bool_decide_false, Z.add_0_r by done; exact Hv].
    rewrite lookup_insert_eq, bool_decide_true by done. rewrite Hw in Hv. cbn in Hv |- *. split; [lia|]. split; lia || done.
Qed.
Lemma mark_offline_tracked ps H i w :
  H !! i = Some w -> tracked ps H -> tracked (mark_worker_offline ps w) (delete i H).
Proof.
  intros Hi Ht v. rewrite (sessions_of_delete _ _ _ _ Hi). pose proof (Ht v) as Hv.
  assert (0 < sessions_of H w) as Hpos by (apply sessions_of_positive; eauto). cbn.
  destruct (decide (v = w)) as [->|Hne]; [|rewrite lookup_alter_ne, bool_decide_false, Z.sub_0_r by done; exact Hv].
  rewrite lookup_alter_eq, bool_decide_true by done. destruct (ps_worker_states ps !! w) as [s|]; cbn in Hv |- *; [|lia].
  destruct Hv as [Ha Ho]. rewrite Ha. destruct (Z.ltb_spec 1 (sessions_of H w)); cbn; [rewrite Ha|]; (split; [lia|]).
  - split; [lia|]. intros _. by apply Ho.
  - split; [done|lia].
Qed.

Section effects.
Context `{HI : DashIter}.

Lemma share_accepted_states ps d c io : ps_worker_states (share_accepted ps d c io) = ps_worker_states ps.
Proof. unfold share_accepted. cbv zeta. by repeat (case_match; cbn). Qed.
Lemma update_hashrate_states ps w a b c d now io :
  ps_worker_states (update_worker_hashrate ps w a b c d now io) = ps_worker_states ps.
Proof.
  assert (forall ps0 t, ps_worker_states (raise_best_hashrate ps0 t io) = ps_worker_states ps0) as Hr
    by (intros ps0 t; unfold raise_best_hashrate; cbv zeta; by repeat (case_match; cbn)).
  unfold update_worker_hashrate. by rewrite Hr.
Qed.
Lemma block_found_states ps w h height now io : ps_worker_states (block_found ps w h height now io) = ps_worker_states ps.
Proof. unfold block_found. by destruct (block_known ps h). Qed.
Lemma worker_share_accepted_same ps w d now io : same_presence ps (worker_share_accepted ps w d now io).
Proof.
  unfold worker_share_accepted. cbv zeta. set (ps1 := on_worker _ _ _).
  assert (same_presence ps ps1) as H1 by (apply on_worker_same; intros s; by case_match).
  by case_match; (eapply same_presence_trans; [exact H1|by apply same_states]).
Qed.
Lemma worker_share_rejected_same ps w reason now : same_presence ps (worker_share_rejected ps w reason now).
Proof.
  apply on_worker_same. intros s. cbv zeta. by destruct (bool_decide _), (is_stale_reason reason).
Qed.
(** Every effect that moves nobody leaves presence alone. *)
Lemma quiet_effect_same ps env e : quiet e = true -> same_presence ps (apply_effect ps (env, e)).
Proof.
  destruct e; try done; intros _; cbn [apply_effect];
    first [ apply worker_share_rejected_same | apply worker_share_accepted_same
          | apply same_states, share_accepted_states | apply same_states, block_found_states
          | apply same_states, update_hashrate_states
          | apply same_states; unfold log_share, stats_take_share_history; by repeat case_match
          | by apply on_worker_same_from ].
Qed.
Lemma apply_effect_tracked ps H i env e h :
  holder_step (H !! i) e = Some h -> Z.of_nat (size H) < umax 64 -> tracked ps H ->
  tracked (apply_effect ps (env, e)) (partial_alter (fun _ => h) i H).
Proof.
  intros Hh Hsz Ht. destruct (quiet e) eqn:Hq.
  - assert (h = H !! i) as -> by (destruct e; try discriminate Hq; by injection Hh).
    rewrite partial_alter_self. eapply tracked_same; [by apply quiet_effect_same|done].
  - destruct e; try done; cbn [holder_step] in Hh; case_bool_decide as Hi; try done; injection Hh as <-; cbn [apply_effect].
    + by apply mark_online_tracked.
    + by apply (mark_offline_tracked ps H i).
    + rewrite Hi, partial_alter_id by done. unfold update_worker_vardiff.
      pose proof (Ht worker) as Hw. assert (0 < sessions_of H worker) by (apply sessions_of_positive; eauto).
      destruct (ps_worker_states ps !! worker); [|cbn in Hw; lia].
      eapply tracked_same; [by apply on_worker_same|done].
Qed.

(** *** Eviction *)

Lemma evicted_states l ps w :
  ps_worker_states (fold_left evict_worker l ps) !! w = if bool_decide (w ∈ l) then None else ps_worker_states ps !! w.
Proof.
  revert ps. induction l as [|x l IH]; intros ps; [done|]. cbn [fold_left]. rewrite IH. cbn.
  destruct (decide (w ∈ l)) as [Hl|Hl]; [rewrite !bool_decide_true; [done|set_solver|done]|].
  rewrite (bool_decide_false (w ∈ l)) by done. destruct (decide (w = x)) as [->|Hx].
  - by rewrite lookup_delete_eq, bool_decide_true by set_solver.
  - by rewrite lookup_delete_ne, bool_decide_false by set_solver.
Qed.
Lemma prune_tracked {HIL : @DashIterLaws HI} ps now io H : tracked ps H -> tracked (prune_idle_workers ps now io) H.
Proof.
  intros Ht. unfold prune_idle_workers. cbv zeta. set (stale := map fst _).
  assert (forall w, w ∈ stale -> exists s, ps_worker_states ps !! w = Some s /\ ws_online s = false) as Hst.
  { intros w Hw. unfold stale in Hw. apply list_elem_of_In, in_map_iff in Hw as ([x s] & <- & Hin).
    apply filter_In in Hin as [Hin Hidle]. apply list_elem_of_In in Hin.
    rewrite (dash_iter_permutation _ (ps_worker_states ps)) in Hin. apply elem_of_map_to_list in Hin.
    exists s. split; [done|]. unfold idle_worker in Hidle. cbn in Hidle. by destruct (ws_online s). }
  assert (tracked (fold_left evict_worker stale ps) H) as Htr.
  { intros w. rewrite evicted_states. case_bool_decide as Hw; [|apply Ht].
    destruct (Hst w Hw) as (s & Hs & Ho). specialize (Ht w). rewrite Hs in Ht. cbn in Ht |- *. destruct Ht as [_ Hon].
    pose proof (sessions_of_nonneg H w). destruct (Z.lt_ge_cases 0 (sessions_of H w)) as [Hp|]; [|lia].
    apply Hon in Hp. congruence. }
  case_match; [|exact Htr]. eapply tracked_same; [|exact Htr]. by apply same_states.
Qed.

(** ** What reaches the statistics, in one order *)

(** The effects of the numbered sessions, and the background pruner, which
    runs between any two of them. *)
Inductive stats_event :=
| SessionEffect (i : nat) (env : StatsEnv) (e : session_effect)
| PruneIdle (now : Z) (io : option string)
| FlushShareLog (now : Z) (io_open io_write : option string).
Definition stats_step (ps : PoolStats) (x : stats_event) : PoolStats :=
  match x with
  | SessionEffect _ env e => apply_effect ps (env, e)
  | PruneIdle now io => prune_idle_workers ps now io
  | FlushShareLog now io_open io_write => flush_share_log ps now io_open io_write
  end.
Lemma flush_states ps now a b : ps_worker_states (flush_share_log ps now a b) = ps_worker_states ps.
Proof. unfold flush_share_log. by repeat case_match. Qed.
End effects.

(** ** Racing for a maximum *)

Definition raiser_target (t : raiser) : Z := match t with Start d => d | Raising d _ => d | Done d => d end.
Definition raiser_ok (cell : Z) (t : raiser) : Prop :=
  match t with Start _ => True | Raising _ prev => prev <= cell | Done d => d <= cell end.
Definition is_done (t : raiser) : bool := match t with Done _ => true | _ => false end.
Lemma all_done ds : forallb is_done (map Done ds) = true.
Proof. by induction ds. Qed.
(** The cell only grows, to values somebody raises it to; who is done is at
    or below it. *)
Definition cas_inv (d0 : Z) (ds : list Z) (x : Z * list raiser) : Prop :=
  map raiser_target (snd x) = ds /\ d0 <= fst x /\ fst x ∈ d0 :: ds /\ Forall (raiser_ok (fst x)) (snd x).
Lemma raiser_ok_mono cell cell' t : cell <= cell' -> raiser_ok cell t -> raiser_ok cell' t.
Proof. destruct t; cbn; lia. Qed.
Lemma cas_step_inv d0 ds x y : cas_step x y -> cas_inv d0 ds x -> cas_inv d0 ds y.
Proof.
  intros Hstep (Ht & H0 & Hin & Hok).
  destruct Hstep as [cell d pre post|cell d prev pre post Hd|cell d pre post Hd|cell d prev pre post Hd];
    cbn [fst snd] in *; apply Forall_app in Hok as [Hpre Hok]; apply Forall_cons in Hok as [Hx Hpost]; cbn in Hx;
    rewrite map_app in Ht; cbn in Ht; unfold cas_inv; cbn [fst snd]; rewrite map_app; cbn [map raiser_target];
    (split; [done|]).
  - split; [done|]. split; [done|]. apply Forall_app; split; [done|]. constructor; cbn; [lia|done].
  - split; [done|]. split; [done|]. apply Forall_app; split; [done|]. constructor; cbn; [lia|done].
  - split; [lia|]. split; [subst ds; rewrite elem_of_cons, elem_of_app, elem_of_cons; tauto|].
    apply Forall_app; split; [|constructor; [cbn; lia|]];
      (eapply Forall_impl; [eassumption|]; intros t; by apply raiser_ok_mono; lia).
  - split; [done|]. split; [done|]. apply Forall_app; split; [done|]. constructor; cbn; [lia|done].
Qed.
Lemma cas_run_inv d0 ds x : rtc cas_step (d0, map Start ds) x -> cas_inv d0 ds x.
Proof.
  intros H. assert (cas_inv d0 ds (d0, map Start ds)) as Hi.
  { split; [cbn; by rewrite map_map, map_id|]. split; [done|]. split; [by left|].
    apply Forall_fmap, Forall_true. by intros d. }
  revert Hi. induction H as [|x y z Hxy _ IH]; [done|]. intros Hi. apply IH. by eapply cas_step_inv.
Qed.
Definition maxZ (d0 : Z) (ds : list Z) : Z := foldr Z.max d0 ds.
Lemma maxZ_spec d0 ds m : d0 <= m -> Forall (fun d => d <= m) ds -> m ∈ d0 :: ds -> m = maxZ d0 ds.
Proof.
  intros H0 Hf Hm. assert (maxZ d0 ds <= m) as Hle by (clear Hm; unfold maxZ; induction Hf; cbn; lia).
  assert (forall x, x ∈ d0 :: ds -> x <= maxZ d0 ds) as Hge; [|specialize (Hge m Hm); lia].
  clear. unfold maxZ. induction ds as [|d ds IH]; intros x Hx; cbn.
  - apply list_elem_of_singleton in Hx as ->. lia.
  - rewrite !elem_of_cons in Hx. destruct Hx as [->|[->|Hx]]; [specialize (IH d0 ltac:(by left)); lia|lia|].
    specialize (IH x ltac:(by right)). lia.
Qed.
Lemma cas_done d0 ds x : cas_inv d0 ds x -> forallb is_done (snd x) = true -> fst x = maxZ d0 ds.
Proof.
  intros (Ht & H0 & Hin & Hok) Hd. apply maxZ_spec; [done| |done]. rewrite <- Ht. clear -Hok Hd.
  induction Hok as [|t ts Ht Hok IH]; [constructor|]. cbn in Hd |- *. apply andb_prop in Hd as [Hd Hds].
  constructor; [by destruct t|by apply IH].
Qed.
(** A thread left alone finishes. *)
Lemma cas_finish_one cell pre t post : raiser_ok cell t ->
  exists cell', rtc cas_step (cell, pre ++ t :: post) (cell', pre ++ Done (raiser_target t) :: post).
Proof.
  assert (forall d, exists cell', rtc cas_step (cell, pre ++ Raising d cell :: post) (cell', pre ++ Done d :: post)) as Hr.
  { intros d. destruct (Z.le_gt_cases d cell).
    - exists cell. apply rtc_once. by apply cas_low.
    - exists d. apply rtc_once. by apply cas_won. }
  destruct t as [d|d prev|d]; cbn; intros Hok.
  - destruct (Hr d) as [c Hc]. exists c. eapply rtc_l; [apply cas_load|exact Hc].
  - destruct (Z.le_gt_cases d prev) as [Hd|Hd]; [exists cell; apply rtc_once; by apply cas_low|].
    destruct (Hr d) as [c Hc]. exists c. eapply rtc_l; [by apply cas_lost|exact Hc].
  - exists cell. apply rtc_refl.
Qed.
Lemma cas_finish_all d0 ds cell pre ts : cas_inv d0 ds (cell, map Done pre ++ ts) ->
  exists cell', rtc cas_step (cell, map Done pre ++ ts) (cell', map Done ds).
Proof.
  revert cell pre. induction ts as [|t ts IH]; intros cell pre Hi.
  { exists cell. destruct Hi as (Ht & _). cbn in Ht. rewrite app_nil_r in *. rewrite map_map, map_id in Ht.
    subst. apply rtc_refl. }
  destruct Hi as (Ht & Hi') eqn:E. clear E.
  assert (raiser_ok cell t) as Hok.
  { destruct Hi' as (_ & _ & Hok). apply Forall_app in Hok as [_ Hok]. by apply Forall_cons in Hok as [? _]. }
  destruct (cas_finish_one cell (map Done pre) t ts Hok) as [c Hc].
  assert (cas_inv d0 ds (c, map Done (pre ++ [raiser_target t]) ++ ts)) as Hi2.
  { rewrite map_app, <- app_assoc. cbn. assert (cas_inv d0 ds (cell, map Done pre ++ t :: ts)) as H0 by by split.
    clear -Hc H0. remember (c, _) as y in Hc. remember (cell, _) as x in Hc. rewrite <- Heqy. rewrite <- Heqx in H0.
    clear Heqx Heqy. induction Hc as [|x y z Hxy _ IH]; [done|]. apply IH. by eapply cas_step_inv. }
  destruct (IH c _ Hi2) as [c2 Hc2]. exists c2. etransitivity; [exact Hc|].
  by rewrite map_app, <- app_assoc in Hc2.
Qed.

(** ** Two callers crediting one block *)

Lemma block_push_known ps worker hash height now io : block_known (block_push ps worker hash height now io) hash = true.
Proof.
  unfold block_known. cbn. rewrite existsb_app. cbn. rewrite bool_decide_true by done. by rewrite orb_true_r.
Qed.

(** ** Found blocks, in memory and in the database *)

(** Every integer column the boot reads back is one [get_u64] accepts. *)
Definition in_i64 (z : Z) : Prop := 0 <= z < 2 ^ 63.
Definition block_ok (b : FoundBlock) : Prop := in_i64 (fb_height b) /\ in_i64 (fb_ts b).
Definition columns_ok (db : StatsStore) : Prop :=
  0 <= db_best_share_difficulty db /\ 0 <= db_round_start_ts db /\
  map_Forall (fun _ d => 0 <= d) (db_worker_best_shares db) /\ Forall block_ok (db_found_blocks db).
Definition blocks_inv (ps : PoolStats) : Prop :=
  NoDup (map fb_hash (ps_found_blocks ps)) /\ Forall block_ok (ps_found_blocks ps) /\
  ps_blocks_found ps = wrap 64 (Z.of_nat (length (ps_found_blocks ps))) /\
  exists db, ps_store ps = Some db /\ columns_ok db /\ db_found_blocks db ≡ₚ ps_found_blocks ps.
(** A change of the store that keeps the columns readable and the blocks. *)
Definition keeps_blocks (f : StatsStore -> StatsStore) : Prop :=
  forall db, columns_ok db -> columns_ok (f db) /\ db_found_blocks (f db) = db_found_blocks db.

Lemma found_block_row_ok b : block_ok b -> found_block_row b = b.
Proof.
  intros [[_ Hh] [_ Ht]]. destruct b; cbn in *. unfold found_block_row, db_u64. cbn. f_equal; lia.
Qed.
Lemma db_u64_nonneg z : 0 <= z -> 0 <= db_u64 z.
Proof. unfold db_u64. lia. Qed.
Lemma execute_keeps io f msg : keeps_blocks f -> keeps_blocks (fun db => execute db io f msg).
Proof. intros Hf db Hdb. destruct io; cbn; [by split|by apply Hf]. Qed.
Lemma top_by_value_nonneg n m : map_Forall (fun _ d => 0 <= d) m -> map_Forall (fun _ d => 0 <= d) (top_by_value n m).
Proof.
  intros Hm w d Hd. unfold top_by_value in Hd. apply elem_of_list_to_map_2 in Hd.
  apply (Hm w). apply elem_of_map_to_list.
  rewrite <- (merge_sort_Permutation by_value_desc (map_to_list m)).
  rewrite <- (take_drop n (merge_sort _ _)). apply elem_of_app. by left.
Qed.
Lemma prune_best_keeps n io : keeps_blocks (fun db => prune_worker_best_shares db n io).
Proof.
  apply execute_keeps. intros db (? & ? & ? & ?). split; [|done]. split; [done|]. split; [done|].
  split; [by apply top_by_value_nonneg|done].
Qed.
Lemma set_best_share_keeps d io : 0 <= d -> keeps_blocks (fun db => set_best_share_difficulty db d io).
Proof.
  intros Hd. apply execute_keeps. intros db (? & ? & ? & ?). destruct (_ <? _); [|by split].
  split; [|done]. split; [by apply db_u64_nonneg|done].
Qed.
Lemma set_best_hashrate_keeps h io : keeps_blocks (fun db => set_best_hashrate_hps db h io).
Proof. apply execute_keeps. intros db Hdb. by destruct (f64_lt _ _). Qed.
Lemma set_worker_best_keeps w d io : 0 <= d -> keeps_blocks (fun db => set_worker_best_share db w d io).
Proof.
  intros Hd. apply execute_keeps. intros db (? & ? & ? & ?).
  assert (columns_ok (db <! db_worker_best_shares ::= <[w := db_u64 d]> !>)) as Hok.
  { split; [done|]. split; [done|]. split; [|done]. apply map_Forall_insert_2; [by apply db_u64_nonneg|done]. }
  destruct (db_worker_best_shares db !! w); [|by split]. by destruct (_ <? _).
Qed.
Lemma set_round_keeps w ts io : 0 <= ts -> keeps_blocks (fun db => set_round db w ts io).
Proof.
  intros Hts db (? & ? & ? & ?). destruct io; cbn; [by split|]. split; [|done]. split; [done|].
  split; [by apply db_u64_nonneg|done].
Qed.
Lemma append_keeps batch now a b : keeps_blocks (fun db => (append_shares db batch now a b).1).
Proof. intros db Hdb. by destruct a, b. Qed.

Lemma blocks_inv_same ps ps' :
  ps_found_blocks ps' = ps_found_blocks ps -> ps_blocks_found ps' = ps_blocks_found ps ->
  ps_store ps' = ps_store ps -> blocks_inv ps -> blocks_inv ps'.
Proof. intros H1 H2 H3 (? & ? & ? & ?). unfold blocks_inv. by rewrite H1, H2, H3. Qed.
Lemma on_store_inv ps f : keeps_blocks f -> blocks_inv ps -> blocks_inv (on_store ps f).
Proof.
  intros Hf (Hnd & Hok & Hcnt & db & Hs & Hc & Hp). split; [done|]. split; [done|]. split; [done|].
  exists (f db). cbn. rewrite Hs. destruct (Hf db Hc) as [H1 H2]. split; [done|]. split; [done|]. by rewrite H2.
Qed.
Lemma block_known_spec ps h : block_known ps h = true <-> h ∈ map fb_hash (ps_found_blocks ps).
Proof.
  unfold block_known. rewrite existsb_exists. rewrite list_elem_of_In, in_map_iff.
  split; intros (b & H1 & H2); exists b; [apply bool_decide_eq_true in H2|]; split; try done.
  by apply bool_decide_eq_true.
Qed.
Lemma block_found_inv ps w h height now io :
  io 0%nat = None -> in_i64 height -> in_i64 now -> blocks_inv ps ->
  blocks_inv (block_found ps w h height now io) /\
  (forall x, x ∈ map fb_hash (ps_found_blocks (block_found ps w h height now io)) <->
     x = h \/ x ∈ map fb_hash (ps_found_blocks ps)).
Proof.
  intros Hio Hh Hn Hinv. pose proof Hinv as (Hnd & Hok & Hcnt & db & Hs & (Hc1 & Hc2 & Hc3 & Hc4) & Hp). unfold block_found.
  destruct (block_known ps h) eqn:Hk.
  { split; [done|]. apply block_known_spec in Hk. intros x. split; [by right|]. by intros [->|?]. }
  assert (h ∉ map fb_hash (ps_found_blocks ps)) as Hnew by (rewrite <- block_known_spec; congruence).
  split.
  2: { intros x. cbn. rewrite map_app, elem_of_app. cbn. rewrite list_elem_of_singleton. tauto. }
  unfold block_push. cbv zeta. set (b := {| fb_height := height |}).
  assert (block_ok b) as Hb by by split.
  split; [|split; [|split]].
  - cbn. rewrite map_app. apply NoDup_app. split; [done|]. split; [|apply NoDup_singleton].
    intros x Hx ->%list_elem_of_singleton. done.
  - cbn. apply Forall_app. split; [done|]. constructor; [exact Hb|constructor].
  - cbn. rewrite Hcnt, length_app. unfold fetch_add, wrap. cbn [length]. rewrite Nat2Z.inj_add.
    by rewrite Zplus_mod_idemp_l.
  - exists (set_round (insert_found_block db b (io 0%nat)) f64_zero now (io 1%nat)). split; [cbn; by rewrite Hs|].
    assert (insert_or_ignore (db_found_blocks db) (found_block_row b) = db_found_blocks db ++ [b]) as Hins.
    { rewrite found_block_row_ok by done. unfold insert_or_ignore. destruct (existsb _ _) eqn:He; [|done].
      exfalso. apply Hnew. apply existsb_exists in He as (x & Hx & He%bool_decide_eq_true). cbn in He. rewrite <- He.
      rewrite <- Hp. apply list_elem_of_In, in_map. done. }
    destruct (set_round_keeps f64_zero now (io 1%nat) (proj1 Hn) (db <! db_found_blocks := db_found_blocks db ++ [b] !>))
      as [H1 H2].
    { split; [done|]. split; [done|]. split; [done|]. cbn. apply Forall_app. split; [done|]. constructor; [exact Hb|constructor]. }
    assert (insert_found_block db b (io 0%nat) = db <! db_found_blocks := db_found_blocks db ++ [b] !>) as ->.
    { unfold insert_found_block. rewrite Hio. cbn [execute]. unfold field_update.
      cbv beta. by rewrite Hins. }
    split; [exact H1|]. rewrite H2. cbn. by rewrite Hp.
Qed.

Section blocks.
Context `{HI : DashIter}.

(** What the theorems ask of an event: [u64]s in the range of an [i64], and
    the insertion of a found block succeeding. *)
Definition event_ok (x : stats_event) : Prop :=
  match x with
  | SessionEffect _ env e =>
      in_i64 (se_now env) /\
      match e with
      | StatsShareAccepted d _ | WorkerShareAccepted _ d => 0 <= d
      | StatsBlockFound _ _ height => in_i64 height /\ se_io env 0%nat = None
      | _ => True
      end
  | _ => True
  end.
Definition found_in (h : string) (x : stats_event) : Prop :=
  exists i env w height, x = SessionEffect i env (StatsBlockFound w h height).

Lemma share_accepted_inv ps d c io : 0 <= d -> blocks_inv ps -> blocks_inv (share_accepted ps d c io).
Proof.
  intros Hd Hi. unfold share_accepted. cbv zeta. set (ps1 := ps <! _ ::= _ !> <! _ ::= _ !>).
  assert (blocks_inv ps1) as H1 by by eapply (blocks_inv_same ps).
  assert (blocks_inv (on_store (ps1 <! ps_best_share_difficulty := d !>) (fun db => set_best_share_difficulty db d io)))
    by (apply on_store_inv; [by apply set_best_share_keeps|by eapply (blocks_inv_same ps1)]).
  repeat case_match; try done; by (eapply blocks_inv_same; [..|eassumption]).
Qed.
Lemma worker_share_accepted_inv ps w d now io : 0 <= d -> blocks_inv ps -> blocks_inv (worker_share_accepted ps w d now io).
Proof.
  intros Hd Hi. unfold worker_share_accepted. cbv zeta. set (ps1 := on_worker _ _ _).
  assert (blocks_inv ps1) by by eapply (blocks_inv_same ps).
  case_match; [|by eapply (blocks_inv_same ps1)].
  apply on_store_inv; [by apply set_worker_best_keeps|by eapply (blocks_inv_same ps1)].
Qed.
Lemma raise_best_hashrate_inv ps t io : blocks_inv ps -> blocks_inv (raise_best_hashrate ps t io).
Proof.
  intros Hi. unfold raise_best_hashrate. cbv zeta.
  assert (blocks_inv (on_store (ps <! ps_best_hashrate_hps := t !>) (fun db => set_best_hashrate_hps db t io)))
    by (apply on_store_inv; [apply set_best_hashrate_keeps|by eapply (blocks_inv_same ps)]).
  repeat case_match; try done; by (eapply blocks_inv_same; [..|eassumption]).
Qed.
Lemma update_hashrate_inv ps w a b c d now io : blocks_inv ps -> blocks_inv (update_worker_hashrate ps w a b c d now io).
Proof. intros Hi. apply raise_best_hashrate_inv. by apply (blocks_inv_same ps). Qed.
Lemma prune_inv ps now io : blocks_inv ps -> blocks_inv (prune_idle_workers ps now io).
Proof.
  intros Hi. unfold prune_idle_workers. cbv zeta. set (stale := map fst _). clearbody stale.
  assert (blocks_inv (fold_left evict_worker stale ps)) as H1.
  { revert ps Hi. induction stale as [|w l IH]; intros ps Hi; [done|]. cbn. apply IH. by eapply (blocks_inv_same ps). }
  case_match; [|done]. apply on_store_inv; [apply prune_best_keeps|]. by eapply blocks_inv_same; [..|exact H1].
Qed.
Lemma flush_inv ps now a b : blocks_inv ps -> blocks_inv (flush_share_log ps now a b).
Proof.
  intros Hi. unfold flush_share_log. destruct (ps_store ps) as [db|] eqn:Hs; [|done].
  assert (blocks_inv (ps <! ps_pending_shares := [] !>)) as H1 by by eapply (blocks_inv_same ps).
  destruct (ps_pending_shares ps) as [|s batch]; [done|].
  apply (on_store_inv _ (fun db => (append_shares db (s :: batch) now a b).1)) in H1; [|apply append_keeps].
  eapply blocks_inv_same; [..|exact H1]; try done. cbn. by rewrite Hs.
Qed.
Lemma stats_step_blocks ps x : event_ok x -> blocks_inv ps ->
  blocks_inv (stats_step ps x) /\
  forall h, h ∈ map fb_hash (ps_found_blocks (stats_step ps x)) <-> found_in h x \/ h ∈ map fb_hash (ps_found_blocks ps).
Proof.
  intros Hx Hi.
  assert ((exists i env w hash height, x = SessionEffect i env (StatsBlockFound w hash height)) \/
    blocks_inv (stats_step ps x) /\ ps_found_blocks (stats_step ps x) = ps_found_blocks ps /\ forall h, ~ found_in h x)
    as [(i & env & w & hash & height & ->)|(H1 & H2 & H3)].
  3: { split; [done|]. rewrite H2. intros h. specialize (H3 h). tauto. }
  { destruct x as [i env e|now io|now a b]; cbn in Hx |- *.
    - destruct e; try (left; by repeat eexists); right; (split; [|split; [|by intros h (? & ? & ? & ? & [=])]]);
        cbn [apply_effect]; destruct Hx as [Hn Hx];
        first [ done | by apply share_accepted_inv | by apply worker_share_accepted_inv | by apply update_hashrate_inv
              | unfold share_accepted, worker_share_accepted, update_worker_hashrate, raise_best_hashrate, log_share,
                  stats_take_share_history, update_worker_vardiff, mark_worker_online;
                by repeat case_match
              | eapply (blocks_inv_same ps); [..|exact Hi];
                unfold log_share, stats_take_share_history, update_worker_vardiff, mark_worker_online;
                by repeat case_match ].
    - right. split; [by apply prune_inv|]. split; [|by intros h (? & ? & ? & ? & [=])].
      unfold prune_idle_workers. cbv zeta. set (stale := map fst _). clearbody stale.
      assert (ps_found_blocks (fold_left evict_worker stale ps) = ps_found_blocks ps) as H
        by (clear; revert ps; induction stale as [|w l IH]; intros ps; [done|]; cbn; by rewrite IH).
      case_match; exact H.
    - right. split; [by apply flush_inv|]. split; [|by intros h (? & ? & ? & ? & [=])].
      unfold flush_share_log. by repeat case_match. }
  destruct Hx as [Hn [Hh Hio]]. cbn [stats_step apply_effect].
  destruct (block_found_inv ps w hash height (se_now env) (se_io env)) as [H1 H2]; [done..|]. split; [exact H1|].
  intros h. rewrite H2. split; (intros [H|H]; [left|by right]); [subst; by repeat eexists|].
  by destruct H as (? & ? & ? & ? & [= _ _ _ -> _]).
Qed.
Lemma stats_run_blocks l ps : Forall event_ok l -> blocks_inv ps ->
  blocks_inv (fold_left stats_step l ps) /\
  forall h, h ∈ map fb_hash (ps_found_blocks (fold_left stats_step l ps)) <->
    Exists (found_in h) l \/ h ∈ map fb_hash (ps_found_blocks ps).
Proof.
  intros Hl. revert ps. induction Hl as [|x l Hx Hl IH]; intros ps Hi.
  { split; [done|]. intros h. rewrite Exists_nil. cbn. tauto. }
  cbn [fold_left]. destruct (stats_step_blocks ps x Hx Hi) as [H1 H2]. destruct (IH _ H1) as [H3 H4].
  split; [done|]. intros h. rewrite H4, H2, Exists_cons. tauto.
Qed.

Definition found_hash (x : stats_event) : option string :=
  match x with SessionEffect _ _ (StatsBlockFound _ h _) => Some h | _ => None end.
Lemma found_hash_spec h x : found_in h x <-> found_hash x = Some h.
Proof.
  split; [by intros (? & ? & ? & ? & ->)|].
  destruct x as [i env e| |]; [destruct e|..]; intros [=]; subst; by repeat eexists.
Qed.
Lemma length_omap_le l : (length (omap found_hash l) <= length l)%nat.
Proof. induction l as [|x l IH]; [done|]. cbn. destruct (found_hash x); cbn [length]; lia. Qed.
(** At most one block per event. *)
Lemma stats_run_length l ps : Forall event_ok l -> blocks_inv ps ->
  (length (ps_found_blocks (fold_left stats_step l ps)) <= length l + length (ps_found_blocks ps))%nat.
Proof.
  intros Hl Hi. destruct (stats_run_blocks l ps Hl Hi) as [(Hnd & _) Hin].
  rewrite <- (length_map fb_hash). transitivity (length (omap found_hash l ++ map fb_hash (ps_found_blocks ps))).
  - apply submseteq_length, NoDup_submseteq; [done|]. intros h Hh%Hin. rewrite elem_of_app.
    destruct Hh as [Hh|Hh]; [left|by right]. apply Exists_exists in Hh as (x & Hx & Hf%found_hash_spec).
    apply list_elem_of_omap. by exists x.
  - rewrite length_app, length_map. pose proof (length_omap_le l). lia.
Qed.

(** *** Booting from the database *)

Lemma collect_res_map {E A B} (f : A -> outcome E B) (g : A -> B) l :
  Forall (fun x => f x = Ok (g x)) l -> collect_res f l = Ok (map g l).
Proof. induction 1 as [|x l Hx _ IH]; [done|]. cbn. by rewrite Hx, IH. Qed.
Lemma get_u64_ok ce v : 0 <= v -> get_u64 ce v = Ok v.
Proof. intros H. unfold get_u64. by destruct (Z.ltb_spec v 0); [lia|]. Qed.
Lemma load_block_ok ce b : block_ok b -> load_block ce b = Ok b.
Proof. intros [[Hh _] [Ht _]]. unfold load_block. rewrite !get_u64_ok by done. by destruct b. Qed.
Lemma load_values_ok ce db : columns_ok db ->
  exists loaded, load_values ce db None = Ok loaded /\ ld_found_blocks loaded ≡ₚ db_found_blocks db /\
    ld_round_start_ts loaded = db_round_start_ts db.
Proof.
  intros (H1 & H2 & H3 & H4). unfold load_values. rewrite !get_u64_ok by done. cbn.
  rewrite (collect_res_map _ (@id (prod string Z))).
  2: { rewrite Forall_forall. intros [w d] Hin%elem_of_map_to_list. specialize (H3 w d Hin). cbn in H3 |- *.
       by rewrite get_u64_ok. }
  cbn. rewrite (collect_res_map _ (@id FoundBlock)).
  2: { rewrite (merge_sort_Permutation block_le). eapply Forall_impl; [exact H4|]. intros b Hb. by apply load_block_ok. }
  eexists. split; [reflexivity|]. cbn. rewrite map_id. split; [|done]. apply merge_sort_Permutation.
Qed.
Lemma boot_blocks ce path db io now st :
  path ≠ empty_str -> columns_ok db -> NoDup (map fb_hash (db_found_blocks db)) ->
  Z.of_nat (length (db_found_blocks db)) < 2 ^ 64 -> 0 <= now -> io 1%nat = None ->
  let ps := new_with_store ce (Some (path, Ok db)) io now st in
  blocks_inv ps /\ ps_found_blocks ps ≡ₚ db_found_blocks db.
Proof.
  intros Hpath Hc Hnd Hlen Hnow Hio. cbv zeta. unfold new_with_store. rewrite bool_decide_false by done.
  destruct (prune_best_keeps MAX_WORKER_BEST_SHARES (io 0%nat) db Hc) as [Hc' Hb'].
  set (db1 := prune_worker_best_shares db _ _) in *. clearbody db1. rewrite Hio.
  destruct (load_values_ok ce db1 Hc') as (loaded & -> & Hp & Hstart). rewrite Hb' in Hp.
  assert (forall store err a b, (exists db2, store = Some db2 /\ columns_ok db2 /\ db_found_blocks db2 = db_found_blocks db) ->
    blocks_inv (pool_stats_of loaded store err a b)) as Hinv.
  { intros store err a b (db2 & -> & Hc2 & Hb2). split; [|split; [|split]]; cbn.
    - by rewrite Hp.
    - rewrite Hp. apply Hc.
    - unfold wrap. rewrite Hp. by rewrite Z.mod_small by lia.
    - exists db2. split; [done|]. split; [done|]. by rewrite Hb2, Hp. }
  destruct (_ =? 0); (split; [|exact Hp]); apply Hinv; [|by eauto].
  destruct (set_round_keeps (ld_round_work loaded) now (io 2%nat) Hnow db1 Hc') as [H1 H2].
  eexists. split; [done|]. split; [done|]. by rewrite H2.
Qed.
End blocks.

(** Inserting one hash twice leaves the rows of inserting it once. *)
Lemma double_insert_hashes db worker hash height now work nd work' nd' w ts io io' :
  io = None ->
  let b work nd := {| fb_height := height; fb_hash := hash; fb_worker := worker; fb_ts := now;
                      fb_round_work := work; fb_network_difficulty := nd |} in
  map fb_hash (db_found_blocks
    (set_round (insert_found_block (set_round (insert_found_block db (b work nd) io) w ts io') (b work' nd') io) w ts io')) =
  map fb_hash (insert_or_ignore (db_found_blocks db) (b work nd)).
Proof.
  intros ->. cbv zeta.
  assert (forall db, db_found_blocks (set_round db w ts io') = db_found_blocks db) as Hr by (intros; by destruct io').
  rewrite Hr. cbn. rewrite Hr. cbn. unfold insert_or_ignore. cbn.
  destruct (existsb (fun x => bool_decide (fb_hash x = hash)) (db_found_blocks db)) eqn:He; cbn.
  - by rewrite He.
  - rewrite existsb_app. cbn. rewrite bool_decide_true by done. rewrite orb_true_r. by rewrite !map_app.
Qed.
