(* ===== verification/TemplateStats.v ===== *)
(** What the engine tells the statistics about each new job
    ([TemplateEngine::publish_template_stats], mining/engine.rs): its height,
    reward and transactions, and the network difficulty of its [bits]
    ([bits_to_difficulty], bitcoin/template.rs). *)
From S2P Require Export Stats.
From Stdlib Require Import Strings.Ascii.

(** [f64::powf], whose precision the standard library leaves unspecified. *)
Class PowLib := powf : f64 -> f64 -> f64.
(** A concrete one, exact for a whole power of two. *)
#[export] Instance ref_powf : PowLib := fun _ y =>
  match y with
  | S754_finite s m e => f64_lit 1 (if s then - Z.shiftl (Zpos m) e else Z.shiftl (Zpos m) e)
  | _ => f64_one
  end.

Section publish.
Context {HW : PowLib}.
Definition bits_to_difficulty (bits_hex : string) : outcome PoolError f64 :=
  bits ← ok_or (Other ("Invalid bits: " ++ bits_hex)%string) (from_str_radix16 32 bits_hex);
  let exponent := Z.land (Z.shiftr bits 24) 0xff in
  let mantissa := Z.land bits 0x007fffff in
  if mantissa =? 0 then Err (Other "Invalid bits mantissa = 0")
  else
    let diff1_const := f64_of_Z 0x00ffff in
    let exponent_factor := f64_sub (f64_of_Z 232) (f64_mul (f64_of_Z 8) (f64_of_Z exponent)) in
    Ok (f64_mul (f64_div diff1_const (f64_of_Z mantissa)) (powf (f64_of_Z 2) exponent_factor)).
Definition publish_template_stats (ps : PoolStats) (job : StratumJob) : PoolStats :=
  let ps := update_height ps (height job) (coinbase_value job) (Z.of_nat (length (transactions job))) in
  match bits_to_difficulty (bits job) with Ok net_diff => set_network_difficulty ps net_diff | _ => ps end.
End publish.

Example bits_to_difficulty_ex :
  bits_to_difficulty "1d00ffff" = Ok f64_one /\ bits_to_difficulty "1b00ffff" = Ok (f64_of_Z 65536) /\
  bits_to_difficulty "1d000000" = Err (Other "Invalid bits mantissa = 0").
Proof. repeat split; vm_compute; reflexivity. Qed.
Lemma publish_states `{PowLib} ps job : ps_worker_states (publish_template_stats ps job) = ps_worker_states ps.
Proof. unfold publish_template_stats. cbv zeta. by destruct (bits_to_difficulty _). Qed.
