(* ===== verification/StatsFile.v ===== *)
(** The statistics database as a file, and its opening ([StatsStore::open],
    stats.rs): the tables that may or may not be there yet, the two columns
    older files lack, and the statements that bring a file up to date one by
    one, each of which can fail. *)
From S2P Require Export Stats.
From Stdlib Require Import Strings.Ascii.

(** ** The file *)

(** The table [pool_stats]: its row, and which of the later columns it has. A
    column that is not there has no value. *)
Record PoolRow := { pr_best_share_difficulty : Z; pr_best_hashrate_hps : f64; pr_round_work : f64; pr_round_start_ts : Z }.
Record PoolTable := { pt_row : option PoolRow; pt_round_work : bool; pt_round_start_ts : bool }.
Record StatsFile := {
  sf_pool_stats : option PoolTable;
  sf_worker_best_shares : option (gmap string Z);
  sf_found_blocks : option (list FoundBlock);
  sf_hashrate_history : option (gmap Z f64);
  sf_settings : option (gmap string string);
  sf_share_log : option (list LoggedShare);
  sf_share_log_index : bool;
}.
#[export] Instance PoolRow_id : FieldwiseId PoolRow := fun r => {|
  pr_best_share_difficulty := pr_best_share_difficulty r; pr_best_hashrate_hps := pr_best_hashrate_hps r;
  pr_round_work := pr_round_work r; pr_round_start_ts := pr_round_start_ts r |}.
#[export] Instance PoolTable_id : FieldwiseId PoolTable := fun t => {|
  pt_row := pt_row t; pt_round_work := pt_round_work t; pt_round_start_ts := pt_round_start_ts t |}.
#[export] Instance StatsFile_id : FieldwiseId StatsFile := fun f => {|
  sf_pool_stats := sf_pool_stats f; sf_worker_best_shares := sf_worker_best_shares f; sf_found_blocks := sf_found_blocks f;
  sf_hashrate_history := sf_hashrate_history f; sf_settings := sf_settings f; sf_share_log := sf_share_log f;
  sf_share_log_index := sf_share_log_index f |}.
Definition new_file : StatsFile := {|
  sf_pool_stats := None; sf_worker_best_shares := None; sf_found_blocks := None; sf_hashrate_history := None;
  sf_settings := None; sf_share_log := None; sf_share_log_index := false |}.

(** ** The statements of [open], in their order *)

Inductive ddl :=
| CreatePoolStats | InsertPoolRow | AddRoundWork | AddRoundStart | CreateWorkerBestShares | CreateFoundBlocks
| CreateHashrateHistory | CreateSettings | CreateShareLog | CreateShareLogIndex.
Definition open_statements : list ddl :=
  [CreatePoolStats; InsertPoolRow; AddRoundWork; AddRoundStart; CreateWorkerBestShares; CreateFoundBlocks;
   CreateHashrateHistory; CreateSettings; CreateShareLog; CreateShareLogIndex].

(** Crate [rusqlite]: the message of SQLite's refusal to add a column that a
    table has. *)
Class SqliteLib := duplicate_column : string -> string.
Class SqliteLaws `{SqliteLib} : Prop :=
  duplicate_column_text name : str_contains "duplicate column" (duplicate_column name) = true.
#[export] Instance ref_sqlite : SqliteLib := fun name => "duplicate column name: " +:+ name.

Section open.
Context {HQ : SqliteLib}.
Definition if_absent {A} (empty : A) (table : option A) : option A := Some (default empty table).
(** What a statement does to the file when SQLite runs it. *)
Definition run_ddl (f : StatsFile) (d : ddl) : outcome string StatsFile :=
  match d with
  | CreatePoolStats =>
      Ok (f <! sf_pool_stats ::= if_absent {| pt_row := None; pt_round_work := false; pt_round_start_ts := false |} !>)
  | InsertPoolRow =>
      let row := {| pr_best_share_difficulty := 0; pr_best_hashrate_hps := f64_zero; pr_round_work := f64_zero;
                    pr_round_start_ts := 0 |} in
      Ok (f <! sf_pool_stats ::= fmap (fun t => t <! pt_row ::= if_absent row !>) !>)
  | AddRoundWork =>
      match sf_pool_stats f with
      | Some t =>
          if pt_round_work t then Err (duplicate_column "round_work")
          else Ok (f <! sf_pool_stats := Some (t <! pt_round_work := true !>
                 <! pt_row ::= fmap (fun r => r <! pr_round_work := f64_zero !>) !>) !>)
      | None => Err "no such table: pool_stats"
      end
  | AddRoundStart =>
      match sf_pool_stats f with
      | Some t =>
          if pt_round_start_ts t then Err (duplicate_column "round_start_ts")
          else Ok (f <! sf_pool_stats := Some (t <! pt_round_start_ts := true !>
                 <! pt_row ::= fmap (fun r => r <! pr_round_start_ts := 0 !>) !>) !>)
      | None => Err "no such table: pool_stats"
      end
  | CreateWorkerBestShares => Ok (f <! sf_worker_best_shares ::= if_absent ∅ !>)
  | CreateFoundBlocks => Ok (f <! sf_found_blocks ::= if_absent [] !>)
  | CreateHashrateHistory => Ok (f <! sf_hashrate_history ::= if_absent ∅ !>)
  | CreateSettings => Ok (f <! sf_settings ::= if_absent ∅ !>)
  | CreateShareLog => Ok (f <! sf_share_log ::= if_absent [] !>)
  | CreateShareLogIndex =>
      match sf_share_log f with
      | Some _ => Ok (f <! sf_share_log_index := true !>)
      | None => Err "no such table: main.share_log"
      end
  end.
(** An error of adding a column is let pass when it says that the column is
    there. *)
Definition tolerated (d : ddl) (e : string) : bool :=
  match d with AddRoundWork | AddRoundStart => str_contains "duplicate column" e | _ => false end.
(** [io k] is the failure of the [k]-th call, the statements counted after
    [Connection::open] and [busy_timeout]; a failed statement leaves the file
    as it was. *)
Fixpoint run_statements (io : nat -> option string) (k : nat) (l : list ddl) (f : StatsFile)
    : StatsFile * outcome string unit :=
  match l with
  | [] => (f, Ok tt)
  | d :: l =>
      match match io k with Some e => Err e | None => run_ddl f d end with
      | Ok f => run_statements io (S k) l f
      | Err e => if tolerated d e then run_statements io (S k) l f else (f, Err e)
      | Panic => (f, Panic)
      end
  end.
(** The rows of a file, and what the open connection reads: the same, once
    every table is there. *)
Definition rows_of (f : StatsFile) : StatsStore :=
  let row := sf_pool_stats f ≫= pt_row in
  let has (col : PoolTable -> bool) := default false (col <$> sf_pool_stats f) in {|
  db_best_share_difficulty := default 0 (pr_best_share_difficulty <$> row);
  db_best_hashrate_hps := default f64_zero (pr_best_hashrate_hps <$> row);
  db_round_work := if has pt_round_work then default f64_zero (pr_round_work <$> row) else f64_zero;
  db_round_start_ts := if has pt_round_start_ts then default 0 (pr_round_start_ts <$> row) else 0;
  db_worker_best_shares := default ∅ (sf_worker_best_shares f);
  db_found_blocks := default [] (sf_found_blocks f);
  db_hashrate_history := default ∅ (sf_hashrate_history f);
  db_settings := default ∅ (sf_settings f);
  db_share_log := default [] (sf_share_log f);
  db_write_error := None |}.
(** [open] up to the row cap, which [new_with_store] applies. *)
Definition open_file (f : StatsFile) (io : nat -> option string) : StatsFile * outcome string StatsStore :=
  match io 0%nat, io 1%nat with
  | Some e, _ | None, Some e => (f, Err e)
  | None, None =>
      let '(f, r) := run_statements io 2 open_statements f in
      (f, match r with Ok _ => Ok (rows_of f) | Err e => Err e | Panic => Panic end)
  end.
End open.

(** The file a process leaves behind. *)
Definition file_of (db : StatsStore) : StatsFile := {|
  sf_pool_stats := Some {| pt_row := Some {| pr_best_share_difficulty := db_best_share_difficulty db;
      pr_best_hashrate_hps := db_best_hashrate_hps db; pr_round_work := db_round_work db;
      pr_round_start_ts := db_round_start_ts db |}; pt_round_work := true; pt_round_start_ts := true |};
  sf_worker_best_shares := Some (db_worker_best_shares db); sf_found_blocks := Some (db_found_blocks db);
  sf_hashrate_history := Some (db_hashrate_history db); sf_settings := Some (db_settings db);
  sf_share_log := Some (db_share_log db); sf_share_log_index := true |}.

(** ** What opening does *)

#[export] Instance ref_sqlite_laws : SqliteLaws.
Proof. intros name. apply bool_decide_eq_true. unfold split_once, duplicate_column, ref_sqlite. rewrite to_list_app. by eexists. Qed.

Section facts.
Context `{HQ : SqliteLib} {HQL : SqliteLaws}.

Lemma run_ddl_rows f d f' : run_ddl f d = Ok f' -> rows_of f' = rows_of f.
Proof.
  destruct f as [[[row [] []]|] w b h s [l|] i], d; cbn; intros H; try discriminate H; injection H as <-; try done; by destruct row.
Qed.
Lemma run_statements_rows io l k f f' r : run_statements io k l f = (f', r) -> rows_of f' = rows_of f.
Proof.
  revert k f; induction l as [|d l IH]; intros k f; cbn [run_statements]; [by intros [= <- _]|].
  destruct (io k) as [e|]; [destruct (tolerated d e); [apply IH|by intros [= <- _]]|].
  destruct (run_ddl f d) as [f1|e|] eqn:E; [|destruct (tolerated d e); [apply IH|]; by intros [= <- _]|by intros [= <- _]].
  intros H%IH. rewrite H. by eapply run_ddl_rows.
Qed.
(** Without failures the file ends up complete, whatever it had. *)
Definition migrated (f : StatsFile) : StatsFile := file_of (rows_of f).
Lemma run_statements_ok f :
  run_statements (fun _ => None) 2 open_statements f = (migrated f, Ok tt).
Proof.
  pose proof (duplicate_column_text "round_work") as H1. pose proof (duplicate_column_text "round_start_ts") as H2.
  destruct f as [[[[[best hps work start]|] [] []]|] w b h s l i]; cbn [open_statements run_statements run_ddl tolerated];
    cbn; rewrite ?H1, ?H2; cbn; rewrite ?H2; reflexivity.
Qed.
Lemma run_statements_no_io io l k f :
  (forall j, io j = None) -> run_statements io k l f = run_statements (fun _ => None) k l f.
Proof.
  intros Hio. revert k f; induction l as [|d l IH]; intros k f; cbn [run_statements]; [done|]. rewrite Hio.
  destruct (run_ddl f d) as [f1|e|]; [apply IH|destruct (tolerated d e); [apply IH|done]|done].
Qed.
Lemma rows_of_file_of db : rows_of (file_of db) = db <! db_write_error := None !>.
Proof. by destruct db. Qed.
Lemma open_file_ok f io : (forall k, io k = None) -> open_file f io = (migrated f, Ok (rows_of f)).
Proof.
  intros Hio. unfold open_file. rewrite !Hio, run_statements_no_io by done. rewrite run_statements_ok.
  unfold migrated. by rewrite rows_of_file_of.
Qed.
Lemma open_file_rows f io f' r : open_file f io = (f', r) -> rows_of f' = rows_of f /\ forall db, r = Ok db -> db = rows_of f.
Proof.
  unfold open_file. destruct (io 0%nat); [by intros [= <- <-]|]. destruct (io 1%nat); [by intros [= <- <-]|].
  destruct (run_statements io 2 open_statements f) as [f1 r1] eqn:E. apply run_statements_rows in E.
  intros [= <- <-]. split; [done|]. intros db. destruct r1; [|done..]. by intros [= <-].
Qed.
Lemma reopen_file_of db io : (forall k, io k = None) -> (open_file (file_of db) io).2 = Ok (db <! db_write_error := None !>).
Proof. intros Hio. by rewrite open_file_ok, rows_of_file_of. Qed.
End facts.
