(* ===== verification/Metrics.v ===== *)
(** The metrics (metrics/mod.rs): one definition per helper, as the list of
    calls it makes to the metrics facade, and which helper each event of the
    pool goes through. The recorder and the exporter behind the facade are
    third-party code; the exporter drops a series nobody touched for
    [METRIC_IDLE_TIMEOUT_SECS], a day. *)
From S2P Require Export Server Stats.
From Stdlib Require Import Strings.Ascii.

(** A call names a series by its metric and labels. *)
Definition Series : Type := string * list (string * string).
Inductive MetricOp :=
| CounterIncrement (n : Z)
| GaugeIncrement (x : f64)
| GaugeDecrement (x : f64)
| GaugeSet (x : f64)
| HistogramRecord (x : f64).
Definition MetricCall : Type := Series * MetricOp.
Definition counter (name : string) (labels : list (string * string)) (n : Z) : MetricCall :=
  ((name, labels), CounterIncrement n).
Definition gauge (name : string) (labels : list (string * string)) (op : MetricOp) : MetricCall := ((name, labels), op).
Definition histogram (name : string) (labels : list (string * string)) (x : f64) : MetricCall :=
  ((name, labels), HistogramRecord x).

(** ** The helpers *)

Definition metric_connection_refused (reason : string) : list MetricCall :=
  [counter "pool_connections_refused_total" [("reason", reason)] 1].
Definition metric_ban (reason : string) : list MetricCall := [counter "pool_bans_total" [("reason", reason)] 1].
Definition metric_miner_connected : list MetricCall := [gauge "pool_connected_miners" [] (GaugeIncrement f64_one)].
Definition metric_miner_disconnected : list MetricCall := [gauge "pool_connected_miners" [] (GaugeDecrement f64_one)].
Definition metric_share_accepted (difficulty : Z) (worker : string) : list MetricCall :=
  [counter "pool_shares_accepted_total" [("worker", worker)] 1;
   counter "pool_share_work_total" [("worker", worker)] difficulty;
   histogram "pool_share_difficulty" [("worker", worker)] (f64_of_Z difficulty)].
Definition metric_share_rejected (reason worker : string) : list MetricCall :=
  [counter "pool_shares_rejected_total" [("reason", reason); ("worker", worker)] 1;
   counter "pool_worker_shares_rejected_total" [("worker", worker)] 1].
Definition metric_share_validation_time (elapsed : Z) : list MetricCall :=
  [histogram "pool_share_validation_duration_ms" [] (f64_mul (as_secs_f64 elapsed) (f64_of_Z 1000));
   histogram "pool_share_validation_duration_seconds" [] (as_secs_f64 elapsed)].
Definition metric_session_closed (worker : option string) (shares_submitted elapsed : Z) : list MetricCall :=
  match worker with
  | None => [counter "pool_connections_closed_total" [("reason", "no_auth")] 1]
  | Some worker =>
      histogram "pool_connection_duration_secs" [("worker", worker)] (as_secs_f64 elapsed) ::
      (if shares_submitted =? 0 then [counter "pool_connections_closed_total" [("reason", "no_shares")] 1]
       else [counter "pool_connections_closed_total" [("reason", "shares")] 1;
             histogram "pool_connection_duration_seconds" [("worker", worker)] (as_secs_f64 elapsed)])
  end.
Definition metric_miner_disconnect (reason worker : string) : list MetricCall :=
  [counter "pool_miner_disconnects_total" [("reason", reason); ("worker", worker)] 1].
Definition metric_block_submission_success : list MetricCall := [counter "pool_block_submissions_success_total" [] 1].
Definition metric_block_submission_failure (reason : string) : list MetricCall :=
  [counter "pool_block_submissions_failed_total" [("reason", reason)] 1].
Definition metric_job_broadcast (miners_count : Z) : list MetricCall :=
  [gauge "pool_job_broadcast_miners" [] (GaugeSet (f64_of_Z miners_count));
   counter "pool_job_broadcasts_total" [] 1].
Definition metric_zmq_reconnect : list MetricCall := [counter "pool_zmq_reconnects_total" [] 1].
Definition metric_rpc_fallback_used : list MetricCall := [counter "pool_rpc_fallback_used_total" [] 1].
Definition metric_vardiff_retarget (worker : string) (old_diff new_diff : Z) : list MetricCall :=
  let ratio := f64_div (f64_of_Z new_diff) (f64_of_Z old_diff) in
  let direction := if old_diff <? new_diff then "up" else "down" in
  [gauge "pool_worker_difficulty" [("worker", worker)] (GaugeSet (f64_of_Z new_diff));
   histogram "pool_vardiff_change_ratio" [] ratio;
   histogram "pool_vardiff_retarget_ratio" [] ratio;
   counter "pool_vardiff_retargets_total" [("worker", worker); ("direction", direction)] 1].
Definition metric_block_found : list MetricCall := [counter "pool_blocks_found_total" [] 1].
Definition metric_update_hashrate (hps : f64) (worker : string) : list MetricCall :=
  [gauge "pool_hashrate_estimated_hps" [("worker", worker)] (GaugeSet hps)].
Definition metric_update_job_height (height : Z) : list MetricCall :=
  [gauge "pool_job_height" [] (GaugeSet (f64_of_Z height))].
Definition keep_pool_series_alive : list MetricCall :=
  map (fun name => counter name [] 0)
    ["pool_blocks_found_total"; "pool_block_submissions_success_total"; "pool_job_broadcasts_total";
     "pool_zmq_reconnects_total"; "pool_rpc_fallback_used_total"] ++
  map (fun reason => counter "pool_connections_refused_total" [("reason", reason)] 0)
    ["capacity"; "banned"; "rate_limit"] ++
  [counter "pool_bans_total" [("reason", "message too large")] 0] ++
  map (fun reason => counter "pool_connections_closed_total" [("reason", reason)] 0) ["no_auth"; "no_shares"; "shares"] ++
  map (fun reason => counter "pool_block_submissions_failed_total" [("reason", reason)] 0)
    ["rpc_error"; "rejected"; "template_unavailable"; "io"; "other"] ++
  map (fun name => gauge name [] (GaugeIncrement f64_zero))
    ["pool_connected_miners"; "pool_job_height"; "pool_job_broadcast_miners"].
Definition metric_worker_liveness (worker : string) (online : bool) (last_share_ts : Z) : list MetricCall :=
  gauge "pool_worker_online" [("worker", worker)] (GaugeSet (if online then f64_one else f64_zero)) ::
  (if 0 <? last_share_ts
   then [gauge "pool_worker_last_share_timestamp_seconds" [("worker", worker)] (GaugeSet (f64_of_Z last_share_ts))]
   else []).
Definition metric_stats_store_ok (ok : bool) : list MetricCall :=
  [gauge "pool_stats_store_ok" [] (GaugeSet (if ok then f64_one else f64_zero))].

(** ** Who calls them *)

Definition refusal_reason (r : refusal) : string :=
  match r with Capacity => "capacity" | BannedIp => "banned" | RateLimit => "rate_limit" end.
(** The events of the pool that report a metric: a session's effect, the time
    a validation took, a refused connection, an effect of a refresh (with the
    number of sessions its broadcast reached), a retried block that the node
    took, the listener of block notifications, and the poll beside it. *)
Inductive pool_event :=
| OfSession (e : session_effect)
| OfValidation (elapsed : Z)
| OfRefusal (r : refusal)
| OfEngine (e : engine_effect) (receivers : Z)
| OfRetrier (e : submit_effect)
| OfZmqReconnect
| OfPollFallback.
Definition session_metrics (e : session_effect) : list MetricCall :=
  match e with
  | MetricShareRejected reason worker => metric_share_rejected reason worker
  | MetricShareAccepted credited worker => metric_share_accepted credited worker
  | MetricBlockFound => metric_block_found
  | MetricBlockSubmissionSuccess => metric_block_submission_success
  | MetricBlockSubmissionFailure label => metric_block_submission_failure label
  | MetricVardiffRetarget worker old new => metric_vardiff_retarget worker old new
  | MetricMinerDisconnect reason worker => metric_miner_disconnect reason worker
  | UpdateWorkerHashrate worker _ h10m _ _ => metric_update_hashrate h10m worker
  | BanPeer reason => metric_ban reason
  | MinerConnected => metric_miner_connected
  | MinerDisconnected => metric_miner_disconnected
  | SessionClosed worker shares uptime => metric_session_closed worker shares uptime
  | _ => []
  end.
Definition metric_calls (e : pool_event) : list MetricCall :=
  match e with
  | OfSession e => session_metrics e
  | OfValidation elapsed => metric_share_validation_time elapsed
  | OfRefusal r => metric_connection_refused (refusal_reason r)
  | OfEngine (PublishTemplateStats height _ _) _ => metric_update_job_height height
  | OfEngine (Broadcast _) receivers => metric_job_broadcast receivers
  | OfRetrier (CreditBlock _ _ _) => metric_block_found ++ metric_block_submission_success
  | OfRetrier _ => []
  | OfZmqReconnect => metric_zmq_reconnect
  | OfPollFallback => metric_rpc_fallback_used
  end.

(** ** The exporter *)

(** The builder of the exporter and what installing it gives. *)
Class ExporterLib := {
  Builder : Type;
  PrometheusHandle : Type;
  builder_new : Builder;
  idle_timeout : Z -> Builder -> Builder;   (** on metrics of every kind *)
  set_buckets_for_metric : string -> list f64 -> Builder -> outcome string Builder;
  install_recorder : Builder -> outcome string PrometheusHandle;
}.
Definition METRIC_IDLE_TIMEOUT_SECS : Z := 86400.
(** [decimal n k] is [n / 10^k]: division is rounded to nearest, as a literal
    is. *)
Definition decimal (n k : Z) : f64 := f64_div (f64_of_Z n) (f64_of_Z (10 ^ k)).
Definition VALIDATION_SECONDS_BUCKETS : list f64 :=
  [decimal 1 5; decimal 25 6; decimal 5 5; decimal 1 4; decimal 25 5; decimal 5 4; decimal 1 3; decimal 25 4; decimal 5 3;
   decimal 1 2].
Definition CONNECTION_SECONDS_BUCKETS : list f64 := map f64_of_Z [1; 10; 60; 300; 1800; 3600; 21600; 86400; 604800].
Definition RETARGET_RATIO_BUCKETS : list f64 :=
  [decimal 25 2; decimal 33 2; decimal 5 1; decimal 67 2; decimal 8 1; f64_one; decimal 125 2; decimal 15 1; f64_of_Z 2; f64_of_Z 3;
   f64_of_Z 4].
Section exporter.
Context `{ExporterLib}.
Definition builder : outcome string Builder :=
  b ← set_buckets_for_metric "pool_share_validation_duration_seconds" VALIDATION_SECONDS_BUCKETS
        (idle_timeout (from_secs METRIC_IDLE_TIMEOUT_SECS) builder_new);
  b ← set_buckets_for_metric "pool_connection_duration_seconds" CONNECTION_SECONDS_BUCKETS b;
  set_buckets_for_metric "pool_vardiff_retarget_ratio" RETARGET_RATIO_BUCKETS b.
Definition init (addr : string) : option PrometheusHandle :=
  if bool_decide (addr = empty_str) then None
  else match (b ← builder; install_recorder b) with Ok handle => Some handle | _ => None end.
End exporter.
