(* ===== verification/Dashboard.v ===== *)
(** The dashboard (network/dashboard.rs): its state, the guard on the requests
    that change something, the two routes behind it, what the read-only routes
    report, and the points of the hashrate chart. The page itself, routing and
    the rendering of JSON are the HTTP framework's. *)
From S2P Require Export NetText Stats.
From Stdlib Require Import Strings.Ascii.

(** Crate [http]: a request's headers by lower-case name, and [to_str], which
    fails on a value that is not visible ASCII. *)
Class HttpLib := {
  HeaderMap : Type;
  HeaderValue : Type;
  header_get : HeaderMap -> string -> option HeaderValue;
  header_to_str : HeaderValue -> option string;
}.

(** ** Names of hosts *)

Definition LOCAL_SUFFIXES : list string :=
  [".localhost"; ".local"; ".lan"; ".home"; ".home.arpa"; ".internal"; ".intranet"; ".private"].

(** [s.split(p).next()]: what precedes the first [p], or everything. *)
Definition before_first (p s : string) : string :=
  match split_once p s with Some (a, _) => a | None => s end.
Definition trim_end_dots (l : list ascii) : list ascii := rev (drop_while (fun c => bool_decide (c = dot)) (rev l)).
Definition is_ascii_digit (c : ascii) : bool := (48 <=? ord c) && (ord c <=? 57).
Definition bracket : string := of_list [chr 91].
Definition close_bracket : string := of_list [chr 93].

Definition host_part (authority : string) : string :=
  match str_strip_prefix bracket authority with
  | Some rest => before_first close_bracket rest
  | None =>
      match rsplit_once ":" authority with
      | Some (h, port) =>
          if negb (str_contains ":" h) && forallb is_ascii_digit (to_list port) then h else authority
      | None => authority
      end
  end.
Definition authority_host (authority : string) : option string :=
  let host := to_ascii_lowercase (of_list (trim_end_dots (to_list (host_part (trim authority))))) in
  if bool_decide (host = empty_str) then None else Some host.
Definition is_local_host (host : string) : bool :=
  bool_decide (is_Some (parse_ip host)) || bool_decide (host = "localhost") || negb (str_contains "." host)
    || existsb (fun suf => ends_with suf host) LOCAL_SUFFIXES.
Definition eq_ignore_ascii_case (a b : string) : bool :=
  bool_decide (to_ascii_lowercase a = to_ascii_lowercase b).

Example authority_host_ex :
  authority_host "192.168.1.5:9090" = Some "192.168.1.5" /\ authority_host "[::1]:9090" = Some "::1"
  /\ authority_host "[fe80::1]" = Some "fe80::1" /\ authority_host "::1" = Some "::1"
  /\ authority_host "Umbrel.Local:9090" = Some "umbrel.local" /\ authority_host "pool.lan." = Some "pool.lan"
  /\ authority_host empty_str = None /\ authority_host ":9090" = None.
Proof. vm_compute. repeat split. Qed.

(** ** The guard on requests that change something *)

Inductive OriginError :=
| MissingHost | EmptyHost | HostNotLocal (host : string) | UnreadableOrigin | CrossOrigin (origin host : string).
Section guard.
Context {HH : HttpLib}.
(** What an [Origin] says the request came from. *)
Definition origin_authority (origin : string) : string :=
  match split_once "://" origin with Some (_, rest) => before_first "/" rest | None => empty_str end.
Definition check_origin (host_hdr : string) (origin : option HeaderValue) : outcome OriginError unit :=
  match origin with
  | None => Ok tt
  | Some v =>
      origin ← ok_or UnreadableOrigin (header_to_str v);
      if bool_decide (origin = "null") || negb (eq_ignore_ascii_case (origin_authority origin) (trim host_hdr))
      then Err (CrossOrigin origin (trim host_hdr))
      else Ok tt
  end.
Definition check_mutation_origin (headers : HeaderMap) (allowed_hosts : list string) : outcome OriginError unit :=
  host_hdr ← ok_or MissingHost (header_get headers "host" ≫= header_to_str);
  host ← ok_or EmptyHost (authority_host host_hdr);
  if negb (is_local_host host) && negb (bool_decide (host ∈ allowed_hosts)) then Err (HostNotLocal host)
  else check_origin host_hdr (header_get headers "origin").
End guard.

(** ** State and start-up *)

Record DashState := {
  ds_allow_settings : bool;
  ds_stratum_port : Z;
  ds_sv2_enabled : bool;
  ds_sv2_authority_pubkey : option string;
  ds_allowed_hosts : list string;
}.
(** [start] up to binding the socket: no dashboard without an address it can
    parse. *)
Definition stratum_port_of (stratum_listen_addr : string) : Z :=
  let port := match rsplit_once ":" stratum_listen_addr with Some (_, p) => p | None => stratum_listen_addr end in
  default 0 (parse_uint 16 port).
Definition dash_start (addr : string) (allow_settings : bool) (stratum_listen_addr : string) (sv2_enabled : bool)
    (sv2_authority_pubkey : option string) (allowed_hosts : list string) : option (IpAddr * Z * DashState) :=
  if bool_decide (addr = empty_str) then None
  else
    socket_addr ← parse_socket_addr addr;
    Some (socket_addr,
      {| ds_allow_settings := allow_settings; ds_stratum_port := stratum_port_of stratum_listen_addr;
         ds_sv2_enabled := sv2_enabled; ds_sv2_authority_pubkey := sv2_authority_pubkey;
         ds_allowed_hosts := omap authority_host allowed_hosts |}).

(** What the routes share with the rest of the process. *)
Record Shared := {
  sh_stats : PoolStats;
  sh_settings : RuntimeSettings;
  sh_engine : TemplateEngine;
  sh_ids : JobIds;
}.

(** ** The routes that change something *)

Inductive Forbidding := SettingsDisabled | Refused (e : OriginError).
Inductive Response :=
| Forbidden (why : Forbidding)
| Unprocessable (e : AddressError)
| BestHashrateReset
| SettingsSaved (persisted : bool).

Section routes.
Context {HL : HexLib} {HS : Sha256Lib} {HB : BitcoinLib} {HH : HttpLib}.

(** What a refresh reads: the configuration, the node's answer, the clock. *)
Record RefreshInputs := {
  fr_pool_cfg : PoolConfig; fr_gbt : outcome PoolError GbtResult; fr_now1 : Z; fr_now2 : Z;
}.
(** The guard both routes begin with. *)
Definition guard_mutation (st : DashState) (headers : HeaderMap) : outcome Forbidding unit :=
  if negb (ds_allow_settings st) then Err SettingsDisabled
  else
    match check_mutation_origin headers (ds_allowed_hosts st) with
    | Ok _ => Ok tt
    | Err e => Err (Refused e)
    | Panic => Panic
    end.
Definition reset_best_hashrate_post (st : DashState) (headers : HeaderMap) (io : option string) (sh : Shared)
    : outcome PoolError (Shared * list engine_effect * Response) :=
  match guard_mutation st headers with
  | Err why => Ok (sh, [], Forbidden why)
  | Panic => Panic
  | Ok _ =>
      Ok ({| sh_stats := reset_best_hashrate (sh_stats sh) io; sh_settings := sh_settings sh;
             sh_engine := sh_engine sh; sh_ids := sh_ids sh |}, [], BestHashrateReset)
  end.
(** [force_refresh]. *)
Definition force_refresh (x : RefreshInputs) (sh : Shared) : outcome PoolError (Shared * list engine_effect) :=
  '(ids, e, effs) ← refresh (sh_settings sh) (fr_pool_cfg x) (sh_ids sh) (fr_gbt x) (fr_now1 x) (fr_now2 x)
    (sh_engine sh) true;
  Ok ({| sh_stats := sh_stats sh; sh_settings := sh_settings sh; sh_engine := e; sh_ids := ids |}, effs).
(** What [settings_post] changes before it refreshes the template. *)
Definition change_address (coinbase_address : string) (io : option string) (settings : RuntimeSettings) (stats : PoolStats)
    : RuntimeSettings * PoolStats * outcome AddressError bool :=
  let address := trim coinbase_address in
  match update settings address with
  | (settings, Ok _) =>
      let '(stats, persisted) := save_setting stats "coinbase_address" address io in
      (settings, stats, Ok persisted)
  | (_, Err e) => (settings, stats, Err e)
  | (_, Panic) => (settings, stats, Panic)
  end.
Definition settings_post (st : DashState) (headers : HeaderMap) (coinbase_address : string) (io : option string)
    (x : RefreshInputs) (sh : Shared) : outcome PoolError (Shared * list engine_effect * Response) :=
  match guard_mutation st headers with
  | Err why => Ok (sh, [], Forbidden why)
  | Panic => Panic
  | Ok _ =>
      match change_address coinbase_address io (sh_settings sh) (sh_stats sh) with
      | (_, _, Err e) => Ok (sh, [], Unprocessable e)
      | (_, _, Panic) => Panic
      | (settings, stats, Ok persisted) =>
          '(sh, effs) ← force_refresh x
            {| sh_stats := stats; sh_settings := settings; sh_engine := sh_engine sh; sh_ids := sh_ids sh |};
          Ok (sh, effs, SettingsSaved persisted)
      end
  end.
Inductive mutation := ResetBestHashrate | ChangeAddress (coinbase_address : string) (x : RefreshInputs).
Definition post (st : DashState) (headers : HeaderMap) (io : option string) (m : mutation) (sh : Shared)
    : outcome PoolError (Shared * list engine_effect * Response) :=
  match m with
  | ResetBestHashrate => reset_best_hashrate_post st headers io sh
  | ChangeAddress a x => settings_post st headers a io x sh
  end.
End routes.

(** ** The read-only routes *)

#[export] Instance StatsSnapshot_id : FieldwiseId StatsSnapshot := fun r => {|
  ss_shares_accepted := ss_shares_accepted r; ss_shares_rejected := ss_shares_rejected r;
  ss_blocks_found := ss_blocks_found r; ss_connected_miners := ss_connected_miners r;
  ss_current_height := ss_current_height r; ss_current_coinbase_value := ss_current_coinbase_value r;
  ss_current_block_transaction_count := ss_current_block_transaction_count r;
  ss_template_version := ss_template_version r; ss_best_share_difficulty := ss_best_share_difficulty r;
  ss_session_best_share_difficulty := ss_session_best_share_difficulty r;
  ss_best_hashrate_hps := ss_best_hashrate_hps r; ss_total_hashrate_60s := ss_total_hashrate_60s r;
  ss_total_hashrate_10m := ss_total_hashrate_10m r; ss_total_hashrate_3h := ss_total_hashrate_3h r;
  ss_total_hashrate_24h := ss_total_hashrate_24h r; ss_network_hashrate_hps := ss_network_hashrate_hps r;
  ss_network_difficulty := ss_network_difficulty r; ss_est_difficulty_change_pct := ss_est_difficulty_change_pct r;
  ss_worker_hashrates := ss_worker_hashrates r; ss_worker_states := ss_worker_states r;
  ss_uptime_secs := ss_uptime_secs r; ss_session_best_hashrate_hps := ss_session_best_hashrate_hps r;
  ss_last_block_worker := ss_last_block_worker r; ss_last_block_hash := ss_last_block_hash r;
  ss_last_block_ts := ss_last_block_ts r; ss_round_work := ss_round_work r;
  ss_round_start_ts := ss_round_start_ts r; ss_found_blocks := ss_found_blocks r;
  ss_template_age_secs := ss_template_age_secs r; ss_template_error := ss_template_error r;
  ss_stats_store_error := ss_stats_store_error r |}.
(** [stats_json]; [now] and [inow] are the clocks of the snapshot, [tnow] the
    reading of [template_health]. *)
Definition stats_json `{DashIter} (sh : Shared) (now inow tnow : Z) : StatsSnapshot :=
  let snap := snapshot (sh_stats sh) now inow in
  let snap := match current_job (sh_engine sh) with
              | Some job => snap <! ss_template_version := version job !>
              | None => snap
              end in
  let health := template_health (sh_engine sh) tnow in
  snap <! ss_template_age_secs := age_secs health !> <! ss_template_error := health_error health !>.

Record InfoView := {
  iv_version : string; iv_stratum_port : Z; iv_sv2_enabled : bool; iv_sv2_authority_pubkey : option string;
  iv_network : string; iv_coinbase_address : string;
}.
Definition info_get (pkg_version : string) (st : DashState) (sh : Shared) : InfoView := {|
  iv_version := pkg_version; iv_stratum_port := ds_stratum_port st; iv_sv2_enabled := ds_sv2_enabled st;
  iv_sv2_authority_pubkey := ds_sv2_authority_pubkey st; iv_network := rs_network (sh_settings sh);
  iv_coinbase_address := rs_address (sh_settings sh) |}.
Record SettingsView := {
  sv_coinbase_address : string; sv_network : string; sv_address_valid : bool; sv_persisted : bool; sv_editable : bool;
}.
Definition settings_get (st : DashState) (sh : Shared) : SettingsView := {|
  sv_coinbase_address := rs_address (sh_settings sh); sv_network := rs_network (sh_settings sh);
  sv_address_valid := rs_valid (sh_settings sh); sv_persisted := has_store (sh_stats sh);
  sv_editable := ds_allow_settings st |}.
Definition history_json (sh : Shared) (since : option Z) (io : option string) : list (Z * f64) :=
  get_hashrate_history (sh_stats sh) (default 0 since) io.
(** [metrics_text]: the exporter's rendering when there is an exporter. *)
Definition metrics_text (rendered : option string) : outcome string string :=
  ok_or "Prometheus metrics not enabled" rendered.

(** ** The hashrate chart *)

Definition CHART_GAP_SECS : Z := 25 * 60.
Definition gap_step (max_gap_secs : Z) (out : list (Z * option f64)) (sample : Z * f64) : list (Z * option f64) :=
  let '(ts, hps) := sample in
  let out := match last out with
             | Some (prev_ts, _) =>
                 if max_gap_secs <? saturating_sub ts prev_ts
                 then out ++ [(wrap 64 (prev_ts + (ts - prev_ts) / 2), None)] else out
             | None => out
             end in
  out ++ [(ts, Some hps)].
Definition with_gaps (history : list (Z * f64)) (max_gap_secs : Z) : list (Z * option f64) :=
  fold_left (gap_step max_gap_secs) history [].
Example with_gaps_ex :
  map (fun x => (fst x, bool_decide (is_Some (snd x)))) (with_gaps [(0, f64_one); (600, f64_one); (4200, f64_zero)] 1500)
  = [(0, true); (600, true); (2400, false); (4200, true)].
Proof. vm_compute. reflexivity. Qed.

Definition window_secs (window : string) : Z :=
  if bool_decide (window = "36h") then 36 * 3600
  else if bool_decide (window = "1w") then 7 * 24 * 3600
  else if bool_decide (window = "1m") then 30 * 24 * 3600
  else if bool_decide (window = "6m") then 6 * 30 * 24 * 3600
  else 0.
(** The points [chart_json] draws. A clock before 1970 reads as [None];
    [now] and [inow] are the clocks of the snapshot whose total closes the
    chart. *)
Definition chart_since (window : option string) (clock : option Z) : Z :=
  let window_secs := window_secs (default "36h" window) in
  if 0 <? window_secs then default 0 ((fun d => saturating_sub d window_secs) <$> clock) else 0.
Definition chart_points `{DashIter} (sh : Shared) (window : option string) (clock1 clock2 : option Z) (now inow : Z)
    (io : option string) : list (Z * option f64) :=
  let history := get_hashrate_history (sh_stats sh) (chart_since window clock1) io in
  with_gaps (history ++ [(default 0 clock2, ss_total_hashrate_10m (snapshot (sh_stats sh) now inow))]) CHART_GAP_SECS.

(** ** The router *)

(** A route registered with [get] answers [HEAD] too; a path that is not
    registered is 404, one that is but not for the method 405 (crate [axum]). *)
Inductive Method := GET | HEAD | POST | OtherMethod.
Inductive handler :=
| DashboardHtml | Favicon | LogoDark | LogoLight | StatsJson | HistoryJson | ChartJson | SettingsGet | InfoGet | MetricsText
| SettingsPost | ResetBestHashratePost.
Definition router : gmap string (option handler * option handler) := list_to_map [
  ("/", (Some DashboardHtml, None));
  ("/favicon.ico", (Some Favicon, None));
  ("/logo-dark.svg", (Some LogoDark, None));
  ("/logo-light.svg", (Some LogoLight, None));
  ("/stats", (Some StatsJson, None));
  ("/history", (Some HistoryJson, None));
  ("/chart", (Some ChartJson, None));
  ("/api/settings", (Some SettingsGet, Some SettingsPost));
  ("/api/reset-best-hashrate", (None, Some ResetBestHashratePost));
  ("/api/info", (Some InfoGet, None));
  ("/metrics", (Some MetricsText, None)) ].
Definition dispatch (m : Method) (path : string) : handler + Z :=
  match router !! path with
  | None => inr 404
  | Some (on_get, on_post) =>
      match (match m with GET | HEAD => on_get | POST => on_post | OtherMethod => None end) with
      | Some h => inl h
      | None => inr 405
      end
  end.
(** What a request is answered with: a status of the router or of the body's
    extractor, the content of a read-only route, the response of one that
    changes something. *)
Inductive Answer := Status (code : Z) | Content (h : handler) | Answered (r : Response).
(** One request. The body of a change of address is its field once the
    extractor read it, or the status the extractor refuses it with. *)
Definition dash_request `{HexLib} `{Sha256Lib} `{BitcoinLib} `{HttpLib} (st : DashState) (m : Method) (path : string)
    (headers : HeaderMap) (body : string + Z) (io : option string) (x : RefreshInputs) (sh : Shared)
    : outcome PoolError (Shared * list engine_effect * Answer) :=
  match dispatch m path with
  | inr code => Ok (sh, [], Status code)
  | inl SettingsPost =>
      match body with
      | inl coinbase_address =>
          '(sh, effs, r) ← post st headers io (ChangeAddress coinbase_address x) sh; Ok (sh, effs, Answered r)
      | inr code => Ok (sh, [], Status code)
      end
  | inl ResetBestHashratePost => '(sh, effs, r) ← post st headers io ResetBestHashrate sh; Ok (sh, effs, Answered r)
  | inl h => Ok (sh, [], Content h)
  end.
