(* ===== verification/DashboardFacts.v ===== *)
(** Lemmas about the dashboard: what the request guard accepts, how a host name
    is read off a [Host] header, and the chart's gaps. *)
From stdpp Require Import sorting.
From S2P Require Export Dashboard.
From Stdlib Require Import Strings.Ascii.

(** ** The guard *)

Section guard.
Context {HH : HttpLib}.

(** A request the guard lets through: it names a host that only the local
    network resolves, or a listed one, and if it says where it comes from,
    that is the same authority. *)
Definition same_site (host_hdr : string) (origin : option HeaderValue) : Prop :=
  match origin with
  | None => True
  | Some v =>
      exists o, header_to_str v = Some o /\ o ≠ "null"
                /\ to_ascii_lowercase (origin_authority o) = to_ascii_lowercase (trim host_hdr)
  end.
Definition trusted (headers : HeaderMap) (allowed : list string) : Prop :=
  exists host_hdr host,
    (header_get headers "host" ≫= header_to_str) = Some host_hdr /\ authority_host host_hdr = Some host
    /\ (is_local_host host = true \/ host ∈ allowed) /\ same_site host_hdr (header_get headers "origin").

Lemma check_origin_ok host_hdr origin : check_origin host_hdr origin = Ok tt <-> same_site host_hdr origin.
Proof.
  destruct origin as [v|]; [|done]. cbn [check_origin same_site]. unfold eq_ignore_ascii_case.
  destruct (header_to_str v) as [o|]; cbn.
  - destruct (bool_decide_reflect (o = "null")) as [->|Hn]; cbn; [by split; [|intros (? & [= <-] & ? & _)]|].
    destruct (bool_decide_reflect (to_ascii_lowercase (origin_authority o) = to_ascii_lowercase (trim host_hdr))); cbn.
    + split; [intros _; by exists o|done].
    + split; [done|]. by intros (? & [= <-] & _ & ?).
  - split; [done|]. by intros (? & ? & _).
Qed.
Lemma check_mutation_origin_host headers allowed host_hdr host :
  (header_get headers "host" ≫= header_to_str) = Some host_hdr -> authority_host host_hdr = Some host ->
  check_mutation_origin headers allowed =
  (if is_local_host host || bool_decide (host ∈ allowed) then check_origin host_hdr (header_get headers "origin")
   else Err (HostNotLocal host)).
Proof.
  intros H1 H2. unfold check_mutation_origin. rewrite H1. cbn. rewrite H2. cbn.
  destruct (is_local_host host); cbn; [done|]. by destruct (bool_decide _).
Qed.
Lemma check_mutation_origin_ok headers allowed :
  check_mutation_origin headers allowed = Ok tt <-> trusted headers allowed.
Proof.
  destruct (header_get headers "host" ≫= header_to_str) as [hh|] eqn:E1.
  2:{ unfold check_mutation_origin. rewrite E1. split; [done|]. intros (? & ? & ? & _). congruence. }
  destruct (authority_host hh) as [h|] eqn:E2.
  2:{ unfold check_mutation_origin. rewrite E1. cbn. rewrite E2. split; [done|].
      intros (? & ? & ? & ? & _). congruence. }
  rewrite (check_mutation_origin_host _ _ _ _ E1 E2). split.
  - intros H. exists hh, h. destruct (is_local_host h) eqn:E3; cbn in H.
    + apply check_origin_ok in H. eauto.
    + destruct (bool_decide_reflect (h ∈ allowed)); [|done]. apply check_origin_ok in H. eauto.
  - intros (hh' & h' & H1 & H2 & H3 & H4). assert (hh' = hh) as -> by congruence.
    assert (h' = h) as -> by congruence. destruct H3 as [->|H3]; [by apply check_origin_ok|].
    rewrite (bool_decide_eq_true_2 _ H3), orb_true_r. by apply check_origin_ok.
Qed.
Lemma check_mutation_origin_no_panic headers allowed : check_mutation_origin headers allowed ≠ Panic.
Proof.
  unfold check_mutation_origin. destruct (header_get headers "host" ≫= header_to_str) as [hh|]; [|done]. cbn.
  destruct (authority_host hh) as [h|]; [|done]. cbn. case_match; [done|].
  destruct (header_get headers "origin") as [v|]; [|done]. cbn. destruct (header_to_str v); [|done]. cbn.
  by case_match.
Qed.
Lemma guard_mutation_ok st headers :
  guard_mutation st headers = Ok tt <-> ds_allow_settings st = true /\ trusted headers (ds_allowed_hosts st).
Proof.
  unfold guard_mutation. rewrite <- check_mutation_origin_ok. destruct (ds_allow_settings st); cbn.
  - destruct (check_mutation_origin _ _) as [[]| |]; split; try done; by intros [_ [=]].
  - split; [done|]. by intros [? _].
Qed.
Lemma guard_mutation_cases st headers :
  guard_mutation st headers = Ok tt \/ exists why, guard_mutation st headers = Err why.
Proof.
  unfold guard_mutation. pose proof (check_mutation_origin_no_panic headers (ds_allowed_hosts st)).
  destruct (negb _); [eauto|]. destruct (check_mutation_origin _ _) as [[]| |]; eauto. done.
Qed.
End guard.

(** ** The routes that change something *)

Lemma post_guarded `{HexLib} `{Sha256Lib} `{BitcoinLib} `{HttpLib} st headers io m sh sh' effs resp :
  post st headers io m sh = Ok (sh', effs, resp) ->
  (sh' = sh /\ effs = [] /\
     ((exists why, resp = Forbidden why) \/
      (exists e, resp = Unprocessable e /\ ds_allow_settings st = true /\ trusted headers (ds_allowed_hosts st)))) \/
  (ds_allow_settings st = true /\ trusted headers (ds_allowed_hosts st) /\
     match m with
     | ResetBestHashrate =>
         resp = BestHashrateReset /\ effs = [] /\ sh_settings sh' = sh_settings sh /\ sh_engine sh' = sh_engine sh /\
         sh_stats sh' = reset_best_hashrate (sh_stats sh) io
     | ChangeAddress a x =>
         Settings.validate (trim a) (rs_network (sh_settings sh)) = Ok tt /\
         sh_settings sh' = set_address (sh_settings sh) (trim a) /\
         sh_stats sh' = (save_setting (sh_stats sh) "coinbase_address" (trim a) io).1 /\
         resp = SettingsSaved (save_setting (sh_stats sh) "coinbase_address" (trim a) io).2 /\
         refresh (sh_settings sh') (fr_pool_cfg x) (sh_ids sh) (fr_gbt x) (fr_now1 x) (fr_now2 x) (sh_engine sh) true
           = Ok (sh_ids sh', sh_engine sh', effs)
     end).
Proof.
  intros Hp. destruct (guard_mutation_cases st headers) as [Hg|[why Hg]].
  2: { left. destruct m; cbn in Hp; unfold reset_best_hashrate_post, settings_post in Hp; rewrite Hg in Hp;
       injection Hp as <- <- <-; (split; [done|]); (split; [done|]); left; by exists why. }
  pose proof (proj1 (guard_mutation_ok st headers) Hg) as [Hallow Htrust].
  destruct m as [|a x]; cbn [post] in Hp.
  - right. unfold reset_best_hashrate_post in Hp. rewrite Hg in Hp. injection Hp as <- <- <-. done.
  - unfold settings_post, change_address, update in Hp. rewrite Hg in Hp. cbv zeta in Hp.
    destruct (Settings.validate (trim a) _) as [[]|e|] eqn:Hv; [| |done].
    + right. destruct (save_setting _ _ _ _) as [stats persisted] eqn:Hs. cbn [fst snd].
      unfold force_refresh in Hp. cbn [sh_stats sh_settings sh_engine sh_ids] in Hp.
      destruct (refresh _ _ _ _ _ _ _ _) as [[[ids e] effs1]| |] eqn:Hr; [|done..]. cbn in Hp. injection Hp as <- <- <-.
      split; [done|]. split; [done|]. split; [done|]. split; [done|]. split; [done|]. done.
    + left. injection Hp as <- <- <-. split; [done|]. split; [done|]. right. by exists e.
Qed.
(** The router sends only two requests to them. *)
Definition changes (h : handler) : bool := match h with SettingsPost | ResetBestHashratePost => true | _ => false end.
Lemma dispatch_cases m path h :
  dispatch m path = inl h ->
  ((m = GET \/ m = HEAD) /\ changes h = false) \/
  (h = SettingsPost /\ m = POST /\ path = "/api/settings") \/
  (h = ResetBestHashratePost /\ m = POST /\ path = "/api/reset-best-hashrate").
Proof.
  unfold dispatch. destruct (router !! path) as [[on_get on_post]|] eqn:Er; [|done].
  apply (elem_of_list_to_map_2 (M := gmap string)) in Er.
  assert (forall k g p, (k, (g, p)) ∈ [
    ("/", (Some DashboardHtml, None)); ("/favicon.ico", (Some Favicon, None)); ("/logo-dark.svg", (Some LogoDark, None));
    ("/logo-light.svg", (Some LogoLight, None)); ("/stats", (Some StatsJson, None)); ("/history", (Some HistoryJson, None));
    ("/chart", (Some ChartJson, None)); ("/api/settings", (Some SettingsGet, Some SettingsPost));
    ("/api/reset-best-hashrate", (None, Some ResetBestHashratePost)); ("/api/info", (Some InfoGet, None));
    ("/metrics", (Some MetricsText, None))] ->
    (forall h, g = Some h -> changes h = false) /\
    (forall h, p = Some h -> (h = SettingsPost /\ k = "/api/settings") \/ (h = ResetBestHashratePost /\ k = "/api/reset-best-hashrate"))) as Hall.
  { intros k g p Hin. rewrite !elem_of_cons, elem_of_nil in Hin. naive_solver. }
  destruct (Hall _ _ _ Er) as [Hg Hp]. destruct m; cbn; try done.
  - destruct on_get; [|done]. intros [= <-]. left. split; [by left|by apply Hg].
  - destruct on_get; [|done]. intros [= <-]. left. split; [by right|by apply Hg].
  - destruct on_post; [|done]. intros [= <-]. right. destruct (Hp _ eq_refl) as [[-> ->]|[-> ->]]; auto.
Qed.

(** ** The name in a [Host] header *)

Lemma split_list_absent c l : c ∉ l -> split_list [c] l = None.
Proof.
  induction l as [|d l IH]; intros H; cbn; [done|].
  destruct (decide (c = d)) as [->|]; [set_solver|]. cbn. rewrite IH by set_solver. done.
Qed.
Lemma split_once_absent p c s : to_list p = [c] -> c ∉ to_list s -> split_once p s = None.
Proof. intros Hp H. unfold split_once. by rewrite Hp, split_list_absent. Qed.
Lemma str_contains_char p c s : to_list p = [c] -> str_contains p s = true <-> c ∈ to_list s.
Proof.
  intros Hp. unfold str_contains. rewrite bool_decide_eq_true. split.
  - intros [x Hx]. destruct (decide (c ∈ to_list s)) as [|Hn]; [done|]. by rewrite (split_once_absent p c) in Hx.
  - intros (a & b & Ha & Hn)%list_elem_of_split_l. unfold split_once. by rewrite Hp, Ha, split_list_char.
Qed.

(** The characters of host names and ports: none is a space, a bracket or
    starts a multi-byte character. *)
Definition host_char (c : ascii) : bool :=
  ((48 <=? ord c) && (ord c <=? 57)) || ((65 <=? ord c) && (ord c <=? 90)) || ((97 <=? ord c) && (ord c <=? 122))
  || (ord c =? 45) || (ord c =? 46).

Lemma rev_reverse {A} (l : list A) : rev l = reverse l.
Proof. apply rev_alt. Qed.

(** What holds of every character, by running through them. *)
Lemma every_ascii (f : ascii -> bool) : forallb f (map ascii_of_nat (seq 0 256)) = true -> forall c, f c = true.
Proof.
  intros H c. rewrite forallb_forall in H. apply H. apply in_map_iff. exists (nat_of_ascii c).
  split; [apply ascii_nat_embedding|]. apply in_seq. pose proof (nat_ascii_bounded c). lia.
Qed.
Ltac by_every_ascii := apply every_ascii; vm_compute; reflexivity.
Definition graphic (c : ascii) : bool := (33 <=? ord c) && (ord c <=? 126).
Lemma graphic_single c : graphic c = true -> (128 <=? ord c) = false /\ piece_is_space [c] = false.
Proof.
  assert (H : forall c, negb (graphic c) || (negb (128 <=? ord c) && negb (piece_is_space [c])) = true) by by_every_ascii.
  specialize (H c). intros Hg. rewrite Hg in H. cbn [negb orb] in H. apply andb_true_iff in H as [H1 H2].
  by apply negb_true_iff in H1, H2.
Qed.
Lemma host_char_facts c :
  host_char c = true -> graphic c = true /\ c ≠ colon /\ c ≠ chr 91 /\ host_char (ascii_lower c) = true
    /\ (ascii_lower c = dot <-> c = dot) /\ is_ascii_digit (ascii_lower c) = is_ascii_digit c.
Proof.
  assert (H : forall c, negb (host_char c) || (graphic c && negb (bool_decide (c = colon)) && negb (bool_decide (c = chr 91))
    && host_char (ascii_lower c) && Bool.eqb (bool_decide (ascii_lower c = dot)) (bool_decide (c = dot))
    && Bool.eqb (is_ascii_digit (ascii_lower c)) (is_ascii_digit c)) = true) by by_every_ascii.
  specialize (H c). intros Hc. rewrite Hc in H. cbn [negb orb] in H. b2p.
  repeat match goal with
  | H : negb _ = true |- _ => apply negb_true_iff, bool_decide_eq_false in H
  | H : Bool.eqb _ _ = true |- _ => apply Bool.eqb_prop in H
  end.
  destruct (bool_decide_reflect (ascii_lower c = dot)), (bool_decide_reflect (c = dot)); done.
Qed.
Lemma digit_facts c : is_ascii_digit c = true -> graphic c = true /\ c ≠ colon /\ c ≠ chr 91.
Proof.
  assert (H : forall c, negb (is_ascii_digit c) || (graphic c && negb (bool_decide (c = colon))
    && negb (bool_decide (c = chr 91))) = true) by by_every_ascii.
  specialize (H c). intros Hc. rewrite Hc in H. cbn [negb orb] in H. b2p.
  repeat match goal with H : negb _ = true |- _ => apply negb_true_iff, bool_decide_eq_false in H end. done.
Qed.
Lemma digit_of_10 c : digit_of 10 c -> is_ascii_digit c = true.
Proof.
  assert (H : forall c, is_ascii_digit c || negb (bool_decide (is_Some (to_digit 10 c))) = true) by by_every_ascii.
  specialize (H c). intros Hc. apply (bool_decide_eq_true_2 (is_Some (to_digit 10 c))) in Hc. rewrite Hc in H. cbn in H.
  by rewrite orb_false_r in H.
Qed.

Lemma utf8_pieces_graphic l : Forall (fun c => graphic c = true) l -> utf8_pieces l = map (fun c => [c]) l.
Proof.
  induction l as [|c l IH]; [done|]. intros [Hc Hl]%Forall_cons. cbn [utf8_pieces]. rewrite IH by done.
  destruct l as [|d l]; [done|]. cbn [map]. apply Forall_cons in Hl as [Hd _].
  apply graphic_single in Hd as [Hd _]. by rewrite Hd.
Qed.
Lemma drop_while_head {A} (f : A -> bool) l : (forall x, head l = Some x -> f x = false) -> drop_while f l = l.
Proof. destruct l as [|x l]; [done|]. intros H. cbn. by rewrite H. Qed.
Lemma head_map_rev {A B} (f : A -> B) (P : B -> Prop) l :
  Forall (fun x => P (f x)) l -> forall x, head (rev (map f l)) = Some x -> P x.
Proof.
  intros H x Hx. apply head_Some_elem_of in Hx. rewrite rev_reverse, elem_of_reverse in Hx. apply list_elem_of_fmap in Hx as (y & -> & Hy).
  by eapply Forall_forall in H.
Qed.
Lemma trim_graphic l : Forall (fun c => graphic c = true) l -> trim (of_list l) = of_list l.
Proof.
  intros H. unfold trim. rewrite to_of_list, utf8_pieces_graphic by done.
  assert (Hp : Forall (fun c => piece_is_space [c] = false) l)
    by (eapply Forall_impl; [exact H|]; intros c Hc; by apply graphic_single).
  rewrite (drop_while_head _ (map _ l)).
  2:{ destruct l as [|c l]; [done|]. intros x [= <-]. by apply Forall_cons in Hp as [? _]. }
  unfold trim_end_pieces. rewrite drop_while_head.
  2:{ by apply head_map_rev. }
  rewrite rev_involutive. f_equal. clear. induction l; cbn; congruence.
Qed.

(** A header value: a name, any trailing dots, and maybe a port. *)
Definition port_text (port : option (list ascii)) : list ascii := match port with Some d => colon :: d | None => [] end.
Definition port_ok (port : option (list ascii)) : Prop :=
  match port with Some d => Forall (fun c => is_ascii_digit c = true) d | None => True end.
Lemma strip_list_absent c l : c ∉ l -> strip_list [c] l = None.
Proof. destruct l as [|d l]; [done|]. intros H. cbn. destruct (decide (c = d)); [set_solver|done]. Qed.
Lemma host_chars_no l c : Forall (fun c => host_char c = true) l -> c = colon \/ c = chr 91 -> c ∉ l.
Proof.
  intros H Hc Hin. eapply Forall_forall in H; [|exact Hin]. apply host_char_facts in H as (_ & ? & ? & _).
  by destruct Hc.
Qed.
Lemma digits_no l c : Forall (fun c => is_ascii_digit c = true) l -> c = colon \/ c = chr 91 -> c ∉ l.
Proof.
  intros H Hc Hin. eapply Forall_forall in H; [|exact Hin]. apply digit_facts in H as (_ & ? & ?). by destruct Hc.
Qed.
Lemma host_part_name l port :
  Forall (fun c => host_char c = true) l -> port_ok port -> host_part (of_list (l ++ port_text port)) = of_list l.
Proof.
  intros Hl Hp. unfold host_part, str_strip_prefix. change (to_list bracket) with [chr 91]. rewrite to_of_list.
  rewrite strip_list_absent.
  2:{ intros [Hin|Hin]%elem_of_app; [by eapply host_chars_no in Hin; eauto|].
      destruct port as [d|]; [|by apply elem_of_nil in Hin]. apply elem_of_cons in Hin as [Hin|Hin].
      - by vm_compute in Hin.
      - by eapply digits_no in Hin; eauto. }
  cbn [fmap option_fmap option_map]. unfold rsplit_once. rewrite to_of_list. change (rev (to_list ":")) with [colon].
  destruct port as [d|]; cbn [port_text].
  - rewrite rev_app_distr. cbn [rev]. rewrite <- app_assoc. cbn [app].
    rewrite split_list_char by (rewrite rev_reverse, elem_of_reverse; eapply digits_no; eauto).
    cbn [fmap option_fmap option_map fst snd]. rewrite !rev_involutive, to_of_list.
    assert (str_contains ":" (of_list l) = false) as ->.
    { destruct (str_contains ":" (of_list l)) eqn:E; [|done].
      apply (str_contains_char ":" colon) in E; [|done]. rewrite to_of_list in E. by eapply host_chars_no in E; eauto. }
    assert (forallb is_ascii_digit d = true) as ->; [|done].
    apply forallb_forall. intros c Hc. by eapply Forall_forall in Hp; [|apply list_elem_of_In].
  - rewrite app_nil_r, split_list_absent; [done|]. rewrite rev_reverse, elem_of_reverse. eapply host_chars_no; eauto.
Qed.
Lemma trim_end_dots_name l n : last l ≠ Some dot -> trim_end_dots (l ++ replicate n dot) = l.
Proof.
  intros H. unfold trim_end_dots. rewrite rev_app_distr, (rev_reverse (replicate _ _)), reverse_replicate.
  assert (Hd : drop_while (fun c => bool_decide (c = dot)) (replicate n dot ++ rev l)
    = drop_while (fun c => bool_decide (c = dot)) (rev l)) by (induction n; [done|]; cbn; done).
  rewrite Hd, drop_while_head; [apply rev_involutive|].
  intros c Hc. apply bool_decide_eq_false. intros ->. apply H.
  by rewrite <- head_reverse, <- rev_reverse.
Qed.
Definition lower_name (l : list ascii) : string := of_list (map ascii_lower l).
Lemma authority_host_name l n port :
  Forall (fun c => host_char c = true) l -> l ≠ [] -> last l ≠ Some dot -> port_ok port ->
  authority_host (of_list (l ++ replicate n dot ++ port_text port)) = Some (lower_name l).
Proof.
  intros Hl Hne Hlast Hp. unfold authority_host.
  assert (Hd : Forall (fun c => host_char c = true) (l ++ replicate n dot)).
  { apply Forall_app. split; [done|]. by apply Forall_replicate. }
  assert (Hg : Forall (fun c => graphic c = true) (l ++ replicate n dot ++ port_text port)).
  { rewrite app_assoc. apply Forall_app. split; [eapply Forall_impl; [exact Hd|]; intros c Hc; by apply host_char_facts|].
    destruct port as [d|]; [|done]. constructor; [done|]. eapply Forall_impl; [exact Hp|]. intros c Hc. by apply digit_facts. }
  rewrite trim_graphic by done. rewrite app_assoc, host_part_name by done. rewrite to_of_list, trim_end_dots_name by done.
  unfold to_ascii_lowercase. rewrite to_of_list. rewrite bool_decide_eq_false_2; [done|].
  unfold lower_name. intros H. apply (f_equal to_list) in H. rewrite to_of_list in H. by destruct l.
Qed.

(** The name of a site in the public name system: it has a dot, and something
    besides digits and dots. *)
Definition public_shape (l : list ascii) : Prop :=
  Forall (fun c => host_char c = true) l /\ last l ≠ Some dot /\ dot ∈ l
  /\ Exists (fun c => is_ascii_digit c = false /\ c ≠ dot) l.
Definition under_local_suffix (host : string) : bool := existsb (fun suf => ends_with suf host) LOCAL_SUFFIXES.
Lemma parse_ip_public l : public_shape l -> parse_ip (lower_name l) = None.
Proof.
  intros (Hl & _ & _ & Hx). destruct (parse_ip (lower_name l)) as [a|] eqn:E; [|done]. exfalso.
  assert (Hh : Forall (fun c => host_char c = true) (to_list (lower_name l))).
  { unfold lower_name. rewrite to_of_list, Forall_map. eapply Forall_impl; [exact Hl|]. intros c Hc. by apply host_char_facts. }
  apply parse_ip_no_colon in E; [|by eapply host_chars_no; [|left]].
  unfold lower_name in E. rewrite to_of_list, Forall_map in E. apply Exists_exists in Hx as (c & Hin & Hd & Hn).
  rewrite Forall_forall in Hl, E. destruct (host_char_facts c (Hl c Hin)) as (_ & _ & _ & _ & Hdot & Hdig).
  destruct (E c Hin) as [Hc|Hc]; [|by apply Hn, Hdot]. apply digit_of_10 in Hc. congruence.
Qed.
Lemma lower_name_dot l : Forall (fun c => host_char c = true) l -> dot ∈ l -> dot ∈ to_list (lower_name l).
Proof.
  intros Hl H. unfold lower_name. rewrite to_of_list. apply list_elem_of_fmap. exists dot. done.
Qed.
Lemma is_local_public l : public_shape l -> is_local_host (lower_name l) = under_local_suffix (lower_name l).
Proof.
  intros Hs. unfold is_local_host. rewrite parse_ip_public by done.
  destruct Hs as (Hl & _ & Hd & _). apply (lower_name_dot l Hl) in Hd.
  assert (str_contains "." (lower_name l) = true) as -> by by apply (str_contains_char "." dot).
  rewrite (bool_decide_eq_false_2 (is_Some None)) by by intros [? ?]. cbn [negb orb].
  rewrite bool_decide_eq_false_2; [done|]. intros E. rewrite E in Hd.
  by apply (bool_decide_unpack _) in Hd || (revert Hd; apply (bool_decide_unpack (dot ∉ to_list "localhost")); vm_compute).
Qed.

(** ** The chart *)

(** The chart with its gaps, from one sample to the next. *)
Fixpoint gaps_from (max_gap prev : Z) (l : list (Z * f64)) : list (Z * option f64) :=
  match l with
  | [] => []
  | (ts, hps) :: l =>
      (if max_gap <? ts - prev then [(prev + (ts - prev) / 2, None)] else []) ++ (ts, Some hps) :: gaps_from max_gap ts l
  end.
Definition gaps_spec (max_gap : Z) (l : list (Z * f64)) : list (Z * option f64) :=
  match l with [] => [] | (ts, hps) :: l => (ts, Some hps) :: gaps_from max_gap ts l end.
Definition samples_u64 (l : list (Z * f64)) : Prop := Forall (fun s => is_u64 (fst s)) l.

Lemma gap_fold max_gap l prev x out :
  0 <= max_gap -> is_u64 prev -> samples_u64 l ->
  fold_left (gap_step max_gap) l (out ++ [(prev, x)]) = out ++ (prev, x) :: gaps_from max_gap prev l.
Proof.
  intros Hg. revert prev x out. induction l as [|[ts hps] l IH]; intros prev x out Hp Hl; [done|].
  apply Forall_cons in Hl as [Hts Hl]. cbn [fold_left gaps_from]. cbn [fst] in Hts. unfold gap_step at 2. rewrite last_snoc.
  unfold is_u in *. assert (Hc : (max_gap <? saturating_sub ts prev) = (max_gap <? ts - prev)).
  { unfold saturating_sub. destruct (max_gap <? ts - prev) eqn:E; b2p; [apply Z.ltb_lt|apply Z.ltb_ge]; lia. }
  rewrite Hc. destruct (max_gap <? ts - prev) eqn:E; b2p.
  - assert (wrap 64 (prev + (ts - prev) / 2) = prev + (ts - prev) / 2) as ->.
    { unfold wrap. apply Z.mod_small. pose proof (Z.div_le_upper_bound (ts - prev) 2 (ts - prev)).
      pose proof (Z.div_pos (ts - prev) 2). lia. }
    rewrite IH by done. by rewrite <- !app_assoc.
  - rewrite IH by done. by rewrite <- app_assoc.
Qed.
Lemma with_gaps_spec max_gap l : 0 <= max_gap -> samples_u64 l -> with_gaps l max_gap = gaps_spec max_gap l.
Proof.
  intros Hg Hl. destruct l as [|[ts hps] l]; [done|]. apply Forall_cons in Hl as [Hts Hl].
  unfold with_gaps. cbn [fold_left]. change (gap_step max_gap [] (ts, hps)) with ([] ++ [(ts, Some hps)]).
  by rewrite gap_fold.
Qed.

(** The samples among the points. *)
Definition recorded (p : Z * option f64) : option (Z * f64) := (fun h => (fst p, h)) <$> snd p.
Lemma gaps_from_recorded max_gap prev l : omap recorded (gaps_from max_gap prev l) = l.
Proof.
  revert prev. induction l as [|[ts hps] l IH]; intros prev; [done|]. cbn [gaps_from].
  rewrite omap_app. destruct (_ <? _); cbn; by rewrite IH.
Qed.
(** Two samples in a row are close; a break lies strictly between two that are
    not. *)
Lemma gaps_from_lines max_gap prev h l pre a ha b hb post :
  (prev, Some h) :: gaps_from max_gap prev l = pre ++ (a, Some ha) :: (b, Some hb) :: post -> b - a <= max_gap.
Proof.
  revert prev h pre. induction l as [|[ts hps] l IH]; intros prev h pre H; cbn [gaps_from] in H.
  { destruct pre as [|? [|? ?]]; discriminate H. }
  destruct (max_gap <? ts - prev) eqn:E; cbn [app] in H; b2p.
  - destruct pre as [|x [|y pre]]; [discriminate H..|]. injection H as _ _ H. by apply IH in H.
  - destruct pre as [|x pre]; [|injection H as _ H; by apply IH in H]. injection H as -> _ -> _ _. done.
Qed.
Lemma gaps_from_breaks max_gap prev h l pre m post :
  1 <= max_gap -> (prev, Some h) :: gaps_from max_gap prev l = pre ++ (m, None) :: post ->
  exists pre' a ha b hb post',
    pre = pre' ++ [(a, Some ha)] /\ post = (b, Some hb) :: post' /\ a < m < b /\ max_gap < b - a.
Proof.
  intros Hg. revert prev h pre. induction l as [|[ts hps] l IH]; intros prev h pre H; cbn [gaps_from] in H.
  { destruct pre as [|? [|? ?]]; discriminate H. }
  destruct (max_gap <? ts - prev) eqn:E; cbn [app] in H; b2p.
  - destruct pre as [|x [|y pre]]; [discriminate H| |].
    + injection H as <- <- <-. exists [], prev, h, ts, hps, (gaps_from max_gap ts l).
      repeat split; try done; [|].
      * pose proof (Z.div_le_lower_bound (ts - prev) 2 1). lia.
      * pose proof (Z.div_lt (ts - prev) 2). lia.
    + injection H as <- <- H. destruct (IH _ _ _ H) as (pre' & a & ha & b & hb & post' & -> & -> & ?).
      exists ((prev, Some h) :: (prev + (ts - prev) / 2, None) :: pre'), a, ha, b, hb, post'. done.
  - destruct pre as [|x pre]; [discriminate H|]. injection H as <- H.
    destruct (IH _ _ _ H) as (pre' & a & ha & b & hb & post' & -> & -> & ?).
    exists ((prev, Some h) :: pre'), a, ha, b, hb, post'. done.
Qed.
