(* ===== verification/DashPage.v ===== *)
(** The verdicts of the dashboard page (the script in network/dashboard.rs):
    the light of a worker, the health of its rejects, the light of the node and
    the warning about the statistics database, from the record [/stats] sends.

    Numbers are JavaScript's: the rates and difficulties are f64 as they are;
    counts and seconds are integers below 2^53, where a number is exact. *)
From stdpp Require Import sorting.
From S2P Require Export Dashboard.
From Stdlib Require Import Strings.Ascii.

(** ** JavaScript's operators *)

(** [Math.max]; [x || 0] of a number, where JSON has no NaN and no infinity. *)
Definition js_max (x y : f64) : f64 :=
  match x, y with
  | S754_nan, _ | _, S754_nan => S754_nan
  | _, _ => if f64_lt x y then y else x
  end.
Definition js_or_zero (x : f64) : f64 := if f64_is_finite x then x else f64_zero.
(** [x.toFixed(digits)] of a finite number that is not negative and below
    1e21: the nearest decimal, the larger of two. *)
Definition to_fixed_scaled (x : f64) (digits : Z) : Z :=
  match x with
  | S754_finite _ m e =>
      if 0 <=? e then Zpos m * 2 ^ e * 10 ^ digits else (2 * Zpos m * 10 ^ digits + 2 ^ (- e)) / 2 ^ (1 - e)
  | _ => 0
  end.
Definition to_fixed1 (x : f64) : string := let n := to_fixed_scaled x 1 in (dec (n / 10) +:+ "." +:+ dec (n mod 10))%string.
Example to_fixed1_ex :
  to_fixed1 (f64_of_Z 2) = "2.0" /\ to_fixed1 (f64_div f64_one (f64_of_Z 4)) = "0.3" /\ to_fixed1 (f64_lit 15 (-3)) = "1.9".
Proof. repeat split; vm_compute; reflexivity. Qed.
(** [Object.entries] of a map, and [sort] by count, largest first; the sort is
    stable. *)
Definition object_entries (m : gmap string Z) : list (string * Z) :=
  omap (fun k => (fun n => (k, n)) <$> m !! k) (merge_sort name_le (map fst (map_to_list m))).
Fixpoint insert_desc {A} (key : A -> Z) (x : A) (l : list A) : list A :=
  match l with [] => [x] | y :: l => if key x <=? key y then y :: insert_desc key x l else x :: y :: l end.
Definition sort_desc {A} (key : A -> Z) (l : list A) : list A := fold_left (fun acc x => insert_desc key x acc) l [].
Definition by_count (l : list (string * Z)) : list (string * Z) := sort_desc snd l.
Definition join (sep : string) (l : list string) : string := String.concat sep l.
Example by_count_ex : by_count [("a", 1); ("b", 3); ("c", 1)] = [("b", 3); ("a", 1); ("c", 1)].
Proof. reflexivity. Qed.

(** ** Formatters *)

Definition fmt_uptime (secs : Z) : string :=
  let d := secs / 86400 in
  let h := Z.rem secs 86400 / 3600 in
  let m := Z.rem secs 3600 / 60 in
  let s := Z.rem secs 60 in
  if negb (d =? 0) then (dec d +:+ "d " +:+ dec h +:+ "h")%string
  else if negb (h =? 0) then (dec h +:+ "h " +:+ dec m +:+ "m")%string
  else if negb (m =? 0) then (dec m +:+ "m " +:+ dec s +:+ "s")%string
  else (dec s +:+ "s")%string.
Definition fmt_next_adjustment (height : Z) : string :=
  if height <=? 0 then "—"
  else
    let into := Z.rem height 2016 in
    let blocks_left := 2016 - into in
    let secs := blocks_left * 600 in
    let d := secs / 86400 in
    let h := Z.rem secs 86400 / 3600 in
    let eta := if 0 <? d then (dec d +:+ "d " +:+ dec h +:+ "h")%string else (dec h +:+ "h")%string in
    ("~" +:+ eta +:+ " (" +:+ dec blocks_left +:+ " blk)")%string.
Definition REJECT_LABELS : list (string * string) :=
  [("stale", "Stale"); ("duplicate", "Duplicate"); ("low_difficulty", "Low diff"); ("job_not_found", "Unknown job");
   ("bad_extranonce", "Bad extranonce"); ("invalid", "Invalid")].
Definition reject_label (reason : string) : string :=
  match List.find (fun x => bool_decide (fst x = reason)) REJECT_LABELS with Some (_, label) => label | None => reason end.

Section page.
(** [toLocaleString], which is the browser's. *)
Context (to_locale : Z -> string).

Definition other_reject_text (other : gmap string Z) : string :=
  join ", " (map (fun e => (dec (snd e) +:+ " " +:+ to_ascii_lowercase (reject_label (fst e)))%string) (by_count (object_entries other))).
Definition reject_breakdown (w : WorkerState) : string :=
  let parts := map (fun e => (reject_label (fst e) +:+ ": " +:+ to_locale (snd e))%string)
    (by_count (List.filter (fun e => 0 <? snd e) (object_entries (ws_reject_reasons w)))) in
  match parts with [] => "No rejects" | _ => join ", " parts end.

(** ** A worker's light *)

Definition DEGRADED_SECS : f64 := f64_of_Z 120.
Definition DEGRADED_INTERVALS : f64 := f64_of_Z 5.
Definition worker_baseline_hps (w : WorkerState) : f64 :=
  if ws_online w && (0 <? ws_last_submit_ts w) then js_or_zero (ws_hashrate_3h_hps w) else f64_zero.
Definition is_degraded (w : WorkerState) (now_sec : Z) : bool :=
  let base_hps := worker_baseline_hps w in
  if f64_le base_hps f64_zero then false
  else
    let expected := f64_div (f64_mul (f64_of_Z (ws_current_vardiff w)) (f64_of_Z 4294967296)) base_hps in
    let silent_for := now_sec - ws_last_submit_ts w in
    f64_lt (js_max DEGRADED_SECS (f64_mul DEGRADED_INTERVALS expected)) (f64_of_Z silent_for).
Inductive led := LedOff | LedWarn | LedOn | LedBad.
Definition worker_led (w : WorkerState) (now_sec : Z) : led * string :=
  if negb (ws_online w) then (LedOff, "Offline")
  else if is_degraded w now_sec then
    (LedWarn, ("Degraded — no share in " +:+ fmt_uptime (now_sec - ws_last_submit_ts w) +:+ " (well past its usual cadence)")%string)
  else (LedOn, "Online").

(** ** The health of its rejects *)

Definition STALE_WATCH_PCT : f64 := f64_of_Z 1.
Definition STALE_ACT_PCT : f64 := f64_of_Z 2.
Definition STALE_MIN_SHARES : Z := 200.
Definition OTHER_ACT_PCT : f64 := f64_of_Z 1.
Definition OTHER_ACT_MIN : Z := 3.
Definition RECOVERED_SECS : Z := 86400.
Inductive level := LevelOk | Recovered | Watch | Act.
Definition HEALTH_RANK (l : level) : Z := match l with LevelOk => 0 | Recovered => 1 | Watch => 2 | Act => 3 end.
Record health := { h_level : level; h_text : string; h_title : string }.
Definition percent (n total : Z) : f64 :=
  if 0 <? total then f64_mul (f64_div (f64_of_Z n) (f64_of_Z total)) (f64_of_Z 100) else f64_zero.
Definition reject_health (w : WorkerState) (now_sec : Z) : health :=
  let other := ws_last_hour_other_rejects w in
  let other_n := fold_left (fun a e => a + snd e) (object_entries other) 0 in
  let stale := ws_last_hour_stale w in
  let total := ws_last_hour_accepted w + stale + other_n in
  let stale_pct := percent stale total in
  let other_pct := percent other_n total in
  let stale_judged := STALE_MIN_SHARES <=? total in
  let '(lv, parts) :=
    if 0 <? other_n then
      (if (OTHER_ACT_MIN <=? other_n) && f64_le OTHER_ACT_PCT other_pct then Act else Watch,
       [(other_reject_text other +:+ " · " +:+ fmt_uptime (now_sec - ws_last_other_reject_ts w) +:+ " ago")%string])
    else (LevelOk, []) in
  let '(lv, parts) :=
    if stale_judged && f64_le STALE_WATCH_PCT stale_pct then
      (if f64_le STALE_ACT_PCT stale_pct then Act else match lv with LevelOk => Watch | _ => lv end,
       parts ++ [("stale " +:+ to_fixed1 stale_pct +:+ "%")%string])
    else (lv, parts) in
  match lv with
  | LevelOk =>
      let since := now_sec - ws_last_other_reject_ts w in
      if (0 <? ws_last_other_reject_ts w) && (since <? RECOVERED_SECS) then
        let reason := to_ascii_lowercase (reject_label (default empty_str (ws_last_other_reject_reason w))) in
        {| h_level := Recovered; h_text := ("recovered · last " +:+ reason +:+ " " +:+ fmt_uptime since +:+ " ago")%string;
           h_title := "No device rejects in the last hour" |}
      else {| h_level := LevelOk; h_text := empty_str; h_title := empty_str |}
  | _ =>
      {| h_level := lv; h_text := join " · " parts;
         h_title := ("Last hour: " +:+ to_locale total +:+ " shares, " +:+ to_locale stale +:+ " stale"
                     +:+ (if negb (other_n =? 0)%Z then ", " +:+ other_reject_text other else empty_str))%string |}
  end.

(** ** The node and the database *)

Definition NODE_WARN_SECS : Z := 90.
Definition NODE_BAD_SECS : Z := 300.
Inductive node_level := NodeOk | NodeWarn | NodeBad.
Record node_view := { nv_led : led; nv_rail : string; nv_card : string; nv_level : node_level }.
Definition render_node (d : StatsSnapshot) : node_view :=
  let age := ss_template_age_secs d in
  let err := default empty_str (ss_template_error d) in
  let has_err := negb (bool_decide (err = empty_str)) in
  if starts_with "mining paused" err then
    {| nv_led := LedOff; nv_rail := "paused"; nv_card := "Node: template not requested while mining is paused"; nv_level := NodeOk |}
  else
    match age with
    | None =>
        {| nv_led := if has_err then LedWarn else LedOff; nv_rail := if has_err then "no template" else "waiting";
           nv_card := if has_err then ("Node: no template yet · " +:+ err)%string else "Node: waiting for the first block template";
           nv_level := if has_err then NodeWarn else NodeOk |}
    | Some age =>
        let stale := (NODE_WARN_SECS <=? age) || has_err in
        let lv := if NODE_BAD_SECS <=? age then NodeBad else if stale then NodeWarn else NodeOk in
        {| nv_led := match lv with NodeBad => LedBad | NodeWarn => LedWarn | NodeOk => LedOn end;
           nv_rail := ((if stale then "stale " else "template ") +:+ fmt_uptime age +:+ (if stale then empty_str else " old"))%string;
           nv_card := ("Node: template " +:+ fmt_uptime age +:+ " old" +:+ (if has_err then " · " +:+ err else empty_str))%string;
           nv_level := lv |}
    end.
(** Whether the warning about the database is shown. *)
Definition render_store (d : StatsSnapshot) : bool := negb (bool_decide (default empty_str (ss_stats_store_error d) = empty_str)).

(** ** What the verdicts mean *)

(** A worker that is offline or never submitted raises no alarm. *)
Lemma never_degraded_without_cadence w now_sec :
  ws_online w = false \/ ws_last_submit_ts w <= 0 -> is_degraded w now_sec = false.
Proof.
  intros H. unfold is_degraded, worker_baseline_hps.
  assert (ws_online w && (0 <? ws_last_submit_ts w) = false) as ->; [|done].
  destruct H as [->|H]; [done|]. apply andb_false_iff. right. by apply Z.ltb_ge.
Qed.
(** Every fault of the device within the hour is flagged, whatever the rate of
    the stale shares; a flag without one is about stale shares, of which there
    were enough to judge. *)
Definition other_count (w : WorkerState) : Z := fold_left (fun a e => a + snd e) (object_entries (ws_last_hour_other_rejects w)) 0.
Definition hour_total (w : WorkerState) : Z := ws_last_hour_accepted w + ws_last_hour_stale w + other_count w.
Definition stale_flagged (w : WorkerState) : bool :=
  (STALE_MIN_SHARES <=? hour_total w) && f64_le STALE_WATCH_PCT (percent (ws_last_hour_stale w) (hour_total w)).
Lemma reject_health_flags w now_sec :
  h_level (reject_health w now_sec) = Watch \/ h_level (reject_health w now_sec) = Act <->
  0 < other_count w \/ stale_flagged w = true.
Proof.
  unfold reject_health, stale_flagged, hour_total. fold (other_count w). cbv zeta.
  destruct (Z.ltb_spec 0 (other_count w)) as [Ho|Ho], (_ && _) eqn:Es; repeat case_match; simplify_eq; cbn; naive_solver lia.
Qed.
End page.
