(* ===== verification/DashCards.v ===== *)
(** The cards of the dashboard page (the script in network/dashboard.rs): the
    formatters of rates and difficulties, the counts of workers, the card of
    rejects, the light of the page's own connection.

    A fixed number of decimals is what the script asks of numbers below 1e21. *)
From S2P Require Export DashPage.
From Stdlib Require Import Strings.Ascii.

(** ** Formatters *)

(** [x.toFixed(digits)], for one digit or more. *)
Fixpoint pad_zeros (n : nat) (s : string) : string :=
  match n with O => s | S n => if str_len s <? Z.of_nat (S n) then ("0" +:+ pad_zeros n s)%string else s end.
Definition fixed_digits (n digits : Z) : string :=
  (dec (n / 10 ^ digits) +:+ "." +:+ pad_zeros (Z.to_nat digits) (dec (n mod 10 ^ digits)))%string.
Definition to_fixed (x : f64) (digits : Z) : string :=
  if f64_lt x f64_zero then ("-" +:+ fixed_digits (to_fixed_scaled x digits) digits)%string
  else fixed_digits (to_fixed_scaled x digits) digits.
Example to_fixed_ex :
  to_fixed (f64_lit (-1) (-4)) 2 = "-0.06" /\ to_fixed (f64_of_Z 12) 2 = "12.00" /\ to_fixed (f64_lit 129 (-7)) 3 = "1.008".
Proof. repeat split; vm_compute; reflexivity. Qed.
Definition e10 (n : Z) : f64 := f64_of_Z (10 ^ n).
Definition fmt_hr (hps : f64) (short : bool) : string :=
  let unit n a b := (to_fixed (f64_div hps (e10 n)) 2 +:+ (if short then a else b))%string in
  if f64_le (e10 21) hps then unit 21 " Z" " ZH/s"
  else if f64_le (e10 18) hps then unit 18 " E" " EH/s"
  else if f64_le (e10 15) hps then unit 15 " P" " PH/s"
  else if f64_le (e10 12) hps then unit 12 " T" " TH/s"
  else if f64_le (e10 9) hps then unit 9 " G" " GH/s"
  else if f64_le (e10 6) hps then unit 6 " M" " MH/s"
  else if f64_le (e10 3) hps then unit 3 " K" " KH/s"
  else (dec (to_fixed_scaled hps 0) +:+ (if short then empty_str else " H/s"))%string.
(** [fmtDiff] of a count. *)
Definition fmt_diff (d : Z) : string :=
  let unit n digits a := (to_fixed (f64_div (f64_of_Z d) (e10 n)) digits +:+ a)%string in
  if f64_le (e10 12) (f64_of_Z d) then unit 12 2 "T"
  else if f64_le (e10 9) (f64_of_Z d) then unit 9 2 "G"
  else if f64_le (e10 6) (f64_of_Z d) then unit 6 2 "M"
  else if f64_le (e10 3) (f64_of_Z d) then unit 3 1 "K"
  else dec d.
Example fmt_ex :
  fmt_hr (f64_of_Z 1230000000000) false = "1.23 TH/s" /\ fmt_hr (f64_of_Z 999) true = "999" /\
  fmt_diff 98304 = "98.3K" /\ fmt_diff 512 = "512".
Proof. repeat split; vm_compute; reflexivity. Qed.
(** The estimated change at the next retarget; a number that is not finite
    reaches the page as [null]. *)
Inductive adj_color := ColorMuted | ColorBad | ColorOk.
Definition fmt_adjustment_pct (pct : f64) : string * adj_color :=
  if f64_is_finite pct then
    let limit := f64_div f64_one (f64_of_Z 20) in
    let sign := if f64_le f64_zero pct then "+" else empty_str in
    ((sign +:+ to_fixed pct 2 +:+ "%")%string,
     if f64_lt limit pct then ColorBad else if f64_lt pct (f64_sub f64_zero limit) then ColorOk else ColorMuted)
  else ("—", ColorMuted).
Example fmt_adjustment_ex :
  fmt_adjustment_pct (f64_lit 5 (-1)) = ("+2.50%", ColorBad) /\ fmt_adjustment_pct (f64_lit (-5) (-1)) = ("-2.50%", ColorOk) /\
  fmt_adjustment_pct f64_zero = ("+0.00%", ColorMuted) /\ fmt_adjustment_pct S754_nan = ("—", ColorMuted).
Proof. repeat split; vm_compute; reflexivity. Qed.

(** ** The page's own connection *)

Definition update_conn_led (last_stats_ok now_ms : Z) : led * string :=
  let secs := dec ((now_ms - last_stats_ok + 500) / 1000) in
  if negb (last_stats_ok =? 0) && (now_ms - last_stats_ok <? 25000) then
    (LedOn, ("Live — updated " +:+ secs +:+ "s ago")%string)
  else (LedOff, if negb (last_stats_ok =? 0) then ("Connection lost — no update for " +:+ secs +:+ "s")%string else "Connecting…").
Lemma conn_led_on last_stats_ok now_ms :
  fst (update_conn_led last_stats_ok now_ms) = LedOn <-> last_stats_ok ≠ 0 /\ now_ms - last_stats_ok < 25000.
Proof.
  unfold update_conn_led. destruct (Z.eqb_spec last_stats_ok 0), (Z.ltb_spec (now_ms - last_stats_ok) 25000); cbn; naive_solver lia.
Qed.

(** ** The workers and their rejects *)

Section cards.
(** [toLocaleString], which is the browser's. *)
Context (to_locale : Z -> string).

(** Online, offline and degraded workers. *)
Definition worker_counts (workers : list WorkerState) (now_sec : Z) : Z * Z * Z :=
  (Z.of_nat (length (List.filter ws_online workers)), Z.of_nat (length (List.filter (fun w => negb (ws_online w)) workers)),
   Z.of_nat (length (List.filter (fun w => is_degraded w now_sec) workers))).
(** What the table and the card call a worker: the second part of its name. *)
Definition worker_label (name : string) : string :=
  match split_once "." name with
  | Some (_, rest) => match split_once "." rest with Some (second, _) => second | None => rest end
  | None => name
  end.
(** The reasons of all workers, in the order they are first met. *)
Fixpoint add_reason (r : string) (n : Z) (totals : list (string * Z)) : list (string * Z) :=
  match totals with
  | [] => [(r, n)]
  | (r', n') :: totals => if bool_decide (r' = r) then (r', n' + n) :: totals else (r', n') :: add_reason r n totals
  end.
Definition reason_totals (workers : list WorkerState) : list (string * Z) :=
  fold_left (fun totals w => fold_left (fun totals e => add_reason (fst e) (snd e) totals) (object_entries (ws_reject_reasons w)) totals)
    workers [].
Definition share_pct (n total : Z) : string := if 0 <? total then to_fixed1 (percent n total) else "0.0".
Definition reject_rate_text (d : StatsSnapshot) : string :=
  (to_locale (ss_shares_rejected d) +:+ " (" +:+ share_pct (ss_shares_rejected d) (ss_shares_accepted d + ss_shares_rejected d) +:+ "%)")%string.
Definition stale_rate_text (d : StatsSnapshot) : string :=
  let stale_total := fold_left (fun sum w => sum + ws_shares_stale w) (ss_worker_states d) 0 in
  let others := join " · " (map (fun e => (reject_label (fst e) +:+ ": " +:+ to_locale (snd e))%string)
    (by_count (List.filter (fun e => negb (bool_decide (fst e = "stale")) && (0 <? snd e)) (reason_totals (ss_worker_states d))))) in
  ("Stale: " +:+ to_locale stale_total +:+ " (" +:+ share_pct stale_total (ss_shares_accepted d + ss_shares_rejected d) +:+ "%)"
     +:+ (if bool_decide (others = empty_str) then empty_str else (" · " +:+ others)%string))%string.
Definition level_cls (l : level) : string := match l with Act => "bad" | Watch => "warn" | _ => empty_str end.
Definition is_flagged (l : level) : bool := match l with Watch | Act => true | _ => false end.
Record rejects_card := {
  rc_rejecting : Z; rc_rejecting_class : string; rc_rate_class : string;
  rc_health : option (string * string * string);   (** text, title, class; [None] while hidden *)
}.
Definition render_rejects (workers : list WorkerState) (now_sec : Z) : rejects_card :=
  let judged := map (fun w => (w, reject_health to_locale w now_sec)) workers in
  let flagged := List.filter (fun x => is_flagged (h_level (snd x))) judged in
  let worst := head (sort_desc (fun x => HEALTH_RANK (h_level (snd x)))
    (List.filter (fun x => match h_level (snd x) with LevelOk => false | _ => true end) judged)) in
  let level_of x := h_level (snd x : health) in
  {| rc_rejecting := Z.of_nat (length flagged);
     rc_rejecting_class := match flagged with [] => empty_str | _ => level_cls (default LevelOk (level_of <$> worst)) end;
     rc_rate_class := ("val " +:+ level_cls (default LevelOk (level_of <$> worst)))%string;
     rc_health := (fun x =>
       let more := if 1 <? Z.of_nat (length flagged)
                   then (" (+" +:+ dec (Z.of_nat (length flagged) - 1) +:+ " more)")%string else empty_str in
       ((worker_label (ws_worker (fst x)) +:+ ": " +:+ h_text (snd x) +:+ more)%string,
        (h_title (snd x) +:+ " · click for what it means")%string,
        ("sub trunc " +:+ level_cls (level_of x))%string)) <$> worst |}.

(** *** The card names a worst worker *)

Definition top_of {A} (key : A -> Z) (l : list A) (x : A) : Prop := x ∈ l /\ forall y, y ∈ l -> key y <= key x.
Lemma insert_desc_head {A} (key : A -> Z) x l :
  head (insert_desc key x l) = Some (match l with y :: _ => if key x <=? key y then y else x | [] => x end).
Proof. destruct l as [|y l]; cbn; [done|]. by destruct (key x <=? key y). Qed.
Lemma sort_desc_head {A} (key : A -> Z) l : match head (sort_desc key l) with Some x => top_of key l x | None => l = [] end.
Proof.
  unfold sort_desc. induction l as [|x l IH] using rev_ind; [done|]. rewrite fold_left_app. cbn [fold_left].
  rewrite insert_desc_head. destruct (fold_left _ l []) as [|y acc]; cbn [head] in IH.
  - subst l. split; [apply list_elem_of_singleton; done|]. by intros y ->%list_elem_of_singleton.
  - destruct IH as [Hy Hmax]. destruct (Z.leb_spec (key x) (key y)) as [Hle|Hlt]; split.
    + apply elem_of_app. by left.
    + intros z [Hz| ->%list_elem_of_singleton]%elem_of_app; [by apply Hmax|done].
    + apply elem_of_app. right. by apply list_elem_of_singleton.
    + intros z [Hz| ->%list_elem_of_singleton]%elem_of_app; [specialize (Hmax z Hz); lia|done].
Qed.
Lemma rank_max l : HEALTH_RANK l <= HEALTH_RANK Act.
Proof. destruct l; cbn; lia. Qed.
Lemma level_cls_bad l : level_cls l = "bad" <-> l = Act.
Proof. by destruct l. Qed.
(** The card is hidden exactly when every worker is well, its colour is red
    exactly when some worker needs action, and it names one of the worst. *)
Lemma rejects_card_names_worst workers now_sec :
  let level_of w := h_level (reject_health to_locale w now_sec) in
  let card := render_rejects workers now_sec in
  (rc_health card = None <-> forall w, w ∈ workers -> level_of w = LevelOk) /\
  (rc_rate_class card = "val bad" <-> exists w, w ∈ workers /\ level_of w = Act) /\
  (forall text title cls, rc_health card = Some (text, title, cls) -> exists w rest, w ∈ workers /\
     (forall w', w' ∈ workers -> HEALTH_RANK (level_of w') <= HEALTH_RANK (level_of w)) /\
     text = (worker_label (ws_worker w) +:+ ": " +:+ h_text (reject_health to_locale w now_sec) +:+ rest)%string).
Proof.
  intros level_of card. unfold card, render_rejects. cbv zeta. cbn [rc_health rc_rate_class].
  set (judged := map _ workers). 
  match goal with |- context [sort_desc _ (List.filter ?f judged)] => set (bad := List.filter f judged) end.
  assert (forall w, w ∈ workers -> level_of w ≠ LevelOk -> (w, reject_health to_locale w now_sec) ∈ bad) as Hbad.
  { intros w Hw Hl. apply list_elem_of_In, List.filter_In. split.
    - apply list_elem_of_In, list_elem_of_fmap. by exists w.
    - unfold level_of in Hl. cbn [snd]. destruct (h_level (reject_health to_locale w now_sec)); congruence. }
  assert (forall x, x ∈ bad -> exists w, w ∈ workers /\ x = (w, reject_health to_locale w now_sec) /\ level_of w ≠ LevelOk) as Hof.
  { intros x [Hx Hl]%list_elem_of_In%List.filter_In. apply list_elem_of_In, list_elem_of_fmap in Hx as (w & -> & Hw).
    exists w. split; [done|]. split; [done|]. cbn in Hl. unfold level_of. intros Heq. by rewrite Heq in Hl. }
  pose proof (sort_desc_head (fun x => HEALTH_RANK (h_level (snd x))) bad) as Hh.
  destruct (head _) as [x|]; cbn [fmap option_fmap option_map default].
  - destruct Hh as [Hx Hmax]. destruct (Hof x Hx) as (w & Hw & -> & Hl). cbn [snd fst] in *. split; [|split].
    + split; [done|]. intros Hall. by apply Hall in Hw.
    + split.
      * intros H. exists w. split; [done|]. apply level_cls_bad. by injection H.
      * intros (w' & Hw' & Ha). specialize (Hmax _ (Hbad w' Hw' ltac:(congruence))). cbn [snd] in Hmax.
        assert (level_of w = Act) as Hact by (unfold level_of in *; rewrite Ha in Hmax; by destruct (h_level (reject_health to_locale w now_sec))).
        unfold level_of in Hact. by rewrite Hact.
    + intros text title cls [= <- _ _]. eexists w, _. split; [done|]. split; [|reflexivity]. intros w' Hw'.
      destruct (decide (HEALTH_RANK (level_of w') = 0)) as [->|Hne]; [by destruct (level_of w)|].
      apply (Hmax (w', reject_health to_locale w' now_sec)), Hbad; [done|]. intros Heq. by rewrite Heq in Hne.
  - assert (forall w, w ∈ workers -> level_of w = LevelOk) as Hall.
    { intros w Hw. destruct (level_of w) eqn:E; [done|..]; exfalso;
        (assert (level_of w ≠ LevelOk) as Hne by congruence); specialize (Hbad w Hw Hne); rewrite Hh in Hbad; by apply elem_of_nil in Hbad. }
    split; [done|]. split; [|done]. split; [done|]. intros (w & Hw & Ha). by rewrite Hall in Ha.
Qed.
End cards.
