(* ===== verification/DashFigures.v ===== *)
(** The figures of the dashboard page (the script in network/dashboard.rs): the
    odds of a block, the round, the blocks found and their marks on the chart,
    the rows of the table of workers, the texts of the other cards, the
    settings and the connect dialogs.

    What depends on the browser and its locale is a class, [BrowserLib]. *)
From S2P Require Export DashCards.
From Stdlib Require Import Strings.Ascii.

(** [toLocaleString] and [toString] of a number, [Number(x.toPrecision(n))],
    [Math.pow], and a time in seconds as a local date and time or as a date. *)
Class BrowserLib := {
  locale_number : f64 -> string;
  number_text : f64 -> string;
  to_precision : f64 -> Z -> f64;
  math_pow : f64 -> f64 -> f64;
  locale_timestamp : Z -> string;
  locale_date : Z -> string;
}.

(** [Math.ceil] and [Math.round] of a number that is not negative;
    [toFixed], which spells out a number from 1e21 on. *)
Definition js_ceil (x : f64) : Z :=
  match x with
  | S754_finite false m e => if 0 <=? e then Zpos m * 2 ^ e else - (- Zpos m / 2 ^ (- e))
  | _ => 0
  end.
Definition js_round (x : f64) : Z := to_fixed_scaled x 0.
Definition js_to_fixed `{BrowserLib} (x : f64) (digits : Z) : string :=
  if f64_lt x (e10 21) && f64_lt (f64_sub f64_zero (e10 21)) x then to_fixed x digits else number_text x.
Definition ascii_upper (c : ascii) : ascii := if (97 <=? ord c) && (ord c <=? 122) then chr (ord c - 32) else c.
Definition to_upper_case (s : string) : string := of_list (map ascii_upper (to_list s)).
(** [s.replace(what, by)]: the first occurrence. *)
Definition replace_first (what by_ s : string) : string :=
  match split_once what s with Some (before, rest) => (before +:+ by_ +:+ rest)%string | None => s end.
Example js_ex :
  js_ceil (f64_lit 5 (-1)) = 3 /\ js_ceil (f64_of_Z 7) = 7 /\ js_round (f64_lit 5 (-1)) = 3 /\ to_upper_case "sv2" = "SV2" /\
  replace_first "about" "About every" "about 3 days" = "About every 3 days".
Proof. repeat split; vm_compute; reflexivity. Qed.

Section page.
Context {BL : BrowserLib}.
Definition locale_count (n : Z) : string := locale_number (f64_of_Z n).
(** [fmtDiff] of a number. *)
Definition fmt_diff_number (d : f64) : string :=
  let unit n digits a := (js_to_fixed (f64_div d (e10 n)) digits +:+ a)%string in
  if f64_le (e10 12) d then unit 12 2 "T"
  else if f64_le (e10 9) d then unit 9 2 "G"
  else if f64_le (e10 6) d then unit 6 2 "M"
  else if f64_le (e10 3) d then unit 3 1 "K"
  else number_text d.
Definition fmt_pct (pct : f64) : string :=
  if negb (f64_is_finite pct) then "—"
  else if SFeqb pct f64_zero then "0%"
  else if f64_lt pct (f64_div f64_one (f64_of_Z 100)) then (number_text (to_precision pct 2) +:+ "%")%string
  else ((if f64_lt pct f64_one then js_to_fixed pct 2
         else if f64_lt pct (f64_of_Z 100) then js_to_fixed pct 1
         else locale_count (js_round pct)) +:+ "%")%string.
Definition fmt_timestamp (ts : Z) : string := if ts =? 0 then "—" else locale_timestamp ts.

(** ** The odds of a block *)

Definition fmt_odds (p : f64) : string :=
  if f64_le p f64_zero then "—"
  else
    let inv := f64_of_Z (js_round (f64_div f64_one p)) in
    if f64_le (e10 9) inv then ("1 in " +:+ js_to_fixed (f64_div inv (e10 9)) 1 +:+ "B")%string
    else if f64_le (e10 6) inv then ("1 in " +:+ js_to_fixed (f64_div inv (e10 6)) 2 +:+ "M")%string
    else if f64_le (e10 3) inv then ("1 in " +:+ js_to_fixed (f64_div inv (e10 3)) 1 +:+ "K")%string
    else ("1 in " +:+ locale_number inv)%string.
(** 365.25 days of 86400 seconds; 30.44 days are a month. *)
Definition fmt_wait (secs : f64) : string :=
  let years := f64_div secs (f64_of_Z 31557600) in
  let days := f64_div secs (f64_of_Z 86400) in
  let month := f64_div (f64_of_Z 3044) (f64_of_Z 100) in
  if f64_le f64_one years then ("about " +:+ locale_number (to_precision years 3) +:+ " years")%string
  else if f64_le (f64_of_Z 60) days then ("about " +:+ dec (js_round (f64_div days month)) +:+ " months")%string
  else if f64_le (f64_of_Z 2) days then ("about " +:+ dec (js_round days) +:+ " days")%string
  else ("about " +:+ dec (Z.max 1 (js_round (f64_div secs (f64_of_Z 3600)))) +:+ " hours")%string.
Record odds := { od_daily : string; od_monthly : string; od_yearly : string; od_powerball : string; od_expected_wait : string }.
Definition update_probability (our_hps net_hps : f64) : odds :=
  if SFeqb our_hps f64_zero || SFeqb net_hps f64_zero then
    {| od_daily := "Daily: —"; od_monthly := "Monthly: —"; od_yearly := "Expected wait: —"; od_powerball := "vs Powerball: —";
       od_expected_wait := empty_str |}
  else
    let p_block := f64_div our_hps net_hps in
    let blocks_per_day := f64_of_Z 144 in
    let blocks_per_month := f64_mul blocks_per_day (f64_of_Z 30) in
    let p_daily := f64_sub f64_one (math_pow (f64_sub f64_one p_block) blocks_per_day) in
    let p_monthly := f64_sub f64_one (math_pow (f64_sub f64_one p_block) blocks_per_month) in
    let p_powerball := f64_div f64_one (f64_of_Z 292201338) in
    let ratio := f64_div p_daily p_powerball in
    let wait := fmt_wait (f64_div (f64_of_Z 600) p_block) in
    {| od_daily := ("Daily: " +:+ fmt_odds p_daily)%string; od_monthly := ("Monthly: " +:+ fmt_odds p_monthly)%string;
       od_yearly := ("Expected wait: " +:+ wait)%string;
       od_powerball := if f64_le f64_one ratio then (js_to_fixed ratio 1 +:+ "× better than Powerball")%string
                       else (js_to_fixed (f64_div f64_one ratio) 1 +:+ "× worse than Powerball")%string;
       od_expected_wait := wait |}.

(** ** The round and the blocks found *)

Definition render_round (d : StatsSnapshot) (now_sec : Z) : string * string :=
  let work := js_or_zero (ss_round_work d) in
  let start := ss_round_start_ts d in
  let age := if 0 <? start then now_sec - start else 0 in
  let average :=
    if f64_lt f64_zero work && (0 <? age) then
      (" · " +:+ fmt_hr (f64_div (f64_mul work (f64_of_Z 4294967296)) (f64_of_Z age)) false +:+ " average")%string
    else empty_str in
  let prev := last (ss_found_blocks d) in
  let since :=
    if 0 <? start then ("Round open since " +:+ locale_date start +:+ (match prev with Some _ => empty_str | None => " (pool start)" end))%string
    else "Round open since this boot (no stats database, so it resets on restart)" in
  let closed :=
    match prev with
    | Some b =>
        if f64_lt f64_zero (fb_network_difficulty b) then
          (" · previous round closed at " +:+
           fmt_pct (f64_mul (f64_div (fb_round_work b) (fb_network_difficulty b)) (f64_of_Z 100)) +:+ " effort")%string
        else empty_str
    | None => empty_str
    end in
  ((fmt_diff_number work +:+ " difficulty-work this round" +:+ average)%string, (since +:+ closed)%string).
Record blocks_card := {
  bc_count : string; bc_accent : bool; bc_worker : string; bc_worker_muted : bool; bc_worker_title : string;
  bc_time : string; bc_time_title : string;
  bc_hash : option string;   (** [None] while hidden *)
}.
Definition render_blocks (d : StatsSnapshot) (last_expected_wait : string) (now_sec : Z) : blocks_card :=
  let n := ss_blocks_found d in
  if (n =? 0) || (ss_last_block_ts d =? 0) then
    {| bc_count := locale_count n; bc_accent := 0 <? n; bc_worker := "None yet"; bc_worker_muted := true;
       bc_time := if negb (bool_decide (last_expected_wait = empty_str)) then replace_first "about" "About every" last_expected_wait
                  else "Odds appear once a miner connects";
       bc_worker_title := "The chart marks it when it lands";
       bc_time_title :=
         if negb (bool_decide (last_expected_wait = empty_str)) then
           ("Mean time between blocks at " +:+ fmt_hr (js_or_zero (ss_total_hashrate_10m d)) false +:+
            ", the current 10-minute pool hashrate. The real wait is anything from minutes to many times this.")%string
         else empty_str;
       bc_hash := None |}
  else
    {| bc_count := locale_count n; bc_accent := 0 <? n; bc_worker := ss_last_block_worker d; bc_worker_muted := false;
       bc_time := (fmt_timestamp (ss_last_block_ts d) +:+ " (" +:+ fmt_uptime (Z.max 0 (now_sec - ss_last_block_ts d)) +:+ " ago)" +:+
                   match last (ss_found_blocks d) with
                   | Some b => if negb (fb_height b =? 0)%Z then " · height " +:+ locale_count (fb_height b) else empty_str
                   | None => empty_str
                   end)%string;
       bc_worker_title := "Worker that found the last block"; bc_time_title := empty_str;
       bc_hash := Some (ss_last_block_hash d) |}.

(** Whether a new count of blocks has the chart loaded again. *)
Definition chart_redrawn (blocks_found blocks_marked : Z) (collapsed : bool) : bool :=
  negb (blocks_found =? blocks_marked) && negb collapsed.

(** *** The marks on the chart *)

(** The value of the sample nearest to a time, the first of two; a gap has
    none. *)
Definition nearest_step (ms : Z) (best : option (Z * f64)) (p : Z * option f64) : option (Z * f64) :=
  match snd p with
  | None => best
  | Some v =>
      match best with
      | Some b => if Z.abs (fst p - ms) <? Z.abs (fst b - ms) then Some (fst p, v) else best
      | None => Some (fst p, v)
      end
  end.
Definition nearest (pts : list (Z * option f64)) (ms : Z) : option (Z * f64) := fold_left (nearest_step ms) pts None.
Definition value_at (pts : list (Z * option f64)) (ms : Z) : f64 := match nearest pts ms with Some b => snd b | None => f64_zero end.
(** Line and dot of each block: its time, the name of the line, the height of
    the dot. *)
Definition mark_found_blocks (pts : list (Z * option f64)) (found_blocks : list FoundBlock) : list (Z * string * f64) :=
  match pts with
  | [] => []
  | first :: _ =>
      map (fun b => (fb_ts b * 1000, dec (fb_height b), value_at pts (fb_ts b * 1000)))
        (List.filter (fun b => fst first <=? fb_ts b * 1000) found_blocks)
  end.

(** ** The table of workers *)

Record worker_row := {
  wr_name : string; wr_led : led * string; wr_mode : string; wr_difficulty : string; wr_hr_60s : string; wr_hr_3h : string;
  wr_hr_24h : string; wr_accepted : string; wr_rejected : string; wr_breakdown : string;
  wr_tag : option (string * string * string);   (** class, text and title *)
  wr_best : string; wr_last_share : string; wr_uptime : string;
}.
Definition reject_tag (w : WorkerState) (now_sec : Z) : option (string * string * string) :=
  let h := reject_health locale_count w now_sec in
  let tag cls := Some (("rj-tag " +:+ cls)%string, h_text h, h_title h) in
  match h_level h with LevelOk => None | Act => tag "bad" | Watch => tag "warn" | Recovered => tag "recovered" end.
Definition row_of (now_sec : Z) (w : WorkerState) : worker_row := {|
  wr_name := worker_label (ws_worker w); wr_led := worker_led w now_sec;
  wr_mode := to_upper_case (if bool_decide (ws_protocol w = empty_str) then "sv1" else ws_protocol w);
  wr_difficulty := fmt_diff (ws_current_vardiff w); wr_hr_60s := fmt_hr (ws_hashrate_60s_hps w) false;
  wr_hr_3h := fmt_hr (ws_hashrate_3h_hps w) false; wr_hr_24h := fmt_hr (ws_hashrate_24h_hps w) false;
  wr_accepted := locale_count (ws_shares_accepted w); wr_rejected := locale_count (ws_shares_rejected w);
  wr_breakdown := reject_breakdown locale_count w; wr_tag := reject_tag w now_sec;
  wr_best := fmt_diff (ws_best_share_difficulty w);
  wr_last_share := if 0 <? ws_last_submit_ts w then fmt_uptime (now_sec - ws_last_submit_ts w) else "—";
  wr_uptime := if 0 <? ws_connected_ts w then fmt_uptime (now_sec - ws_connected_ts w) else "—" |}.
(** The fastest first; the sort is stable. *)
Fixpoint insert_fast (x : WorkerState) (l : list WorkerState) : list WorkerState :=
  match l with
  | [] => [x]
  | y :: l => if f64_le (ws_hashrate_60s_hps x) (ws_hashrate_60s_hps y) then y :: insert_fast x l else x :: y :: l
  end.
Definition worker_rows (workers : list WorkerState) (now_sec : Z) : list worker_row :=
  map (row_of now_sec) (fold_left (fun acc w => insert_fast w acc) workers []).

(** ** The texts of the other cards *)

Record cards := {
  ca_current : string; ca_3h : string; ca_24h : string; ca_miners : Z; ca_height : string; ca_txs : string;
  ca_reward : option string;   (** [None]: left as it was *)
  ca_best_share : string; ca_session_best : string; ca_over_network : string; ca_net_hashrate : string; ca_net_diff : string;
  ca_next_adj : string; ca_adj : string * adj_color; ca_session_hashrate : string; ca_best_hashrate : string; ca_uptime : string;
}.
Definition reward_text (coinbase_value : Z) : string :=
  ("Reward: " +:+ js_to_fixed (f64_div (f64_of_Z coinbase_value) (e10 8)) 8 +:+ " BTC")%string.
Definition render_cards (d : StatsSnapshot) : cards :=
  let adj := fmt_adjustment_pct (ss_est_difficulty_change_pct d) in {|
  ca_current := fmt_hr (js_or_zero (ss_total_hashrate_10m d)) false;
  ca_3h := ("3h avg: " +:+ fmt_hr (js_or_zero (ss_total_hashrate_3h d)) false)%string;
  ca_24h := ("24h avg: " +:+ fmt_hr (js_or_zero (ss_total_hashrate_24h d)) false)%string;
  ca_miners := ss_connected_miners d; ca_height := locale_count (ss_current_height d);
  ca_txs := ("Txs: " +:+ locale_count (ss_current_block_transaction_count d))%string;
  ca_reward := if ss_current_coinbase_value d =? 0 then None else Some (reward_text (ss_current_coinbase_value d));
  ca_best_share := fmt_diff (ss_best_share_difficulty d); ca_session_best := fmt_diff (ss_session_best_share_difficulty d);
  ca_over_network := if f64_le (f64_of_Z (js_ceil (ss_network_difficulty d))) (f64_of_Z (ss_best_share_difficulty d)) then "YES" else "no";
  ca_net_hashrate := fmt_hr (js_or_zero (ss_network_hashrate_hps d)) false;
  ca_net_diff := ("Diff: " +:+ fmt_diff_number (js_or_zero (ss_network_difficulty d)))%string;
  ca_next_adj := fmt_next_adjustment (ss_current_height d);
  ca_adj := (("Est. move: " +:+ fst adj)%string, snd adj);
  ca_session_hashrate := fmt_hr (ss_session_best_hashrate_hps d) false; ca_best_hashrate := fmt_hr (ss_best_hashrate_hps d) false;
  ca_uptime := ("Uptime " +:+ fmt_uptime (ss_uptime_secs d))%string |}.

(** ** The dialogs *)

Definition net_badge (network : string) : option string :=
  if negb (bool_decide (network = empty_str)) && negb (bool_decide (network = "mainnet")) then Some network else None.
Record settings_dialog := {
  sd_address : string; sd_network : string; sd_badge : option string; sd_paused : bool; sd_disabled : bool;
  sd_note : option string;   (** [None]: left as it was *)
}.
Definition load_settings (s : SettingsView) : settings_dialog := {|
  sd_address := sv_coinbase_address s; sd_network := sv_network s; sd_badge := net_badge (sv_network s);
  sd_paused := negb (sv_address_valid s); sd_disabled := negb (sv_editable s);
  sd_note := if negb (sv_editable s) then Some "Editing is disabled ([metrics] allow_runtime_settings = false)."
             else if negb (sv_persisted s) then
               Some "No stats database is configured, so changes apply until the next restart only."
             else None |}.
(** The answer to a save, as the script reads it, and the message it shows. *)
Record save_reply := {
  sr_http_ok : bool; sr_status : Z; sr_ok : bool; sr_persisted : bool; sr_error : option string;
}.
Definition save_message (r : save_reply) : string * adj_color :=
  if sr_http_ok r && sr_ok r then
    (if sr_persisted r then "Saved — new jobs pay this address."
     else "Applied (not persisted: no stats DB) — new jobs pay this address.", ColorOk)
  else
    (match sr_error r with
     | Some e => if bool_decide (e = empty_str) then ("Save failed (HTTP " +:+ dec (sr_status r) +:+ ")")%string else e
     | None => ("Save failed (HTTP " +:+ dec (sr_status r) +:+ ")")%string
     end, ColorBad).
Record connect_dialog := {
  cd_url : string; cd_proto : string; cd_address : string; cd_authority : option string; cd_version : string; cd_network : string;
}.
Definition or_dash (s : string) : string := if bool_decide (s = empty_str) then "—" else s.
Definition open_connect (hostname : string) (i : InfoView) : connect_dialog := {|
  cd_url := ("stratum+tcp://" +:+ (if bool_decide (hostname = empty_str) then "your-pool-host" else hostname) +:+ ":" +:+ dec (iv_stratum_port i))%string;
  cd_proto := if iv_sv2_enabled i then "Stratum V1 and V2 (Noise-encrypted) are auto-detected on this one port — point any miner here."
              else "Stratum V1 on this port (SV2 is disabled in this pool’s config).";
  cd_address := or_dash (iv_coinbase_address i);
  cd_authority := match iv_sv2_authority_pubkey i with Some k => if bool_decide (k = empty_str) then None else Some k | None => None end;
  cd_version := ("v" +:+ iv_version i)%string; cd_network := iv_network i |}.

(** A miner so slow that its share of the network is lost in [1 - p] is shown
    as infinitely worse than the lottery. *)
Lemma slow_miner_odds our_hps net_hps :
  SFeqb our_hps f64_zero = false -> SFeqb net_hps f64_zero = false ->
  f64_sub f64_one (f64_div our_hps net_hps) = f64_one -> (forall x, math_pow f64_one x = f64_one) ->
  od_daily (update_probability our_hps net_hps) = "Daily: —" /\
  od_powerball (update_probability our_hps net_hps) = (number_text f64_infinity +:+ "× worse than Powerball")%string.
Proof.
  intros H1 H2 H3 Hp. unfold update_probability. rewrite H1, H2. cbn [orb]. cbv zeta. rewrite H3, Hp.
  assert (f64_sub f64_one f64_one = f64_zero) as -> by (vm_compute; reflexivity). split; [reflexivity|].
  assert (f64_le f64_one (f64_div f64_zero (f64_div f64_one (f64_of_Z 292201338))) = false) as -> by (vm_compute; reflexivity).
  assert (f64_div f64_one (f64_div f64_zero (f64_div f64_one (f64_of_Z 292201338))) = f64_infinity) as -> by (vm_compute; reflexivity).
  unfold js_to_fixed. assert (f64_lt f64_infinity (e10 21) = false) as -> by (vm_compute; reflexivity). reflexivity.
Qed.
Example slow_miner :
  let our := e10 5 in let net := e10 22 in
  SFeqb our f64_zero = false /\ SFeqb net f64_zero = false /\ f64_sub f64_one (f64_div our net) = f64_one.
Proof. repeat split; vm_compute; reflexivity. Qed.
End page.

(** ** What the marks and the dialogs show *)

(** The dot of a block sits on a sample of the chart, and on the nearest. *)
Lemma nearest_spec pts ms :
  match nearest pts ms with
  | Some b => (fst b, Some (snd b)) ∈ pts /\ forall p v, (p, Some v) ∈ pts -> Z.abs (fst b - ms) <= Z.abs (p - ms)
  | None => forall p v, (p, Some v) ∉ pts
  end.
Proof.
  unfold nearest. induction pts as [|[q w] pts IH] using rev_ind; [intros p v; apply not_elem_of_nil|].
  rewrite fold_left_app. cbn [fold_left]. unfold nearest_step at 1. cbn [fst snd].
  assert (forall p v, (p, Some v) ∈ pts ++ [(q, w)] -> (p, Some v) ∈ pts \/ (p = q /\ w = Some v)) as Hin.
  { intros p v [H|[= -> <-]%list_elem_of_singleton]%elem_of_app; [by left|by right]. }
  destruct w as [v|].
  - destruct (fold_left _ pts None) as [b|].
    + destruct IH as [Hb Hmin]. destruct (Z.ltb_spec (Z.abs (q - ms)) (Z.abs (fst b - ms))) as [Hlt|Hle]; cbn [fst snd]; split.
      * apply elem_of_app. right. by left.
      * intros p u [H|[-> _]]%Hin; [specialize (Hmin p u H)|]; lia.
      * apply elem_of_app. by left.
      * intros p u [H|[-> _]]%Hin; [by eapply Hmin|lia].
    + cbn [fst snd]. split; [apply elem_of_app; right; by left|]. intros p u [H|[-> _]]%Hin; [by apply IH in H|lia].
  - destruct (fold_left _ pts None) as [b|].
    + destruct IH as [Hb Hmin]. split; [apply elem_of_app; by left|]. intros p u [H|[_ [=]]]%Hin. by eapply Hmin.
    + intros p u [H|[_ [=]]]%Hin. by apply IH in H.
Qed.
(** A block is marked exactly when the chart reaches back to it. *)
Lemma marks_in_window first rest blocks b :
  b ∈ blocks -> (exists name v, (fb_ts b * 1000, name, v) ∈ mark_found_blocks (first :: rest) blocks) <-> fst first <= fb_ts b * 1000.
Proof.
  intros Hb. cbn [mark_found_blocks]. split.
  - intros (name & v & H).
    apply list_elem_of_fmap in H as (b' & Heq & Hf). injection Heq as Ht _ _.
    apply list_elem_of_In, List.filter_In in Hf as [_ Hle]. lia.
  - intros Hle. eexists _, _. apply list_elem_of_fmap. exists b. split; [reflexivity|].
    apply list_elem_of_In, List.filter_In. split; [by apply list_elem_of_In|lia].
Qed.
