(* ===== verification/Main.v ===== *)
(** Start-up and shutdown (main.rs): the command line, the order in which the
    parts are built and what each is given, the periodic tasks, and what is
    written before the process ends. *)
From S2P Require Export Dashboard Metrics Server StatsFile.
From Stdlib Require Import Strings.Ascii.

(** ** The command line *)

Inductive Cli := Run (path : string) | Version | Help.
Definition parse_args (args : list string) : Cli :=
  match args with
  | [] => Run "config.toml"
  | a :: rest =>
      if bool_decide (a = "-V") || bool_decide (a = "--version") then Version
      else if bool_decide (a = "-h") || bool_decide (a = "--help") then Help
      else if bool_decide (a = "--config") then Run (default "config.toml" (head rest))
      else Run a
  end.
Example parse_args_ex :
  parse_args [] = Run "config.toml" /\ parse_args ["pool.toml"] = Run "pool.toml"
  /\ parse_args ["--config"; "pool.toml"] = Run "pool.toml" /\ parse_args ["--version"] = Version
  /\ parse_args ["-V"] = Version /\ parse_args ["--help"] = Help /\ parse_args ["-h"] = Help.
Proof. repeat split. Qed.

(** The directory of the log files. *)
Definition log_dir_path (home : option string) (log_dir : string) : string := expand_tilde home log_dir.

(** [init_tracing]: what is installed, or the message the process exits with
    before anything else is built. [mkdir] and [open_log] are the answers of
    the file system, [valid_filter] the filter parser's. *)
Record LogSetup := { ls_filter : string; ls_json : bool; ls_files : option (string * Z) }.
Definition init_tracing (valid_filter : string -> bool) (home : option string) (mkdir open_log : string -> option string)
    (cfg : LoggingConfig) : outcome string LogSetup :=
  let filter := if valid_filter (level cfg) then level cfg else "info" in
  match log_dir cfg with
  | Some dir =>
      let path := log_dir_path home dir in
      match mkdir path with
      | Some e => Err ("Failed to create log directory " +:+ path +:+ ": " +:+ e)%string
      | None =>
          match open_log path with
          | Some e => Err ("Failed to open log file in " +:+ path +:+ ": " +:+ e)%string
          | None => Ok {| ls_filter := filter; ls_json := json cfg; ls_files := Some (path, log_max_files cfg) |}
          end
      end
  | None => Ok {| ls_filter := filter; ls_json := json cfg; ls_files := None |}
  end.
(** A setup without a directory never fails, and what it keeps on disk is
    bounded by the configured number of files. *)
Lemma init_tracing_ok valid_filter home mkdir open_log cfg :
  (log_dir cfg = None \/ forall path, mkdir path = None /\ open_log path = None) ->
  exists setup, init_tracing valid_filter home mkdir open_log cfg = Ok setup /\
    forall path n, ls_files setup = Some (path, n) -> n = log_max_files cfg.
Proof.
  unfold init_tracing. intros H. destruct (log_dir cfg) as [dir|]; [|by eexists]. destruct H as [H|H]; [done|].
  destruct (H (log_dir_path home dir)) as [-> ->]. eexists. split; [done|]. by intros path n [= _ <-].
Qed.

(** [shutdown_signal]: the first signal whose handler could be installed;
    [None] while none arrives. *)
Inductive signal := CtrlC | Sigterm.
Definition shutdown_signal (ctrl_c_ok terminate_ok : bool) (arrivals : list signal) : option signal :=
  List.find (fun s => match s with CtrlC => ctrl_c_ok | Sigterm => terminate_ok end) arrivals.

(** ** Building the pool *)

Inductive BootError :=
| RpcFailed (e : PoolError)
| ChainFailed (e : PoolError)
| SettingsFailed (e : SettingsError)
| AuthorityFailed (e : string).
Definition with_error {E F A} (f : E -> F) (r : outcome E A) : outcome F A :=
  match r with Ok a => Ok a | Err e => Err (f e) | Panic => Panic end.

Section boot.
Context {HB : BitcoinLib} {HQ : SqliteLib}.
(** What start-up reads from outside: the file of the statistics database and
    the database's answers, the RPC client, the node's chain, the stored address, the SV2
    authority, the clocks. *)
Record BootEnv := {
  be_file : StatsFile;
  be_open_io : nat -> option string;
  be_conversion_error : Z -> string;
  be_io : nat -> option string;
  be_io_setting : option string;
  be_rpc : outcome PoolError unit;
  be_chain : outcome PoolError string;
  be_authority : outcome string string;
  be_now : Z;
  be_start : Z;
  be_millis : Z;
}.
(** The payout address: the configured one, unless a stored one is valid on
    the node's network. *)
Definition boot_settings (cfg : Config) (env : BootEnv) (stats : PoolStats) : outcome BootError RuntimeSettings :=
  node_chain ← with_error ChainFailed (be_chain env);
  settings ← with_error SettingsFailed (settings_new (pool cfg) node_chain);
  Ok (apply_persisted settings (load_setting stats "coinbase_address" (be_io_setting env))).
(** The dashboard, with the SV2 authority key it shows. *)
Definition boot_dashboard (cfg : Config) (env : BootEnv) : outcome BootError (option (IpAddr * Z * DashState)) :=
  pubkey ← (if sv2_enabled (sv2 cfg) then Some <$> with_error AuthorityFailed (be_authority env) else Ok None);
  Ok (dash_start (prometheus_addr (metrics cfg)) (allow_runtime_settings (metrics cfg)) (listen_addr (pool cfg))
        (sv2_enabled (sv2 cfg)) pubkey (allowed_hosts (metrics cfg))).
(** [main] up to the accept loop: the statistics, the client, the address, an
    engine without a job yet, then the dashboard. *)
Definition boot_stats (cfg : Config) (env : BootEnv) : PoolStats :=
  new_with_store (be_conversion_error env) ((fun path => (path, (open_file (be_file env) (be_open_io env)).2)) <$> stats_db_path (metrics cfg))
    (be_io env) (be_now env) (be_start env).
Definition boot (cfg : Config) (env : BootEnv) : outcome BootError (Shared * option (IpAddr * Z * DashState)) :=
  let stats := boot_stats cfg env in
  _ ← with_error RpcFailed (be_rpc env);
  settings ← boot_settings cfg env stats;
  dash ← boot_dashboard cfg env;
  Ok ({| sh_stats := stats; sh_settings := settings; sh_engine := engine_new; sh_ids := init_job_ids (be_millis env) |},
      dash).

(** [main] up to the accept loop, from the command line. *)
Inductive StartError := LoadFailed (e : LoadError) | BootFailed (e : BootError).
Inductive started := PrintedVersion | PrintedUsage | Serving (cfg : Config) (sh : Shared) (dash : option (IpAddr * Z * DashState)).
Definition main_start `{TomlLib} (args : list string) (read : string -> option string) (vars : list (string * string)) (env : BootEnv)
    : outcome StartError started :=
  match parse_args args with
  | Version => Ok PrintedVersion
  | Help => Ok PrintedUsage
  | Run path =>
      cfg ← with_error LoadFailed (load read vars path);
      '(sh, dash) ← with_error BootFailed (boot cfg env);
      Ok (Serving cfg sh dash)
  end.
Lemma main_start_serves `{TomlLib} args read vars env cfg sh dash :
  main_start args read vars env = Ok (Serving cfg sh dash) -> Config.validate cfg = Ok tt /\ boot cfg env = Ok (sh, dash).
Proof.
  unfold main_start. destruct (parse_args args) as [path| |]; [|done..]. intros Hm.
  apply outcome_bind_ok in Hm as (c & Hc & Hm). apply outcome_bind_ok in Hm as ([sh' dash'] & Hb & Hm).
  assert (c = cfg /\ sh' = sh /\ dash' = dash) as (-> & -> & ->) by (injection Hm as -> -> ->; done).
  destruct (load read vars path) eqn:El; [|done..]. destruct (boot cfg env) as [[]| |] eqn:Eb; [|done..].
  assert (a = cfg) as -> by by injection Hc. split; [by eapply load_validated|]. by injection Hb as -> ->.
Qed.
End boot.

(** ** The periodic tasks, one tick each *)

(** Every ten minutes, every ten seconds, every thirty seconds with an
    exporter, and every thirty seconds from the node's answers ([None]: the
    poll task failed). *)
Definition hashrate_tick `{DashIter} (stats : PoolStats) (ts : Z) (io : nat -> option string) : PoolStats :=
  record_hashrate_snapshot stats ts io.
Definition share_log_tick (stats : PoolStats) (now : Z) (io_open io_write : option string) : PoolStats :=
  flush_share_log stats now io_open io_write.
Definition prometheus_tick `{DashIter} (stats : PoolStats) (now : Z) : list MetricCall :=
  concat (map (fun e => metric_update_hashrate (snd e) (fst e)) (offline_worker_hashrates_10m stats now)) ++
  concat (map (fun e => let '(worker, online, last_share_ts) := e in metric_worker_liveness worker online last_share_ts)
            (worker_liveness stats)) ++
  (if store_configured stats then metric_stats_store_ok (bool_decide (store_error stats = None)) else []) ++
  keep_pool_series_alive.
Definition network_tick (stats : PoolStats) (poll : option (outcome PoolError f64 * outcome PoolError f64)) : PoolStats :=
  match poll with
  | Some (hashrate, difficulty) =>
      let stats := match hashrate with Ok network_hps => set_network_hashrate stats network_hps | _ => stats end in
      match difficulty with Ok pct => set_est_difficulty_change_pct stats pct | _ => stats end
  | None => stats
  end.

(** ** Serving (network/server.rs) *)

Section serving.
Context {Ip : Type} `{!EqDecision Ip} `{!Countable Ip}.
(** The background pruner, every five minutes. *)
Definition prune_tick `{DashIter} (bans : BanList Ip) (lim : ConnectionRateLimiter Ip) (stats : PoolStats)
    (b r now : Z) (io : option string) : BanList Ip * ConnectionRateLimiter Ip * PoolStats :=
  (ban_prune bans b, limiter_prune lim r, prune_idle_workers stats now io).
(** One accepted connection: refused, or the session it gets once its first
    byte was peeked at. *)
Definition accept_connection (cfg : Config) (reserved : bool) (bans : BanList Ip) (lim : ConnectionRateLimiter Ip) (ip : Ip)
    (b1 b2 r1 r2 r3 : Z) (p : peeked) : BanList Ip * ConnectionRateLimiter Ip * (refusal + protocol) :=
  let '(bans, lim, refused) := admission reserved bans lim ip b1 b2 r1 r2 r3 in
  (bans, lim, match refused with Some why => inl why | None => inr (detect (sv2_enabled (sv2 cfg)) p) end).
End serving.

(** ** Shutdown *)

(** After the listener closed; [polls] are the count of submissions in flight
    and the clock as the wait reads them. *)
Definition SHUTDOWN_WAIT : Z := from_secs 5.
Definition shutdown `{DashIter} (stats : PoolStats) (ts : Z) (io : nat -> option string) (now : Z)
    (io_open io_write : option string) (wait_from : Z) (polls : list (Z * Z)) : PoolStats * option bool :=
  (flush_share_log (record_hashrate_snapshot stats ts io) now io_open io_write,
   wait_for_inflight_submits (wait_from + SHUTDOWN_WAIT) polls).
