(* ===== verification/Sv2Messages.v ===== *)
(** Stratum V2 frames and messages (protocol/sv2/messages.rs) and the job and
    target conversions of protocol/sv2/job.rs.

    The payload encoding is the crates [binary_sv2], [mining_sv2] and
    [common_messages_sv2]: [Sv2Lib] has their decoders and encoder and the
    message type numbers. An inbound payload that does not decode, and an
    outbound message whose fields do not fit the wire types, give the error
    text of those crates. *)
From S2P Require Export Validator.
From Stdlib Require Import Strings.Ascii.

(** ** Frames *)

Definition EXT_TYPE : Z := 0x0000.
Definition CHANNEL_MSG_BIT : Z := 0x8000.
(** [framing_sv2::Header::SIZE]. *)
Definition header_size : nat := 6.
(** The length is cast to a [u32] and its low three bytes are written. *)
Definition frame_bytes (msg_type : Z) (channel_msg : bool) (payload : list byte) : list byte :=
  let ext := Z.lor EXT_TYPE (if channel_msg then CHANNEL_MSG_BIT else 0) in
  let len := le_bytes 4 (wrap 32 (Z.of_nat (length payload))) in
  le_bytes 2 ext ++ [z2b msg_type] ++ take 3 len ++ payload.

(** The frame a receiver reads back, as the header comment of messages.rs
    describes the wire: the extension type, the message type, the length, and
    so many bytes of payload. *)
Record frame := { fr_ext : Z; fr_channel_msg : bool; fr_msg_type : Z; fr_payload : list byte }.
Definition read_frame (l : list byte) : option (frame * list byte) :=
  match l with
  | e0 :: e1 :: t :: l0 :: l1 :: l2 :: rest =>
      let ext := le2z [e0; e1] in
      let n := Z.to_nat (le2z [l0; l1; l2]) in
      if (length rest <? n)%nat then None
      else Some ({| fr_ext := Z.land ext 0x7fff; fr_channel_msg := Z.testbit ext 15;
                    fr_msg_type := b2z t; fr_payload := take n rest |}, drop n rest)
  | _ => None
  end.

(** ** Messages *)

Definition FLAG_REQUIRES_STANDARD_JOBS : Z := Z.shiftl 1 0.
Definition FLAG_REQUIRES_WORK_SELECTION : Z := Z.shiftl 1 1.
Definition UNSUPPORTED_SETUP_FLAGS : Z := Z.lor FLAG_REQUIRES_STANDARD_JOBS FLAG_REQUIRES_WORK_SELECTION.

(** The sub-protocol; only the mining protocol is told apart, the others are
    carried as their debug text. *)
Inductive Protocol := MiningProtocol | OtherProtocol (debug : string).
Record SetupConn := { setup_protocol : Protocol; min_version : Z; max_version : Z; flags : Z }.
Record OpenExtended := {
  open_request_id : Z; user_identity : string; nominal_hash_rate : Z; max_target : list byte;
  min_extranonce_size : Z;
}.
Record SubmitExtended := {
  sx_channel_id : Z; sequence_number : Z; sx_job_id : Z; sx_nonce : Z; sx_ntime : Z; sx_version : Z;
  sx_extranonce : list byte;
}.
Record NewExtendedMiningJob := {
  nj_channel_id : Z; nj_job_id : Z; nj_min_ntime : option Z; nj_version : Z; nj_version_rolling_allowed : bool;
  nj_merkle_path : list (list byte); nj_coinbase_tx_prefix : list byte; nj_coinbase_tx_suffix : list byte;
}.
Record SetNewPrevHash := {
  np_channel_id : Z; np_job_id : Z; np_prev_hash : list byte; np_min_ntime : Z; np_nbits : Z;
}.
(** What the pool sends. *)
Inductive PoolMessage :=
| MSetupConnectionSuccess (used_version flags : Z)
| MSetupConnectionError (flags : Z) (error_code : string)
| MOpenExtendedSuccess (request_id channel_id : Z) (target : list byte) (extranonce_size : Z)
    (extranonce_prefix : list byte) (group_channel_id : Z)
| MOpenChannelErrorExtranonce (request_id : Z)
| MSetTarget (channel_id : Z) (maximum_target : list byte)
| MSubmitSharesSuccess (channel_id last_sequence_number new_submits_accepted_count new_shares_sum : Z)
| MSubmitSharesError (channel_id sequence_number : Z) (error_code : string)
| MNewExtendedMiningJob (job : NewExtendedMiningJob)
| MSetNewPrevHash (prev : SetNewPrevHash).

Class Sv2Lib := {
  decode_setup_payload : list byte -> outcome string SetupConn;
  decode_open_payload : list byte -> outcome string OpenExtended;
  decode_submit_payload : list byte -> outcome string SubmitExtended;
  encode_message : PoolMessage -> outcome string (list byte);
  MESSAGE_TYPE_SETUP_CONNECTION : Z;
  MESSAGE_TYPE_OPEN_EXTENDED_MINING_CHANNEL : Z;
  MESSAGE_TYPE_SUBMIT_SHARES_EXTENDED : Z;
}.
Definition map_err {E F A} (f : E -> F) (o : outcome E A) : outcome F A :=
  match o with Ok a => Ok a | Err e => Err (f e) | Panic => Panic end.
Definition decode_setup_connection `{Sv2Lib} (payload : list byte) : outcome string SetupConn :=
  map_err (fun e => "decode SetupConnection: " +:+ e) (decode_setup_payload payload).
Definition decode_open_extended `{Sv2Lib} (payload : list byte) : outcome string OpenExtended :=
  map_err (fun e => "decode OpenExtendedMiningChannel: " +:+ e) (decode_open_payload payload).
Definition decode_submit_extended `{Sv2Lib} (payload : list byte) : outcome string SubmitExtended :=
  map_err (fun e => "decode SubmitSharesExtended: " +:+ e) (decode_submit_payload payload).

(** The message constructors of messages.rs. *)
Definition setup_connection_success (used_version : Z) : PoolMessage := MSetupConnectionSuccess used_version 0.
Definition setup_connection_error (code : string) (flags : Z) : PoolMessage := MSetupConnectionError flags code.
Definition open_extended_success (request_id channel_id : Z) (target_le : list byte) (extranonce_size : Z)
    (extranonce_prefix : list byte) : PoolMessage :=
  MOpenExtendedSuccess request_id channel_id target_le extranonce_size extranonce_prefix 0.
Definition open_channel_error_extranonce (request_id : Z) : PoolMessage := MOpenChannelErrorExtranonce request_id.
Definition set_target (channel_id : Z) (target_le : list byte) : PoolMessage := MSetTarget channel_id target_le.
Definition submit_shares_success (channel_id last_sequence_number shares_sum : Z) : PoolMessage :=
  MSubmitSharesSuccess channel_id last_sequence_number 1 shares_sum.
Definition submit_shares_error (channel_id sequence_number : Z) (code : string) : PoolMessage :=
  MSubmitSharesError channel_id sequence_number code.

(** ** Jobs and targets on the wire (job.rs) *)

Definition difficulty_to_sv2_target (difficulty : Z) : list byte := rev (difficulty_to_target difficulty).
(** [a <= b] on little-endian 256-bit targets. *)
Definition sv2_target_le (a b : list byte) : bool := lex_le (rev a) (rev b).
(** The texts of these errors are only logged; the hex and integer parsers'
    own messages are left out. *)
Definition stratum_prevhash_to_internal `{HexLib} (stratum_hex : string) : outcome string (list byte) :=
  match hex_decode stratum_hex with
  | None => Err "prev_hash hex"
  | Some bytes =>
      if negb (length bytes =? 32)%nat then
        Err ("prev_hash must be 32 bytes, got " +:+ dec (Z.of_nat (length bytes)))
      else Ok (swap_words bytes)
  end.
Definition build_new_extended_job (job : StratumJob) (channel_id job_id : Z) (future : bool) : NewExtendedMiningJob := {|
  nj_channel_id := channel_id; nj_job_id := job_id;
  nj_min_ntime := if future then None else Some (cur_time job);
  nj_version := version job; nj_version_rolling_allowed := true; nj_merkle_path := merkle_branch_raw job;
  nj_coinbase_tx_prefix := coinbase1 job; nj_coinbase_tx_suffix := coinbase2 job |}.
Definition build_set_new_prev_hash `{HexLib} (job : StratumJob) (channel_id job_id : Z) : outcome string SetNewPrevHash :=
  prev ← stratum_prevhash_to_internal (prev_hash job);
  nbits ← ok_or "nbits" (from_str_radix16 32 (bits job));
  Ok {| np_channel_id := channel_id; np_job_id := job_id; np_prev_hash := prev; np_min_ntime := cur_time job;
        np_nbits := nbits |}.
