(* ===== verification/Noise.v ===== *)
(** The Stratum V2 transport (protocol/sv2/noise.rs): the reader that bounds
    what a frame may take, the writer, the authority key and its file.

    The handshake, the frame decoder and encoder are the crates [noise_sv2]
    and [codec_sv2], the key encoding is [key_utils]: [NoiseLib] and [KeyLib]
    have what the source calls of them. *)
From S2P Require Export Sv2Messages.
From Stdlib Require Import Strings.Ascii.

(** ** Reading frames *)

(** One step of the decoder: a frame, or how many bytes it wants next, or an
    error; an error consumes the decryption state. *)
Inductive decrypted (St : Type) :=
| Frame (msg_type : Z) (payload : list byte) (state : St)
| Incomplete (missing : Z) (state : St)
| DecodeError (e : string).
Arguments Frame {St}.
Arguments Incomplete {St}.
Arguments DecodeError {St}.
Class NoiseLib := {
  NoiseDecoder : Type;
  DecryptState : Type;
  EncryptState : Type;
  next_transport_frame : NoiseDecoder -> DecryptState -> NoiseDecoder * decrypted DecryptState;
  writable_len : NoiseDecoder -> nat;
  fill_writable : NoiseDecoder -> list byte -> NoiseDecoder;
  encode_transport : list byte -> EncryptState -> EncryptState * outcome string (list byte);
}.
(** What the reader relies on: an incomplete frame wants at least one byte,
    and the buffer it hands out to be filled has that length. *)
Class NoiseLaws `{NoiseLib} : Prop := {
  missing_positive d st d' missing st' :
    next_transport_frame d st = (d', Incomplete missing st') -> 1 <= missing < 2 ^ 63;
  writable_missing d st d' missing st' :
    next_transport_frame d st = (d', Incomplete missing st') -> Z.of_nat (writable_len d') = missing;
}.

Inductive read_error :=
| InvalidData (at_least max_frame : Z)
| UnexpectedEof
| OtherError (msg : string).
Section reader.
Context {HN : NoiseLib}.
Record NoiseReader := {
  nr_decoder : NoiseDecoder;
  nr_state : option DecryptState;
  nr_max_frame : Z;
  nr_frame_read : Z;
}.
Definition noise_reader_new (decoder : NoiseDecoder) (state : DecryptState) (max_frame : Z) : NoiseReader :=
  {| nr_decoder := decoder; nr_state := Some state; nr_max_frame := max_frame; nr_frame_read := 0 |}.
Definition oversize_err (at_least max_frame : Z) : read_error := InvalidData at_least max_frame.

(** [NoiseReader::read] on a stream of which [input] is left before it ends;
    [None] when the fuel runs out. *)
Fixpoint noise_read (fuel : nat) (r : NoiseReader) (input : list byte)
    : option (NoiseReader * list byte * outcome read_error (Z * list byte)) :=
  match fuel with
  | O => None
  | S fuel =>
      match nr_state r with
      | None => Some (r, input, Err (OtherError "noise transport unusable after a decode error"))
      | Some state =>
          match next_transport_frame (nr_decoder r) state with
          | (decoder, Frame msg_type payload state) =>
              Some ({| nr_decoder := decoder; nr_state := Some state; nr_max_frame := nr_max_frame r; nr_frame_read := 0 |},
                    input, Ok (msg_type, payload))
          | (decoder, Incomplete missing state) =>
              let r := {| nr_decoder := decoder; nr_state := Some state; nr_max_frame := nr_max_frame r;
                          nr_frame_read := nr_frame_read r |} in
              let total := saturating_add 64 (nr_frame_read r) missing in
              if nr_max_frame r <? total then Some (r, input, Err (oversize_err total (nr_max_frame r)))
              else
                let n := writable_len decoder in
                if (length input <? n)%nat then Some (r, [], Err UnexpectedEof)
                else noise_read fuel
                       {| nr_decoder := fill_writable decoder (take n input); nr_state := nr_state r;
                          nr_max_frame := nr_max_frame r; nr_frame_read := total |} (drop n input)
          | (decoder, DecodeError e) =>
              Some ({| nr_decoder := decoder; nr_state := None; nr_max_frame := nr_max_frame r;
                       nr_frame_read := nr_frame_read r |}, input, Err (OtherError ("noise decode error: " +:+ e)))
          end
      end
  end.

(** The reader task of a session: frames are forwarded until the first error,
    and only an oversize frame bans the peer. *)
Fixpoint reader_task (fuel read_fuel : nat) (r : NoiseReader) (input : list byte)
    : option (list (Z * list byte) * bool) :=
  match fuel with
  | O => None
  | S fuel =>
      match noise_read read_fuel r input with
      | None => None
      | Some (r, input, Ok msg) =>
          '(msgs, ban) ← reader_task fuel read_fuel r input;
          Some (msg :: msgs, ban)
      | Some (_, _, Err (InvalidData _ _)) => Some ([], true)
      | Some (_, _, _) => Some ([], false)
      end
  end.

(** ** Writing frames *)

(** [NoiseWriter::send]: the header is checked against the bytes, the frame
    encrypted and written; [written] says whether write and flush went
    through. *)
Definition header_matches (full : list byte) : bool :=
  match read_frame full with Some (_, []) => true | _ => false end.
Definition noise_send (state : EncryptState) (msg_type : Z) (channel_msg : bool) (payload : list byte) (written : bool)
    : EncryptState * option (list byte) :=
  let full := frame_bytes msg_type channel_msg payload in
  if negb (header_matches full) then (state, None)
  else
    match encode_transport full state with
    | (state, Ok bytes) => (state, if written then Some bytes else None)
    | (state, _) => (state, None)
    end.
End reader.

(** ** The authority key *)

Class KeyLib := {
  valid_secret : list byte -> Prop;
  parse_secret : string -> outcome string (list byte);
  encode_secret : list byte -> string;
  encode_public_key : list byte -> string;
}.
Record Authority := { au_secret : list byte; au_cert_validity_secs : Z }.

(** *** The file system under the key file *)

(** Names lead to inodes, and an inode holds its contents; contents not yet
    synced may be lost from some point on when the machine goes down. *)
Record inode := { i_contents : string; i_mode : Z; i_synced : bool }.
Record fs := { names : gmap string nat; inodes : gmap nat inode }.
#[export] Instance fs_id : FieldwiseId fs := fun r => {| names := names r; inodes := inodes r |}.
Definition fs_read (f : fs) (path : string) : option string := i ← names f !! path; i_contents <$> inodes f !! i.
Definition newline_string : string := String "010" EmptyString.

(** [key_tmp_path]: the sibling with [.tmp] appended to its file name. *)
Definition key_tmp_path (path : string) : string := path +:+ ".tmp".

(** [write_owner_only], one system call per step, each of which may fail; a
    write can be seen half done. [KwOpen] and later positions hold the inode
    the file was created with: a later system call of another process on the
    name does not change what this process writes to. *)
Inductive kw_pos :=
| KwRemove
| KwCreate
| KwWrite (i : nat)
| KwNewline (i : nat)
| KwSync (i : nat)
| KwLink
| KwRename
| KwCleanup (ok : bool)
| KwDone (ok : bool).
Definition with_contents (f : fs) (i : nat) (s : string) : fs :=
  f <! inodes ::= alter (fun x => {| i_contents := s; i_mode := i_mode x; i_synced := false |}) i !>.
Section keyfile.
Context (path contents : string).
Abbreviation tmp := (key_tmp_path path).
Inductive kw_step : fs * kw_pos -> fs * kw_pos -> Prop :=
| kw_remove f : kw_step (f, KwRemove) (f <! names ::= delete tmp !>, KwCreate)
| kw_remove_fails f : kw_step (f, KwRemove) (f, KwCreate)
| kw_create f i : names f !! tmp = None -> inodes f !! i = None ->
    kw_step (f, KwCreate)
      ({| names := <[tmp := i]> (names f);
          inodes := <[i := {| i_contents := ""; i_mode := 0x180; i_synced := false |}]> (inodes f) |}, KwWrite i)
| kw_create_fails f : kw_step (f, KwCreate) (f, KwCleanup false)
| kw_write_part f i s : String.prefix s contents = true -> kw_step (f, KwWrite i) (with_contents f i s, KwWrite i)
| kw_write f i : kw_step (f, KwWrite i) (with_contents f i contents, KwNewline i)
| kw_write_fails f i : kw_step (f, KwWrite i) (f, KwCleanup false)
| kw_newline f i : kw_step (f, KwNewline i) (with_contents f i (contents +:+ newline_string), KwSync i)
| kw_newline_fails f i : kw_step (f, KwNewline i) (f, KwCleanup false)
| kw_sync f i : kw_step (f, KwSync i)
    (f <! inodes ::= alter (fun x => {| i_contents := i_contents x; i_mode := i_mode x; i_synced := true |}) i !>, KwLink)
| kw_sync_fails f i : kw_step (f, KwSync i) (f, KwCleanup false)
| kw_link f i : names f !! tmp = Some i -> names f !! path = None ->
    kw_step (f, KwLink) (f <! names ::= <[path := i]> !>, KwCleanup true)
| kw_link_exists f i : names f !! path = Some i -> kw_step (f, KwLink) (f, KwCleanup false)
| kw_link_unsupported f : kw_step (f, KwLink) (f, KwRename)
| kw_rename f i : names f !! tmp = Some i ->
    kw_step (f, KwRename) (f <! names ::= fun m => <[path := i]> (delete tmp m) !>, KwCleanup true)
| kw_rename_fails f : kw_step (f, KwRename) (f, KwCleanup false)
| kw_cleanup f ok : kw_step (f, KwCleanup ok) (f <! names ::= delete tmp !>, KwDone ok)
| kw_cleanup_fails f ok : kw_step (f, KwCleanup ok) (f, KwDone ok).
(** Two processes writing the key at once. *)
Inductive kw_race : fs * kw_pos * kw_pos -> fs * kw_pos * kw_pos -> Prop :=
| race_left f f' a a' b : kw_step (f, a) (f', a') -> kw_race (f, a, b) (f', a', b)
| race_right f f' a b b' : kw_step (f, b) (f', b') -> kw_race (f, a, b) (f', a, b').
End keyfile.
(** The machine going down: what was not synced may be cut short. *)
Inductive crash : fs -> fs -> Prop :=
| crash_fs f f' :
    names f' = names f ->
    (forall i, match inodes f !! i, inodes f' !! i with
               | Some x, Some y => i_mode y = i_mode x /\ i_synced y = i_synced x /\
                   (if i_synced x then i_contents y = i_contents x
                    else String.prefix (i_contents y) (i_contents x) = true)
               | None, None => True
               | _, _ => False
               end) ->
    crash f f'.

(** *** Loading the key *)

(** [load_or_generate_secret]: [read] is what reading the file gave, [None]
    when it is not there; [fresh] is the generated key and [write] the
    directory creation and the write that follow. *)
Definition load_or_generate_secret `{KeyLib} (read : outcome string (option string)) (fresh : list byte)
    (write : string -> outcome string ()) : outcome string (list byte) :=
  match read with
  | Ok (Some contents) => parse_secret (trim contents)
  | Ok None => _ ← write (encode_secret fresh); Ok fresh
  | Err e => Err e
  | Panic => Panic
  end.
(** [init]: the first authority set for the process stays. *)
Definition init_authority `{KeyLib} (current : option Authority) (persist : bool) (cert_validity_secs : Z)
    (read : outcome string (option string)) (fresh : list byte) (write : string -> outcome string ())
    : outcome string (Authority * string) :=
  secret ← (if persist then load_or_generate_secret read fresh write else Ok fresh);
  let a := default {| au_secret := secret; au_cert_validity_secs := cert_validity_secs |} current in
  Ok (a, encode_public_key (au_secret a)).
Definition authority (current : option Authority) (fresh : list byte) : Authority :=
  default {| au_secret := fresh; au_cert_validity_secs := 365 * 24 * 60 * 60 |} current.
(** The encoding of a valid key reads back from the line the file holds. *)
Class KeyLaws `{KeyLib} : Prop :=
  parse_encode_secret secret :
    valid_secret secret -> parse_secret (trim (encode_secret secret +:+ newline_string)) = Ok secret.

(** ** The handshake *)

(** Crates [secp256k1] and [noise_sv2]: the responder's key pair is made from
    the secret, which panics when the secret is not one; its one step answers
    the initiator's key with a reply and the transport. *)
Class HandshakeLib := {
  Transport : Type;
  secret_in_range : list byte -> bool;
  responder_step_1 : list byte -> Z -> list byte -> outcome string (list byte * Transport);
}.
Definition ELLSWIFT_ENCODING_SIZE : nat := 64.
Inductive handshake_error := HandshakeRead | HandshakeStep (e : string) | HandshakeWrite.
(** On a stream of which [input] is left before it ends; what is left after
    it, and the reply that was sent. *)
Definition responder_handshake_with `{HandshakeLib} (secret : list byte) (cert_validity_secs : Z) (input : list byte)
    (written : bool) : list byte * list byte * outcome handshake_error Transport :=
  if negb (secret_in_range secret) then (input, [], Panic)
  else if (length input <? ELLSWIFT_ENCODING_SIZE)%nat then ([], [], Err HandshakeRead)
  else
    let rest := drop ELLSWIFT_ENCODING_SIZE input in
    match responder_step_1 secret cert_validity_secs (take ELLSWIFT_ENCODING_SIZE input) with
    | Ok (response, transport) => if written then (rest, response, Ok transport) else (rest, [], Err HandshakeWrite)
    | Err e => (rest, [], Err (HandshakeStep e))
    | Panic => (rest, [], Panic)
    end.
Definition responder_handshake `{HandshakeLib} (current : option Authority) (fresh input : list byte) (written : bool) :=
  let auth := authority current fresh in
  responder_handshake_with (au_secret auth) (au_cert_validity_secs auth) input written.
(** A handshake that succeeds took exactly the initiator's key from the
    stream, so the first frame is read from the byte after it; one that fails
    sent nothing a session could be confused by. *)
Lemma responder_handshake_bytes `{HandshakeLib} secret cert input written rest sent r :
  responder_handshake_with secret cert input written = (rest, sent, r) ->
  match r with
  | Ok transport => exists key, input = key ++ rest /\ length key = ELLSWIFT_ENCODING_SIZE /\
      responder_step_1 secret cert key = Ok (sent, transport)
  | _ => sent = []
  end.
Proof.
  unfold responder_handshake_with. destruct (negb _); [by intros [= <- <- <-]|].
  destruct (Nat.ltb_spec (length input) ELLSWIFT_ENCODING_SIZE) as [Hl|Hl]; [by intros [= <- <- <-]|].
  destruct (responder_step_1 _ _ _) as [[response transport]|e|] eqn:E; [|by intros [= <- <- <-]..].
  destruct written; intros [= <- <- <-]; [|done]. exists (take ELLSWIFT_ENCODING_SIZE input).
  split; [by rewrite take_drop|]. split; [|done]. rewrite length_take. lia.
Qed.
