(* ===== verification/NoiseFacts.v ===== *)
(** Lemmas about the Stratum V2 transport: the reader's bound and termination,
    and what the key file can hold. *)
From S2P Require Export Noise.
From Stdlib Require Import Strings.Ascii.

(** ** The reader *)

Section reader.
Context {HN : NoiseLib} {HNL : NoiseLaws}.
Implicit Types (r : NoiseReader) (input : list byte).

Definition with_max (r : NoiseReader) (max : Z) : NoiseReader :=
  {| nr_decoder := nr_decoder r; nr_state := nr_state r; nr_max_frame := max; nr_frame_read := nr_frame_read r |}.
(** The cap is never changed. *)
Lemma noise_read_cap fuel r input r' rest res :
  noise_read fuel r input = Some (r', rest, res) -> nr_max_frame r' = nr_max_frame r.
Proof.
  revert r input; induction fuel as [|fuel IH]; intros r input H; [done|]. cbn [noise_read] in H.
  destruct (nr_state r) as [st|]; [|by injection H as <- <- <-].
  destruct (next_transport_frame _ _) as [d [t p st'|missing st'|e]]; [by injection H as <- <- <-| |by injection H as <- <- <-].
  cbv zeta in H. destruct (_ <? _); [by injection H as <- <- <-|].
  destruct (_ <? _)%nat; [by injection H as <- <- <-|]. apply IH in H. exact H.
Qed.
(** Every read brings the count closer to the cap, so the loop ends; it never
    takes more than the cap allows. *)
Lemma noise_read_total fuel r input :
  0 <= nr_frame_read r <= nr_max_frame r -> nr_max_frame r < 2 ^ 63 ->
  nr_max_frame r - nr_frame_read r < Z.of_nat fuel ->
  exists r' rest res, noise_read fuel r input = Some (r', rest, res) /\
    Z.of_nat (length input) - Z.of_nat (length rest) <= nr_max_frame r - nr_frame_read r /\
    (length rest <= length input)%nat /\
    match res with
    | Ok _ => nr_frame_read r' = 0
    | Err (InvalidData at_least max) => max = nr_max_frame r /\ max < at_least
    | _ => True
    end.
Proof.
  revert r input; induction fuel as [|fuel IH]; intros r input Hr Hm Hf; [lia|]. cbn [noise_read].
  destruct (nr_state r) as [st|]; [|eexists _, _, _; split; [done|split; [lia|done]]].
  destruct (next_transport_frame _ _) as [d [t p st'|missing st'|e]] eqn:En;
    [eexists _, _, _; split; [done|split; [lia|done]]| |eexists _, _, _; split; [done|split; [lia|done]]].
  pose proof (missing_positive _ _ _ _ _ En) as Hmiss. pose proof (writable_missing _ _ _ _ _ En) as Hw.
  cbv zeta. cbn [nr_max_frame nr_frame_read nr_state].
  assert (saturating_add 64 (nr_frame_read r) missing = nr_frame_read r + missing) as ->
    by (unfold saturating_add, umax; lia).
  destruct (Z.ltb_spec (nr_max_frame r) (nr_frame_read r + missing)) as [Hlt|Hge].
  { eexists _, _, _. split; [done|]. split; [lia|]. split; [done|]. by split. }
  destruct (Nat.ltb_spec (length input) (writable_len d)) as [Heof|Hin].
  { eexists _, _, _. split; [done|]. cbn [length]. split; [lia|]. split; [lia|done]. }
  set (r1 := {| nr_decoder := _; nr_state := _; nr_max_frame := _; nr_frame_read := _ |}).
  destruct (IH r1 (drop (writable_len d) input)) as (r' & rest & res & -> & H1 & H2 & H3); [cbn; lia..|].
  exists r', rest, res. split; [done|]. rewrite length_drop in H1, H2. cbn in H1, H3. split; [lia|]. split; [lia|done].
Qed.
Lemma noise_read_rest fuel r input r' rest res :
  noise_read fuel r input = Some (r', rest, res) -> (length rest <= length input)%nat.
Proof.
  revert r input; induction fuel as [|fuel IH]; intros r input H; [done|]. cbn [noise_read] in H.
  destruct (nr_state r) as [st|]; [|by injection H as <- <- <-].
  destruct (next_transport_frame _ _) as [d [t p st'|missing st'|e]]; [by injection H as <- <- <-| |by injection H as <- <- <-].
  cbv zeta in H. destruct (_ <? _); [by injection H as <- <- <-|].
  destruct (_ <? _)%nat; [injection H as <- <- <-; cbn; lia|]. apply IH in H. rewrite length_drop in H. lia.
Qed.
(** Against a reader without a cap: the same result while the bytes taken fit,
    a refusal once they do not. *)
Lemma noise_read_uncapped fuel r input max r' rest msg :
  0 <= nr_frame_read r -> nr_frame_read r + Z.of_nat (length input) < 2 ^ 63 -> nr_frame_read r <= max < 2 ^ 63 ->
  nr_max_frame r = umax 64 -> noise_read fuel r input = Some (r', rest, Ok msg) ->
  if nr_frame_read r + (Z.of_nat (length input) - Z.of_nat (length rest)) <=? max then
    noise_read fuel (with_max r max) input = Some (with_max r' max, rest, Ok msg)
  else exists r2 rest2 at_least,
    noise_read fuel (with_max r max) input = Some (r2, rest2, Err (InvalidData at_least max)) /\ max < at_least.
Proof.
  revert r input; induction fuel as [|fuel IH]; intros r input H0 Hin Hmax Hcap H; [done|].
  cbn [noise_read] in H |- *. cbn [with_max nr_state nr_decoder].
  destruct (nr_state r) as [st|]; [|done].
  destruct (next_transport_frame _ _) as [d [t p st'|missing st'|e]] eqn:En; [| |done].
  { injection H as <- <- <-. rewrite Z.sub_diag, (proj2 (Z.leb_le _ _)) by lia. done. }
  pose proof (missing_positive _ _ _ _ _ En) as Hmiss. pose proof (writable_missing _ _ _ _ _ En) as Hw.
  cbv zeta in H |- *. cbn [nr_max_frame nr_frame_read nr_state with_max] in H |- *. rewrite Hcap in H.
  destruct (umax 64 <? _); [done|]. destruct (Nat.ltb_spec (length input) (writable_len d)) as [|Hle]; [done|].
  assert (saturating_add 64 (nr_frame_read r) missing = nr_frame_read r + missing) as Hs
    by (unfold saturating_add, umax; lia).
  rewrite Hs in *.
  assert (length rest <= length (drop (writable_len d) input))%nat as Hrest by by eapply noise_read_rest.
  rewrite length_drop in Hrest.
  destruct (Z.ltb_spec max (nr_frame_read r + missing)) as [Hlt|Hge].
  - rewrite (proj2 (Z.leb_gt _ _)) by lia. by eexists _, _, _.
  - apply IH in H; cbn [nr_frame_read nr_max_frame] in *; [|rewrite ?length_drop; lia..|done].
    rewrite length_drop in H.
    replace (nr_frame_read r + missing + (Z.of_nat (length input - writable_len d) - Z.of_nat (length rest)))
      with (nr_frame_read r + (Z.of_nat (length input) - Z.of_nat (length rest))) in H by lia.
    exact H.
Qed.
End reader.

(** ** The key file *)

Lemma tmp_not_path path : key_tmp_path path ≠ path.
Proof.
  unfold key_tmp_path. intros H. apply (f_equal String.length) in H.
  assert (forall a b, String.length (a +:+ b) = (String.length a + String.length b)%nat) as Hl
    by (intros a b; induction a as [|c a IH]; [done|exact (f_equal S IH)]).
  rewrite Hl in H. cbn in H. lia.
Qed.
Section keyfile.
Context (path contents : string) (f0 : fs).
Abbreviation tmp := (key_tmp_path path).
Abbreviation full := (contents +:+ newline_string).

(** The file being written: under the temporary name, not the one the path
    had. *)
Definition own (f : fs) (i : nat) (s : string) (synced : bool) : Prop :=
  names f !! tmp = Some i /\ names f0 !! path ≠ Some i /\
  inodes f !! i = Some {| i_contents := s; i_mode := 0x180; i_synced := synced |}.
Definition path_same (f : fs) : Prop := names f !! path = names f0 !! path.
Definition published (f : fs) : Prop :=
  exists i, names f !! path = Some i /\
    inodes f !! i = Some {| i_contents := full; i_mode := 0x180; i_synced := true |}.
Definition pos_inv (f : fs) (pos : kw_pos) : Prop :=
  match pos with
  | KwRemove | KwCreate | KwCleanup false | KwDone false => path_same f
  | KwWrite i => path_same f /\ exists s, own f i s false
  | KwNewline i => path_same f /\ own f i contents false
  | KwSync i => path_same f /\ own f i full false
  | KwLink | KwRename => path_same f /\ exists i, own f i full true
  | KwCleanup true | KwDone true => published f
  end.
(** What the path named before is never written to. *)
Definition old_kept (f : fs) : Prop :=
  forall k x, names f0 !! path = Some k -> inodes f0 !! k = Some x -> inodes f !! k = Some x.

Lemma own_write f i s s' synced :
  own f i s synced -> own (with_contents f i s') i s' false.
Proof.
  intros (H1 & H2 & H3). split; [done|]. split; [done|]. cbn. by rewrite lookup_alter_eq, H3.
Qed.
Lemma old_write f i s s' synced : own f i s synced -> old_kept f -> old_kept (with_contents f i s').
Proof.
  intros (_ & H2 & _) Ho k x Hk Hx. cbn. rewrite lookup_alter_ne; [by apply (Ho k)|]. intros ->. done.
Qed.
Lemma kw_step_inv f pos f' pos' :
  (forall k, names f0 !! path = Some k -> is_Some (inodes f0 !! k)) ->
  kw_step path contents (f, pos) (f', pos') ->
  old_kept f /\ pos_inv f pos -> old_kept f' /\ pos_inv f' pos'.
Proof.
  intros Hwf Hstep [Ho Hp]. pose proof (tmp_not_path path) as Hne.
  inversion Hstep; subst; clear Hstep; cbn [pos_inv] in *.
  - split; [done|]. unfold path_same. cbn. by rewrite lookup_delete_ne.
  - done.
  - assert (names f0 !! path ≠ Some i) as Hi.
    { intros Hk. destruct (Hwf i Hk) as [x Hx]. specialize (Ho i x Hk Hx). congruence. }
    split; [|split].
    + intros k x Hk Hx. cbn. rewrite lookup_insert_ne; [by apply (Ho k)|]. intros ->. done.
    + unfold path_same. cbn. by rewrite lookup_insert_ne.
    + exists "". split; [cbn; by rewrite lookup_insert_eq|]. split; [done|]. cbn. by rewrite lookup_insert_eq.
  - done.
  - destruct Hp as [Hp [s' Hs]]. split; [by eapply old_write|]. split; [done|]. exists s. by eapply own_write.
  - destruct Hp as [Hp [s' Hs]]. split; [by eapply old_write|]. split; [done|]. by eapply own_write.
  - by destruct Hp.
  - destruct Hp as [Hp Hs]. split; [by eapply old_write|]. split; [done|]. by eapply own_write.
  - by destruct Hp.
  - destruct Hp as [Hp (Ha & Hb & Hc)]. split.
    + intros k x Hk Hx. cbn. rewrite lookup_alter_ne; [by apply (Ho k)|]. intros ->. done.
    + split; [done|]. exists i. split; [done|]. split; [done|]. cbn. by rewrite lookup_alter_eq, Hc.
  - by destruct Hp.
  - destruct Hp as [Hp (j & Ha & Hb & Hc)]. split; [done|]. exists i. cbn. rewrite lookup_insert_eq.
    split; [done|]. congruence.
  - by destruct Hp.
  - done.
  - destruct Hp as [Hp (j & Ha & Hb & Hc)]. split; [done|]. exists i. cbn. rewrite lookup_insert_eq.
    split; [done|]. congruence.
  - by destruct Hp.
  - split; [done|]. destruct ok; cbn.
    + destruct Hp as (i & Ha & Hb). exists i. cbn. by rewrite lookup_delete_ne.
    + unfold path_same. cbn. by rewrite lookup_delete_ne.
  - by destruct ok.
Qed.
Lemma kw_run_inv f pos :
  (forall k, names f0 !! path = Some k -> is_Some (inodes f0 !! k)) ->
  rtc (kw_step path contents) (f0, KwRemove) (f, pos) -> old_kept f /\ pos_inv f pos.
Proof.
  intros Hwf. apply (rtc_ind_r (fun st => old_kept st.1 /\ pos_inv st.1 st.2) (f0, KwRemove)).
  - split; [by intros k x|done].
  - intros [f1 pos1] [f2 pos2] _ Hs IH. by eapply kw_step_inv.
Qed.
(** What survives a crash at any point. *)
Lemma path_content f f' pos :
  (forall k, names f0 !! path = Some k -> exists x, inodes f0 !! k = Some x /\ i_synced x = true) ->
  old_kept f -> pos_inv f pos -> crash f f' ->
  (path_same f -> fs_read f' path = fs_read f0 path) /\ (published f -> fs_read f' path = Some full) /\
  (path_same f \/ published f).
Proof.
  intros Hwf Ho Hp Hc. inversion Hc as [f1 f1' Hn Hi]; subst. unfold fs_read. rewrite Hn. split; [|split].
  - intros Hsame. rewrite Hsame. destruct (names f0 !! path) as [k|] eqn:Hk; [|done]. cbn.
    destruct (Hwf k eq_refl) as (x & Hx & Hs). pose proof (Ho k x Hk Hx) as Hfx. specialize (Hi k).
    rewrite Hfx in Hi. rewrite Hx. destruct (inodes f' !! k) as [y|]; [|done]. rewrite Hs in Hi.
    destruct Hi as (_ & _ & Hy). cbn. by rewrite Hy.
  - intros (i & Hpi & Hx). rewrite Hpi. cbn. specialize (Hi i). rewrite Hx in Hi.
    destruct (inodes f' !! i) as [y|]; [|done]. cbn in *. destruct Hi as (_ & _ & Hy). by rewrite Hy.
  - destruct pos as [| |i|i|i| | |[]|[]]; cbn in Hp; try (by left); try (by right); left; apply Hp.
Qed.
End keyfile.
