(* ===== verification/Sv2.v ===== *)
(** A Stratum V2 session (protocol/sv2/mod.rs): its state, the handlers of the
    three messages it serves, the job announcements and the arms of its
    [select!] loop.

    It is a second frontend over the mining core of the Stratum V1 session and
    shares its environment, its effects and its validation. A handler returns
    the new state, its effects, the messages it wrote and its [Flow]. Writes
    can fail: [v_written] says which of a turn's writes go through. *)
From S2P Require Export Sv2Messages Session.
From Stdlib Require Import Strings.Ascii.

Definition SV2_PROTOCOL_VERSION : Z := 2.

Record Sv2Session := {
  v_worker : option string;
  v_setup_done : bool;
  v_channel_open : bool;
  v_channel_id : Z;
  v_extranonce_prefix : list byte;
  v_extranonce_size : Z;
  v_extranonce_total : Z;
  v_difficulty : Z;
  v_vardiff : Vardiff;
  v_vardiff_cfg : VardiffConfig;
  v_share_set : ShareSet;
  v_guard : SessionGuard;
  v_job_ids : list (Z * string);
  v_next_job_id : Z;
  v_pending_job : option StratumJob;
  v_shares_accepted : Z;
  v_shares_rejected : Z;
  v_connect_time : Z;
}.
#[export] Instance Sv2Session_id : FieldwiseId Sv2Session := fun r => {|
  v_worker := v_worker r; v_setup_done := v_setup_done r; v_channel_open := v_channel_open r;
  v_channel_id := v_channel_id r; v_extranonce_prefix := v_extranonce_prefix r;
  v_extranonce_size := v_extranonce_size r; v_extranonce_total := v_extranonce_total r;
  v_difficulty := v_difficulty r; v_vardiff := v_vardiff r; v_vardiff_cfg := v_vardiff_cfg r;
  v_share_set := v_share_set r; v_guard := v_guard r; v_job_ids := v_job_ids r;
  v_next_job_id := v_next_job_id r; v_pending_job := v_pending_job r; v_shares_accepted := v_shares_accepted r;
  v_shares_rejected := v_shares_rejected r; v_connect_time := v_connect_time r |}.

(** [Sv2Session::new]; the clock readings are those of [session_new]. *)
Definition sv2_session_new (cfg : Config) (extranonce_prefix : list byte) (n1 n2 n3 n4 : Z) : Sv2Session := {|
  v_worker := None; v_setup_done := false; v_channel_open := false; v_channel_id := 0;
  v_extranonce_prefix := extranonce_prefix; v_extranonce_size := extranonce2_size (pool cfg);
  v_extranonce_total := extranonce1_size (pool cfg) + extranonce2_size (pool cfg);
  v_difficulty := initial_difficulty (pool cfg);
  v_vardiff := new_vardiff (vardiff cfg) (initial_difficulty (pool cfg)) n1 n2; v_vardiff_cfg := vardiff cfg;
  v_share_set := ShareSet_new; v_guard := guard_new (security cfg) n3; v_job_ids := []; v_next_job_id := 1;
  v_pending_job := None; v_shares_accepted := 0; v_shares_rejected := 0; v_connect_time := n4 |}.

(** ** Job identifiers *)

Definition MAX_JOB_IDS : nat := 16.
Fixpoint trim_front {A} (n : nat) (l : list A) : list A :=
  match l with [] => [] | x :: l' => if (n <? length l)%nat then trim_front n l' else l end.
Definition assign_job_id (s : Sv2Session) (engine_job_id : string) : Sv2Session * Z :=
  let id := v_next_job_id s in
  let next := wrap 32 (id + 1) in
  (s <! v_next_job_id := if next =? 0 then 1 else next !>
     <! v_job_ids ::= fun l => trim_front MAX_JOB_IDS (l ++ [(id, engine_job_id)]) !>, id).
Definition engine_job_id (s : Sv2Session) (sv2_job_id : Z) : option string :=
  snd <$> List.find (fun e => fst e =? sv2_job_id) (v_job_ids s).

(** ** The process-wide counters a session draws from *)

Record Counters := { extranonce_counter : Z; next_channel_id : Z }.
#[export] Instance Counters_id : FieldwiseId Counters :=
  fun r => {| extranonce_counter := extranonce_counter r; next_channel_id := next_channel_id r |}.

(** ** Results *)

Inductive Flow := Continue | FlowDisconnect (reason : string).
Record Sv2Env := { v_env : Env; v_written : nat -> bool }.
Record sv2_result := {
  r_session : Sv2Session; r_effects : list session_effect; r_messages : list PoolMessage; r_flow : Flow;
}.
Definition quit (s : Sv2Session) (effs : list session_effect) (msgs : list PoolMessage) (reason : string) : sv2_result :=
  {| r_session := s; r_effects := effs; r_messages := msgs; r_flow := FlowDisconnect reason |}.

Section sv2.
Context {HL : HexLib} {HS : Sha256Lib} {HV : Sv2Lib}.

(** Writing one message as the [k]-th write of the turn: encoded, framed,
    encrypted and sent. *)
Inductive sent := Sent | NotEncoded (e : string) | NotWritten.
Definition send (env : Sv2Env) (k : nat) (m : PoolMessage) : sent :=
  match encode_message m with
  | Ok _ => if v_written env k then Sent else NotWritten
  | Err e => NotEncoded ("SV2 encode: " +:+ e)
  | Panic => NotEncoded "SV2 encode: "
  end.
(** The common end of a handler: write the reply or disconnect. *)
Definition reply (s : Sv2Session) (effs : list session_effect) (env : Sv2Env) (name : string) (m : PoolMessage) : sv2_result :=
  match send env 0 m with
  | Sent => {| r_session := s; r_effects := effs; r_messages := [m]; r_flow := Continue |}
  | NotWritten => quit s effs [] "write"
  | NotEncoded e => quit s effs [] ("encode " +:+ name +:+ ": " +:+ e)
  end.
(** [accept] and [reject]. *)
Definition sv2_accept (s : Sv2Session) (effs : list session_effect) (env : Sv2Env) (seq : Z) : sv2_result :=
  reply s effs env "SubmitSharesSuccess" (submit_shares_success (v_channel_id s) seq (v_difficulty s)).
Definition sv2_reject (s : Sv2Session) (effs : list session_effect) (env : Sv2Env) (seq : Z) (code : string) : sv2_result :=
  reply s effs env "SubmitSharesError" (submit_shares_error (v_channel_id s) seq code).

(** [send_job], whose writes are numbered from [k]: the session, what was
    written, and whether everything was. *)
Definition send_job (s : Sv2Session) (env : Sv2Env) (k : nat) (job : StratumJob) (future : bool)
    : Sv2Session * list PoolMessage * bool :=
  let '(s, sv2_job_id) := assign_job_id s (job_id job) in
  let new_job := MNewExtendedMiningJob (build_new_extended_job job (v_channel_id s) sv2_job_id future) in
  match send env k new_job with
  | Sent =>
      if future then
        match build_set_new_prev_hash job (v_channel_id s) sv2_job_id with
        | Ok snph =>
            match send env (S k) (MSetNewPrevHash snph) with
            | Sent => (s, [new_job; MSetNewPrevHash snph], true)
            | _ => (s, [new_job], false)
            end
        | _ => (s, [new_job], false)
        end
      else (s, [new_job], true)
  | _ => (s, [], false)
  end.

(** ** Handlers *)

(** [setup_error]: the reply is best effort. *)
Definition setup_error (s : Sv2Session) (env : Sv2Env) (code : string) (flags : Z) (reason : string) : sv2_result :=
  let m := setup_connection_error code flags in
  quit s [] (match send env 0 m with Sent => [m] | _ => [] end) reason.
Definition protocol_debug (p : Protocol) : string :=
  match p with MiningProtocol => "MiningProtocol" | OtherProtocol d => d end.
Definition handle_setup_connection (s : Sv2Session) (env : Sv2Env) (payload : list byte) (hex_flags : Z -> string) : sv2_result :=
  match decode_setup_connection payload with
  | Ok setup =>
      match setup_protocol setup with
      | MiningProtocol =>
          if (SV2_PROTOCOL_VERSION <? min_version setup) || (max_version setup <? SV2_PROTOCOL_VERSION) then
            setup_error s env "protocol-version-mismatch" 0
              ("unsupported SV2 version range " +:+ dec (min_version setup) +:+ ".." +:+ dec (max_version setup))
          else if negb (Z.land (flags setup) UNSUPPORTED_SETUP_FLAGS =? 0) then
            setup_error s env "unsupported-feature-flags" UNSUPPORTED_SETUP_FLAGS
              ("unsupported feature flags " +:+ hex_flags (flags setup))
          else
            reply (s <! v_setup_done := true !>) [] env "SetupConnectionSuccess"
              (setup_connection_success SV2_PROTOCOL_VERSION)
      | p => setup_error s env "unsupported-protocol" 0 ("unsupported sub-protocol: " +:+ protocol_debug p)
      end
  | Err e => quit s [] [] ("bad SetupConnection: " +:+ e)
  | Panic => quit s [] [] "bad SetupConnection: "
  end.

(** The identity a granted open brings, before the channel is assigned: the
    cap, and the hand-off of the previous worker. [None] when the cap is
    reached. *)
Definition release_worker (s : Sv2Session) (now : Z) : Sv2Session * list session_effect :=
  match v_worker s with
  | Some prev =>
      let '(v, history) := take_share_history (v_vardiff s) now in
      (s <! v_worker := None !> <! v_vardiff := v !>, [MarkWorkerOffline prev; StashShareHistory prev history])
  | None => (s, [])
  end.
Definition adopt_identity (s : Sv2Session) (env : Env) (worker : string) : Sv2Session * list session_effect :=
  (match e_stash env worker with
   | Some history => s <! v_vardiff ::= fun v => restore_share_history v history (e_clk env 3) !>
   | None => s
   end,
   [MarkWorkerOnline worker (v_difficulty s); SetWorkerProtocol worker "sv2"; TakeShareHistory worker]).
(** The extranonce split of a granted request; [None] is the panic of the
    allocation after the subtraction wraps, on an empty reserve. *)
Definition assign_channel (g : Counters) (s : Sv2Session) (requested : Z) (worker : string) : option (Counters * Sv2Session) :=
  let granted := Z.max requested 1 in
  if v_extranonce_total s <? granted then None
  else
    let '(c, prefix) := generate_extranonce1 (extranonce_counter g) (v_extranonce_total s - granted) in
    Some ({| extranonce_counter := c; next_channel_id := wrap 32 (next_channel_id g + 1) |},
          s <! v_extranonce_size := granted !> <! v_extranonce_prefix := prefix !>
            <! v_channel_id := next_channel_id g !> <! v_worker := Some worker !>).
(** The target announced at open: that of the difficulty, or the device's
    easiest when it is harder. *)
Definition opening_target (difficulty : Z) (max_target : list byte) : list byte :=
  let target := difficulty_to_sv2_target difficulty in
  if sv2_target_le target max_target then target else max_target.
(** The end of a granted open: the success message, then the current job. *)
Definition announce_channel (s : Sv2Session) (env : Sv2Env) (effs : list session_effect) (m : PoolMessage) : sv2_result :=
  match send env 0 m with
  | NotWritten => quit s effs [] "write"
  | NotEncoded e => quit s effs [] ("encode OpenExtendedMiningChannelSuccess: " +:+ e)
  | Sent =>
      let s := s <! v_channel_open := true !> in
      match v_pending_job s with
      | Some job =>
          let '(s, msgs, ok) := send_job s env 1 job true in
          if ok then {| r_session := s; r_effects := effs; r_messages := m :: msgs; r_flow := Continue |}
          else quit s effs (m :: msgs) "write"
      | None => {| r_session := s; r_effects := effs; r_messages := [m]; r_flow := Continue |}
      end
  end.
Definition handle_open_extended (g : Counters) (s : Sv2Session) (env : Sv2Env) (payload : list byte)
    (error_text : PoolError -> string) : option (Counters * sv2_result) :=
  if negb (v_setup_done s) then Some (g, quit s [] [] "OpenExtendedMiningChannel before SetupConnection")
  else
    match decode_open_extended payload with
    | Err e => Some (g, quit s [] [] ("bad OpenExtendedMiningChannel: " +:+ e))
    | Panic => None
    | Ok open =>
        match check_worker_name (v_guard s) (user_identity open) with
        | Err e => Some (g, quit s [] [] ("invalid user_identity: " +:+ error_text e))
        | Panic => None
        | Ok _ =>
            let requested := min_extranonce_size open in
            if v_extranonce_total s <? requested then
              let m := open_channel_error_extranonce (open_request_id open) in
              Some (g, {| r_session := s; r_effects := [];
                          r_messages := match send env 0 m with Sent => [m] | _ => [] end; r_flow := Continue |})
            else
              let is_new_identity := negb (bool_decide (v_worker s = Some (user_identity open))) in
              let '(s, within_cap) :=
                if is_new_identity then
                  let '(guard, ok) := record_new_authorization (v_guard s) in (s <! v_guard := guard !>, ok)
                else (s, true) in
              if negb within_cap then Some (g, quit s [] [] "too many worker identities")
              else
                let '(s, gone) := if is_new_identity then release_worker s (e_clk (v_env env) 2) else (s, []) in
                '(g, s) ← assign_channel g s requested (user_identity open);
                let target := opening_target (v_difficulty s) (max_target open) in
                let '(s, come) := if is_new_identity then adopt_identity s (v_env env) (user_identity open) else (s, []) in
                let effs := gone ++ come in
                let m := open_extended_success (open_request_id open) (v_channel_id s) target
                           (wrap 16 (v_extranonce_size s)) (v_extranonce_prefix s) in
                Some (g, announce_channel s env effs m)
        end
    end.

(** *** Submissions *)

Definition sv2_count_invalid (s : Sv2Session) : Sv2Session * bool :=
  let '(c, disconnect) := record_invalid (invalid_shares (v_guard s)) in
  (s <! v_guard ::= fun guard => with_invalid guard c !>, disconnect).
Definition sv2_credit_share (s : Sv2Session) (hash_difficulty now : Z) : Sv2Session * Z :=
  let credited := credit_for (v_vardiff s) hash_difficulty in
  (s <! v_shares_accepted ::= fun n => wrap 64 (n + 1) !>
     <! v_vardiff ::= fun v => record_share v credited now !>, credited).
Definition sv2_share_params (submit : SubmitExtended) (job : StratumJob) (worker : string) : ShareParams := {|
  sp_worker := worker; sp_job_id := job_id job; sp_extranonce2 := sx_extranonce submit;
  sp_ntime := sx_ntime submit; sp_nonce := sx_nonce submit;
  sp_version_bits := Some (Z.land (sx_version submit) VERSION_ROLLING_MASK);
  sp_version_rolling_mask := Some VERSION_ROLLING_MASK |}.
Definition sv2_find_job (s : Sv2Session) (engine : TemplateEngine) (sv2_job_id : Z) : option JobEntry :=
  match engine_job_id s sv2_job_id with Some id => find_job engine id | None => None end.
Definition sv2_verdict (s : Sv2Session) (env : Sv2Env) (seq : Z) (worker : string) (job_height : Z)
    (verdict : outcome PoolError ShareResult) : sv2_result :=
  match verdict with
  | Ok (Valid assigned hash_difficulty hash) =>
      let '(s, credited) := sv2_credit_share s hash_difficulty (e_clk (v_env env) 2) in
      sv2_accept s [LogShare worker credited; MetricShareAccepted credited worker;
                    StatsShareAccepted hash_difficulty credited; WorkerShareAccepted worker hash_difficulty;
                    MarkWorkerSubmit worker] env seq
  | Ok (Block hash_difficulty block_hex hash) =>
      let block_hash_hex := hash_display_hex hash in
      let '(effs, submit_result) := submit_found_block job_height block_hash_hex block_hex worker (e_answers (v_env env)) in
      match submit_result with
      | Ok _ =>
          let '(s, credited) := sv2_credit_share s hash_difficulty (e_clk (v_env env) 2) in
          sv2_accept s [SubmitBlock effs; MetricBlockFound; MetricBlockSubmissionSuccess;
                        StatsBlockFound worker block_hash_hex job_height; LogShare worker credited;
                        StatsShareAccepted hash_difficulty credited; WorkerShareAccepted worker hash_difficulty;
                        MarkWorkerSubmit worker] env seq
      | Err e =>
          sv2_reject s [SubmitBlock effs; MetricBlockSubmissionFailure (submit_failure_label e)] env seq
            "block-submit-failed"
      | Panic => quit s [SubmitBlock effs] [] "internal error"
      end
  | Err e =>
      let s := s <! v_shares_rejected ::= fun n => wrap 64 (n + 1) !> in
      let effs := [MetricShareRejected (reject_reason e) worker; StatsShareRejected;
                   WorkerShareRejected worker (reject_reason e)] in
      let '(s, disconnect) := if is_malicious e then sv2_count_invalid s else (s, false) in
      if disconnect then quit s effs [] "too many invalid shares"
      else sv2_reject s effs env seq (reject_reason e)
  | Panic => quit s [] [] "internal error"
  end.
Definition sv2_handle_submit (s : Sv2Session) (env : Sv2Env) (payload : list byte) : sv2_result :=
  if negb (v_channel_open s) then quit s [] [] "SubmitShares before channel open"
  else
    match decode_submit_extended payload with
    | Err e => quit s [] [] ("bad SubmitSharesExtended: " +:+ e)
    | Panic => quit s [] [] "bad SubmitSharesExtended: "
    | Ok submit =>
        let worker := default "?" (v_worker s) in
        if negb (Z.of_nat (length (sx_extranonce submit)) =? v_extranonce_size s) then
          let '(s, disconnect) := sv2_count_invalid s in
          let effs := [MetricShareRejected "bad_extranonce" worker; StatsShareRejected;
                       WorkerShareRejected worker "bad_extranonce"] in
          if disconnect then quit s effs [] "too many invalid shares"
          else sv2_reject s effs env (sequence_number submit) "bad-extranonce-size"
        else
          match sv2_find_job s (e_engine (v_env env)) (sx_job_id submit) with
          | None =>
              sv2_reject s [MetricShareRejected "job_not_found" worker; StatsShareRejected;
                            WorkerShareRejected worker "job_not_found"] env (sequence_number submit) "stale-job"
          | Some job_entry =>
              match validate_share_no_dedup (sv2_share_params submit (je_job job_entry) worker) (je_job job_entry)
                      job_entry (v_extranonce_prefix s) (Config.min_difficulty (v_vardiff_cfg s)) with
              | Panic => quit s [] [] "internal error"
              | validation_result =>
                  let '(set, verdict) := ShareSet_dedup (v_share_set s) validation_result in
                  sv2_verdict (s <! v_share_set := set !>) env (sequence_number submit) worker
                    (height (je_job job_entry)) verdict
              end
          end
    end.

(** ** The session loop *)

(** The texts an error is displayed with in a disconnect reason. *)
Context (error_text : PoolError -> string) (hex_flags : Z -> string).

(** [handle_message]: one token per frame, then the dispatch. *)
Definition sv2_handle_message (g : Counters) (s : Sv2Session) (env : Sv2Env) (msg_type : Z) (payload : list byte)
    : option (Counters * sv2_result) :=
  let '(rate, allowed) := try_consume (share_rate (v_guard s)) (e_clk (v_env env) 0) (e_clk (v_env env) 1) in
  let s := s <! v_guard ::= fun guard => with_share_rate guard rate !> in
  if negb allowed then
    Some (g, quit s [MetricShareRejected "rate_limited" (default "?" (v_worker s))] [] "rate limited")
  else if msg_type =? MESSAGE_TYPE_SETUP_CONNECTION then Some (g, handle_setup_connection s env payload hex_flags)
  else if msg_type =? MESSAGE_TYPE_OPEN_EXTENDED_MINING_CHANNEL then handle_open_extended g s env payload error_text
  else if msg_type =? MESSAGE_TYPE_SUBMIT_SHARES_EXTENDED then Some (g, sv2_handle_submit s env payload)
  else Some (g, {| r_session := s; r_effects := []; r_messages := []; r_flow := Continue |}).

(** What one iteration of [select!] completes with. [Oversize] is the reader
    task refusing a frame: it bans the peer and ends, so that [InboundClosed]
    follows once the frames before it are handled. *)
Inductive sv2_event :=
| InboundTimeout
| InboundClosed
| Oversize
| Inbound (msg_type : Z) (payload : list byte)
| Sv2RetargetTimer
| Sv2JobReceived (b : JobBroadcast)
| Sv2JobLagged
| Sv2JobClosed.
Definition sv2_arm : Type := option (Counters * Sv2Session * list session_effect * list PoolMessage * bool).

Definition sv2_hashrate_effects (s : Sv2Session) (now : nat -> Z) : list session_effect :=
  match v_worker s with
  | Some worker =>
      let hr w i := estimated_hashrate_in_window (v_vardiff s) (from_secs w) (now i) in
      [UpdateWorkerHashrate worker (hr 60 10%nat) (hr 600 11%nat) (hr 10800 12%nat) (hr 86400 13%nat)]
  | None => []
  end.
Definition on_inbound (g : Counters) (s : Sv2Session) (env : Sv2Env) (msg_type : Z) (payload : list byte) : sv2_arm :=
  match check_message_size (v_guard s) (Z.of_nat (length payload)) with
  | Ok _ =>
      '(g, r) ← sv2_handle_message g s env msg_type payload;
      let s := r_session r in
      match r_flow r with
      | Continue =>
          Some (g, s, r_effects r ++ (if v_channel_open s then sv2_hashrate_effects s (e_clk (v_env env)) else []),
                r_messages r, true)
      | FlowDisconnect reason =>
          Some (g, s, r_effects r ++ match v_worker s with Some w => [MetricMinerDisconnect reason w] | None => [] end,
                r_messages r, false)
      end
  | _ => Some (g, s, [BanPeer "message too large"], [], false)
  end.
Definition sv2_on_retarget (g : Counters) (s : Sv2Session) (env : Sv2Env) : sv2_arm :=
  '(v, r) ← check_retarget (v_vardiff s) (e_clk (v_env env) 0) (e_clk (v_env env) 1) (e_clk (v_env env) 2);
  match r with
  | None => Some (g, s <! v_vardiff := v !>, [], [], true)
  | Some new_diff =>
      let old_diff := v_difficulty s in
      let s := s <! v_vardiff := v !> <! v_difficulty := new_diff !> in
      let effs := match v_worker s with
                  | Some w => [MetricVardiffRetarget w old_diff new_diff; UpdateWorkerVardiff w new_diff]
                  | None => []
                  end in
      let m := set_target (v_channel_id s) (difficulty_to_sv2_target new_diff) in
      match send env 0 m with
      | Sent => Some (g, s, effs, [m], true)
      | _ => Some (g, s, effs, [], false)
      end
  end.
Definition sv2_on_job (g : Counters) (s : Sv2Session) (env : Sv2Env) (b : JobBroadcast) : sv2_arm :=
  let s := if jb_clean b then s <! v_share_set ::= ShareSet_clear !> else s in
  if v_channel_open s then
    let '(s, msgs, ok) := send_job s env 0 (jb_job b) (jb_clean b) in
    if ok then Some (g, s <! v_pending_job := Some (jb_job b) !>, [], msgs, true) else Some (g, s, [], msgs, false)
  else Some (g, s <! v_pending_job := Some (jb_job b) !>, [], [], true).
Definition sv2_step (g : Counters) (s : Sv2Session) (env : Sv2Env) (e : sv2_event) : sv2_arm :=
  match e with
  | InboundTimeout | InboundClosed | Sv2JobClosed => Some (g, s, [], [], false)
  | Oversize => Some (g, s, [BanPeer "message too large"], [], true)
  | Inbound msg_type payload => on_inbound g s env msg_type payload
  | Sv2RetargetTimer => if v_channel_open s then sv2_on_retarget g s env else Some (g, s, [], [], true)
  | Sv2JobReceived b => sv2_on_job g s env b
  | Sv2JobLagged => Some (g, s, [], [], true)
  end.
(** The deadline of the inbound arm. *)
Definition sv2_deadline (s : Sv2Session) (last_inbound idle_timeout preauth_deadline : Z) : Z :=
  if v_channel_open s then last_inbound + idle_timeout else preauth_deadline.

(** After the loop, on every way out of it. *)
Definition sv2_close (s : Sv2Session) (now1 now2 : Z) : list session_effect :=
  MinerDisconnected ::
  match v_worker s with
  | Some worker =>
      [MarkWorkerOffline worker; StashShareHistory worker (take_share_history (v_vardiff s) now2).2]
  | None => []
  end ++
  [SessionClosed (v_worker s) (wrap 64 (v_shares_accepted s + v_shares_rejected s))
     (duration_since now1 (v_connect_time s))].
(** The start of [run]: a banned peer or a failed handshake gets no session;
    the miner counts as connected once the channel is secure. *)
Definition sv2_start (banned handshake_ok : bool) (cfg : Config) (g : Counters) (engine : TemplateEngine)
    (n1 n2 n3 n4 : Z) : Counters * option (Sv2Session * list session_effect) :=
  if banned || negb handshake_ok then (g, None)
  else
    let '(c, prefix) := generate_extranonce1 (extranonce_counter g) (extranonce1_size (pool cfg)) in
    let s := sv2_session_new cfg prefix n1 n2 n3 n4 in
    (g <! extranonce_counter := c !>, Some (s <! v_pending_job := current_job engine !>, [MinerConnected])).

(** A session over a list of turns. Between two turns other sessions draw
    from the counters: each turn comes with the values it finds. *)
Fixpoint sv2_run (s : Sv2Session) (l : list (Counters * Sv2Env * sv2_event))
    : option (Sv2Session * list session_effect * list PoolMessage) :=
  match l with
  | [] => Some (s, [], [])
  | (g, env, e) :: l =>
      match sv2_step g s env e with
      | None => None
      | Some (_, s, effs, msgs, go) =>
          if go then
            '(s, effs', msgs') ← sv2_run s l;
            Some (s, effs ++ effs', msgs ++ msgs')
          else Some (s, effs, msgs)
      end
  end.
End sv2.
