(* ===== verification/Sv2Facts.v ===== *)
(** Lemmas about the Stratum V2 session: its frames, its job identifiers, the
    invariant its handlers keep, the ways a submission can go, and what every
    turn does to the work a device has been given. *)
From S2P Require Export Sv2 SessionFacts.
From Stdlib Require Import Strings.Ascii.

(** ** Frames *)

Lemma take_le_bytes k n z : (k <= n)%nat -> take k (le_bytes n z) = le_bytes k z.
Proof. revert n z; induction k as [|k IH]; intros [|n] z Hk; try done; [lia|]. cbn. f_equal. apply IH. lia. Qed.
Lemma frame_bytes_cons t c p :
  frame_bytes t c p =
    x00 :: (if c then x80 else x00) :: z2b t :: (take 3 (le_bytes 4 (wrap 32 (Z.of_nat (length p)))) ++ p).
Proof. by destruct c. Qed.
(** A receiver takes as many bytes as the length says modulo [2 ^ 24]. *)
Lemma read_frame_frame_bytes t c p rest :
  0 <= t < 256 -> Z.of_nat (length p) < 2 ^ 32 ->
  let n := Z.to_nat (Z.of_nat (length p) mod 2 ^ 24) in
  read_frame (frame_bytes t c p ++ rest) =
    Some ({| fr_ext := EXT_TYPE; fr_channel_msg := c; fr_msg_type := t; fr_payload := take n p |}, drop n p ++ rest).
Proof.
  intros Ht Hp n. rewrite frame_bytes_cons, take_le_bytes by lia.
  set (len := le_bytes 3 _). assert (le2z len = Z.of_nat (length p) mod 2 ^ 24) as Hlen.
  { unfold len. rewrite le2z_le_bytes. unfold wrap. by rewrite (Z.mod_small (Z.of_nat (length p))) by lia. }
  assert (exists l0 l1 l2, len = [l0; l1; l2]) as (l0 & l1 & l2 & Hl) by (cbn; eauto). clearbody len. subst len.
  cbn [app read_frame]. rewrite Hlen. fold n.
  assert (n <= length p)%nat as Hn.
  { unfold n. pose proof (Z.mod_le (Z.of_nat (length p)) (2 ^ 24)). lia. }
  rewrite length_app, (proj2 (Nat.ltb_ge _ _)) by lia.
  rewrite take_app_le, drop_app_le, b2z_z2b, Z.mod_small by lia. by destruct c.
Qed.

(** ** Job identifiers *)

Lemma trim_front_drop {A} n (l : list A) : trim_front n l = drop (length l - n) l.
Proof.
  induction l as [|x l IH]; [done|]. cbn [trim_front]. destruct (Nat.ltb_spec n (length (x :: l))).
  - rewrite IH. cbn [length] in *. by replace (S (length l) - n)%nat with (S (length l - n)) by lia.
  - by replace (length (x :: l) - n)%nat with 0%nat by (cbn [length] in *; lia).
Qed.

(** The abstract history: the engine identifiers announced so far; the [i]-th
    goes under the wire identifier [wire_id i]. *)
Definition wire_id (i : nat) : Z := Z.of_nat i mod (2 ^ 32 - 1) + 1.
Definition wire_table (names : list string) : list (Z * string) :=
  imap (fun i name => (wire_id i, name)) names.
Record ids_refine (names : list string) (s : Sv2Session) : Prop := {
  ir_next : v_next_job_id s = wire_id (length names);
  ir_kept : v_job_ids s = drop (length names - MAX_JOB_IDS) (wire_table names);
}.

Lemma wire_id_next i : (let next := wrap 32 (wire_id i + 1) in if next =? 0 then 1 else next) = wire_id (S i).
Proof.
  unfold wire_id, wrap. cbv zeta. rewrite Nat2Z.inj_succ.
  set (m := 2 ^ 32 - 1). change (2 ^ 32) with (m + 1).
  assert (0 < m) as Hm by (unfold m; lia). pose proof (Z.mod_pos_bound (Z.of_nat i) m Hm) as Hb.
  replace (Z.succ (Z.of_nat i)) with (Z.of_nat i + 1) by lia. rewrite <- (Zplus_mod_idemp_l (Z.of_nat i)).
  set (k := Z.of_nat i mod m) in *. clearbody k m.
  destruct (Z.eq_dec k (m - 1)) as [->|Hk].
  - replace (m - 1 + 1) with m by lia. rewrite !Z_mod_same_full. done.
  - rewrite !Z.mod_small by lia. by rewrite (proj2 (Z.eqb_neq _ _)) by lia.
Qed.
Lemma length_wire_table names : length (wire_table names) = length names.
Proof. apply length_imap. Qed.
Lemma wire_table_snoc names name : wire_table (names ++ [name]) = wire_table names ++ [(wire_id (length names), name)].
Proof. unfold wire_table. rewrite imap_app. cbn. by rewrite Nat.add_0_r. Qed.
Lemma drop_drop_snoc {A} n (l : list A) x :
  drop (length (drop (length l - n) l ++ [x]) - n) (drop (length l - n) l ++ [x]) =
  drop (length (l ++ [x]) - n) (l ++ [x]).
Proof.
  rewrite <- (drop_app_le l [x]) by lia. rewrite drop_drop. f_equal.
  rewrite drop_app_le by lia. rewrite !length_app, length_drop. lia.
Qed.
Lemma assign_job_id_refine names s name :
  ids_refine names s ->
  ids_refine (names ++ [name]) (assign_job_id s name).1 /\ (assign_job_id s name).2 = wire_id (length names).
Proof.
  intros [Hn Hk]. unfold assign_job_id. cbn -[wrap]. rewrite Hn. split; [|done]. split; cbn -[wrap].
  - rewrite length_app, Nat.add_1_r. exact (wire_id_next (length names)).
  - rewrite trim_front_drop, Hk, wire_table_snoc.
    rewrite <- (length_wire_table names) at 1 3. rewrite drop_drop_snoc.
    by rewrite !length_app, length_wire_table.
Qed.

(** Within the window kept, wire identifiers are pairwise different. *)
Lemma wire_id_inj i j : (i <= j < i + MAX_JOB_IDS)%nat -> wire_id i = wire_id j -> i = j.
Proof.
  unfold wire_id, MAX_JOB_IDS. intros Hij Heq.
  assert (Z.of_nat i mod (2 ^ 32 - 1) = Z.of_nat j mod (2 ^ 32 - 1)) as Hm by lia.
  set (m := 2 ^ 32 - 1) in *. assert (16 < m) by (unfold m; lia). clearbody m.
  pose proof (Z.div_mod (Z.of_nat i) m ltac:(lia)). pose proof (Z.div_mod (Z.of_nat j) m ltac:(lia)).
  assert (Z.of_nat i / m = Z.of_nat j / m) by nia. nia.
Qed.
Lemma find_first {A} (f : A -> bool) l x :
  List.find f l = Some x <->
  exists i, l !! i = Some x /\ f x = true /\ forall j y, (j < i)%nat -> l !! j = Some y -> f y = false.
Proof.
  split.
  - induction l as [|a l IH]; [done|]. cbn. destruct (f a) eqn:Hf.
    + intros [= <-]. exists 0%nat. split; [done|]. split; [done|]. lia.
    + intros H. destruct (IH H) as (i & Hi & Hx & Hj). exists (S i). split; [done|]. split; [done|].
      intros [|j] y Hlt; [by intros [= <-]|]. apply Hj. lia.
  - intros (i & Hi & Hx & Hj). revert i Hi Hj; induction l as [|a l IH]; intros i Hi Hj; [done|]. cbn.
    destruct i as [|i]; [injection Hi as ->; by rewrite Hx|].
    rewrite (Hj 0%nat a) by (done || lia). apply (IH i Hi). intros j y Hlt Hy. apply (Hj (S j)); [lia|done].
Qed.
Lemma engine_job_id_refine names s id name :
  ids_refine names s ->
  engine_job_id s id = Some name <->
  exists i, (length names - MAX_JOB_IDS <= i < length names)%nat /\ names !! i = Some name /\ id = wire_id i.
Proof.
  intros [_ Hk]. unfold engine_job_id. rewrite Hk. set (o := (length names - MAX_JOB_IDS)%nat).
  assert (forall i e, drop o (wire_table names) !! i = Some e <->
    exists n, names !! (o + i)%nat = Some n /\ e = (wire_id (o + i), n)) as Hlk.
  { intros i e. rewrite lookup_drop. unfold wire_table. rewrite list_lookup_imap, fmap_Some. naive_solver. }
  split.
  - destruct (List.find _ _) as [[id' n]|] eqn:E; [|done]. cbn. intros [= ->].
    apply find_first in E as (i & Hi & Hid & _). apply Hlk in Hi as (n & Hn & [= -> ->]).
    exists (o + i)%nat. cbn in Hid. b2p. split; [|done]. apply lookup_lt_Some in Hn. lia.
  - intros (i & Hi & Hn & ->).
    assert (List.find (fun e => fst e =? wire_id i) (drop o (wire_table names)) = Some (wire_id i, name)) as ->;
      [|done].
    apply find_first. exists (i - o)%nat. split; [|split].
    + apply Hlk. replace (o + (i - o))%nat with i by lia. eauto.
    + cbn. by rewrite Z.eqb_refl.
    + intros j y Hj Hy. apply Hlk in Hy as (n & Hn' & ->). cbn. apply Z.eqb_neq. intros Heq.
      apply wire_id_inj in Heq; [lia|]. unfold o in *. lia.
Qed.

(** ** The session invariant *)

(** [c] is the vardiff configuration, [d0] the initial difficulty and [total]
    the reserved extranonce width. *)
Record sv2_inv (c : VardiffConfig) (d0 total : Z) (s : Sv2Session) : Prop := {
  vi_difficulty : v_difficulty s = current (v_vardiff s);
  vi_cfg : cfg (v_vardiff s) = c /\ v_vardiff_cfg s = c;
  vi_range : v_difficulty s = d0 \/ min_difficulty c <= v_difficulty s <= max_difficulty c;
  vi_total : v_extranonce_total s = total;
  vi_split : Z.of_nat (length (v_extranonce_prefix s)) + v_extranonce_size s = total;
  vi_open : v_channel_open s = true -> v_setup_done s = true /\ is_Some (v_worker s) /\ 1 <= v_extranonce_size s;
}.

Section inv.
Context {HL : HexLib} {HS : Sha256Lib} {HV : Sv2Lib} (error_text : PoolError -> string) (hex_flags : Z -> string).
Context (c : VardiffConfig) (d0 total : Z).
Abbreviation inv := (sv2_inv c d0 total).
Implicit Types (s : Sv2Session) (g : Counters) (env : Sv2Env).

(** The fields the invariant reads. *)
Definition inv_fields s :=
  (v_difficulty s, current (v_vardiff s), cfg (v_vardiff s), v_vardiff_cfg s, v_extranonce_total s,
   v_extranonce_prefix s, v_extranonce_size s, (v_channel_open s, v_setup_done s, v_worker s)).
Lemma inv_fields_inv s s' : inv_fields s' = inv_fields s -> inv s -> inv s'.
Proof.
  intros [= H1 H2 H3 H4 H5 H6 H7 H8 H9 H10] [I1 I2 I3 I4 I5 I6].
  split; rewrite ?H1, ?H2, ?H3, ?H4, ?H5, ?H6, ?H7, ?H8, ?H9, ?H10; done.
Qed.

Lemma reply_session s effs env name m : r_session (reply s effs env name m) = s.
Proof. unfold reply. by destruct (send env 0 m). Qed.
Lemma sv2_verdict_fields s env seq w h v :
  inv_fields (r_session (sv2_verdict s env seq w h v)) = inv_fields s.
Proof.
  unfold sv2_verdict. destruct v as [[a d hash|d hex hash]|e|]; [| | |done].
  - cbn zeta. destruct (sv2_credit_share _ _ _) as [s1 credited] eqn:E. unfold sv2_accept.
    rewrite reply_session. by injection E as <- _.
  - destruct (submit_found_block _ _ _ _ _) as [effs [[]|e|]]; [|unfold sv2_reject; by rewrite reply_session|done].
    destruct (sv2_credit_share _ _ _) as [s1 credited] eqn:E. unfold sv2_accept.
    rewrite reply_session. by injection E as <- _.
  - destruct (is_malicious e).
    + unfold sv2_count_invalid. destruct (record_invalid _) as [cn []]; [done|].
      unfold sv2_reject. by rewrite reply_session.
    + unfold sv2_reject. by rewrite reply_session.
Qed.
Lemma sv2_handle_submit_fields s env p :
  inv_fields (r_session (sv2_handle_submit s env p)) = inv_fields s.
Proof.
  unfold sv2_handle_submit. destruct (negb (v_channel_open s)); [done|].
  destruct (decode_submit_extended p) as [submit|e|]; [|done..]. cbv zeta.
  destruct (negb (_ =? _)).
  { unfold sv2_count_invalid. destruct (record_invalid _) as [cn []]; [done|].
    unfold sv2_reject. by rewrite reply_session. }
  destruct (sv2_find_job _ _ _) as [entry|]; [|unfold sv2_reject; by rewrite reply_session].
  destruct (validate_share_no_dedup _ _ _ _ _) as [x|e|]; [| |done];
    destruct (ShareSet_dedup _ _) as [set verdict]; by rewrite sv2_verdict_fields.
Qed.
Lemma handle_setup_fields s env p :
  inv s -> inv (r_session (handle_setup_connection s env p hex_flags)).
Proof.
  intros Hi. unfold handle_setup_connection. destruct (decode_setup_connection p) as [setup|e|]; [|done..].
  destruct (setup_protocol setup); [|done]. destruct (_ || _); [done|]. destruct (negb _); [done|].
  rewrite reply_session. destruct Hi as [I1 I2 I3 I4 I5 I6]. split; cbn; try done.
  intros Ho. by destruct (I6 Ho) as (_ & ? & ?).
Qed.
Lemma send_job_fields s env k job future :
  inv_fields (send_job s env k job future).1.1 = inv_fields s.
Proof.
  unfold send_job. destruct (assign_job_id s (job_id job)) as [s1 id] eqn:E.
  assert (inv_fields s1 = inv_fields s) as <- by (by injection E as <- _).
  cbv zeta. destruct (send _ _ _); [|done..]. destruct future; [|done].
  destruct (build_set_new_prev_hash _ _ _) as [snph|e|]; [|done..]. by destruct (send _ _ _).
Qed.

Lemma check_worker_name_no_panic guard name : check_worker_name guard name ≠ Panic.
Proof.
  unfold check_worker_name, validate_worker_name. repeat break_goal; done.
Qed.
Lemma generate_extranonce1_length counter size :
  0 <= size -> Z.of_nat (length (generate_extranonce1 counter size).2) = size.
Proof.
  intros Hs. unfold generate_extranonce1. cbn [snd]. destruct (Z.leb_spec size 8).
  - rewrite length_drop, length_be_bytes. lia.
  - rewrite length_app, length_replicate, length_be_bytes. lia.
Qed.
Context (Htotal : 1 <= total).
(** The requested size the wire carries is a [u16]. *)
Definition decodes_ok : Prop :=
  (forall p, decode_open_extended p ≠ Panic) /\
  forall p o, decode_open_extended p = Ok o -> 0 <= min_extranonce_size o.
Context (Hdec : decodes_ok).

(** What an open leaves alone, and what only the assignment sets. *)
Definition open_fields s :=
  (current (v_vardiff s), cfg (v_vardiff s), v_vardiff_cfg s, v_difficulty s, v_extranonce_total s,
   v_job_ids s, v_next_job_id s, v_pending_job s, v_share_set s, (v_setup_done s, v_channel_open s)).
Definition channel_fields s := (v_worker s, v_extranonce_size s, v_extranonce_prefix s, v_channel_id s).
Lemma release_worker_spec s now :
  open_fields (release_worker s now).1 = open_fields s /\
  exists history, (release_worker s now).2 =
    match v_worker s with Some prev => [MarkWorkerOffline prev; StashShareHistory prev history] | None => [] end.
Proof.
  unfold release_worker. destruct (v_worker s); (split; [done|]); [by eexists|].
  by exists (take_share_history (v_vardiff s) 0).2.
Qed.
Lemma adopt_identity_spec s (env : Env) w :
  open_fields (adopt_identity s env w).1 = open_fields s /\
  channel_fields (adopt_identity s env w).1 = channel_fields s /\
  (adopt_identity s env w).2 = [MarkWorkerOnline w (v_difficulty s); SetWorkerProtocol w "sv2"; TakeShareHistory w].
Proof. unfold adopt_identity. cbn [fst snd]. by destruct (e_stash env w). Qed.
Lemma assign_channel_spec g s requested w :
  let size := Z.max requested 1 in
  size <= v_extranonce_total s ->
  exists g' s', assign_channel g s requested w = Some (g', s') /\ open_fields s' = open_fields s /\
    v_worker s' = Some w /\ v_extranonce_size s' = size /\ v_channel_id s' = next_channel_id g /\
    next_channel_id g' = wrap 32 (next_channel_id g + 1) /\
    v_extranonce_prefix s' = (generate_extranonce1 (extranonce_counter g) (v_extranonce_total s - size)).2 /\
    Z.of_nat (length (v_extranonce_prefix s')) = v_extranonce_total s - size.
Proof.
  intros size Hr. unfold assign_channel. fold size. rewrite (proj2 (Z.ltb_ge _ _)) by lia.
  pose proof (generate_extranonce1_length (extranonce_counter g) (v_extranonce_total s - size) ltac:(lia)) as Hl.
  destruct (generate_extranonce1 _ _) as [cn prefix]. by eexists _, _.
Qed.

(** The session a granted open announces: the channel assigned, nothing
    announced yet. *)
Record opened g s (open : OpenExtended) (s' : Sv2Session) : Prop := {
  op_identity : v_worker s' = Some (user_identity open);
  op_size : v_extranonce_size s' = Z.max (min_extranonce_size open) 1;
  op_prefix : Z.of_nat (length (v_extranonce_prefix s')) = v_extranonce_total s - v_extranonce_size s';
  op_channel : v_channel_id s' = next_channel_id g;
  op_total : v_extranonce_total s' = v_extranonce_total s;
  op_vardiff : current (v_vardiff s') = current (v_vardiff s) /\ cfg (v_vardiff s') = cfg (v_vardiff s) /\
               v_vardiff_cfg s' = v_vardiff_cfg s /\ v_difficulty s' = v_difficulty s;
  op_jobs : v_job_ids s' = v_job_ids s /\ v_next_job_id s' = v_next_job_id s /\ v_pending_job s' = v_pending_job s;
  op_shares : v_share_set s' = v_share_set s;
  op_flags : v_setup_done s' = v_setup_done s /\ v_channel_open s' = v_channel_open s;
}.
Inductive open_outcome g s env (payload : list byte) : Counters * sv2_result -> Prop :=
| oo_refused msgs flow :
    (msgs = [] \/ exists id, msgs = [MOpenChannelErrorExtranonce id]) ->
    open_outcome g s env payload (g, {| r_session := s; r_effects := []; r_messages := msgs; r_flow := flow |})
| oo_capped guard reason :
    open_outcome g s env payload (g, quit (s <! v_guard := guard !>) [] [] reason)
| oo_granted open g' s' effs :
    v_setup_done s = true -> decode_open_extended payload = Ok open -> opened g s open s' ->
    0 <= min_extranonce_size open <= v_extranonce_total s ->
    existsb is_log effs = false ->
    open_outcome g s env payload
      (g', announce_channel s' env effs
             (open_extended_success (open_request_id open) (v_channel_id s')
                (opening_target (v_difficulty s) (max_target open)) (wrap 16 (v_extranonce_size s'))
                (v_extranonce_prefix s'))).

Lemma handle_open_extended_outcome g s env payload :
  v_extranonce_total s = total ->
  exists out, handle_open_extended g s env payload error_text = Some out /\ open_outcome g s env payload out.
Proof.
  intros Ht. unfold handle_open_extended. destruct (v_setup_done s) eqn:Hsd; cbn [negb].
  2: { eexists. split; [done|]. apply oo_refused. by left. }
  destruct (decode_open_extended payload) as [open|e|] eqn:Ed.
  2: { eexists. split; [done|]. apply oo_refused. by left. }
  2: by destruct (proj1 Hdec payload).
  pose proof (check_worker_name_no_panic (v_guard s) (user_identity open)) as Hn.
  destruct (check_worker_name _ _) as [[]|e|]; [| |done].
  2: { eexists. split; [done|]. apply oo_refused. by left. }
  cbv zeta. destruct (Z.ltb_spec (v_extranonce_total s) (min_extranonce_size open)) as [|Hle].
  { eexists. split; [done|]. apply oo_refused. destruct (send env 0 _); eauto. }
  pose proof (proj2 Hdec _ _ Ed) as Hreq.
  assert (forall s0 gone, open_fields s0 = open_fields s -> existsb is_log gone = false ->
    exists out,
      ('(g0, s1) ← assign_channel g s0 (min_extranonce_size open) (user_identity open);
       let '(s2, come) := if negb (bool_decide (v_worker s = Some (user_identity open)))
                          then adopt_identity s1 (v_env env) (user_identity open) else (s1, []) in
       Some (g0, announce_channel s2 env (gone ++ come)
         (open_extended_success (open_request_id open) (v_channel_id s2)
            (opening_target (v_difficulty s1) (max_target open)) (wrap 16 (v_extranonce_size s2))
            (v_extranonce_prefix s2)))) = Some out /\ open_outcome g s env payload out) as Hgo.
  { intros s0 gone Hof Hlog. pose proof Hof as [= _ _ _ _ Ht0 _ _ _ _ _ _].
    destruct (assign_channel_spec g s0 (min_extranonce_size open) (user_identity open))
      as (g' & s1 & -> & Hof1 & Hw & Hs & Hch & _ & _ & Hp); [lia|]. cbn [mbind option_bind].
    set (adopted := if negb _ then _ else _).
    assert (open_fields adopted.1 = open_fields s1 /\ channel_fields adopted.1 = channel_fields s1 /\
            existsb is_log adopted.2 = false) as (Hof2 & Hcf & Hlog2)
      by (unfold adopted; destruct (negb _); [destruct (adopt_identity_spec s1 (v_env env) (user_identity open)) as (? & ? & ->)|]; done).
    destruct adopted as [s2 come]. cbn [fst snd] in *. eexists. split; [done|].
    rewrite Hof1, Hof in Hof2. injection Hof2 as ?????? ????? ; injection Hcf as ????.
    rewrite Hof in Hof1. injection Hof1 as ?????? ?????.
    replace (v_difficulty s1) with (v_difficulty s) by congruence.
    apply (oo_granted _ _ _ _ open g' s2 (gone ++ come)); [done..| |lia|by rewrite existsb_app, Hlog, Hlog2].
    split; [congruence|congruence| |congruence|congruence| | |congruence|]; [|repeat split; congruence..].
    replace (v_extranonce_prefix s2) with (v_extranonce_prefix s1) by congruence. lia. }
  destruct (negb (bool_decide _)) eqn:Hid; cbn [negb].
  - destruct (record_new_authorization (v_guard s)) as [guard ok]. destruct ok; cbn [negb].
    2: { eexists. split; [done|]. apply oo_capped. }
    pose proof (release_worker_spec (s <! v_guard := guard !>) (e_clk (v_env env) 2)) as [Hof [history Hgone]].
    destruct (release_worker _ _) as [s0 gone]. cbn [fst snd] in *. apply Hgo; [done|]. subst gone.
    by destruct (v_worker _).
  - by apply Hgo.
Qed.

Lemma opened_inv g s open s' :
  inv s -> 0 <= min_extranonce_size open <= v_extranonce_total s -> v_setup_done s = true -> opened g s open s' ->
  inv s' /\ inv (s' <! v_channel_open := true !>).
Proof.
  intros [I1 I2 I3 I4 I5 I6] Hr Hsd [Hw Hs Hp Hc Ht (Hv1 & Hv2 & Hv3 & Hv4) Hj Hsh [Hf1 Hf2]].
  split; split; cbn; rewrite ?Hv1, ?Hv2, ?Hv3, ?Hv4, ?Hw, ?Hf1, ?Hsd, ?Ht; try done; try lia;
    intros _; (split; [done|split; [done|lia]]).
Qed.
Lemma announce_channel_inv s env effs m :
  inv s -> inv (s <! v_channel_open := true !>) -> inv (r_session (announce_channel s env effs m)).
Proof.
  intros Hi Ho. unfold announce_channel. destruct (send env 0 m); [|done..]. cbv zeta.
  destruct (v_pending_job _) as [job|]; [|done].
  pose proof (send_job_fields (s <! v_channel_open := true !>) env 1 job true) as Hf.
  destruct (send_job _ env 1 job true) as [[s2 msgs] ok]. cbn [fst] in Hf.
  destruct ok; by apply (inv_fields_inv _ _ Hf).
Qed.
Lemma handle_open_inv g s env payload :
  inv s -> exists g' r, handle_open_extended g s env payload error_text = Some (g', r) /\ inv (r_session r).
Proof.
  intros Hi. destruct (handle_open_extended_outcome g s env payload (vi_total _ _ _ _ Hi)) as ([g' r] & -> & Ho).
  exists g', r. split; [done|]. remember (g', r) as out eqn:Hout.
  destruct Ho as [msgs flow _|guard reason|open g1 s1 effs Hsd _ Hop Hr _]; injection Hout as _ <-.
  - done.
  - by apply (inv_fields_inv s).
  - destruct (opened_inv _ _ _ _ Hi Hr Hsd Hop). by apply announce_channel_inv.
Qed.

(** What is announced is the channel as it was assigned. *)
Lemma announce_channel_spec s env effs m :
  let r := announce_channel s env effs m in
  r_effects r = effs /\ v_worker (r_session r) = v_worker s /\ v_channel_id (r_session r) = v_channel_id s /\
  v_extranonce_size (r_session r) = v_extranonce_size s /\ v_extranonce_prefix (r_session r) = v_extranonce_prefix s /\
  (r_messages r = [] \/ exists rest, r_messages r = m :: rest).
Proof.
  unfold announce_channel. destruct (send env 0 m); [|by auto 10..]. cbv zeta.
  destruct (v_pending_job _) as [job|]; [|by eauto 10].
  unfold send_job. destruct (assign_job_id _ (job_id job)) as [s2 id] eqn:E. injection E as <- _. cbv zeta.
  destruct (send env 1 _); [|by eauto 10..].
  destruct (build_set_new_prev_hash _ _ _); [|by eauto 10..]. destruct (send env 2 _); by eauto 10.
Qed.
(** The opening target is no easier than the device allows, nor than the
    difficulty asks for. *)
Lemma opening_target_le d max :
  is_u64 d -> length max = 32%nat ->
  le2z (opening_target d max) <= le2z max /\ le2z (opening_target d max) <= be2z (difficulty_to_target d).
Proof.
  intros Hd Hl. pose proof (difficulty_to_target_length d Hd) as Hdl. unfold opening_target, sv2_target_le.
  assert (le2z (difficulty_to_sv2_target d) = be2z (difficulty_to_target d)) as Hv by done.
  assert (forall l, be2z (rev l) = le2z l) as Hr by (intros l; unfold be2z; by rewrite rev_involutive).
  rewrite lex_le_be2z by (unfold difficulty_to_sv2_target; rewrite !length_rev; congruence). rewrite !Hr.
  destruct (Z.leb_spec (le2z (difficulty_to_sv2_target d)) (le2z max)); lia.
Qed.

(** What a granted open is: the split of the extranonce, the identity, the
    statistics' view of it and the reply. *)
Definition granted_as (g : Counters) (s : Sv2Session) (open : OpenExtended) (g' : Counters) (r : sv2_result) : Prop :=
  let id := user_identity open in
  let size := Z.max (min_extranonce_size open) 1 in
  next_channel_id g' = wrap 32 (next_channel_id g + 1) /\ v_channel_id (r_session r) = next_channel_id g /\
  v_worker (r_session r) = Some id /\ v_extranonce_size (r_session r) = size /\
  v_extranonce_prefix (r_session r) = (generate_extranonce1 (extranonce_counter g) (v_extranonce_total s - size)).2 /\
  Z.of_nat (length (v_extranonce_prefix (r_session r))) = v_extranonce_total s - size /\
  (exists history_of, r_effects r =
     if bool_decide (v_worker s = Some id) then []
     else match v_worker s with
          | Some prev => [MarkWorkerOffline prev; StashShareHistory prev history_of]
          | None => []
          end ++ [MarkWorkerOnline id (v_difficulty s); SetWorkerProtocol id "sv2"; TakeShareHistory id]) /\
  (r_messages r = [] \/ exists target rest,
     r_messages r = MOpenExtendedSuccess (open_request_id open) (next_channel_id g) target (wrap 16 size)
                      (v_extranonce_prefix (r_session r)) 0 :: rest /\
     le2z target <= le2z (max_target open) /\ le2z target <= be2z (difficulty_to_target (v_difficulty s))).
(** On a session [s0] that released what it had to. *)
Lemma open_granted_as g s env open :
  is_u64 (v_difficulty s) -> length (max_target open) = 32%nat ->
  Z.max (min_extranonce_size open) 1 <= v_extranonce_total s ->
  let id := user_identity open in
  let same := bool_decide (v_worker s = Some id) in
  forall s0 gone history, open_fields s0 = open_fields s ->
  gone = (if same then [] else
          match v_worker s with Some prev => [MarkWorkerOffline prev; StashShareHistory prev history] | None => [] end) ->
  exists g' r,
    ('(g0, s1) ← assign_channel g s0 (min_extranonce_size open) id;
     let '(s2, come) := if negb same then adopt_identity s1 (v_env env) id else (s1, []) in
     Some (g0, announce_channel s2 env (gone ++ come)
       (open_extended_success (open_request_id open) (v_channel_id s2) (opening_target (v_difficulty s1) (max_target open))
          (wrap 16 (v_extranonce_size s2)) (v_extranonce_prefix s2)))) = Some (g', r) /\
    granted_as g s open g' r.
Proof.
  intros Hd Hmt Hle id same. destruct (opening_target_le (v_difficulty s) (max_target open) Hd Hmt) as [Ht1 Ht2].
  intros s0 gone history Hof Hgone. pose proof Hof as [= _ _ _ Hd0 Ht0 _ _ _ _ _ _].
  destruct (assign_channel_spec g s0 (min_extranonce_size open) id)
    as (g' & s1 & -> & Hof1 & Hw & Hs & Hch & Hnext & Hp & Hpl); [lia|]. cbn [mbind option_bind].
  pose proof Hof1 as [= _ _ _ Hd1 _ _ _ _ _ _ _].
  pose proof (adopt_identity_spec s1 (v_env env) id) as (_ & Hcf & Hcome).
  set (adopted := if negb _ then _ else _).
  assert (channel_fields adopted.1 = channel_fields s1 /\
    adopted.2 = if same then []
                else [MarkWorkerOnline id (v_difficulty s); SetWorkerProtocol id "sv2"; TakeShareHistory id]) as [Hcf2 Hc2]
    by (unfold adopted; destruct same; cbn [negb]; [done|split; [done|]; rewrite Hcome; congruence]).
  destruct adopted as [s2 come]. cbn [fst snd] in *. injection Hcf2 as C1 C2 C3 C4.
  eexists _, _. split; [done|]. set (m := open_extended_success _ _ _ _ _).
  destruct (announce_channel_spec s2 env (gone ++ come) m) as (Hr1 & Hr2 & Hr3 & Hr4 & Hr5 & Hr6).
  unfold granted_as. cbv zeta. fold id. fold same. rewrite Hr1, Hr2, Hr3, Hr4, Hr5, C1, C2, C3, C4, Hw, Hs, Hch, Hp, <- Ht0.
  rewrite Hp in Hpl. do 6 (split; [done|]). split.
  - exists history. rewrite Hgone, Hc2. by destruct same.
  - destruct Hr6 as [?|[rest Hr6]]; [by left|]. right. rewrite Hr6. unfold m.
    exists (opening_target (v_difficulty s) (max_target open)), rest. split; [|done].
    unfold open_extended_success. by rewrite C2, C3, C4, Hs, Hch, Hp, Hd1, Hd0.
Qed.

Context (Hcfg : validate_vardiff c = Ok tt) (Hfloat : valid_binary prec emax (max_retarget_factor c) = true).

Lemma sv2_handle_message_inv g s env t payload :
  inv s -> exists g' r, sv2_handle_message error_text hex_flags g s env t payload = Some (g', r) /\ inv (r_session r).
Proof.
  intros Hi. unfold sv2_handle_message. destruct (try_consume _ _ _) as [rate allowed]. cbv zeta.
  set (s1 := s <! v_guard ::= _ !>). assert (inv s1) as Hi1 by by apply (inv_fields_inv s). clearbody s1.
  destruct (negb allowed); [by eexists _, _|].
  destruct (_ =? _); [eexists _, _; split; [done|by apply handle_setup_fields]|].
  destruct (_ =? _); [by apply handle_open_inv|].
  destruct (_ =? _); [|by eexists _, _].
  eexists _, _. split; [done|]. eapply inv_fields_inv; [apply sv2_handle_submit_fields|done].
Qed.
Lemma sv2_on_retarget_inv g s env :
  inv s -> exists g' s' effs msgs go, sv2_on_retarget g s env = Some (g', s', effs, msgs, go) /\ inv s'.
Proof.
  intros [I1 [I2 I2'] I3 I4 I5 I6]. unfold sv2_on_retarget.
  destruct (check_retarget_spec (v_vardiff s) (e_clk (v_env env) 0) (e_clk (v_env env) 1) (e_clk (v_env env) 2))
    as (v & r & -> & Hc & _ & _ & _ & _ & Hres); [by rewrite I2..|]. cbn [mbind option_bind].
  destruct r as [d|].
  - destruct Hres as (Hr & _ & Hcur & _). rewrite I2 in Hr, Hc.
    destruct (send env 0 _); eexists _, _, _, _, _; (split; [done|]); split; cbn; auto.
  - destruct Hres as [Hcur _]. eexists _, _, _, _, _. split; [done|]. split; cbn; try done; [congruence|].
    split; [congruence|done].
Qed.
Lemma sv2_on_job_inv g s env b :
  inv s -> exists g' s' effs msgs go, sv2_on_job g s env b = Some (g', s', effs, msgs, go) /\ inv s'.
Proof.
  intros Hi. unfold sv2_on_job. cbv zeta. set (s1 := if jb_clean b then _ else s).
  assert (inv s1) as Hi1 by (unfold s1; destruct (jb_clean b); [by apply (inv_fields_inv s)|done]). clearbody s1.
  destruct (v_channel_open s1); [|eexists _, _, _, _, _; split; [done|by apply (inv_fields_inv s1)]].
  pose proof (send_job_fields s1 env 0 (jb_job b) (jb_clean b)) as Hf.
  destruct (send_job _ _ _ _ _) as [[s2 msgs] ok]. cbn [fst] in Hf.
  destruct ok; eexists _, _, _, _, _; (split; [done|]); [|by apply (inv_fields_inv s1)].
  apply (inv_fields_inv s1); [|done]. by rewrite <- Hf.
Qed.
Lemma sv2_step_inv g s env e :
  inv s -> exists g' s' effs msgs go,
    sv2_step error_text hex_flags g s env e = Some (g', s', effs, msgs, go) /\ inv s'.
Proof.
  intros Hi. destruct e as [| | |t payload| |b| |]; cbn [sv2_step]; try by eexists _, _, _, _, _.
  - unfold on_inbound. destruct (check_message_size _ _); [|by eexists _, _, _, _, _..].
    destruct (sv2_handle_message_inv g s env t payload Hi) as (g' & r & -> & Hi'). cbn [mbind option_bind].
    destruct (r_flow r); by eexists _, _, _, _, _.
  - destruct (v_channel_open s); [by apply sv2_on_retarget_inv|by eexists _, _, _, _, _].
  - by apply sv2_on_job_inv.
Qed.
Lemma sv2_run_inv l s :
  inv s -> exists s' effs msgs, sv2_run error_text hex_flags s l = Some (s', effs, msgs) /\ inv s'.
Proof.
  revert s; induction l as [|[[g env] e] l IH]; intros s Hi; [by eexists _, _, _|]. cbn [sv2_run].
  destruct (sv2_step_inv g s env e Hi) as (g' & s1 & effs & msgs & go & -> & Hi1).
  destruct go; [|by eexists _, _, _].
  destruct (IH s1 Hi1) as (s2 & effs2 & msgs2 & -> & Hi2). by eexists _, _, _.
Qed.
End inv.

(** ** Submissions *)

Section submissions.
Context {HL : HexLib} {HS : Sha256Lib} {HV : Sv2Lib}.
Implicit Types (s : Sv2Session) (env : Sv2Env).

(** A turn's reply is the message, and the session goes on, exactly when the
    message was encoded and written. *)
Lemma reply_effects s effs env name m : r_effects (reply s effs env name m) = effs.
Proof. unfold reply. by destruct (send env 0 m). Qed.
Lemma reply_messages s effs env name m :
  r_messages (reply s effs env name m) = [m] \/ r_messages (reply s effs env name m) = [].
Proof. unfold reply. destruct (send env 0 m); auto. Qed.

Definition success_to s seq (msgs : list PoolMessage) : Prop :=
  msgs = [MSubmitSharesSuccess (v_channel_id s) seq 1 (v_difficulty s)] \/ msgs = [].
Lemma sv2_verdict_credits s env seq w h verdict worker credited :
  LogShare worker credited ∈ r_effects (sv2_verdict s env seq w h verdict) ->
  exists res, verdict = Ok res /\ worker = w /\
    List.filter is_log (r_effects (sv2_verdict s env seq w h verdict)) = [LogShare worker credited] /\
    success_to s seq (r_messages (sv2_verdict s env seq w h verdict)) /\
    v_share_set (r_session (sv2_verdict s env seq w h verdict)) = v_share_set s /\
    match res with
    | Valid _ d _ => credited = credit_for (v_vardiff s) d
    | Block d hex hash =>
        credited = credit_for (v_vardiff s) d /\
        (submit_found_block h (hash_display_hex hash) hex w (e_answers (v_env env))).2 = Ok tt
    end.
Proof.
  unfold sv2_verdict. destruct verdict as [[a d hash|d hex hash]|e|].
  - cbv zeta. cbn [sv2_credit_share]. unfold sv2_accept. rewrite reply_effects, reply_session. intros Hin.
    exists (Valid a d hash). rewrite !elem_of_cons in Hin.
    destruct Hin as [[= -> ->]|[?|[?|[?|[?|?%not_elem_of_nil]]]]]; try done.
    split; [done|]. split; [done|]. split; [done|]. split; [apply reply_messages|done].
  - destruct (submit_found_block _ _ _ _ _) as [beffs [[]|e|]] eqn:Es.
    + cbv zeta. cbn [sv2_credit_share]. unfold sv2_accept. rewrite reply_effects, reply_session. intros Hin.
      exists (Block d hex hash). rewrite Es. rewrite !elem_of_cons in Hin.
      destruct Hin as [?|[?|[?|[?|[[= -> ->]|[?|[?|[?|?%not_elem_of_nil]]]]]]]]; try done.
      split; [done|]. split; [done|]. split; [done|]. split; [apply reply_messages|done].
    + unfold sv2_reject. rewrite reply_effects. intros Hin. by apply no_log in Hin.
    + intros Hin. by apply no_log in Hin.
  - destruct (is_malicious e); [unfold sv2_count_invalid; destruct (record_invalid _) as [? []]|];
      unfold sv2_reject; rewrite ?reply_effects; intros Hin; by apply no_log in Hin.
  - intros Hin. by apply no_log in Hin.
Qed.

(** The verdict of validation and the duplicate check on a mapped job. *)
Definition sv2_submit_verdict s (submit : SubmitExtended) (entry : JobEntry) : ShareSet * outcome PoolError ShareResult :=
  ShareSet_dedup (v_share_set s)
    (validate_share_no_dedup (sv2_share_params submit (je_job entry) (default "?" (v_worker s))) (je_job entry) entry
       (v_extranonce_prefix s) (min_difficulty (v_vardiff_cfg s))).
(** Either no share is logged, or a verdict was reached. *)
Lemma sv2_handle_submit_logs s env payload worker credited :
  LogShare worker credited ∈ r_effects (sv2_handle_submit s env payload) ->
  exists submit entry set verdict,
    v_channel_open s = true /\ decode_submit_extended payload = Ok submit /\
    Z.of_nat (length (sx_extranonce submit)) = v_extranonce_size s /\
    sv2_find_job s (e_engine (v_env env)) (sx_job_id submit) = Some entry /\
    sv2_submit_verdict s submit entry = (set, verdict) /\
    sv2_handle_submit s env payload =
      sv2_verdict (s <! v_share_set := set !>) env (sequence_number submit) (default "?" (v_worker s))
        (height (je_job entry)) verdict.
Proof.
  unfold sv2_handle_submit. destruct (v_channel_open s); cbn [negb]; [|by intros ?%no_log].
  destruct (decode_submit_extended payload) as [submit|e|]; [|by intros ?%no_log..]. cbv zeta.
  destruct (Z.eqb_spec (Z.of_nat (length (sx_extranonce submit))) (v_extranonce_size s)) as [Hl|]; cbn [negb].
  2: { unfold sv2_count_invalid, sv2_reject. destruct (record_invalid _) as [? []];
         rewrite ?reply_effects; by intros ?%no_log. }
  destruct (sv2_find_job _ _ _) as [entry|] eqn:Ej; [|unfold sv2_reject; rewrite reply_effects; by intros ?%no_log].
  assert (forall x, validate_share_no_dedup (sv2_share_params submit (je_job entry) (default "?" (v_worker s)))
      (je_job entry) entry (v_extranonce_prefix s) (min_difficulty (v_vardiff_cfg s)) = x ->
    sv2_submit_verdict s submit entry = ShareSet_dedup (v_share_set s) x) as Hv by by intros x <-.
  destruct (validate_share_no_dedup _ _ _ _ _) as [x|e|] eqn:Ev; [| |by intros ?%no_log];
    destruct (ShareSet_dedup _ _) as [set verdict] eqn:Ed; intros _; exists submit, entry, set, verdict;
    rewrite (Hv _ eq_refl); by split_and!.
Qed.
End submissions.

(** ** What a turn does to the work given out *)

(** The fields that say what work the device has. *)
Definition work_fields (s : Sv2Session) :=
  (v_channel_open s, v_channel_id s, v_extranonce_prefix s, v_extranonce_size s, v_job_ids s, v_next_job_id s,
   v_pending_job s).
(** Messages that leave that work as it is. *)
Definition quiet_msg (m : PoolMessage) : bool :=
  match m with MOpenExtendedSuccess _ _ _ _ _ _ | MNewExtendedMiningJob _ | MSetNewPrevHash _ => false | _ => true end.
Definition goes_on (f : Flow) : bool := match f with Continue => true | FlowDisconnect _ => false end.

Section turns.
Context {HL : HexLib} {HS : Sha256Lib} {HV : Sv2Lib} (error_text : PoolError -> string) (hex_flags : Z -> string).
Implicit Types (s : Sv2Session) (g : Counters) (env : Sv2Env).

(** A turn either changes nothing of that work, opens a channel, or hears of
    a job. *)
Inductive turn s env : sv2_event -> Sv2Session -> list PoolMessage -> bool -> Prop :=
| turn_quiet e s' msgs go :
    (forall b, e ≠ Sv2JobReceived b) -> work_fields s' = work_fields s -> Forall quiet_msg msgs ->
    turn s env e s' msgs go
| turn_open t p s1 effs rid target :
    v_job_ids s1 = v_job_ids s -> v_next_job_id s1 = v_next_job_id s -> v_pending_job s1 = v_pending_job s ->
    Z.of_nat (length (v_extranonce_prefix s1)) + v_extranonce_size s1 = v_extranonce_total s ->
    let r := announce_channel s1 env effs
               (MOpenExtendedSuccess rid (v_channel_id s1) target (wrap 16 (v_extranonce_size s1))
                  (v_extranonce_prefix s1) 0) in
    turn s env (Inbound t p) (r_session r) (r_messages r) (goes_on (r_flow r))
| turn_job b g g' s' effs msgs go :
    sv2_on_job g s env b = Some (g', s', effs, msgs, go) -> turn s env (Sv2JobReceived b) s' msgs go.

Lemma reply_quiet s effs env name m : quiet_msg m = true -> Forall quiet_msg (r_messages (reply s effs env name m)).
Proof.
  intros Hm. destruct (reply_messages s effs env name m) as [-> | ->]; [|done].
  apply Forall_cons. split; [by rewrite Hm|done].
Qed.
Lemma sv2_verdict_quiet s env seq w h v :
  work_fields (r_session (sv2_verdict s env seq w h v)) = work_fields s /\
  Forall quiet_msg (r_messages (sv2_verdict s env seq w h v)).
Proof.
  unfold sv2_verdict. destruct v as [[a d hash|d hex hash]|e|]; [| | |done].
  - cbv zeta. cbn [sv2_credit_share]. unfold sv2_accept. rewrite reply_session. split; [done|by apply reply_quiet].
  - destruct (submit_found_block _ _ _ _ _) as [effs [[]|e|]]; [| |done]; cbv zeta; cbn [sv2_credit_share];
      unfold sv2_accept, sv2_reject; rewrite reply_session; (split; [done|by apply reply_quiet]).
  - destruct (is_malicious e); [unfold sv2_count_invalid; destruct (record_invalid _) as [? []]; [done|]|];
      unfold sv2_reject; rewrite reply_session; (split; [done|by apply reply_quiet]).
Qed.
Lemma sv2_handle_submit_quiet s env p :
  work_fields (r_session (sv2_handle_submit s env p)) = work_fields s /\
  Forall quiet_msg (r_messages (sv2_handle_submit s env p)).
Proof.
  unfold sv2_handle_submit. destruct (negb (v_channel_open s)); [done|].
  destruct (decode_submit_extended p) as [submit|e|]; [|done..]. cbv zeta.
  destruct (negb (_ =? _)).
  { unfold sv2_count_invalid. destruct (record_invalid _) as [cn []]; [done|].
    unfold sv2_reject. rewrite reply_session. split; [done|by apply reply_quiet]. }
  destruct (sv2_find_job _ _ _) as [entry|].
  2: { unfold sv2_reject. rewrite reply_session. split; [done|by apply reply_quiet]. }
  destruct (validate_share_no_dedup _ _ _ _ _) as [x|e|]; [| |done]; destruct (ShareSet_dedup _ _) as [set verdict];
    exact (sv2_verdict_quiet (s <! v_share_set := set !>) env _ _ _ verdict).
Qed.
Lemma best_effort_quiet env m :
  quiet_msg m = true -> Forall quiet_msg (match send env 0 m with Sent => [m] | _ => [] end).
Proof. intros Hm. destruct (send env 0 m); [|done..]. apply Forall_cons. by rewrite Hm. Qed.
Lemma handle_setup_quiet s env p :
  work_fields (r_session (handle_setup_connection s env p hex_flags)) = work_fields s /\
  Forall quiet_msg (r_messages (handle_setup_connection s env p hex_flags)).
Proof.
  unfold handle_setup_connection, setup_error. destruct (decode_setup_connection p) as [setup|e|]; [|done..].
  destruct (setup_protocol setup).
  - destruct (_ || _); [|destruct (negb _)];
      [split; [done|by apply best_effort_quiet]..|].
    rewrite reply_session. split; [done|by apply reply_quiet].
  - split; [done|by apply best_effort_quiet].
Qed.
Context (total : Z) (Htotal : 1 <= total) (Hdec : decodes_ok).
Lemma on_inbound_turn g s env t p g' s' effs msgs go :
  v_extranonce_total s = total -> on_inbound error_text hex_flags g s env t p = Some (g', s', effs, msgs, go) ->
  turn s env (Inbound t p) s' msgs go.
Proof.
  intros Ht H. unfold on_inbound in H. destruct (check_message_size _ _); [|injection H as <- <- <- <- <-; by apply turn_quiet..].
  destruct (sv2_handle_message _ _ g s env t p) as [[g1 r]|] eqn:Em; [|done]. cbn [mbind option_bind] in H.
  assert (s' = r_session r /\ msgs = r_messages r /\ go = goes_on (r_flow r)) as (-> & -> & ->)
    by (destruct (r_flow r); by injection H as <- <- <- <- <-). clear H.
  unfold sv2_handle_message in Em. destruct (try_consume _ _ _) as [rate allowed]. cbv zeta in Em.
  set (s1 := s <! v_guard ::= _ !>) in Em. assert (work_fields s1 = work_fields s) as Hw by done.
  assert (v_extranonce_total s1 = total) as Ht1 by done. clearbody s1.
  destruct (negb allowed); [injection Em as <- <-; by apply turn_quiet|].
  destruct (_ =? _).
  { injection Em as <- <-. destruct (handle_setup_quiet s1 env p) as [H1 H2]. apply turn_quiet; [done|congruence|done]. }
  destruct (_ =? _).
  - destruct (handle_open_extended_outcome error_text total Htotal Hdec g s1 env p Ht1) as (out & Ho & Hout).
    rewrite Em in Ho. injection Ho as <-. remember (g1, r) as out eqn:Heq.
    destruct Hout as [msgs flow Hm|guard reason|open g2 s2 effs' Hsd _ [Hid Hs Hp Hc Htt _ (Hj1 & Hj2 & Hj3) _ _] _ _];
      injection Heq as _ <-.
    + apply turn_quiet; [done|done|]. destruct Hm as [-> |[id ->]]; [done|by apply Forall_cons].
    + by apply turn_quiet.
    + injection Hw as ???????. apply turn_open; try congruence. lia.
  - destruct (_ =? _); injection Em as <- <-; [|by apply turn_quiet].
    destruct (sv2_handle_submit_quiet s1 env p) as [H1 H2]. apply turn_quiet; [done|congruence|done].
Qed.
Lemma sv2_step_turn g s env e g' s' effs msgs go :
  v_extranonce_total s = total -> sv2_step error_text hex_flags g s env e = Some (g', s', effs, msgs, go) ->
  turn s env e s' msgs go.
Proof.
  intros Ht. destruct e as [| | |t p| |b| |]; cbn [sv2_step];
    try (intros H; injection H as <- <- <- <- <-; by apply turn_quiet).
  - by apply on_inbound_turn.
  - destruct (v_channel_open s); [|intros H; injection H as <- <- <- <- <-; by apply turn_quiet].
    unfold sv2_on_retarget. destruct (check_retarget _ _ _ _) as [[v [d|]]|]; cbn [mbind option_bind]; [| |done].
    + destruct (send env 0 _); intros H; injection H as <- <- <- <- <-; apply turn_quiet; try done; by apply Forall_cons.
    + intros H; injection H as <- <- <- <- <-; by apply turn_quiet.
  - apply turn_job.
Qed.
End turns.

(** ** The identifiers announced over a run *)

Definition announced (msgs : list PoolMessage) : list Z :=
  omap (fun m => match m with MNewExtendedMiningJob j => Some (nj_job_id j) | _ => None end) msgs.
(** The wire identifiers of the announcements from the [n]-th to the
    [n + k]-th. *)
Definition wire_ids (n k : nat) : list Z := map wire_id (seq n k).
(** The jobs a session can announce: the one it starts with and those it
    hears of. *)
Definition heard (s : Sv2Session) (l : list (Counters * Sv2Env * sv2_event)) (job : StratumJob) : Prop :=
  v_pending_job s = Some job \/ exists g env b, (g, env, Sv2JobReceived b) ∈ l /\ jb_job b = job.

Section ids.
Context {HL : HexLib} {HS : Sha256Lib} {HV : Sv2Lib} (error_text : PoolError -> string) (hex_flags : Z -> string).
Implicit Types (s : Sv2Session) (g : Counters) (env : Sv2Env).

Lemma announced_quiet msgs : Forall quiet_msg msgs -> announced msgs = [].
Proof.
  induction 1 as [|m msgs Hm Hq IH]; [done|]. destruct m; try done; exact IH.
Qed.
Lemma send_job_ids s env k job future s' msgs ok names :
  send_job s env k job future = (s', msgs, ok) -> ids_refine names s ->
  ids_refine (names ++ [job_id job]) s' /\ v_pending_job s' = v_pending_job s /\
  (announced msgs = wire_ids (length names) 1 \/ ok = false /\ announced msgs = []).
Proof.
  intros H Hn. unfold send_job in H. pose proof (assign_job_id_refine names s (job_id job) Hn) as [Hn' Hid].
  assert (v_pending_job (assign_job_id s (job_id job)).1 = v_pending_job s) as Hp by done.
  destruct (assign_job_id s (job_id job)) as [s1 id]. cbn [fst snd] in *. subst id. cbv zeta in H.
  destruct (send env k _); [|by injection H as <- <- <-; auto..].
  destruct future; [|by injection H as <- <- <-; auto].
  destruct (build_set_new_prev_hash _ _ _) as [p|e|]; [|by injection H as <- <- <-; auto..].
  destruct (send env (S k) _); injection H as <- <- <-; auto.
Qed.
(** One turn announces at most one job, under the next identifier. *)
Lemma turn_ids s env e s' msgs go names :
  turn s env e s' msgs go -> ids_refine names s ->
  exists more, ids_refine (names ++ more) s' /\
    (announced msgs = wire_ids (length names) (length more) \/ go = false /\ announced msgs = []) /\
    (forall job, v_pending_job s' = Some job -> v_pending_job s = Some job \/ exists b, e = Sv2JobReceived b /\ jb_job b = job) /\
    forall name, name ∈ more -> exists job, name = job_id job /\
      (v_pending_job s = Some job \/ exists b, e = Sv2JobReceived b /\ jb_job b = job).
Proof.
  assert (forall s, ids_refine names s -> ids_refine (names ++ []) s) as Hnil by (intros; by rewrite app_nil_r).
  intros [ev s1 msgs1 go1 _ Hw Hq|t p s1 effs rid target H1 H2 H3 _ r|b g g1 s1 effs msgs1 go1 H] Hn.
  - injection Hw as _ _ _ _ W1 W2 W3. exists []. split; [apply Hnil; destruct Hn; split; congruence|].
    split; [left; by apply announced_quiet|]. rewrite W3. split; [by left|]. by intros name ?%not_elem_of_nil.
  - assert (ids_refine names s1) as Hn1 by (destruct Hn; split; congruence).
    unfold r, announce_channel. clear r. destruct (send env 0 _).
    2,3: exists []; split; [by apply Hnil|]; split; [by left|]; cbn; rewrite H3; split; [by left|];
         by intros name ?%not_elem_of_nil.
    cbv zeta. set (s2 := s1 <! v_channel_open := true !>). assert (ids_refine names s2) as Hn2 by (by destruct Hn1).
    assert (v_pending_job s2 = v_pending_job s) as Hp by done. clearbody s2.
    destruct (v_pending_job s2) as [job|] eqn:Ej.
    2: { exists []. split; [by apply Hnil|]. split; [by left|]. cbn. rewrite Ej, Hp. split; [by left|].
         by intros name ?%not_elem_of_nil. }
    destruct (send_job s2 env 1 job true) as [[s3 msgs3] ok] eqn:Es.
    destruct (send_job_ids _ _ _ _ _ _ _ _ names Es Hn2) as (Hn3 & Hp3 & Ha). exists [job_id job].
    rewrite Ej, Hp in Hp3.
    destruct ok; cbn [r_session r_messages r_flow goes_on quit]; rewrite Hp3;
      (split; [done|]; split; [done|]; split; [by left|]; intros name ->%list_elem_of_singleton; eauto 10).
  - unfold sv2_on_job in H. cbv zeta in H. set (s2 := if jb_clean b then _ else s) in H.
    assert (ids_refine names s2 /\ v_pending_job s2 = v_pending_job s) as [Hn2 Hp2]
      by (unfold s2; destruct (jb_clean b); [by destruct Hn|done]). clearbody s2.
    destruct (v_channel_open s2).
    + destruct (send_job _ _ _ _ _) as [[s3 msgs3] ok] eqn:Es.
      destruct (send_job_ids _ _ _ _ _ _ _ _ names Es Hn2) as (Hn3 & Hp3 & Ha). exists [job_id (jb_job b)].
      destruct ok; injection H as <- <- <- <- <-.
      * split; [by destruct Hn3|]. split; [done|]. split; [intros job [= <-]; eauto 10|].
        intros name ->%list_elem_of_singleton; eauto 10.
      * split; [done|]. split; [done|]. rewrite Hp3, Hp2. split; [by left|].
        intros name ->%list_elem_of_singleton; eauto 10.
    + injection H as <- <- <- <- <-. exists []. split; [apply Hnil; by destruct Hn2|]. split; [by left|].
      split; [intros job [= <-]; eauto 10|]. by intros name ?%not_elem_of_nil.
Qed.

Lemma wire_ids_app n k1 k2 : wire_ids n (k1 + k2) = wire_ids n k1 ++ wire_ids (n + k1) k2.
Proof. unfold wire_ids. by rewrite seq_app, map_app. Qed.

Context (c : VardiffConfig) (d0 total : Z) (Htotal : 1 <= total) (Hdec : decodes_ok).
Context (Hcfg : validate_vardiff c = Ok tt) (Hfloat : valid_binary prec emax (max_retarget_factor c) = true).
Lemma sv2_run_ids l s names s' effs msgs :
  sv2_inv c d0 total s -> ids_refine names s -> sv2_run error_text hex_flags s l = Some (s', effs, msgs) ->
  exists more, ids_refine (names ++ more) s' /\
    announced msgs `prefix_of` wire_ids (length names) (length more) /\
    forall name, name ∈ more -> exists job, name = job_id job /\ heard s l job.
Proof.
  revert s names s' effs msgs; induction l as [|[[g env] e] l IH]; intros s names s' effs msgs Hi Hn H; cbn [sv2_run] in H.
  { injection H as <- <- <-. exists []. rewrite app_nil_r. split; [done|]. split; [by exists []|].
    by intros name ?%not_elem_of_nil. }
  destruct (sv2_step_inv error_text hex_flags c d0 total Htotal Hdec Hcfg Hfloat g s env e Hi)
    as (g1 & s1 & effs1 & msgs1 & go & Hs & Hi1). rewrite Hs in H.
  pose proof (sv2_step_turn error_text hex_flags total Htotal Hdec _ _ _ _ _ _ _ _ _ (vi_total _ _ _ _ Hi) Hs) as Ht.
  destruct (turn_ids _ _ _ _ _ _ names Ht Hn) as (more & Hn1 & Ha & Hpend & Hmore).
  assert (forall job, v_pending_job s = Some job \/ (exists b, e = Sv2JobReceived b /\ jb_job b = job) ->
    heard s ((g, env, e) :: l) job) as Hhd.
  { intros job [Hj|(b & -> & Hj)]; [by left|]. right. exists g, env, b. split; [|done]. apply elem_of_cons. by left. }
  destruct go.
  - destruct Ha as [Ha|[? _]]; [|done].
    destruct (sv2_run _ _ s1 l) as [[[s2 effs2] msgs2]|] eqn:Er; [|done]. injection H as <- <- <-.
    destruct (IH s1 _ _ _ _ Hi1 Hn1 Er) as (more2 & Hn2 & [rest Hp] & Hm2). exists (more ++ more2).
    rewrite app_assoc. split; [done|]. split.
    + exists rest. unfold announced in *. rewrite omap_app, Ha, length_app, wire_ids_app, <- app_assoc.
      rewrite length_app in Hp. by rewrite Hp.
    + intros name [Hin|Hin]%elem_of_app.
      * destruct (Hmore name Hin) as (job & -> & Hj). eauto.
      * destruct (Hm2 name Hin) as (job & -> & [Hj|(g' & env' & b & Hb & Hj)]); exists job; (split; [done|]).
        -- by apply Hhd, Hpend.
        -- right. exists g', env', b. split; [|done]. apply elem_of_cons. by right.
  - injection H as <- <- <-. exists more. split; [done|]. split.
    + destruct Ha as [-> |[_ ->]]; [done|apply prefix_nil].
    + intros name Hin. destruct (Hmore name Hin) as (job & -> & Hj). eauto.
Qed.
End ids.
