(* ===== verification/Pool.v ===== *)
(** The serving process: the acceptor of network/server.rs with the ban list,
    the connection limiter and the extranonce counters, the sessions of both
    protocols it spawns, the template engine with its refreshes and the channel
    it broadcasts jobs on, the payout address, the statistics all of them
    report to, and the periodic tasks, as one executable step function.

    A refresh runs as steps of its own (built, committed, pushed, broadcast)
    that interleave with everything else, and so can several refreshes.

    A session's turn computes its new state and the effects it has; the
    effects reach the statistics and the ban list one by one, between those of
    other sessions. [p_clock] is the largest reading of the monotonic clock
    the ban list was given so far: every step reads the clock from there on. *)
From S2P Require Export Main Sv2 Broadcast TemplateStats.
From Stdlib Require Import Strings.Ascii.

(** The task of a connection: waiting for the first byte, in the Noise
    handshake, in the loop of a session ([go]) or out of it, past its close. *)
Inductive task :=
| Peeking
| Securing
| Sv1Task (s : Session) (go : bool)
| Sv2Task (s : Sv2Session) (go : bool)
| Leaving.

Section pool.
Context {Ip : Type} `{!EqDecision Ip} `{!Countable Ip}.
Context {HJ : JsonLib f64} {HL : HexLib} {HS : Sha256Lib} {HB : BitcoinLib} {HV : Sv2Lib} {HI : DashIter}
  {HC : BroadcastLib} {HW : PowLib}.
Context (from_str : string -> outcome string StratumRequest) (error_text : PoolError -> string) (hex_flags : Z -> string)
  (cfg : Config).

(** A connection holds a slot from its admission until its task ends.
    [cn_todo] are the effects of its last turn that are still to come. *)
Record conn := { cn_ip : Ip; cn_task : task; cn_todo : list session_effect }.
Record Pool := {
  p_clock : Z;
  p_bans : BanList Ip;
  p_limiter : ConnectionRateLimiter Ip;
  p_counters : Counters;
  p_stats : PoolStats;
  p_conns : gmap nat conn;
  p_settings : RuntimeSettings;
  p_engine : TemplateEngine;
  p_ids : JobIds;
  p_refreshes : gmap nat phase;   (** the refreshes under way *)
  p_receivers : gmap nat Rx;   (** the sessions' ends of the channel *)
}.
#[export] Instance Pool_id : FieldwiseId Pool := fun p => {|
  p_clock := p_clock p; p_bans := p_bans p; p_limiter := p_limiter p; p_counters := p_counters p;
  p_stats := p_stats p; p_conns := p_conns p; p_settings := p_settings p; p_engine := p_engine p; p_ids := p_ids p;
  p_refreshes := p_refreshes p; p_receivers := p_receivers p |}.
(** The accept loop begins with the parts [boot] built. *)
Definition pool_init (sh : Shared) (now : Z) : Pool := {|
  p_clock := now; p_bans := banlist_new (ban_duration_secs (security cfg)) MAX_TRACKED_IPS;
  p_limiter := limiter_new (max_connections_per_ip (security cfg)) MAX_TRACKED_IPS;
  p_counters := {| extranonce_counter := 1; next_channel_id := 1 |}; p_stats := sh_stats sh; p_conns := ∅;
  p_settings := sh_settings sh; p_engine := sh_engine sh; p_ids := sh_ids sh; p_refreshes := ∅; p_receivers := ∅ |}.

(** What happens next, with the readings of the clock it takes. *)
Inductive pool_event :=
| Accept (i : nat) (ip : Ip) (b1 b2 r1 r2 r3 : Z)
| FirstByte (i : nat) (p : peeked) (b1 b2 random n1 n2 n3 n4 : Z)
| Handshake (i : nat) (ok : bool) (n1 n2 n3 n4 : Z)
| Sv1Turn (i : nat) (env : Env) (e : session_event)
| Sv2Turn (i : nat) (env : Sv2Env) (e : sv2_event)
| Sv1Job (i : nat) (env : Env) (written : bool)
| Sv2Job (i : nat) (env : Sv2Env)
| Refresh (k : nat) (gbt : outcome PoolError GbtResult) (clean : bool)
| RefreshNext (k : nat) (now : Z)
| SettingsPost (address : string) (io : option string)
| Settle (i : nat) (env : StatsEnv) (b1 b2 : Z)
| Close (i : nat) (now1 now2 : Z)
| End (i : nat)
| PruneTick (b r now : Z) (io : option string)
| ShareLogTick (now : Z) (io_open io_write : option string)
| HashrateTick (ts : Z) (io : nat -> option string)
| NetworkTick (poll : option (outcome PoolError f64 * outcome PoolError f64)).
(** What an observer of the ban list sees: an address refused or let in by the
    acceptor and by the session's own check, at the reading the check takes;
    an address banned; a task that panicked. *)
Inductive pool_obs :=
| Refused (ip : Ip) (why : refusal)
| LetIn (ip : Ip) (t : Z)
| NowBanned (ip : Ip) (t : Z)
| Panicked (i : nat).
Definition stepped : Type := option (list pool_obs * Pool).

Definition drop_conn (p : Pool) (i : nat) : Pool := p <! p_conns ::= delete i !> <! p_receivers ::= delete i !>.
Definition put_conn (p : Pool) (i : nat) (ip : Ip) (t : task) (todo : list session_effect) : Pool :=
  p <! p_conns ::= <[i := {| cn_ip := ip; cn_task := t; cn_todo := todo |}]> !>.
(** A session starts with a receiver of its own. *)
Definition start_conn (p : Pool) (i : nat) (ip : Ip) (t : task) (todo : list session_effect) : Pool :=
  put_conn p i ip t todo <! p_receivers ::= <[i := rx_subscribe]> !>.
Definition panicked (p : Pool) (i : nat) : stepped := Some ([Panicked i], drop_conn p i).
(** Readings of the clock run forward. *)
Definition in_order (p : Pool) (b1 b2 : Z) : bool := (p_clock p <=? b1) && (b1 <=? b2).

(** *** The acceptor *)

(** One accepted connection; a free slot is reserved first. *)
Definition pool_accept (p : Pool) (i : nat) (ip : Ip) (b1 b2 r1 r2 r3 : Z) : list pool_obs * Pool :=
  let reserved := Z.of_nat (size (p_conns p)) <? max_connections (pool cfg) in
  let '(bans, lim, refused) := admission reserved (p_bans p) (p_limiter p) ip b1 b2 r1 r2 r3 in
  let p := p <! p_bans := bans !> <! p_limiter := lim !> <! p_clock := b2 !> in
  match refused with
  | Some why => ([Refused ip why], p)
  | None => ([LetIn ip b1], put_conn p i ip Peeking [])
  end.
(** The first byte picks the protocol; both sessions begin with a check of
    the ban list. *)
Definition pool_first_byte (p : Pool) (i : nat) (ip : Ip) (pk : peeked) (b1 b2 random n1 n2 n3 n4 : Z)
    : list pool_obs * Pool :=
  match detect (sv2_enabled (sv2 cfg)) pk with
  | RunSv1 =>
      let '(bans, banned) := is_banned (p_bans p) ip b1 b2 in
      let p := p <! p_bans := bans !> <! p_clock := b2 !> in
      let '(c, started) := session_start banned cfg (extranonce_counter (p_counters p)) random (p_engine p) n1 n2 n3 n4 in
      let p := p <! p_counters ::= fun g => {| extranonce_counter := c; next_channel_id := next_channel_id g |} !> in
      match started with
      | Some (s, effs) => ([LetIn ip b1], start_conn p i ip (Sv1Task s true) effs)
      | None => ([], drop_conn p i)
      end
  | RunSv2 =>
      let '(bans, banned) := is_banned (p_bans p) ip b1 b2 in
      let p := p <! p_bans := bans !> <! p_clock := b2 !> in
      if banned then ([], drop_conn p i) else ([LetIn ip b1], put_conn p i ip Securing [])
  | Sv2Rejected | NoSession => ([], drop_conn p i)
  end.
(** The end of the Noise handshake. *)
Definition pool_handshake (p : Pool) (i : nat) (ip : Ip) (ok : bool) (n1 n2 n3 n4 : Z) : Pool :=
  let '(g, started) := sv2_start false ok cfg (p_counters p) (p_engine p) n1 n2 n3 n4 in
  let p := p <! p_counters := g !> in
  match started with
  | Some (s, effs) => start_conn p i ip (Sv2Task s true) effs
  | None => drop_conn p i
  end.

(** *** The sessions *)

(** One effect of connection [i] arrives: a ban at the ban list, anything else
    at the statistics. A ban whose end is no instant panics the task that asked for
    it, which for a frame refused by the reader task ends the reader only. *)
Definition pool_settle (p : Pool) (i : nat) (c : conn) (e : session_effect) (todo : list session_effect)
    (env : StatsEnv) (b1 b2 : Z) : stepped :=
  let rest := put_conn p i (cn_ip c) (cn_task c) todo in
  match e with
  | BanPeer _ =>
      if in_order p b1 b2 then
        match ban (p_bans p) (cn_ip c) b1 b2 with
        | Some bans => Some ([NowBanned (cn_ip c) b2], rest <! p_bans := bans !> <! p_clock := b2 !>)
        | None =>
            match cn_task c with
            | Sv2Task _ true => Some ([], rest <! p_clock := b2 !>)
            | _ => panicked (p <! p_clock := b2 !>) i
            end
        end
      else None
  | _ => Some ([], rest <! p_stats ::= fun ps => apply_effect ps (env, e) !>)
  end.
(** What the session does next, once its last effects arrived. It reads the
    engine as it is. *)
Definition with_engine (env : Env) (engine : TemplateEngine) : Env := {|
  e_engine := engine; e_answers := e_answers env; e_stash := e_stash env; e_clk := e_clk env |}.
Definition sv2_with_engine (env : Sv2Env) (engine : TemplateEngine) : Sv2Env := {|
  v_env := with_engine (v_env env) engine; v_written := v_written env |}.
Definition pool_sv1_turn (p : Pool) (i : nat) (ip : Ip) (s : Session) (env : Env) (e : session_event) : stepped :=
  match session_step from_str s (with_engine env (p_engine p)) e with
  | Some (s, effs, _, go) => Some ([], put_conn p i ip (Sv1Task s go) effs)
  | None => panicked p i
  end.
Definition pool_sv2_turn (p : Pool) (i : nat) (ip : Ip) (s : Sv2Session) (env : Sv2Env) (e : sv2_event) : stepped :=
  match sv2_step error_text hex_flags (p_counters p) s (sv2_with_engine env (p_engine p)) e with
  | Some (g, s, effs, _, go) => Some ([], put_conn (p <! p_counters := g !>) i ip (Sv2Task s go) effs)
  | None => panicked p i
  end.

(** The turns on a job, or on having missed some, are those the session's
    receiver gives it; the channel is never closed, since every session keeps
    the engine alive. *)
Definition sv1_job_event (e : session_event) : bool :=
  match e with JobReceived _ _ | JobLagged | JobClosed => true | _ => false end.
Definition sv2_job_event (e : sv2_event) : bool :=
  match e with Sv2JobReceived _ | Sv2JobLagged | Sv2JobClosed => true | _ => false end.
Definition receive (p : Pool) (i : nat) : option (option JobBroadcast * Pool) :=
  rx ← p_receivers p !! i;
  '(got, rx) ← rx_recv rx;
  Some (got, p <! p_receivers ::= <[i := rx]> !>).
Definition pool_sv1_job (p : Pool) (i : nat) (ip : Ip) (s : Session) (env : Env) (written : bool) : stepped :=
  '(got, p) ← receive p i;
  pool_sv1_turn p i ip s env (match got with Some b => JobReceived b written | None => JobLagged end).
Definition pool_sv2_job (p : Pool) (i : nat) (ip : Ip) (s : Sv2Session) (env : Sv2Env) : stepped :=
  '(got, p) ← receive p i;
  pool_sv2_turn p i ip s env (match got with Some b => Sv2JobReceived b | None => Sv2JobLagged end).

(** *** The template engine *)

(** A refresh builds its job and reports it, or notes why there is none; a
    panic ends the task it runs on. *)
Definition pool_refresh (p : Pool) (k : nat) (gbt : outcome PoolError GbtResult) (clean : bool) : Pool :=
  let '(ids, built) := refresh_job (p_settings p) (pool cfg) (p_ids p) gbt in
  let p := p <! p_ids := ids !> in
  match built with
  | Ok job => p <! p_stats ::= fun ps => publish_template_stats ps job !> <! p_refreshes ::= <[k := Built job clean]> !>
  | Err why => p <! p_engine ::= fun e => note_template_failure e why !>
  | Panic => p
  end.
(** Its next part, up to the next await. *)
Definition pool_refresh_next (p : Pool) (k : nat) (ph : phase) (now : Z) : Pool :=
  match ph with
  | Built job clean =>
      let '(e, clean) := commit_job (p_engine p) job clean now in
      p <! p_engine := e !> <! p_refreshes ::= <[k := Committed job clean]> !>
  | Committed job clean =>
      p <! p_engine ::= fun e => push_history e job clean now !> <! p_refreshes ::= <[k := Pushed job clean]> !>
  | Pushed job clean =>
      p <! p_receivers ::= fmap (rx_send JOB_BROADCAST_CAP {| jb_job := job; jb_clean := clean |}) !>
        <! p_refreshes ::= delete k !>
  end.
(** The dashboard's change of the payout address; the refresh it asks for is
    one of those above. *)
Definition pool_settings_post (p : Pool) (address : string) (io : option string) : Pool :=
  let '(settings, stats, _) := change_address address io (p_settings p) (p_stats p) in
  p <! p_settings := settings !> <! p_stats := stats !>.

(** *** One step; [None] when it cannot happen in this pool *)
Definition pool_step (p : Pool) (e : pool_event) : stepped :=
  let at_rest i f :=
    match p_conns p !! i with
    | Some c => match cn_todo c with [] => f (cn_ip c) (cn_task c) | _ :: _ => None end
    | None => None
    end in
  match e with
  | Accept i ip b1 b2 r1 r2 r3 =>
      if in_order p b1 b2 && bool_decide (p_conns p !! i = None) then Some (pool_accept p i ip b1 b2 r1 r2 r3) else None
  | FirstByte i pk b1 b2 random n1 n2 n3 n4 =>
      at_rest i (fun ip t =>
        match t with
        | Peeking => if in_order p b1 b2 then Some (pool_first_byte p i ip pk b1 b2 random n1 n2 n3 n4) else None
        | _ => None
        end)
  | Handshake i ok n1 n2 n3 n4 =>
      at_rest i (fun ip t => match t with Securing => Some ([], pool_handshake p i ip ok n1 n2 n3 n4) | _ => None end)
  | Sv1Turn i env e =>
      at_rest i (fun ip t => match t with Sv1Task s true => if sv1_job_event e then None else pool_sv1_turn p i ip s env e | _ => None end)
  | Sv2Turn i env e =>
      at_rest i (fun ip t => match t with Sv2Task s true => if sv2_job_event e then None else pool_sv2_turn p i ip s env e | _ => None end)
  | Sv1Job i env written =>
      at_rest i (fun ip t => match t with Sv1Task s true => pool_sv1_job p i ip s env written | _ => None end)
  | Sv2Job i env => at_rest i (fun ip t => match t with Sv2Task s true => pool_sv2_job p i ip s env | _ => None end)
  | Refresh k gbt clean =>
      match p_refreshes p !! k with None => Some ([], pool_refresh p k gbt clean) | Some _ => None end
  | RefreshNext k now =>
      match p_refreshes p !! k with Some ph => Some ([], pool_refresh_next p k ph now) | None => None end
  | SettingsPost address io => Some ([], pool_settings_post p address io)
  | Settle i env b1 b2 =>
      match p_conns p !! i with
      | Some c => match cn_todo c with e :: todo => pool_settle p i c e todo env b1 b2 | [] => None end
      | None => None
      end
  | Close i now1 now2 =>
      at_rest i (fun ip t =>
        match t with
        | Sv1Task s false => Some ([], put_conn p i ip Leaving (session_close s now1 now2))
        | Sv2Task s false => Some ([], put_conn p i ip Leaving (sv2_close s now1 now2))
        | _ => None
        end)
  | End i => at_rest i (fun _ t => match t with Leaving => Some ([], drop_conn p i) | _ => None end)
  | PruneTick b r now io =>
      if p_clock p <=? b then
        let '(bans, lim, stats) := prune_tick (p_bans p) (p_limiter p) (p_stats p) b r now io in
        Some ([], p <! p_bans := bans !> <! p_limiter := lim !> <! p_stats := stats !> <! p_clock := b !>)
      else None
  | ShareLogTick now io_open io_write => Some ([], p <! p_stats ::= fun ps => flush_share_log ps now io_open io_write !>)
  | HashrateTick ts io => Some ([], p <! p_stats ::= fun ps => hashrate_tick ps ts io !>)
  | NetworkTick poll => Some ([], p <! p_stats ::= fun ps => network_tick ps poll !>)
  end.
Fixpoint pool_run (p : Pool) (l : list pool_event) : stepped :=
  match l with
  | [] => Some ([], p)
  | e :: l =>
      '(obs, p) ← pool_step p e;
      '(obs', p) ← pool_run p l;
      Some (obs ++ obs', p)
  end.
End pool.
Arguments conn Ip : clear implicits.
Arguments Pool Ip {_ _ _}.
Arguments pool_event Ip : clear implicits.
Arguments pool_obs Ip : clear implicits.
