(* ===== verification/Presence.v ===== *)
(** Which worker a Stratum V2 session has online, turn by turn: its effects
    take and hand off workers as [holder_run] requires. *)
From stdpp Require Import sorting.
From S2P Require Export StatsFacts Sv2Facts.
From Stdlib Require Import Strings.Ascii.

Section presence.
Context {HL : HexLib} {HS : Sha256Lib} {HV : Sv2Lib} (error_text : PoolError -> string) (hex_flags : Z -> string).
Implicit Types (s : Sv2Session) (g : Counters) (env : Sv2Env).
#[local] Notation holds s effs s' := (holder_run (v_worker s) effs = Some (v_worker s')) (only parsing).

Lemma inv_fields_worker s s' : inv_fields s' = inv_fields s -> v_worker s' = v_worker s.
Proof. unfold inv_fields. congruence. Qed.
Lemma announce_channel_worker s env effs m : v_worker (r_session (announce_channel s env effs m)) = v_worker s.
Proof.
  unfold announce_channel. destruct (send env 0 m); [|done..]. cbv zeta.
  destruct (v_pending_job _) as [job|]; [|done].
  pose proof (send_job_fields (s <! v_channel_open := true !>) env 1 job true) as Hf.
  destruct (send_job _ env 1 job true) as [[s2 msgs] ok]. cbn [fst] in Hf. apply inv_fields_worker in Hf. by destruct ok.
Qed.
Lemma announce_channel_effects s env effs m : r_effects (announce_channel s env effs m) = effs.
Proof.
  unfold announce_channel. destruct (send env 0 m); [|done..]. cbv zeta.
  destruct (v_pending_job _) as [job|]; [|done]. destruct (send_job _ _ _ _ _) as [[s1 msgs] ok]. by destruct ok.
Qed.
Lemma sv2_verdict_calm s env seq w h v : forallb quiet (r_effects (sv2_verdict s env seq w h v)) = true.
Proof.
  unfold sv2_verdict, sv2_accept, sv2_reject. destruct v as [[a d hash|d hex hash]|e|]; [| | |done].
  - destruct (sv2_credit_share _ _ _). by rewrite reply_effects.
  - destruct (submit_found_block _ _ _ _ _) as [effs [u|e|]]; [destruct (sv2_credit_share _ _ _)|..];
      by rewrite ?reply_effects.
  - cbv zeta. destruct (if is_malicious e then _ else _) as [s1 disconnect]. destruct disconnect; by rewrite ?reply_effects.
Qed.
Lemma sv2_handle_submit_calm s env p : forallb quiet (r_effects (sv2_handle_submit s env p)) = true.
Proof.
  unfold sv2_handle_submit, sv2_reject. destruct (negb _); [done|].
  destruct (decode_submit_extended p) as [submit|e|]; [|done..]. cbv zeta. destruct (negb _).
  { destruct (sv2_count_invalid _) as [s1 disconnect]. destruct disconnect; by rewrite ?reply_effects. }
  destruct (sv2_find_job _ _ _); [|by rewrite reply_effects].
  destruct (validate_share_no_dedup _ _ _ _ _); [..|done]; destruct (ShareSet_dedup _ _); apply sv2_verdict_calm.
Qed.
Lemma handle_setup_worker s env p :
  v_worker (r_session (handle_setup_connection s env p hex_flags)) = v_worker s /\
  r_effects (handle_setup_connection s env p hex_flags) = [].
Proof.
  unfold handle_setup_connection. destruct (decode_setup_connection p) as [setup|e|]; [|done..].
  destruct (setup_protocol setup); [|done]. destruct (_ || _); [done|]. destruct (negb _); [done|].
  by rewrite reply_session, reply_effects.
Qed.
Lemma assign_channel_worker g s requested w g' s' :
  assign_channel g s requested w = Some (g', s') -> v_worker s' = Some w.
Proof.
  unfold assign_channel. cbv zeta. destruct (_ <? _); [done|]. destruct (generate_extranonce1 _ _) as [c prefix].
  intros H. assert (s' = s <! v_extranonce_size := Z.max requested 1 !> <! v_extranonce_prefix := prefix !>
            <! v_channel_id := next_channel_id g !> <! v_worker := Some w !>) as -> by congruence. done.
Qed.
(** A granted open hands the previous worker off and takes the new one. *)
Lemma handle_open_holds g s env p g' r :
  handle_open_extended g s env p error_text = Some (g', r) -> holds s (r_effects r) (r_session r).
Proof.
  unfold handle_open_extended. intros H.
  assert (forall g1 s1 msgs reason, v_worker s1 = v_worker s -> Some (g1, quit s1 [] msgs reason) = Some (g', r) ->
    holds s (r_effects r) (r_session r)) as Hq.
  { intros g1 s1 msgs reason Hw Heq. assert (r = quit s1 [] msgs reason) as -> by congruence. cbn. by rewrite Hw. }
  destruct (negb _); [by apply Hq in H|].
  destruct (decode_open_extended p) as [open|e|]; [|by apply Hq in H|done].
  destruct (check_worker_name _ _) as [u|e|]; [|by apply Hq in H|done].
  cbv zeta in H. destruct (_ <? _); [by injection H as <- <-|].
  destruct (bool_decide (v_worker s = Some (user_identity open))) eqn:Hid; cbn [negb] in H.
  - apply bool_decide_eq_true in Hid.
    destruct (assign_channel g s _ _) as [[g2 s3]|] eqn:Ea; [|done]. cbn [mbind option_bind] in H.
    apply assign_channel_worker in Ea. injection H as _ <-. rewrite announce_channel_worker, announce_channel_effects.
    cbn [app holder_run]. by rewrite Ea, Hid.
  - destruct (record_new_authorization (v_guard s)) as [guard ok]. destruct ok; cbn [negb] in H; [|by apply Hq in H].
    set (s1 := s <! v_guard := guard !>) in H. change (v_worker s) with (v_worker s1). clearbody s1.
    destruct (release_worker_spec s1 (e_clk (v_env env) 2)) as [_ [history Hgone]].
    destruct (release_worker s1 _) as [s2 gone]. cbn [snd] in Hgone.
    destruct (assign_channel g s2 _ _) as [[g2 s3]|] eqn:Ea; [|done]. cbn [mbind option_bind] in H.
    apply assign_channel_worker in Ea.
    destruct (adopt_identity_spec s3 (v_env env) (user_identity open)) as (_ & Hcf & Hcome).
    destruct (adopt_identity s3 _ _) as [s4 come]. cbn [fst snd] in Hcf, Hcome.
    assert (v_worker s4 = v_worker s3) as Hw4 by (unfold channel_fields in Hcf; congruence).
    injection H as _ <-. rewrite announce_channel_worker, announce_channel_effects, Hw4, Ea, Hgone, Hcome.
    destruct (v_worker s1) as [prev|]; cbn; by rewrite ?bool_decide_true by done.
Qed.
Lemma sv2_step_holds g s env e g' s' effs msgs go :
  sv2_step error_text hex_flags g s env e = Some (g', s', effs, msgs, go) -> holds s effs s'.
Proof.
  destruct e as [| | |t p| |b| |]; cbn [sv2_step]; try (intros H; injection H as <- <- <- <- <-; done).
  - unfold on_inbound. destruct (check_message_size _ _); [|intros H; injection H as <- <- <- <- <-; done..].
    destruct (sv2_handle_message _ _ g s env t p) as [[g1 r]|] eqn:Em; [|done]. cbn [mbind option_bind]. cbv zeta.
    assert (holds s (r_effects r) (r_session r)) as Hr.
    { unfold sv2_handle_message in Em. destruct (try_consume _ _ _) as [rate allowed]. cbv zeta in Em.
      set (s1 := s <! v_guard ::= _ !>) in Em. change (v_worker s) with (v_worker s1). clearbody s1.
      destruct (negb allowed); [by injection Em as <- <-|].
      destruct (_ =? _). { injection Em as <- <-. destruct (handle_setup_worker s1 env p) as [-> ->]. done. }
      destruct (_ =? _); [by apply handle_open_holds in Em|].
      destruct (_ =? _); injection Em as <- <-; [|done].
      pose proof (sv2_handle_submit_fields s1 env p) as Hf. apply inv_fields_worker in Hf. rewrite Hf.
      apply holder_run_quiet, sv2_handle_submit_calm. }
    destruct (r_flow r); intros H; injection H as <- <- <- <- <-; rewrite holder_run_app, Hr; cbn [mbind option_bind];
      apply holder_run_quiet.
    + destruct (v_channel_open _); [|done]. unfold sv2_hashrate_effects. by destruct (v_worker (r_session r)).
    + by destruct (v_worker (r_session r)).
  - destruct (v_channel_open s); [|intros H; injection H as <- <- <- <- <-; done].
    unfold sv2_on_retarget. destruct (check_retarget _ _ _ _) as [[v [d|]]|]; cbn [mbind option_bind]; [| |done].
    + assert (holder_run (v_worker s) (match v_worker (s <! v_vardiff := v !> <! v_difficulty := d !>) with
        | Some w => [MetricVardiffRetarget w (v_difficulty s) d; UpdateWorkerVardiff w d] | None => [] end)
        = Some (v_worker s)) as Hc.
      { change (v_worker (s <! v_vardiff := v !> <! v_difficulty := d !>)) with (v_worker s).
        destruct (v_worker s) as [w|]; [|done]. cbn. by rewrite bool_decide_true by done. }
      destruct (send env 0 _); intros H; injection H as <- <- <- <- <-; exact Hc.
    + intros H; injection H as <- <- <- <- <-. done.
  - unfold sv2_on_job. cbv zeta. set (s1 := if jb_clean b then _ else s).
    assert (v_worker s1 = v_worker s) as <- by (unfold s1; by destruct (jb_clean b)). clearbody s1.
    destruct (v_channel_open s1).
    + pose proof (send_job_fields s1 env 0 (jb_job b) (jb_clean b)) as Hf.
      destruct (send_job s1 _ _ _ _) as [[s2 ms] ok]. cbn [fst] in Hf. apply inv_fields_worker in Hf. rewrite <- Hf.
      destruct ok; intros H; injection H as <- <- <- <- <-; done.
    + intros H; injection H as <- <- <- <- <-. done.
Qed.
Lemma sv2_close_holds s now1 now2 : holder_run (v_worker s) (sv2_close s now1 now2) = Some None.
Proof. unfold sv2_close. destruct (v_worker s) as [w|] eqn:E; cbn; [|done]. by rewrite bool_decide_true by done. Qed.
End presence.
