(* ===== verification/MetricsFacts.v ===== *)
(** Lemmas about the metrics: which series an event of the pool reports, and
    which of them the keep-alive touches. *)
From S2P Require Export Metrics Presence.
From Stdlib Require Import Strings.Ascii.

Definition is_histogram (c : MetricCall) : bool := match snd c with HistogramRecord _ => true | _ => false end.
Definition per_worker (c : MetricCall) : bool := existsb (fun l => bool_decide (fst l = "worker")) (snd (fst c)).
Definition kept_alive (s : Series) : bool := bool_decide (s ∈ map fst keep_pool_series_alive).
(** The keep-alive covers the call's series, or does not mean to. *)
Definition covered (c : MetricCall) : bool := per_worker c || is_histogram c || kept_alive (fst c).
Definition zero_sized (op : MetricOp) : Prop := op = CounterIncrement 0 \/ op = GaugeIncrement f64_zero.
Lemma keep_alive_zero c : c ∈ keep_pool_series_alive -> zero_sized (snd c).
Proof.
  intros H. unfold keep_pool_series_alive in H. cbn in H.
  repeat (apply elem_of_cons in H as [->|H]; [by (left + right)|]). by apply elem_of_nil in H.
Qed.

Definition effect_covered (e : session_effect) : Prop := Forall (fun c => covered c = true) (session_metrics e).
Ltac by_covered := repeat first [ done | apply Forall_nil_2 | apply Forall_cons_2 | reflexivity ].
Lemma failure_covered e : effect_covered (MetricBlockSubmissionFailure (submit_failure_label e)).
Proof. destruct e; by repeat constructor. Qed.
Lemma ban_covered : effect_covered (BanPeer "message too large").
Proof. by repeat constructor. Qed.
Lemma closed_covered w n t : effect_covered (SessionClosed w n t).
Proof.
  unfold effect_covered. cbn [session_metrics]. unfold metric_session_closed. destruct w as [w|]; [|by repeat constructor].
  destruct (n =? 0); by repeat constructor.
Qed.
(** The effects whose labels are the miner's only. *)
Definition worker_only (e : session_effect) : bool :=
  match e with BanPeer _ | MetricBlockSubmissionFailure _ | SessionClosed _ _ _ => false | _ => true end.
Lemma worker_only_covered e : worker_only e = true -> effect_covered e.
Proof. destruct e; try done; intros _; by repeat constructor. Qed.
Lemma worker_only_all effs : forallb worker_only effs = true -> Forall effect_covered effs.
Proof.
  intros H. apply Forall_forall. intros e He. apply worker_only_covered. rewrite forallb_forall in H.
  by apply H, list_elem_of_In.
Qed.
#[export] Hint Resolve failure_covered ban_covered closed_covered Forall_nil_2 Forall_cons_2 : pool.
Ltac covered_list := first [ by apply worker_only_all | repeat (apply Forall_cons_2; [first [by apply worker_only_covered | auto with pool]|]); apply Forall_nil_2 ].

(** ** Stratum V1 *)

Section sv1.
Context {HJ : JsonLib f64} {HL : HexLib} {HS : Sha256Lib}.
Context (request_from_str : string -> outcome string StratumRequest).

Lemma handle_verdict_covered s req env w h v : Forall effect_covered (handle_verdict s req env w h v).1.2.
Proof.
  unfold handle_verdict. destruct v as [[a d hash|d hex hash]|e|].
  - destruct (credit_share _ _ _). covered_list.
  - destruct (submit_found_block _ _ _ _ _) as [effs [u|e|]]; cbn [fst snd]; [destruct (credit_share _ _ _)|..]; covered_list.
  - destruct (is_malicious e); [destruct (count_invalid _ _ _)|]; covered_list.
  - covered_list.
Qed.
Lemma handle_submit_covered s req p env : Forall effect_covered (handle_submit s req p env).1.2.
Proof.
  unfold handle_submit. destruct (negb _); [covered_list|]. destruct (negb _); [destruct (count_invalid _ _ _); covered_list|].
  destruct (find_job _ _); [|covered_list].
  destruct (validate_share_no_dedup _ _ _ _ _); [..|covered_list];
    destruct (ShareSet_dedup _ _); apply handle_verdict_covered.
Qed.
Lemma adopt_worker_covered s env w : Forall effect_covered (adopt_worker s env w).2.
Proof.
  unfold adopt_worker. destruct (s_worker s) as [prev|]; [|covered_list].
  destruct (take_share_history _ _). covered_list.
Qed.
Lemma handle_authorize_covered s req p env : Forall effect_covered (handle_authorize s req p env).1.2.
Proof.
  unfold handle_authorize. destruct (negb (s_subscribed s)); [covered_list|].
  assert (forall g, Forall effect_covered
    (if negb (bool_decide (s_worker s = Some (auth_worker p))) then adopt_worker g env (auth_worker p) else (g, [])).2) as Ha.
  { intros g. destruct (negb _); [apply adopt_worker_covered|covered_list]. }
  assert (s_worker s = s_worker s) as Hw by done. revert Ha. generalize (negb (bool_decide (s_worker s = Some (auth_worker p)))).
  intros fresh Ha. destruct (check_worker_name _ _); [|covered_list|].
  all: cbv zeta; destruct (if fresh then _ else (s, true)) as [s1 ok]; destruct (negb ok); [covered_list|].
  all: specialize (Ha s1); by destruct (if fresh then adopt_worker _ _ _ else _) as [s2 effs].
Qed.
Lemma handle_message_covered s req env m s' effs r :
  handle_message s req env m = Some (s', effs, r) -> Forall effect_covered effs.
Proof.
  assert (forall x, Some (no_effects x) = Some (s', effs, r) -> effs = []) as Hno by (unfold no_effects; congruence).
  intros H. destruct m; cbn [handle_message] in H.
  - apply Hno in H as ->. covered_list.
  - pose proof (handle_authorize_covered s req p env) as Hc. injection H as H. by rewrite H in Hc.
  - pose proof (handle_submit_covered s req p env) as Hc. injection H as H. by rewrite H in Hc.
  - apply Hno in H as ->. covered_list.
  - destruct (handle_suggest_difficulty _ _ _ _); [|done]. apply Hno in H as ->. covered_list.
  - assert (effs = []) as -> by congruence. covered_list.
Qed.
Lemma handle_line_covered s line env s' effs r :
  handle_line request_from_str s line env = Some (s', effs, r) -> Forall effect_covered effs.
Proof.
  unfold handle_line. destruct (trim_is_empty line); [intros H; injection H as <- <- <-; covered_list|].
  destruct (try_consume _ _ _) as [rate allowed]. cbv zeta.
  destruct (negb allowed); [intros H; injection H as <- <- <-; covered_list|].
  destruct (request_parse _ _) as [req|e|]; [|intros H; injection H as <- <- <-; covered_list|done].
  destruct (from_request req) as [m|e|]; [apply handle_message_covered| |done].
  intros H; injection H as <- <- <-. covered_list.
Qed.
Lemma hashrate_effects_covered s now : Forall effect_covered (hashrate_effects s now).
Proof. unfold hashrate_effects. destruct (s_worker s); covered_list. Qed.
Lemma session_step_covered s env e s' effs msgs go :
  session_step request_from_str s env e = Some (s', effs, msgs, go) -> Forall effect_covered effs.
Proof.
  destruct e as [| | | |[line|] w|w|b w| |]; cbn [session_step]; try (intros H; injection H as <- <- <- <-; covered_list).
  - unfold on_line. destruct (handle_line _ s line env) as [[[s1 effs1] r]|] eqn:E; [|done].
    apply handle_line_covered in E. destruct r as [m|reason]; [destruct w|]; intros H; injection H as <- <- <- <-; [|done|].
    + apply Forall_app. split; [done|apply hashrate_effects_covered].
    + apply Forall_app. split; [done|]. destruct (s_worker s1); covered_list.
  - destruct (retarget_enabled s); [|intros H; injection H as <- <- <- <-; covered_list].
    unfold on_retarget. destruct (check_retarget _ _ _ _) as [[v [d|]]|]; cbn [mbind option_bind]; [| |done];
      intros H; injection H as <- <- <- <-; [destruct (s_worker _)|]; covered_list.
  - unfold on_job. destruct (_ && _); intros H; injection H as <- <- <- <-; covered_list.
Qed.
Lemma session_close_covered s now1 now2 : Forall effect_covered (session_close s now1 now2).
Proof. unfold session_close. destruct (s_worker s); covered_list. Qed.
Lemma session_start_covered banned cfg c r e n1 n2 n3 n4 c' s effs :
  session_start banned cfg c r e n1 n2 n3 n4 = (c', Some (s, effs)) -> Forall effect_covered effs.
Proof.
  unfold session_start. destruct banned; [done|]. destruct (generate_extranonce1 _ _). cbv zeta.
  intros H. assert (effs = [MinerConnected]) as -> by congruence. covered_list.
Qed.
Lemma session_run_covered l s s' effs msgs :
  session_run request_from_str s l = Some (s', effs, msgs) -> Forall effect_covered effs.
Proof.
  revert s s' effs msgs. induction l as [|[env e] l IH]; intros s s' effs msgs; cbn [session_run].
  { intros H; injection H as <- <- <-. covered_list. }
  destruct (session_step _ s env e) as [[[[s1 effs1] msgs1] go]|] eqn:E; [|done]. apply session_step_covered in E.
  destruct go; [|intros H; injection H as <- <- <-; done].
  destruct (session_run _ s1 l) as [[[s2 effs2] msgs2]|] eqn:E2; [|done]. cbn [mbind option_bind].
  intros H; injection H as <- <- <-. apply Forall_app. split; [done|by eapply IH].
Qed.
End sv1.

(** ** Stratum V2 *)

Section sv2.
Context {HL : HexLib} {HS : Sha256Lib} {HV : Sv2Lib} (error_text : PoolError -> string) (hex_flags : Z -> string).

Lemma sv2_verdict_covered s env seq w h v : Forall effect_covered (r_effects (sv2_verdict s env seq w h v)).
Proof.
  unfold sv2_verdict, sv2_accept, sv2_reject. destruct v as [[a d hash|d hex hash]|e|].
  - destruct (sv2_credit_share _ _ _). rewrite reply_effects. covered_list.
  - destruct (submit_found_block _ _ _ _ _) as [effs [u|e|]]; [destruct (sv2_credit_share _ _ _)|..];
      rewrite ?reply_effects; covered_list.
  - cbv zeta. destruct (if is_malicious e then _ else _) as [s1 disconnect].
    destruct disconnect; rewrite ?reply_effects; covered_list.
  - covered_list.
Qed.
Lemma sv2_handle_submit_covered s env p : Forall effect_covered (r_effects (sv2_handle_submit s env p)).
Proof.
  unfold sv2_handle_submit, sv2_reject. destruct (negb _); [covered_list|].
  destruct (decode_submit_extended p) as [submit|e|]; [|covered_list..]. cbv zeta. destruct (negb _).
  { destruct (sv2_count_invalid _) as [s1 disconnect]. destruct disconnect; rewrite ?reply_effects; covered_list. }
  destruct (sv2_find_job _ _ _); [|rewrite reply_effects; covered_list].
  destruct (validate_share_no_dedup _ _ _ _ _); [..|covered_list];
    destruct (ShareSet_dedup _ _); apply sv2_verdict_covered.
Qed.
Lemma handle_setup_covered s env p : Forall effect_covered (r_effects (handle_setup_connection s env p hex_flags)).
Proof.
  unfold handle_setup_connection, setup_error. destruct (decode_setup_connection p) as [setup|e|]; [|covered_list..].
  destruct (setup_protocol setup); [|covered_list]. destruct (_ || _); [covered_list|].
  destruct (negb _); [covered_list|]. rewrite reply_effects. covered_list.
Qed.
Lemma handle_open_covered g s env p g' r :
  handle_open_extended g s env p error_text = Some (g', r) -> Forall effect_covered (r_effects r).
Proof.
  unfold handle_open_extended. intros H.
  assert (forall g1 s1 effs msgs reason, Some (g1, quit s1 effs msgs reason) = Some (g', r) -> r_effects r = effs) as Hq
    by (intros ????? [= <- <-]; done).
  destruct (negb _); [apply Hq in H as ->; covered_list|].
  destruct (decode_open_extended p) as [open|e|]; [|apply Hq in H as ->; covered_list|done].
  destruct (check_worker_name _ _) as [u|e|]; [|apply Hq in H as ->; covered_list|done].
  cbv zeta in H. destruct (_ <? _); [injection H as <- <-; covered_list|].
  set (fresh := negb (bool_decide _)) in H. clearbody fresh.
  destruct (if fresh then _ else (s, true)) as [s1 ok]. destruct (negb ok); [apply Hq in H as ->; covered_list|].
  assert (Forall effect_covered (if fresh then release_worker s1 (e_clk (v_env env) 2) else (s1, [])).2) as Hgone.
  { destruct fresh; [|covered_list]. unfold release_worker. destruct (v_worker s1); [|covered_list].
    destruct (take_share_history _ _). covered_list. }
  destruct (if fresh then release_worker _ _ else _) as [s2 gone].
  destruct (assign_channel g s2 _ _) as [[g2 s3]|]; [|done]. cbn [mbind option_bind] in H.
  assert (Forall effect_covered (if fresh then adopt_identity s3 (v_env env) (user_identity open) else (s3, [])).2) as Hcome
    by (destruct fresh; covered_list).
  destruct (if fresh then adopt_identity _ _ _ else _) as [s4 come].
  assert (r = announce_channel s4 env (gone ++ come)
    (open_extended_success (open_request_id open) (v_channel_id s4) (opening_target (v_difficulty s3) (max_target open))
       (wrap 16 (v_extranonce_size s4)) (v_extranonce_prefix s4))) as -> by congruence.
  rewrite announce_channel_effects. by apply Forall_app.
Qed.
Lemma sv2_step_covered g s env e g' s' effs msgs go :
  sv2_step error_text hex_flags g s env e = Some (g', s', effs, msgs, go) -> Forall effect_covered effs.
Proof.
  destruct e as [| | |t p| |b| |]; cbn [sv2_step]; try (intros H; injection H as <- <- <- <- <-; covered_list).
  - unfold on_inbound. destruct (check_message_size _ _); [|intros H; injection H as <- <- <- <- <-; covered_list..].
    destruct (sv2_handle_message _ _ g s env t p) as [[g1 r]|] eqn:Em; [|done]. cbn [mbind option_bind]. cbv zeta.
    assert (Forall effect_covered (r_effects r)) as Hr.
    { unfold sv2_handle_message in Em. destruct (try_consume _ _ _) as [rate allowed]. cbv zeta in Em.
      destruct (negb allowed); [injection Em as <- <-; covered_list|].
      destruct (_ =? _); [injection Em as <- <-; apply handle_setup_covered|].
      destruct (_ =? _); [by apply handle_open_covered in Em|].
      destruct (_ =? _); injection Em as <- <-; [apply sv2_handle_submit_covered|covered_list]. }
    destruct (r_flow r); intros H; injection H as <- <- <- <- <-; apply Forall_app; (split; [done|]).
    + destruct (v_channel_open _); [|covered_list]. unfold sv2_hashrate_effects. destruct (v_worker _); covered_list.
    + destruct (v_worker _); covered_list.
  - destruct (v_channel_open s); [|intros H; injection H as <- <- <- <- <-; covered_list].
    unfold sv2_on_retarget. destruct (check_retarget _ _ _ _) as [[v [d|]]|]; cbn [mbind option_bind]; [| |done].
    + assert (Forall effect_covered (match v_worker (s <! v_vardiff := v !> <! v_difficulty := d !>) with
        | Some w => [MetricVardiffRetarget w (v_difficulty s) d; UpdateWorkerVardiff w d] | None => [] end)) as Hc
        by (destruct (v_worker _); covered_list).
      destruct (send env 0 _); intros H; injection H as <- <- <- <- <-; exact Hc.
    + intros H; injection H as <- <- <- <- <-. covered_list.
  - unfold sv2_on_job. cbv zeta. destruct (v_channel_open _).
    + destruct (send_job _ _ _ _ _) as [[s1 ms] ok]. destruct ok; intros H; injection H as <- <- <- <- <-; covered_list.
    + intros H; injection H as <- <- <- <- <-. covered_list.
Qed.
Lemma sv2_close_covered s now1 now2 : Forall effect_covered (sv2_close s now1 now2).
Proof. unfold sv2_close. destruct (v_worker s); covered_list. Qed.
Lemma sv2_run_covered l s s' effs msgs :
  sv2_run error_text hex_flags s l = Some (s', effs, msgs) -> Forall effect_covered effs.
Proof.
  revert s s' effs msgs. induction l as [|[[g env] e] l IH]; intros s s' effs msgs; cbn [sv2_run].
  { intros H; injection H as <- <- <-. covered_list. }
  destruct (sv2_step _ _ g s env e) as [[[[[g1 s1] effs1] msgs1] go]|] eqn:E; [|done]. apply sv2_step_covered in E.
  destruct go; [|intros H; injection H as <- <- <-; done].
  destruct (sv2_run _ _ s1 l) as [[[s2 effs2] msgs2]|] eqn:E2; [|done]. cbn [mbind option_bind].
  intros H; injection H as <- <- <-. apply Forall_app. split; [done|by eapply IH].
Qed.
End sv2.

(** ** Everything the pool reports *)

(** The events that can happen: the effects of a session of either protocol
    from its start to its close, and the others, which no state restricts. *)
Inductive reported `{JsonLib f64} `{HexLib} `{Sha256Lib} `{Sv2Lib} : pool_event -> Prop :=
| rep_start : reported (OfSession MinerConnected)
| rep_sv1 request_from_str s l s' effs msgs e :
    session_run request_from_str s l = Some (s', effs, msgs) -> e ∈ effs -> reported (OfSession e)
| rep_sv1_close s now1 now2 e : e ∈ session_close s now1 now2 -> reported (OfSession e)
| rep_sv2 error_text hex_flags s l s' effs msgs e :
    sv2_run error_text hex_flags s l = Some (s', effs, msgs) -> e ∈ effs -> reported (OfSession e)
| rep_sv2_close s now1 now2 e : e ∈ sv2_close s now1 now2 -> reported (OfSession e)
| rep_other e : (match e with OfSession _ => False | _ => True end) -> reported e.
Lemma reported_covered `{JsonLib f64} `{HexLib} `{Sha256Lib} `{Sv2Lib} e :
  reported e -> Forall (fun c => covered c = true) (metric_calls e).
Proof.
  intros Hr. destruct Hr as [|rfs s l s' effs msgs e Hrun He|s n1 n2 e He|et hf s l s' effs msgs e Hrun He|s n1 n2 e He|e Ho].
  - by repeat constructor.
  - apply session_run_covered in Hrun. by eapply (proj1 (Forall_forall _ _) Hrun).
  - by eapply (proj1 (Forall_forall _ _) (session_close_covered s n1 n2)).
  - apply sv2_run_covered in Hrun. by eapply (proj1 (Forall_forall _ _) Hrun).
  - by eapply (proj1 (Forall_forall _ _) (sv2_close_covered s n1 n2)).
  - destruct e as [|t|r|e n|e| |]; [done|..]; cbn [metric_calls].
    + by repeat constructor.
    + destruct r; by repeat constructor.
    + destruct e; by repeat constructor.
    + destruct e; by repeat constructor.
    + by repeat constructor.
    + by repeat constructor.
Qed.
Lemma keep_alive_pool_wide c : c ∈ keep_pool_series_alive -> per_worker c = false.
Proof.
  intros H. unfold keep_pool_series_alive in H. cbn in H.
  repeat (apply elem_of_cons in H as [->|H]; [reflexivity|]). by apply elem_of_nil in H.
Qed.

(** ** The buckets *)

(** Bounds are given in ascending order, and moves down and moves up are told
    apart at 1. *)
Fixpoint ascending (l : list f64) : bool :=
  match l with x :: (y :: _) as l => f64_lt x y && ascending l | _ => true end.
Lemma buckets_ascending :
  forallb ascending [VALIDATION_SECONDS_BUCKETS; CONNECTION_SECONDS_BUCKETS; RETARGET_RATIO_BUCKETS] = true /\
  f64_one ∈ RETARGET_RATIO_BUCKETS.
Proof. split; [vm_compute; reflexivity|]. unfold RETARGET_RATIO_BUCKETS. do 5 apply list_elem_of_further. apply list_elem_of_here. Qed.
(** Every metric that is given buckets is one the pool records. *)
Lemma buckets_are_of_recorded_metrics elapsed w n old new :
  "pool_share_validation_duration_seconds" ∈ map (fun c => fst (fst c)) (metric_share_validation_time elapsed) /\
  (n ≠ 0 -> "pool_connection_duration_seconds" ∈ map (fun c => fst (fst c)) (metric_session_closed (Some w) n elapsed)) /\
  "pool_vardiff_retarget_ratio" ∈ map (fun c => fst (fst c)) (metric_vardiff_retarget w old new).
Proof.
  split; [|split].
  - cbn. right. left.
  - intros Hn. unfold metric_session_closed. rewrite (proj2 (Z.eqb_neq n 0)) by done. cbn. right. right. left.
  - cbn. do 2 right. left.
Qed.
