(* ===== verification/MainFacts.v ===== *)
(** Lemmas about start-up: what the statistics do to the stored settings, and
    which payout address a restart comes up with. *)
From S2P Require Export Main StatsFacts EngineFacts DashboardFacts.
From Stdlib Require Import Strings.Ascii.

(** ** Only [save_setting] writes the settings table *)

Definition saved (ps : PoolStats) : option (gmap string string) := db_settings <$> ps_store ps.
Definition keeps_settings (f : StatsStore -> StatsStore) : Prop := forall db, db_settings (f db) = db_settings db.
Lemma on_store_saved ps f : keeps_settings f -> saved (on_store ps f) = saved ps.
Proof. intros Hf. unfold saved, on_store. cbn. destruct (ps_store ps); [|done]. cbn. by rewrite Hf. Qed.
Lemma execute_settings db io f report : keeps_settings f -> db_settings (execute db io f report) = db_settings db.
Proof. intros Hf. destruct io; [done|]. apply Hf. Qed.
Lemma best_share_settings d io : keeps_settings (fun db => set_best_share_difficulty db d io).
Proof. intros db. apply execute_settings. intros db'. by case_match. Qed.
Lemma best_hashrate_settings h io : keeps_settings (fun db => set_best_hashrate_hps db h io).
Proof. intros db. apply execute_settings. intros db'. by case_match. Qed.
Lemma worker_best_settings w d io : keeps_settings (fun db => set_worker_best_share db w d io).
Proof. intros db. apply execute_settings. intros db'. by repeat case_match. Qed.
Lemma prune_settings n io : keeps_settings (fun db => prune_worker_best_shares db n io).
Proof. intros db. by apply execute_settings. Qed.
Lemma set_round_settings w ts io : keeps_settings (fun db => set_round db w ts io).
Proof. intros db. by destruct io. Qed.
Lemma insert_block_settings b io : keeps_settings (fun db => insert_found_block db b io).
Proof. intros db. by apply execute_settings. Qed.
Lemma append_settings batch now a b : keeps_settings (fun db => (append_shares db batch now a b).1).
Proof. intros db. unfold append_shares. by destruct a, b. Qed.
Lemma snapshot_settings ts hps a b : keeps_settings (fun db => store_hashrate_snapshot db ts hps a b).
Proof. intros db. unfold store_hashrate_snapshot. by destruct a, b. Qed.
#[export] Hint Resolve best_share_settings best_hashrate_settings worker_best_settings prune_settings
  set_round_settings insert_block_settings append_settings snapshot_settings : pool.

Section saved.
Context `{HI : DashIter}.
Lemma saved_same ps ps' : ps_store ps' = ps_store ps -> saved ps' = saved ps.
Proof. unfold saved. by intros ->. Qed.
Lemma apply_effect_saved ps env e : saved (apply_effect ps (env, e)) = saved ps.
Proof.
  destruct e; cbn [apply_effect];
    try (apply saved_same;
         unfold log_share, stats_take_share_history, update_worker_vardiff, mark_worker_online; by repeat case_match).
  - unfold share_accepted. cbv zeta. case_match; case_match; try done;
      match goal with |- saved ?x = _ =>
        first [ transitivity (saved (on_store ps (fun db => set_best_share_difficulty db hash_difficulty (se_io env 0%nat))));
                [by apply saved_same | by apply on_store_saved; auto with pool] ] end.
  - unfold worker_share_accepted. cbv zeta. case_match; [|by apply saved_same].
    rewrite on_store_saved by auto with pool. by apply saved_same.
  - unfold block_found. case_match; [done|]. unfold block_push. cbv zeta. rewrite on_store_saved; [by apply saved_same|].
    intros db. rewrite set_round_settings. apply insert_block_settings.
  - unfold update_worker_hashrate, raise_best_hashrate. cbv zeta. case_match; case_match; try (by apply saved_same);
      match goal with |- saved ?x = _ =>
        transitivity (saved (on_store ps (fun db => set_best_hashrate_hps db (total_hashrate_10m
          (ps <! ps_worker_hashrates_60s ::= <[worker := h60s]> !> <! ps_worker_hashrates_10m ::= <[worker := h10m]> !>
              <! ps_worker_hashrates_3h ::= <[worker := h3h]> !> <! ps_worker_hashrates_24h ::= <[worker := h24h]> !>
              <! ps_worker_hashrate_updated_ts ::= <[worker := se_now env]> !>) (se_now env)) (se_io env 0%nat))));
          [by apply saved_same | by apply on_store_saved; auto with pool] end.
Qed.
Lemma prune_idle_saved ps now io : saved (prune_idle_workers ps now io) = saved ps.
Proof.
  unfold prune_idle_workers. cbv zeta. set (stale := map fst _). clearbody stale.
  assert (saved (fold_left evict_worker stale ps) = saved ps) as H.
  { revert ps. induction stale as [|w l IH]; intros ps; [done|]. cbn. rewrite IH. by apply saved_same. }
  case_match; [|done]. rewrite on_store_saved by auto with pool. rewrite <- H. by apply saved_same.
Qed.
Lemma flush_saved ps now a b : saved (flush_share_log ps now a b) = saved ps.
Proof.
  unfold flush_share_log. destruct (ps_store ps) as [db|] eqn:E; [|done].
  destruct (ps_pending_shares ps); [by apply saved_same|]. unfold saved. cbn. rewrite E. cbn.
  by rewrite append_settings.
Qed.
Lemma stats_step_saved ps x : saved (stats_step ps x) = saved ps.
Proof. destruct x; [apply apply_effect_saved|apply prune_idle_saved|apply flush_saved]. Qed.
Lemma stats_run_saved l ps : saved (fold_left stats_step l ps) = saved ps.
Proof. revert ps. induction l as [|x l IH]; intros ps; [done|]. cbn. by rewrite IH, stats_step_saved. Qed.
Lemma snapshot_saved ps ts io : saved (record_hashrate_snapshot ps ts io) = saved ps.
Proof.
  unfold record_hashrate_snapshot, persist_round_state. cbv zeta. rewrite on_store_saved by auto with pool.
  by rewrite on_store_saved by auto with pool.
Qed.
Lemma shutdown_saved ps ts io now a b from polls : saved (shutdown ps ts io now a b from polls).1 = saved ps.
Proof. unfold shutdown. cbn [fst]. by rewrite flush_saved, snapshot_saved. Qed.
End saved.

(** Opening the database again keeps its settings. *)
Lemma new_with_store_saved ce path db io now st :
  ps_store (new_with_store ce (Some (path, Ok db)) io now st) ≠ None ->
  saved (new_with_store ce (Some (path, Ok db)) io now st) = Some (db_settings db).
Proof.
  unfold new_with_store. destruct (bool_decide (path = empty_str)); [done|].
  pose proof (prune_settings MAX_WORKER_BEST_SHARES (io 0%nat) db) as Hp. cbv beta in Hp.
  set (db1 := prune_worker_best_shares db _ _) in *. clearbody db1.
  destruct (load_values ce db1 (io 1%nat)) as [loaded|e|]; [|done..].
  destruct (_ =? 0); intros _; unfold saved; cbn; [rewrite set_round_settings|]; by rewrite Hp.
Qed.

(** ** The saved address *)

Section address.
Context `{HexLib} `{Sha256Lib} `{BitcoinLib} `{HttpLib} `{HQ : SqliteLib} {HQL : SqliteLaws}.
(** What an answer of "saved and persisted" says. *)
Lemma change_address_saved a settings stats :
  (change_address a None settings stats).2 = Ok true ->
  Settings.validate (trim a) (rs_network settings) = Ok tt /\
  exists m, saved (change_address a None settings stats).1.2 = Some m /\ m !! "coinbase_address" = Some (trim a).
Proof.
  unfold change_address, update. cbv zeta. destruct (Settings.validate (trim a) _) as [[]| |] eqn:Hv; [|done..].
  unfold save_setting. destruct (ps_store stats) as [db|] eqn:Hs; unfold set_setting; cbn; [|done]. intros _. split; [done|].
  exists (<["coinbase_address" := trim a]> (db_settings db)). split; [done|]. apply lookup_insert_eq.
Qed.
Lemma settings_post_saved st headers a x sh sh' effs :
  settings_post st headers a None x sh = Ok (sh', effs, SettingsSaved true) ->
  Settings.validate (trim a) (rs_network (sh_settings sh)) = Ok tt /\
  exists m, saved (sh_stats sh') = Some m /\ m !! "coinbase_address" = Some (trim a).
Proof.
  unfold settings_post. pose proof (change_address_saved a (sh_settings sh) (sh_stats sh)) as Hsaved.
  destruct (guard_mutation _ _); [|done..].
  destruct (change_address a None (sh_settings sh) (sh_stats sh)) as [[settings stats] [persisted|e|]]; [|done..].
  unfold force_refresh. destruct (refresh _ _ _ _ _ _ _ _) as [[[ids e] effs1]| |]; [|done..].
  cbn [mbind outcome_bind]. intros Heq. assert (persisted = true /\ sh_stats sh' = stats) as [-> ->]; [|by apply Hsaved].
  split; [congruence|]. by injection Heq as <- _ _.
Qed.
(** A boot that reads the database takes the address it holds. *)
Lemma boot_uses_saved cfg env path db sh dash a :
  stats_db_path (metrics cfg) = Some path -> be_file env = file_of db -> (forall k, be_open_io env k = None) -> be_io_setting env = None ->
  db_settings db !! "coinbase_address" = Some a ->
  boot cfg env = Ok (sh, dash) -> ps_store (sh_stats sh) ≠ None ->
  Settings.validate a (rs_network (sh_settings sh)) = Ok tt ->
  valid_coinbase_address (sh_settings sh) = Some a.
Proof.
  intros Hpath Hfile Hopen Hio Hlook Hb Hs Hv. unfold boot, boot_stats in Hb. rewrite Hpath, Hfile, reopen_file_of in Hb by done. cbn [fmap option_fmap option_map] in Hb.
  set (stats := new_with_store _ _ _ _ _) in Hb.
  apply outcome_bind_ok in Hb as (? & _ & Hb). apply outcome_bind_ok in Hb as (settings & Hset & Hb).
  apply outcome_bind_ok in Hb as (dash' & _ & Hb). cbv zeta in Hb.
  assert (sh_stats sh = stats /\ sh_settings sh = settings) as [Hstats Hsettings] by (injection Hb as <- _; done).
  rewrite Hstats in Hs. rewrite Hsettings in Hv |- *. clear Hb.
  apply new_with_store_saved in Hs. fold stats in Hs.
  unfold boot_settings in Hset. apply outcome_bind_ok in Hset as (chain & _ & Hset).
  apply outcome_bind_ok in Hset as (s0 & _ & Hset). assert (settings = apply_persisted s0 (load_setting stats "coinbase_address" None))
    as -> by (rewrite Hio in Hset; congruence).
  assert (load_setting stats "coinbase_address" None = Some a) as Hl.
  { unfold load_setting, saved in *. destruct (ps_store stats) as [db'|]; [|done]. cbn in Hs |- *.
    assert (db_settings db' = db_settings db) as -> by (assert (db_settings (db <! db_write_error := None !>) = db_settings db) by done; congruence). done. }
  rewrite Hl in Hv |- *. cbn [apply_persisted] in Hv |- *.
  destruct (Settings.validate a (rs_network s0)) as [[]| |] eqn:E; cbn [is_ok] in Hv |- *; [done|congruence|congruence].
Qed.
End address.
