(* ===== verification/Sv2Device.v ===== *)
(** The other end of a Stratum V2 channel, as the header comments of
    protocol/sv2/job.rs describe the messages: what a device has been given
    and the header it hashes; and the engine, a session and its device running
    together, with the lemmas about them. *)
From S2P Require Export Sv2Facts EngineFacts.
From Stdlib Require Import Strings.Ascii.

(** ** A device *)

Record Device := {
  dv_prefix : list byte;
  dv_size : Z;
  dv_target : list byte;
  dv_future : option NewExtendedMiningJob;
  dv_job : option NewExtendedMiningJob;
  dv_prev : option SetNewPrevHash;
}.
#[export] Instance Device_id : FieldwiseId Device := fun r => {|
  dv_prefix := dv_prefix r; dv_size := dv_size r; dv_target := dv_target r; dv_future := dv_future r;
  dv_job := dv_job r; dv_prev := dv_prev r |}.
Definition device_new : Device :=
  {| dv_prefix := []; dv_size := 0; dv_target := []; dv_future := None; dv_job := None; dv_prev := None |}.
(** A job with a [min_ntime] is mined at once on the previous hash already
    announced; one without waits for the previous hash that names it. *)
Definition device_step (dv : Device) (m : PoolMessage) : Device :=
  match m with
  | MOpenExtendedSuccess _ _ target size prefix _ =>
      {| dv_prefix := prefix; dv_size := size; dv_target := target; dv_future := None; dv_job := None; dv_prev := None |}
  | MNewExtendedMiningJob j =>
      match nj_min_ntime j with
      | Some _ => dv <! dv_job := Some j !>
      | None => dv <! dv_future := Some j !>
      end
  | MSetNewPrevHash p =>
      dv <! dv_prev := Some p !>
         <! dv_job := (j ← dv_future dv; if nj_job_id j =? np_job_id p then Some j else None) !>
         <! dv_future := None !>
  | MSetTarget _ target => dv <! dv_target := target !>
  | _ => dv
  end.
Definition device_run (dv : Device) (msgs : list PoolMessage) : Device := fold_left device_step msgs dv.

(** The coinbase and the header a device hashes for its job. *)
Definition device_coinbase (dv : Device) (j : NewExtendedMiningJob) (extranonce : list byte) : list byte :=
  nj_coinbase_tx_prefix j ++ dv_prefix dv ++ extranonce ++ nj_coinbase_tx_suffix j.
Definition device_header `{Sha256Lib} (dv : Device) (extranonce : list byte) (version ntime nonce : Z)
    : option (list byte) :=
  j ← dv_job dv;
  p ← dv_prev dv;
  Some (le_bytes 4 version ++ np_prev_hash p
          ++ merkle_fold (double_sha256 (device_coinbase dv j extranonce)) (nj_merkle_path j)
          ++ le_bytes 4 ntime ++ le_bytes 4 (np_nbits p) ++ le_bytes 4 nonce).

(** ** A device in step with its session *)

(** The device works on [job]. *)
Record works_on `{HexLib} (s : Sv2Session) (dv : Device) (job : StratumJob) : Prop := {
  wo_prefix : dv_prefix dv = v_extranonce_prefix s;
  wo_work : exists j p,
    dv_job dv = Some j /\ dv_prev dv = Some p /\
    nj_coinbase_tx_prefix j = coinbase1 job /\ nj_coinbase_tx_suffix j = coinbase2 job /\
    nj_merkle_path j = merkle_branch_raw job /\ nj_version j = version job /\
    engine_job_id s (nj_job_id j) = Some (job_id job) /\
    stratum_prevhash_to_internal (prev_hash job) = Ok (np_prev_hash p) /\
    from_str_radix16 32 (bits job) = Some (np_nbits p);
}.
(** Once the channel is open it works on the session's latest job. *)
Definition in_step `{HexLib} (s : Sv2Session) (dv : Device) : Prop :=
  (exists names, ids_refine names s) /\
  (v_channel_open s = true ->
     dv_prefix dv = v_extranonce_prefix s /\ forall job, v_pending_job s = Some job -> works_on s dv job).

Section device.
Context {HL : HexLib} {HS : Sha256Lib} {HV : Sv2Lib} (error_text : PoolError -> string) (hex_flags : Z -> string).
Implicit Types (s : Sv2Session) (env : Sv2Env) (dv : Device).

Lemma device_run_quiet dv msgs :
  Forall quiet_msg msgs -> device_run dv msgs = dv \/ exists t, device_run dv msgs = dv <! dv_target := t !>.
Proof.
  revert dv; induction msgs as [|m msgs IH]; intros dv Hq; [by left|].
  apply Forall_cons in Hq as [Hm Hq]. cbn [device_run fold_left].
  assert (device_step dv m = dv \/ exists t, device_step dv m = dv <! dv_target := t !>) as Hs
    by (destruct m; try done; cbn; eauto).
  destruct Hs as [-> |[t ->]]; [by apply IH|].
  destruct (IH (dv <! dv_target := t !>) Hq) as [H |[t' H]]; right; unfold device_run in H; rewrite H; eauto.
Qed.
Lemma works_on_fields s s' dv dv' job :
  v_extranonce_prefix s' = v_extranonce_prefix s -> v_job_ids s' = v_job_ids s ->
  (dv' = dv \/ exists t, dv' = dv <! dv_target := t !>) -> works_on s dv job -> works_on s' dv' job.
Proof.
  intros Hp Hj Hd [Hw (j & p & H)].
  assert (dv_prefix dv' = dv_prefix dv /\ dv_job dv' = dv_job dv /\ dv_prev dv' = dv_prev dv) as (E1 & E2 & E3)
    by (destruct Hd as [-> |[t ->]]; done).
  split; [congruence|]. exists j, p. rewrite E2, E3. unfold engine_job_id in *. by rewrite Hj.
Qed.
Lemma quiet_in_step s s' dv msgs :
  work_fields s' = work_fields s -> Forall quiet_msg msgs -> in_step s dv -> in_step s' (device_run dv msgs).
Proof.
  intros [= H1 H2 H3 H4 H5 H6 H7] Hq [[names Hn] Hs]. pose proof (device_run_quiet dv msgs Hq) as Hd. split.
  - exists names. destruct Hn. split; congruence.
  - rewrite H1, H7. intros Ho. destruct (Hs Ho) as [Hp Hw]. split.
    + destruct Hd as [-> |[t ->]]; cbn; congruence.
    + intros job Hj. apply (works_on_fields s _ dv); try done. by apply Hw.
Qed.

(** *** Announcing a job *)

Lemma assign_job_id_fields s name :
  let s' := (assign_job_id s name).1 in
  v_channel_open s' = v_channel_open s /\ v_channel_id s' = v_channel_id s /\
  v_extranonce_prefix s' = v_extranonce_prefix s /\ v_pending_job s' = v_pending_job s.
Proof. done. Qed.
Lemma build_set_new_prev_hash_ok job ch id p :
  build_set_new_prev_hash job ch id = Ok p ->
  np_job_id p = id /\ stratum_prevhash_to_internal (prev_hash job) = Ok (np_prev_hash p) /\
  from_str_radix16 32 (bits job) = Some (np_nbits p).
Proof.
  unfold build_set_new_prev_hash. intros H. apply outcome_bind_ok in H as (prev & Hp & H).
  apply outcome_bind_ok in H as (nbits & Hb & H). injection H as <-. cbn.
  destruct (from_str_radix16 32 (bits job)) as [b|]; [|done]. by injection Hb as ->.
Qed.
(** A job announced in full is the one the device works on: with its previous
    hash, or at once on the one it has, when that is the job's. *)
Lemma send_job_works_on s env k job future s' msgs dv names :
  send_job s env k job future = (s', msgs, true) -> ids_refine names s -> dv_prefix dv = v_extranonce_prefix s ->
  (future = false -> exists p, dv_prev dv = Some p /\
     stratum_prevhash_to_internal (prev_hash job) = Ok (np_prev_hash p) /\
     from_str_radix16 32 (bits job) = Some (np_nbits p)) ->
  ids_refine (names ++ [job_id job]) s' /\ works_on s' (device_run dv msgs) job /\
  v_channel_open s' = v_channel_open s /\ v_extranonce_prefix s' = v_extranonce_prefix s /\
  v_pending_job s' = v_pending_job s.
Proof.
  intros H Hn Hd Hf. unfold send_job in H.
  pose proof (assign_job_id_refine names s (job_id job) Hn) as [Hn' Hid].
  pose proof (assign_job_id_fields s (job_id job)) as (F1 & F2 & F3 & F4).
  destruct (assign_job_id s (job_id job)) as [s1 id]. cbn [fst snd] in *. cbv zeta in H.
  assert (engine_job_id s1 id = Some (job_id job)) as Heng.
  { apply (engine_job_id_refine (names ++ [job_id job])); [done|]. exists (length names).
    split; [rewrite length_app; cbn [length]; unfold MAX_JOB_IDS; lia|]. split; [|done]. by rewrite lookup_app_r, Nat.sub_diag by lia. }
  destruct (send env k _); [|done..]. destruct future.
  - destruct (build_set_new_prev_hash job (v_channel_id s1) id) as [p|e|] eqn:Ep; [|done..].
    apply build_set_new_prev_hash_ok in Ep as (Hp1 & Hp2 & Hp3).
    destruct (send env (S k) _); [|done..]. injection H as <- <-.
    split; [done|]. split; [|done]. split; cbn; [congruence|]. rewrite Hp1, Z.eqb_refl.
    eexists _, p. split; [done|]. split; [done|]. by repeat split.
  - injection H as <- <-. split; [done|]. split; [|done]. destruct (Hf eq_refl) as (p & Hp & Hpi & Hpb).
    split; cbn; [congruence|]. rewrite Hp. eexists _, p. split; [done|]. split; [done|]. by repeat split.
Qed.

(** A job for immediate mining is one message, with a time. *)
Lemma send_immediate s env k job s' msgs names :
  send_job s env k job false = (s', msgs, true) -> ids_refine names s ->
  exists j, msgs = [MNewExtendedMiningJob j] /\ nj_min_ntime j = Some (cur_time job) /\
            engine_job_id s' (nj_job_id j) = Some (job_id job).
Proof.
  intros H Hn. destruct (send_job_ids _ _ _ _ _ _ _ _ names H Hn) as (Hn' & _ & Ha).
  unfold send_job in H. destruct (assign_job_id s (job_id job)) as [s1 id]. cbv zeta in H.
  destruct (send env k _); [|done..]. injection H as <- <-. eexists. split; [done|]. split; [done|].
  destruct Ha as [Ha|[? _]]; [|done]. cbn [announced omap list_omap build_new_extended_job nj_job_id wire_ids] in Ha |- *.
  injection Ha as ->. apply (engine_job_id_refine (names ++ [job_id job])); [done|]. exists (length names).
  split; [rewrite length_app; cbn [length]; unfold MAX_JOB_IDS; lia|]. split; [|done].
  by rewrite lookup_app_r, Nat.sub_diag by lia.
Qed.

(** The tip of a broadcast against the job before it: only a clean job may
    move it, and it fixes the target. *)
Definition keeps_tip (prev : option StratumJob) (b : JobBroadcast) : Prop :=
  jb_clean b = false ->
  exists p, prev = Some p /\ prev_hash p = prev_hash (jb_job b) /\ bits p = bits (jb_job b).

Lemma sv2_on_job_in_step s env b g g' s' effs msgs dv :
  sv2_on_job g s env b = Some (g', s', effs, msgs, true) -> keeps_tip (v_pending_job s) b ->
  in_step s dv -> in_step s' (device_run dv msgs) /\ v_pending_job s' = Some (jb_job b).
Proof.
  intros H Hk [[names Hn] Hs]. unfold sv2_on_job in H. cbv zeta in H.
  set (s1 := if jb_clean b then _ else s) in H. assert (work_fields s1 = work_fields s) as Hw
    by (unfold s1; by destruct (jb_clean b)). clearbody s1. injection Hw as W1 W2 W3 W4 W5 W6 W7.
  assert (ids_refine names s1) as Hn1 by (destruct Hn; split; congruence).
  destruct (v_channel_open s1) eqn:Ho.
  - destruct (send_job s1 env 0 (jb_job b) (jb_clean b)) as [[s2 msgs2] ok] eqn:Es. destruct ok; [|done].
    injection H as <- <- <- <-. symmetry in W1. destruct (Hs W1) as [Hp Hjob].
    eapply (send_job_works_on _ _ _ _ _ _ _ dv names) in Es as (Hn2 & [Wp Ww] & S1 & S2 & S3);
      [|done|congruence|].
    + split; [|done]. split; [exists (names ++ [job_id (jb_job b)]); destruct Hn2; by split|].
      intros _. split; [done|]. intros job [= <-]. by split.
    + intros Hc. destruct (Hk Hc) as (p & Hpend & Ht1 & Ht2).
      destruct (wo_work _ _ _ (Hjob p Hpend)) as (j & q & _ & Hq & _ & _ & _ & _ & _ & Hq1 & Hq2).
      exists q. rewrite <- Ht1, <- Ht2. done.
  - injection H as <- <- <- <-. split; [|done]. split; [exists names; destruct Hn1; by split|].
    cbn. rewrite Ho. done.
Qed.
Lemma announce_in_step s s1 env effs rid target dv dv' :
  let r := announce_channel s1 env effs
             (MOpenExtendedSuccess rid (v_channel_id s1) target (wrap 16 (v_extranonce_size s1))
                (v_extranonce_prefix s1) 0) in
  v_job_ids s1 = v_job_ids s -> v_next_job_id s1 = v_next_job_id s -> v_pending_job s1 = v_pending_job s ->
  r_flow r = Continue -> in_step s dv ->
  in_step (r_session r) (device_run dv' (r_messages r)) /\ v_pending_job (r_session r) = v_pending_job s.
Proof.
  intros r Hj Hnx Hp Hf [[names Hn] _]. unfold r, announce_channel in *. clear r.
  destruct (send env 0 _); [|done..]. cbv zeta in *.
  assert (ids_refine names (s1 <! v_channel_open := true !>)) as Hn1 by (destruct Hn; split; cbn; congruence).
  destruct (v_pending_job (s1 <! v_channel_open := true !>)) as [job|] eqn:Epend.
  2: { cbn. split; [|congruence]. split; [by exists names|]. intros _. split; [done|]. intros job Hpend.
       cbn in Hpend, Epend. congruence. }
  destruct (send_job _ env 1 job true) as [[s2 msgs] ok] eqn:Es. destruct ok; [|done]. cbn [r_session r_messages].
  set (m := MOpenExtendedSuccess _ _ _ _ _ _).
  eapply (send_job_works_on _ _ _ _ _ _ _ (device_step dv' m) names) in Es as (Hn2 & Hw & S1 & S2 & S3); [|done..].
  split; [|cbn in *; congruence]. split; [by exists (names ++ [job_id job])|]. intros _.
  split; [apply Hw|]. intros job' Hj'. rewrite S3, Epend in Hj'. injection Hj' as <-. exact Hw.
Qed.
End device.

(** ** What the device hashes is what is validated *)

(** A full version that keeps the job's bits outside the mask is the version
    its masked bits resolve to. *)
Lemma resolve_version_full base ver mask :
  is_u32 ver -> Z.land ver (not32 mask) = Z.land base (not32 mask) ->
  0 <= mask < 2 ^ 32 ->
  resolve_version base (Some (Z.land ver mask)) (Some mask) = Ok ver.
Proof.
  intros Hv Heq Hm. unfold resolve_version.
  assert (Z.land (Z.land ver mask) (not32 mask) = 0) as ->.
  { apply Z.bits_inj'. intros n Hn. rewrite Z.bits_0, !Z.land_spec. destruct (Z.lt_ge_cases n 32) as [H|H].
    - rewrite not32_testbit by lia. by destruct (Z.testbit ver n), (Z.testbit mask n).
    - by rewrite (u32_testbit_high ver) by done. }
  cbn [negb Z.eqb]. f_equal. rewrite <- Heq. apply Z.bits_inj'. intros n Hn. rewrite Z.lor_spec, !Z.land_spec.
  destruct (Z.lt_ge_cases n 32) as [H|H].
  - rewrite not32_testbit by lia. by destruct (Z.testbit ver n), (Z.testbit mask n).
  - by rewrite (u32_testbit_high ver) by done.
Qed.

(** A header carries its job's previous hash after the version. *)
Lemma build_header_prev `{HexLib} version prev mr ntime bits_hex nonce internal rest :
  build_header version prev mr ntime bits_hex nonce = Ok (le_bytes 4 version ++ internal ++ rest) ->
  length internal = 32%nat -> stratum_prevhash_to_internal prev = Ok internal.
Proof.
  intros Hb Hl. unfold build_header in Hb. unfold stratum_prevhash_to_internal.
  destruct (hex_decode prev) as [bytes|]; [|done]. cbn [ok_or mbind outcome_bind] in Hb.
  destruct (decide _) as [Hs|]; [|done]. destruct (from_str_radix16 32 bits_hex); [|done].
  cbn [ok_or mbind outcome_bind] in Hb. injection Hb as Hb.
  destruct (Nat.eqb_spec (length bytes) 32) as [_|Hne]; cbn [negb].
  - f_equal. apply app_inj_1 in Hb as [Hb _]; [done|congruence].
  - destruct Hne. by rewrite <- length_swap_words.
Qed.

Section hashes.
Context {HL : HexLib} `{!HexLaws} {SL : Sha256Lib} `{!Sha256Laws} {HV : Sv2Lib}.

(** The version of a submission as the protocol asks for it: the job's bits
    outside the rolling mask. *)
Definition rolls_inside (job : StratumJob) (submit : SubmitExtended) : Prop :=
  is_u32 (sx_version submit) /\
  Z.land (sx_version submit) (not32 VERSION_ROLLING_MASK) = Z.land (version job) (not32 VERSION_ROLLING_MASK).
Lemma works_on_validated s dv job submit entry w d :
  works_on s dv job -> job_wf job -> rolls_inside job submit -> is_u64 d ->
  je_superseded_by_clean entry = false ->
  min_time job <= sx_ntime submit <= saturating_add 32 (cur_time job) 7200 ->
  (length (v_extranonce_prefix s) + length (sx_extranonce submit))%nat
    = (extranonce1_len job + extranonce2_len job)%nat ->
  exists j header,
    dv_job dv = Some j /\ engine_job_id s (nj_job_id j) = Some (job_id job) /\
    device_header dv (sx_extranonce submit) (sx_version submit) (sx_ntime submit) (sx_nonce submit) = Some header /\
    validate_share_no_dedup (sv2_share_params submit job w) job entry (v_extranonce_prefix s) d =
      share_verdict job d header (device_coinbase dv j (sx_extranonce submit)).
Proof.
  intros [Hp (j & p & Hj & Hdp & Hc1 & Hc2 & Hb & Hv & Hid & Hprev & Hnb)] Hwf [Hu Hver] Hd Hs Ht Hlen.
  unfold stratum_prevhash_to_internal in Hprev. destruct (hex_decode (prev_hash job)) as [bytes|] eqn:Eh; [|done].
  destruct (Nat.eqb_spec (length bytes) 32) as [Hl|]; [|done]. cbn [negb] in Hprev.
  assert (np_prev_hash p = swap_words bytes) as Hnp by congruence.
  exists j. unfold device_header. rewrite Hj, Hdp. cbn [mbind option_bind]. eexists. split; [done|]. split; [done|].
  split; [done|].
  rewrite (validate_decides (sv2_share_params submit job w) job entry (v_extranonce_prefix s) d
             (swap_words bytes) (np_nbits p) (sx_version submit)); try done.
  - unfold share_header, device_coinbase, merkle_root. cbn [sp_ntime sp_nonce sp_extranonce2 sv2_share_params].
    by rewrite Hnp, Hc1, Hc2, Hb, Hp.
  - by apply resolve_version_full.
  - rewrite (swap_words_involutive 8) by done. done.
  - by rewrite (swap_words_length 8).
Qed.
End hashes.

(** ** The engine, a session and its device *)

Record world := {
  w_ids : JobIds; w_engine : TemplateEngine; w_queue : list JobBroadcast; w_session : Sv2Session; w_device : Device;
}.
Section world.
Context {HL : HexLib} {HS : Sha256Lib} {HB : BitcoinLib} {HV : Sv2Lib}
  (error_text : PoolError -> string) (hex_flags : Z -> string).
(** The target the chain requires after each tip. *)
Context (cf : Config) (tip_bits : string -> string).

Definition broadcasts (effs : list engine_effect) : list JobBroadcast :=
  omap (fun e => match e with Broadcast b => Some b | _ => None end) effs.
(** The engine refreshes and its broadcasts queue up; the session takes a
    turn; the session takes the oldest broadcast. A turn that ends the session
    leads nowhere. *)
Inductive world_step : world -> world -> Prop :=
| world_refresh ids e q s dv settings gbt now1 now2 clean ids' e' effs :
    refresh settings (pool cf) ids gbt now1 now2 e clean = Ok (ids', e', effs) ->
    (forall b, Broadcast b ∈ effs -> bits (jb_job b) = tip_bits (prev_hash (jb_job b))) ->
    world_step {| w_ids := ids; w_engine := e; w_queue := q; w_session := s; w_device := dv |}
      {| w_ids := ids'; w_engine := e'; w_queue := q ++ broadcasts effs; w_session := s; w_device := dv |}
| world_turn ids e q s dv g env ev g' s' effs msgs :
    (forall b, ev ≠ Sv2JobReceived b) -> ev ≠ Sv2JobLagged -> e_engine (v_env env) = e ->
    sv2_step error_text hex_flags g s env ev = Some (g', s', effs, msgs, true) ->
    world_step {| w_ids := ids; w_engine := e; w_queue := q; w_session := s; w_device := dv |}
      {| w_ids := ids; w_engine := e; w_queue := q; w_session := s'; w_device := device_run dv msgs |}
| world_deliver ids e b q s dv g env g' s' effs msgs :
    e_engine (v_env env) = e ->
    sv2_step error_text hex_flags g s env (Sv2JobReceived b) = Some (g', s', effs, msgs, true) ->
    world_step {| w_ids := ids; w_engine := e; w_queue := b :: q; w_session := s; w_device := dv |}
      {| w_ids := ids; w_engine := e; w_queue := q; w_session := s'; w_device := device_run dv msgs |}.
(** A session starts on an engine that has run by itself. *)
Inductive reachable : world -> Prop :=
| reach_start l ids0 ids e effs g t1 t2 t3 t4 g' s seffs :
    refresh_run (pool cf) ids0 engine_new l = Ok (ids, e, effs) ->
    (forall b, Broadcast b ∈ effs -> bits (jb_job b) = tip_bits (prev_hash (jb_job b))) ->
    sv2_start false true cf g e t1 t2 t3 t4 = (g', Some (s, seffs)) ->
    reachable {| w_ids := ids; w_engine := e; w_queue := []; w_session := s; w_device := device_new |}
| reach_step w w' : reachable w -> world_step w w' -> reachable w'.

(** Jobs of the engine, and the chain of broadcasts under way from the
    session's job to the engine's. *)
Definition good_job (job : StratumJob) : Prop :=
  job_wf job /\ bits job = tip_bits (prev_hash job) /\
  Z.of_nat (extranonce1_len job + extranonce2_len job) = extranonce1_size (pool cf) + extranonce2_size (pool cf).
Definition good_opt (o : option StratumJob) : Prop := forall job, o = Some job -> good_job job.
Fixpoint chain (p : option StratumJob) (q : list JobBroadcast) (cur : option StratumJob) : Prop :=
  match q with
  | [] => p = cur
  | b :: q => keeps_tip p b /\ good_job (jb_job b) /\ chain (Some (jb_job b)) q cur
  end.
Record world_inv (w : world) : Prop := {
  wi_session : sv2_inv (vardiff cf) (initial_difficulty (pool cf))
                 (extranonce1_size (pool cf) + extranonce2_size (pool cf)) (w_session w);
  wi_step : in_step (w_session w) (w_device w);
  wi_pending : good_opt (v_pending_job (w_session w));
  wi_chain : chain (v_pending_job (w_session w)) (w_queue w) (current_job (w_engine w));
  wi_current : good_opt (current_job (w_engine w));
}.

Context (Hcf : Config.validate cf = Ok tt) (Hu64 : extranonces_u64 cf).

Lemma build_job_lens ids gbt address tag en1 en2 ids' job :
  build_job ids gbt address tag en1 en2 = (ids', Ok job) ->
  extranonce1_len job = en1 /\ extranonce2_len job = en2.
Proof.
  unfold build_job. destruct (next_job_id ids) as [id ids1]. intros Heq. injection Heq as _ Hj.
  apply outcome_bind_ok in Hj as ((cb & off) & _ & Hj). apply outcome_bind_ok in Hj as (? & Hle & Hj).
  apply outcome_bind_ok in Hj as (txids & _ & Hj). apply outcome_bind_ok in Hj as (branch & _ & Hj).
  apply outcome_bind_ok in Hj as (prev & _ & Hj). apply outcome_bind_ok in Hj as (target & _ & Hj).
  by injection Hj as <-.
Qed.
(** A refresh either broadcasts nothing and keeps the job, or broadcasts a
    job that is good and keeps the tip unless it is clean. *)
Lemma refresh_broadcasts {HLA : @HexLaws HL} settings ids gbt now1 now2 e clean ids' e' effs :
  refresh settings (pool cf) ids gbt now1 now2 e clean = Ok (ids', e', effs) ->
  (forall b, Broadcast b ∈ effs -> bits (jb_job b) = tip_bits (prev_hash (jb_job b))) ->
  good_opt (current_job e) ->
  (broadcasts effs = [] /\ current_job e' = current_job e) \/
  exists b, broadcasts effs = [b] /\ current_job e' = Some (jb_job b) /\ good_job (jb_job b) /\
            keeps_tip (current_job e) b.
Proof.
  intros H Hbits Hgood. apply refresh_cases in H as [(why & -> & ->)|(a & g & job & _ & _ & Hb & H)]; [by left|].
  right. unfold commit_job in H. set (cl := clean || _) in H. destruct H as [-> ->].
  exists {| jb_job := job; jb_clean := cl |}. split; [done|]. split; [done|]. cbn [jb_job].
  assert (bits job = tip_bits (prev_hash job)) as Hbj
    by (apply (Hbits {| jb_job := job; jb_clean := cl |}); apply elem_of_cons; right; by apply list_elem_of_singleton).
  split.
  - pose proof (build_job_lens _ _ _ _ _ _ _ _ Hb) as [El1 El2]. destruct Hu64 as [H1 H2].
    split; [by eapply build_job_wf|]. split; [done|]. rewrite El1, El2. lia.
  - intros Hcl. cbn [jb_clean jb_job] in *. unfold cl in Hcl. apply orb_false_iff in Hcl as [_ Hcl].
    unfold tip_moved in Hcl. apply negb_false_iff, bool_decide_eq_true in Hcl.
    destruct (current_job e) as [p|] eqn:Ec; [|done]. cbn in Hcl. injection Hcl as Hcl.
    exists p. split; [done|]. split; [done|]. destruct (Hgood p eq_refl) as (_ & Hbp & _). congruence.
Qed.
Lemma chain_snoc p q cur b :
  chain p q cur -> keeps_tip cur b -> good_job (jb_job b) -> chain p (q ++ [b]) (Some (jb_job b)).
Proof.
  revert p; induction q as [|b' q IH]; intros p Hc Hk Hg; cbn in *; [by subst|].
  destruct Hc as (H1 & H2 & H3). auto.
Qed.
Lemma refresh_run_good {HLA : @HexLaws HL} ids e l ids' e' effs :
  refresh_run (pool cf) ids e l = Ok (ids', e', effs) ->
  (forall b, Broadcast b ∈ effs -> bits (jb_job b) = tip_bits (prev_hash (jb_job b))) ->
  good_opt (current_job e) -> good_opt (current_job e').
Proof.
  revert ids e effs; induction l as [|i l IH]; intros ids e effs H Hb Hg; cbn [refresh_run] in H.
  { injection H as <- <- <-. done. }
  apply outcome_bind_ok in H as ([[ids1 e1] effs1] & H1 & H).
  apply outcome_bind_ok in H as ([[ids2 e2] effs2] & H2 & H). injection H as <- <- <-.
  eapply IH; [exact H2| |].
  - intros b Hin. apply Hb. apply elem_of_app. by right.
  - eapply refresh_broadcasts in H1 as [[_ ->]|(b & _ & -> & Hgj & _)]; [done| | |done].
    + by intros job [= <-].
    + intros b Hin. apply Hb. apply elem_of_app. by left.
Qed.

Context (Hfloat : valid_binary prec emax (max_retarget_factor (vardiff cf)) = true) (Hdec : decodes_ok).
Abbreviation total := (extranonce1_size (pool cf) + extranonce2_size (pool cf)).

Lemma sv2_session_new_inv prefix t1 t2 t3 t4 :
  Z.of_nat (length prefix) = extranonce1_size (pool cf) ->
  sv2_inv (vardiff cf) (initial_difficulty (pool cf)) total (sv2_session_new cf prefix t1 t2 t3 t4).
Proof. intros Hl. split; cbn; try done; [by left|lia]. Qed.
Lemma ids_refine_new prefix t1 t2 t3 t4 : ids_refine [] (sv2_session_new cf prefix t1 t2 t3 t4).
Proof. by split. Qed.
Lemma sv2_start_inv g e t1 t2 t3 t4 g' s effs :
  sv2_start false true cf g e t1 t2 t3 t4 = (g', Some (s, effs)) ->
  sv2_inv (vardiff cf) (initial_difficulty (pool cf)) total s /\ ids_refine [] s /\ v_channel_open s = false /\
  v_pending_job s = current_job e.
Proof.
  intros H. unfold sv2_start in H. cbn [orb negb] in H.
  pose proof (generate_extranonce1_length (extranonce_counter g) (extranonce1_size (pool cf))
                (proj1 (proj1 Hu64))) as Hl.
  destruct (generate_extranonce1 _ _) as [cn prefix]. injection H as _ <- _. cbn [snd] in Hl.
  pose proof (sv2_session_new_inv prefix t1 t2 t3 t4 Hl). pose proof (ids_refine_new prefix t1 t2 t3 t4) as [Hn Hk].
  split; [by apply (inv_fields_inv _ _ _ (sv2_session_new cf prefix t1 t2 t3 t4))|]. by split.
Qed.
Lemma turn_in_step s env ev s' msgs dv :
  turn s env ev s' msgs true -> (forall b, ev ≠ Sv2JobReceived b) -> in_step s dv ->
  in_step s' (device_run dv msgs) /\ v_pending_job s' = v_pending_job s.
Proof.
  intros Ht Hev Hs. remember true as go eqn:Hgo in Ht.
  destruct Ht as [ev s' msgs go _ Hw Hq|t p s1 effs rid target H1 H2 H3 _ r|b g g' s' effs msgs go H].
  - split; [by apply (quiet_in_step s)|]. by injection Hw.
  - assert (r_flow r = Continue) as Hf by (destruct (r_flow r); done).
    by apply (announce_in_step s s1 env effs rid target dv dv).
  - by destruct (Hev b).
Qed.
Lemma reachable_inv {HLA : @HexLaws HL} w : reachable w -> world_inv w.
Proof.
  pose proof (validate_vardiff_section cf Hcf) as Hvd. pose proof (validate_extranonces cf Hcf Hu64) as [He1 _].
  assert (1 <= total) as Htotal by (destruct Hu64; lia).
  induction 1 as [l ids0 ids e effs g t1 t2 t3 t4 g' s seffs Hrun Hb Hstart|w w' _ [I1 I2 I3 I4 I5] Hstep].
  - apply sv2_start_inv in Hstart as (Hi & Hn & Ho & Hp). assert (good_opt (current_job e)) as Hg
      by (eapply refresh_run_good; [exact Hrun|exact Hb|done]).
    split; cbn [w_session w_device w_queue w_engine]; try done.
    + split; [by exists []|]. by rewrite Ho.
    + by rewrite Hp.
  - destruct Hstep as [ids e q s dv settings gbt now1 now2 clean ids' e' effs Hr Hb
                      |ids e q s dv g env ev g' s' effs msgs Hev Hlag Heng Hs|ids e b q s dv g env g' s' effs msgs Heng Hs];
      cbn [w_session w_device w_queue w_engine] in *.
    + eapply refresh_broadcasts in Hr as [[-> Hc]|(b & -> & Hc & Hg & Hk)]; [| |done..].
      * rewrite app_nil_r. by split; cbn [w_session w_device w_queue w_engine]; rewrite ?Hc.
      * split; cbn [w_session w_device w_queue w_engine]; rewrite ?Hc; try done; [by apply (chain_snoc _ _ (current_job e))|].
        by intros job [= <-].
    + destruct (sv2_step_inv error_text hex_flags _ _ total Htotal Hdec Hvd Hfloat g s env ev I1)
        as (g2 & s2 & effs2 & msgs2 & go2 & Hs2 & I1'). rewrite Hs in Hs2. injection Hs2 as <- <- <- <- <-.
      pose proof (sv2_step_turn error_text hex_flags total Htotal Hdec _ _ _ _ _ _ _ _ _ (vi_total _ _ _ _ I1) Hs) as Ht.
      destruct (turn_in_step _ _ _ _ _ dv Ht Hev I2) as [I2' Hp].
      by split; cbn [w_session w_device w_queue w_engine]; rewrite ?Hp.
    + destruct (sv2_step_inv error_text hex_flags _ _ total Htotal Hdec Hvd Hfloat g s env (Sv2JobReceived b) I1)
        as (g2 & s2 & effs2 & msgs2 & go2 & Hs2 & I1'). rewrite Hs in Hs2. injection Hs2 as <- <- <- <- <-.
      destruct I4 as (Hk & Hg & Hc).
      destruct (sv2_on_job_in_step s env b g g' s' effs msgs dv Hs Hk I2) as [I2' Hp].
      split; cbn [w_session w_device w_queue w_engine]; rewrite ?Hp; try done. by intros job [= <-].
Qed.
End world.
