(* ===== verification/SessionJobs.v ===== *)
(** The work a session is on and what it credits, turn by turn, for both
    protocols: a turn takes up a new job when it hears of one, and logs a share
    only on a job the engine honours. *)
From S2P Require Export SessionFacts Sv2Device Presence.
From Stdlib Require Import Strings.Ascii.

(** A submission the validator accepts at [floor], for work of worker [w] on a
    job the engine honours. *)
Definition earned `{HexLib} `{Sha256Lib} (engine : TemplateEngine) (prefix : list byte) (floor : Z) (w : string) : Prop :=
  exists entry params r, find_job engine (sp_job_id params) = Some entry /\ sp_worker params = w /\
    validate_share_no_dedup params (je_job entry) entry prefix floor = Ok r.
(** The job a session takes up when it had none. *)
Definition job_or_current (engine : TemplateEngine) (job : option StratumJob) : option StratumJob :=
  match job with Some j => Some j | None => current_job engine end.

(** ** Stratum V1 *)

Section sv1.
Context {HJ : JsonLib f64} {HL : HexLib} {HS : Sha256Lib} (from_str : string -> outcome string StratumRequest).
Implicit Types (s : Session) (env : Env).

Definition keeps_job s env s' : Prop :=
  s_current_job s' = s_current_job s \/ s_current_job s' = job_or_current (e_engine env) (s_current_job s).
Lemma adopt_worker_job s env w :
  s_current_job (adopt_worker s env w).1 = s_current_job s /\ existsb is_log (adopt_worker s env w).2 = false.
Proof. unfold adopt_worker. destruct (s_worker s); cbn; by destruct (e_stash env w). Qed.
Lemma handle_authorize_job s req p env :
  keeps_job s env (handle_authorize s req p env).1.1 /\ existsb is_log (handle_authorize s req p env).1.2 = false.
Proof.
  unfold handle_authorize. destruct (negb (s_subscribed s)); [split; [by left|done]|].
  assert (forall s1, s_current_job s1 = s_current_job s -> forall fresh ok : bool,
    let x := (if negb ok then (s1, [], Disconnect "too many worker identities") else
      let '(s2, effs) := if fresh then adopt_worker s1 env (auth_worker p) else (s1, []) in
      let s2 := with_identity s2 (Some (auth_worker p)) true in
      let job := match s_current_job s2 with Some j => Some j | None => current_job (e_engine env) end in
      let s3 := match job with Some j => with_job s2 (Some j) | None => s2 end in
      (s3, effs, Messages (response_ok (req_id req) (json_bool true) :: set_difficulty_msg (s_difficulty s3)
                       :: match job with Some j => [build_notify j true] | None => [] end))) in
    keeps_job s env x.1.1 /\ existsb is_log x.1.2 = false) as Hgo.
  { intros s1 H1 fresh [|]; cbn [negb]; [|split; [by left|done]].
    pose proof (adopt_worker_job s1 env (auth_worker p)) as [Hj Hl].
    assert (exists s2 effs, (if fresh then adopt_worker s1 env (auth_worker p) else (s1, [])) = (s2, effs) /\
      s_current_job s2 = s_current_job s /\ existsb is_log effs = false) as (s2 & effs & -> & H2 & Hq).
    { destruct fresh; [|by exists s1, []]. destruct (adopt_worker s1 env (auth_worker p)) as [s2 effs]. exists s2, effs.
      cbn in Hj, Hl. by rewrite Hj. }
    cbv zeta. cbn [fst snd]. split; [right|done]. unfold job_or_current. cbn [with_identity s_current_job]. rewrite H2.
    destruct (s_current_job s) as [j|] eqn:Es; [done|]. destruct (current_job (e_engine env)); [done|]. cbn. by rewrite H2. }
  destruct (check_worker_name _ _) as [u|e|]; [|split; [by left|done]|]; destruct (negb (bool_decide _)) eqn:Ef.
  1,3: destruct (record_new_authorization (s_guard s)) as [g ok]; exact (Hgo (with_guard s g) eq_refl true ok).
  all: exact (Hgo s eq_refl false true).
Qed.
Lemma handle_submit_job s req p env : s_current_job (handle_submit s req p env).1.1 = s_current_job s.
Proof.
  pose proof (handle_submit_outcome s req p env) as Ho. remember (handle_submit s req p env) as out.
  destruct Ho as [Ha|s1 r1 Ha Hl Hc|Ha Hl Hf|entry Ha Hl Hf Hv|entry set verdict Ha Hl Hf Hv]; try done.
  - unfold count_invalid in Hc. destruct (record_invalid _). by injection Hc as <- _.
  - unfold handle_verdict. destruct verdict as [[a h hash|h hex hash]|e|]; try done.
    + by destruct (submit_found_block _ _ _ _ _) as [effs [[]|e|]].
    + destruct (is_malicious e); [|done]. unfold count_invalid. by destruct (record_invalid _).
Qed.
Lemma handle_submit_earned s req p env w d :
  LogShare w d ∈ (handle_submit s req p env).1.2 ->
  s_authorized s = true /\ w = default "?" (s_worker s) /\
  earned (e_engine env) (s_extranonce1 s) (min_difficulty (s_vardiff_cfg s)) w.
Proof.
  pose proof (handle_submit_outcome s req p env) as Ho. remember (handle_submit s req p env) as out eqn:Hout. clear Hout.
  destruct Ho as [Ha|s1 r1 Ha Hl Hc|Ha Hl Hf|entry Ha Hl Hf Hv|entry set verdict Ha Hl Hf Hv]; try by intros ?%no_log.
  destruct (handle_verdict _ _ _ _ _ _) as [[s1 effs] r] eqn:E. cbn [fst snd]. intros Hlog.
  destruct (handle_verdict_credits _ _ _ _ _ _ _ _ _ _ _ E Hlog) as (res & -> & -> & _).
  apply ShareSet_dedup_ok in Hv as (Hvalid & _ & _). split; [done|]. split; [done|].
  by exists entry, (share_params s p (default "?" (s_worker s))), res.
Qed.

(** One line, whatever it asks for. *)
Lemma handle_line_job s line env s' effs r :
  handle_line from_str s line env = Some (s', effs, r) ->
  keeps_job s env s' /\
  (forall w d, LogShare w d ∈ effs -> s_authorized s = true /\ w = default "?" (s_worker s) /\
     earned (e_engine env) (s_extranonce1 s) (min_difficulty (s_vardiff_cfg s)) w).
Proof.
  assert (forall s1 : Session, s_current_job s1 = s_current_job s -> forall effs1, existsb is_log effs1 = false ->
    keeps_job s env s1 /\ forall w d, LogShare w d ∈ effs1 -> s_authorized s = true /\ w = default "?" (s_worker s) /\
     earned (e_engine env) (s_extranonce1 s) (min_difficulty (s_vardiff_cfg s)) w) as Hq.
  { intros s1 Hs1 effs1 Hl. split; [by left|]. intros w d Hin%no_log. congruence. }
  unfold handle_line. destruct (trim_is_empty line); [intros [= <- <- <-]; by apply Hq|].
  destruct (try_consume _ _ _) as [rate allowed].
  set (s1 := with_guard s _). assert (s_current_job s1 = s_current_job s /\ s_authorized s1 = s_authorized s /\
    s_worker s1 = s_worker s /\ s_extranonce1 s1 = s_extranonce1 s /\ s_vardiff_cfg s1 = s_vardiff_cfg s)
    as (Hj & Ha & Hw & He & Hc) by done. clearbody s1.
  destruct (negb allowed); [intros [= <- <- <-]; by apply Hq|].
  destruct (request_parse _ _) as [req|e|]; [|intros [= <- <- <-]; by apply Hq|done].
  destruct (from_request req) as [m|e|]; [|intros [= <- <- <-]; by apply Hq|done].
  destruct m as [p|p|p|p|x|m]; cbn [handle_message].
  - intros [= <- <- <-]. by apply Hq.
  - pose proof (handle_authorize_job s1 req p env) as [Hk Hl]. intros [= H]. rewrite H in Hk, Hl. cbn [fst snd] in *.
    split; [|intros w d Hin%no_log; congruence]. unfold keeps_job in *. by rewrite Hj in Hk.
  - intros [= H]. pose proof (handle_submit_job s1 req p env) as Hk. pose proof (handle_submit_earned s1 req p env) as Hearn.
    rewrite H in Hk, Hearn. cbn [fst snd] in *. split; [left; congruence|]. by rewrite <- Ha, <- Hw, <- He, <- Hc.
  - intros [= <- <- <-]. apply Hq; [|done]. unfold handle_configure. destruct (version_rolling p); done.
  - unfold handle_suggest_difficulty. destruct (suggest _ _ _) as [[v a]|]; [|done]. cbn. intros [= <- <- <-]. by apply Hq.
  - intros [= <- <- <-]. by apply Hq.
Qed.
Lemma session_step_job s env e s' effs msgs go :
  session_step from_str s env e = Some (s', effs, msgs, go) ->
  match e with JobReceived b _ => s_current_job s' = Some (jb_job b) | _ => keeps_job s env s' end /\
  (forall w d, LogShare w d ∈ effs -> s_authorized s = true /\ w = default "?" (s_worker s) /\
     earned (e_engine env) (s_extranonce1 s) (min_difficulty (s_vardiff_cfg s)) w).
Proof.
  destruct e as [| | | |[line|] wr|wr|b wr| |]; cbn [session_step].
  1-4,6,9-10: intros H; injection H as <- <- <- <-; (split; [by left|]); intros w d Hin;
    by apply no_log in Hin.
  - unfold on_line. destruct (handle_line from_str s line env) as [[[s1 effs1] r]|] eqn:E; [|done].
    destruct (handle_line_job _ _ _ _ _ _ E) as [Hk Hl].
    assert (forall effs2, existsb is_log effs2 = false -> forall w d, LogShare w d ∈ effs1 ++ effs2 -> LogShare w d ∈ effs1) as Happ.
    { intros effs2 Hq w d [Hin|Hin]%elem_of_app; [done|]. apply no_log in Hin. congruence. }
    destruct r as [ms|reason].
    + destruct wr; intros H; injection H as <- <- <- <-; (split; [done|]); intros w d Hin; [|by apply (Hl w d)].
      eapply Hl, Happ; [|exact Hin]. unfold hashrate_effects. by destruct (s_worker s1).
    + intros H; injection H as <- <- <- <-. split; [done|]. intros w d Hin.
      eapply Hl, Happ; [|exact Hin]. by destruct (s_worker s1).
  - destruct (retarget_enabled s); [|intros H; injection H as <- <- <- <-; split; [by left|]; intros w d Hin; by apply no_log in Hin].
    unfold on_retarget. destruct (check_retarget _ _ _ _) as [[v [x|]]|]; cbn [mbind option_bind]; [| |done];
      intros H; injection H as <- <- <- <-; (split; [by left|]); intros w d Hin; apply no_log in Hin;
      by destruct (s_worker s).
  - unfold on_job. cbv zeta. set (s1 := if jb_clean b then _ else s). clearbody s1.
    destruct (_ && _); intros H; injection H as <- <- <- <-; (split; [done|]); intros w d Hin; by apply no_log in Hin.
Qed.
End sv1.

(** ** Stratum V2 *)

Section sv2.
Context {HL : HexLib} {HS : Sha256Lib} {HV : Sv2Lib} (error_text : PoolError -> string) (hex_flags : Z -> string).
Context (total : Z) (Htotal : 1 <= total) (Hdec : decodes_ok).
Implicit Types (s : Sv2Session) (g : Counters) (env : Sv2Env).

Lemma send_job_pending s env k job future : v_pending_job (send_job s env k job future).1.1 = v_pending_job s.
Proof.
  unfold send_job. destruct (assign_job_id s (job_id job)) as [s1 id] eqn:E.
  assert (v_pending_job s1 = v_pending_job s) as <- by by injection E as <- _.
  destruct (send env k _); [|done..]. destruct future; [|done].
  destruct (build_set_new_prev_hash _ _ _) as [x|e|]; [|done..]. by destruct (send env (S k) _).
Qed.
Lemma announce_channel_pending s env effs m :
  v_pending_job (r_session (announce_channel s env effs m)) = v_pending_job s.
Proof.
  unfold announce_channel. destruct (send env 0 _); [|done..]. cbv zeta.
  destruct (v_pending_job (s <! v_channel_open := true !>)) as [job|]; [|done].
  pose proof (send_job_pending (s <! v_channel_open := true !>) env 1 job true) as Hs.
  destruct (send_job _ env 1 job true) as [[s2 ms] ok]. by destruct ok.
Qed.
(** One message, whatever it asks for. *)
Lemma sv2_message_logs g s env t p g' r w d :
  v_extranonce_total s = total -> sv2_handle_message error_text hex_flags g s env t p = Some (g', r) ->
  LogShare w d ∈ r_effects r ->
  v_channel_open s = true /\ w = default "?" (v_worker s) /\
  earned (e_engine (v_env env)) (v_extranonce_prefix s) (min_difficulty (v_vardiff_cfg s)) w.
Proof.
  intros Ht. unfold sv2_handle_message. destruct (try_consume _ _ _) as [rate allowed]. cbv zeta.
  set (s1 := s <! v_guard ::= _ !>). assert (v_extranonce_total s1 = total) as Ht1 by done.
  assert (v_channel_open s1 = v_channel_open s /\ v_worker s1 = v_worker s /\
    v_extranonce_prefix s1 = v_extranonce_prefix s /\ v_vardiff_cfg s1 = v_vardiff_cfg s) as (<- & <- & <- & <-) by done.
  clearbody s1. destruct (negb allowed); [intros [= <- <-] Hin; by apply no_log in Hin|].
  destruct (_ =? _).
  { intros [= <- <-] Hin. rewrite (proj2 (handle_setup_worker hex_flags s1 env p)) in Hin. by apply no_log in Hin. }
  destruct (_ =? _).
  { intros H Hin. exfalso. destruct (handle_open_extended_outcome error_text total Htotal Hdec g s1 env p Ht1) as (out & Ho & Hout).
    rewrite H in Ho. injection Ho as <-. remember (g', r) as out eqn:Heq.
    destruct Hout as [msgs flow Hm|guard reason|open g2 s2 effs' _ _ _ _ Hl]; injection Heq as _ <-; try by apply no_log in Hin.
    rewrite announce_channel_effects in Hin. apply no_log in Hin. congruence. }
  destruct (_ =? _); intros [= <- <-] Hin; [|by apply no_log in Hin].
  destruct (sv2_handle_submit_logs s1 env p w d Hin) as (submit & entry & set & verdict & Ho & _ & _ & Hj & Hv & Heq).
  rewrite Heq in Hin. apply sv2_verdict_credits in Hin as (res & -> & -> & _).
  apply ShareSet_dedup_ok in Hv as (Hvalid & _ & _). split; [done|]. split; [done|].
  exists entry, (sv2_share_params submit (je_job entry) (default "?" (v_worker s1))), res. split; [|done]. cbn.
  unfold sv2_find_job in Hj. destruct (engine_job_id s1 (sx_job_id submit)) as [id|]; [|done].
  pose proof Hj as (x & _ & _ & ->)%find_entry_In. exact Hj.
Qed.
(** A turn that goes on with the session. *)
Lemma sv2_step_job g s env e g' s' effs msgs :
  v_extranonce_total s = total -> sv2_step error_text hex_flags g s env e = Some (g', s', effs, msgs, true) ->
  v_pending_job s' = match e with Sv2JobReceived b => Some (jb_job b) | _ => v_pending_job s end.
Proof.
  intros Ht H. pose proof (sv2_step_turn error_text hex_flags total Htotal Hdec _ _ _ _ _ _ _ _ _ Ht H) as Hturn.
  remember true as go eqn:Hgo. destruct Hturn as [e s' msgs go Hno Hw _|t p s1 effs' rid target Hj1 Hj2 Hp _ r|b g0 g0' s' effs' msgs go Hon].
  - assert (v_pending_job s' = v_pending_job s) as Hp by (unfold work_fields in Hw; congruence).
    destruct e as [| | | | |b| |]; try exact Hp. by destruct (Hno b).
  - unfold r. by rewrite announce_channel_pending.
  - subst go. unfold sv2_on_job in Hon. cbv zeta in Hon. set (s1 := if jb_clean b then _ else s) in Hon. clearbody s1.
    destruct (v_channel_open s1); [|by injection Hon as _ <- _ _].
    destruct (send_job _ _ _ _ _) as [[s2 ms] ok]. destruct ok; [by injection Hon as _ <- _ _|done].
Qed.
Lemma sv2_step_logs g s env e g' s' effs msgs go w d :
  v_extranonce_total s = total -> sv2_step error_text hex_flags g s env e = Some (g', s', effs, msgs, go) ->
  LogShare w d ∈ effs ->
  v_channel_open s = true /\ w = default "?" (v_worker s) /\
  earned (e_engine (v_env env)) (v_extranonce_prefix s) (min_difficulty (v_vardiff_cfg s)) w.
Proof.
  intros Ht. destruct e as [| | |t p| |b| |]; cbn [sv2_step];
    try (intros H; injection H as <- <- <- <- <-; intros Hin; by apply no_log in Hin).
  - unfold on_inbound. destruct (check_message_size _ _);
      [|intros H; injection H as <- <- <- <- <-; intros Hin; by apply no_log in Hin..].
    destruct (sv2_handle_message _ _ g s env t p) as [[g1 r]|] eqn:Em; [|done]. cbn [mbind option_bind]. intros H Hin.
    assert (exists quiet, effs = r_effects r ++ quiet /\ existsb is_log quiet = false) as (quiet & -> & Hq).
    { destruct (r_flow r); injection H as <- <- <- <- <-; eexists; (split; [done|]).
      - destruct (v_channel_open _); [|done]. unfold sv2_hashrate_effects. by destruct (v_worker _).
      - by destruct (v_worker _). }
    apply elem_of_app in Hin as [Hin|Hin]; [|apply no_log in Hin; congruence]. clear H.
    eapply (sv2_message_logs g s env t p g1 r); done.
  - destruct (v_channel_open s); [|intros H; injection H as <- <- <- <- <-; intros Hin; by apply no_log in Hin].
    unfold sv2_on_retarget. destruct (check_retarget _ _ _ _) as [[v [x|]]|]; cbn [mbind option_bind]; [| |done].
    + destruct (send env 0 _); intros H; injection H as <- <- <- <- <-; intros Hin; apply no_log in Hin; by destruct (v_worker s).
    + intros H; injection H as <- <- <- <- <-. intros Hin; by apply no_log in Hin.
  - unfold sv2_on_job. cbv zeta. set (s1 := if jb_clean b then _ else s). clearbody s1.
    destruct (v_channel_open s1); [destruct (send_job _ _ _ _ _) as [[s2 ms] ok]; destruct ok|];
      intros H; injection H as <- <- <- <- <-; intros Hin; by apply no_log in Hin.
Qed.
End sv2.
