(* ===== verification/PoolFacts.v ===== *)
(** Facts about the serving process: each step as the move of one connection,
    what holds in every reachable pool, the history of the ban list and of the
    extranonce counter. *)
From stdpp Require Import sorting.
From S2P Require Export Pool Presence SecurityFacts SessionFacts Sv2Device.
From Stdlib Require Import Strings.Ascii.

(** The worker a task's session has and the extranonce prefix it hands out. *)
Definition task_worker (t : task) : option string :=
  match t with Sv1Task s _ => s_worker s | Sv2Task s _ => v_worker s | _ => None end.
Definition task_prefix (t : task) : option (list byte) :=
  match t with Sv1Task s _ => Some (s_extranonce1 s) | Sv2Task s _ => Some (v_extranonce_prefix s) | _ => None end.

Section moves.
Context {Ip : Type} `{!EqDecision Ip} `{!Countable Ip}.
Context {HJ : JsonLib f64} {HL : HexLib} {HS : Sha256Lib} {HB : BitcoinLib} {HV : Sv2Lib} {HI : DashIter}
  {HC : BroadcastLib} {HW : PowLib}.
Context (from_str : string -> outcome string StratumRequest) (error_text : PoolError -> string) (hex_flags : Z -> string)
  (cfg : Config).
Abbreviation pool_step := (pool_step (Ip := Ip) from_str error_text hex_flags cfg).
Abbreviation pool_run := (pool_run (Ip := Ip) from_str error_text hex_flags cfg).
Implicit Types (p : Pool Ip) (c : conn Ip) (obs : list (pool_obs Ip)).

(** What a turn took from its receiver: nothing, or what was there to take. *)
Definition sv1_got (e : session_event) : option (option JobBroadcast) :=
  match e with JobReceived b _ => Some (Some b) | JobLagged => Some None | _ => None end.
Definition sv2_got (e : sv2_event) : option (option JobBroadcast) :=
  match e with Sv2JobReceived b => Some (Some b) | Sv2JobLagged => Some None | _ => None end.
Definition hears (got : option (option JobBroadcast)) (rx rx' : option Rx) : Prop :=
  match got with
  | None => rx' = rx
  | Some b => exists r r', rx = Some r /\ rx_recv r = Some (b, r') /\ rx' = Some r'
  end.
(** What a task at rest does on its own, with the engine and its receiver. *)
Inductive task_move (engine : TemplateEngine)
    : Counters -> task -> option Rx -> Counters -> task -> option Rx -> list session_effect -> Prop :=
| tm_sv1 g rx random n1 n2 n3 n4 counter s effs :
    session_start false cfg (extranonce_counter g) random engine n1 n2 n3 n4 = (counter, Some (s, effs)) ->
    task_move engine g Peeking rx {| extranonce_counter := counter; next_channel_id := next_channel_id g |}
      (Sv1Task s true) (Some rx_subscribe) effs
| tm_secure g rx : task_move engine g Peeking rx g Securing rx []
| tm_sv2 g rx n1 n2 n3 n4 g' s effs :
    sv2_start false true cfg g engine n1 n2 n3 n4 = (g', Some (s, effs)) ->
    task_move engine g Securing rx g' (Sv2Task s true) (Some rx_subscribe) effs
| tm_sv1_turn g s rx env e s' effs msgs go rx' :
    session_step from_str s env e = Some (s', effs, msgs, go) -> e_engine env = engine -> hears (sv1_got e) rx rx' ->
    task_move engine g (Sv1Task s true) rx g (Sv1Task s' go) rx' effs
| tm_sv2_turn g s rx env e g' s' effs msgs go rx' :
    sv2_step error_text hex_flags g s env e = Some (g', s', effs, msgs, go) -> e_engine (v_env env) = engine ->
    hears (sv2_got e) rx rx' ->
    task_move engine g (Sv2Task s true) rx g' (Sv2Task s' go) rx' effs
| tm_sv1_close g s rx now1 now2 : task_move engine g (Sv1Task s false) rx g Leaving rx (session_close s now1 now2)
| tm_sv2_close g s rx now1 now2 : task_move engine g (Sv2Task s false) rx g Leaving rx (sv2_close s now1 now2).
(** Why a task panics. *)
Inductive task_panic (p : Pool Ip) (p' : Pool Ip) : task -> list session_effect -> Prop :=
| tp_sv1 s env e : session_step from_str s env e = None -> task_panic p p' (Sv1Task s true) []
| tp_sv2 s env e : sv2_step error_text hex_flags (p_counters p) s env e = None -> task_panic p p' (Sv2Task s true) []
| tp_ban t reason todo : INSTANT_END <= p_clock p' + ban_duration (p_bans p) -> task_panic p p' t (BanPeer reason :: todo).

(** What a step does to the engine and to the channel. *)
Definition engine_kept (p p' : Pool Ip) (receivers : gmap nat Rx) : Prop :=
  p_engine p' = p_engine p /\ p_refreshes p' = p_refreshes p /\ p_receivers p' = receivers /\ p_settings p' = p_settings p.
Inductive refresh_move (p p' : Pool Ip) : Prop :=
| rm_noted why : p_engine p' = note_template_failure (p_engine p) why -> p_refreshes p' = p_refreshes p ->
    p_receivers p' = p_receivers p -> refresh_move p p'
| rm_build k gbt job clean : p_refreshes p !! k = None ->
    (refresh_job (p_settings p) (pool cfg) (p_ids p) gbt).2 = Ok job -> p_engine p' = p_engine p ->
    p_refreshes p' = <[k := Built job clean]> (p_refreshes p) -> p_receivers p' = p_receivers p -> refresh_move p p'
| rm_commit k job clean now cl : p_refreshes p !! k = Some (Built job clean) ->
    commit_job (p_engine p) job clean now = (p_engine p', cl) ->
    p_refreshes p' = <[k := Committed job cl]> (p_refreshes p) -> p_receivers p' = p_receivers p -> refresh_move p p'
| rm_push k job cl now : p_refreshes p !! k = Some (Committed job cl) ->
    p_engine p' = push_history (p_engine p) job cl now ->
    p_refreshes p' = <[k := Pushed job cl]> (p_refreshes p) -> p_receivers p' = p_receivers p -> refresh_move p p'
| rm_send k job cl : p_refreshes p !! k = Some (Pushed job cl) -> p_engine p' = p_engine p ->
    p_refreshes p' = delete k (p_refreshes p) ->
    p_receivers p' = rx_send JOB_BROADCAST_CAP {| jb_job := job; jb_clean := cl |} <$> p_receivers p -> refresh_move p p'.
(** The payout address changes. *)
Definition settings_move (p p' : Pool Ip) : Prop :=
  (exists address io, p_settings p' = (change_address address io (p_settings p) (p_stats p)).1.1) /\
  p_engine p' = p_engine p /\ p_refreshes p' = p_refreshes p /\ p_receivers p' = p_receivers p.
(** A step as what it does to the connections, the counters, the statistics
    and the engine. *)
Inductive pool_move (p : Pool Ip) : list (pool_obs Ip) -> Pool Ip -> Prop :=
| pm_accept i ip t p' : p_conns p !! i = None -> Z.of_nat (size (p_conns p)) < max_connections (pool cfg) ->
    p_conns p' = <[i := {| cn_ip := ip; cn_task := Peeking; cn_todo := [] |}]> (p_conns p) ->
    p_counters p' = p_counters p -> p_stats p' = p_stats p -> engine_kept p p' (p_receivers p) -> pool_move p [LetIn ip t] p'
| pm_task i ip t t' rx' todo obs p' : p_conns p !! i = Some {| cn_ip := ip; cn_task := t; cn_todo := [] |} ->
    task_move (p_engine p) (p_counters p) t (p_receivers p !! i) (p_counters p') t' rx' todo ->
    p_conns p' = <[i := {| cn_ip := ip; cn_task := t'; cn_todo := todo |}]> (p_conns p) ->
    p_stats p' = p_stats p -> (forall j, Panicked j ∉ obs) ->
    engine_kept p p' (partial_alter (fun _ => rx') i (p_receivers p)) -> pool_move p obs p'
| pm_gone i ip t p' : p_conns p !! i = Some {| cn_ip := ip; cn_task := t; cn_todo := [] |} -> task_worker t = None ->
    p_conns p' = delete i (p_conns p) -> p_counters p' = p_counters p -> p_stats p' = p_stats p ->
    engine_kept p p' (delete i (p_receivers p)) -> pool_move p [] p'
| pm_settle i c e todo env obs p' : p_conns p !! i = Some c -> cn_todo c = e :: todo ->
    p_conns p' = <[i := {| cn_ip := cn_ip c; cn_task := cn_task c; cn_todo := todo |}]> (p_conns p) ->
    p_counters p' = p_counters p -> p_stats p' = apply_effect (p_stats p) (env, e) ->
    (forall j, Panicked j ∉ obs) -> engine_kept p p' (p_receivers p) -> pool_move p obs p'
| pm_panic i c p' : p_conns p !! i = Some c -> task_panic p p' (cn_task c) (cn_todo c) ->
    p_conns p' = delete i (p_conns p) -> p_counters p' = p_counters p -> p_stats p' = p_stats p ->
    engine_kept p p' (delete i (p_receivers p)) -> pool_move p [Panicked i] p'
| pm_calm obs p' : p_conns p' = p_conns p -> p_counters p' = p_counters p ->
    (ps_worker_states (p_stats p') = ps_worker_states (p_stats p) \/
     exists now io, p_stats p' = prune_idle_workers (p_stats p) now io) ->
    (forall j, Panicked j ∉ obs) ->
    engine_kept p p' (p_receivers p) \/ (refresh_move p p' /\ p_settings p' = p_settings p) \/ settings_move p p' ->
    pool_move p obs p'.

(** [injection] without reducing the two sides. *)
Lemma stepped_inj {A B} (a a' : A) (b b' : B) : Some (a, b) = Some (a', b') -> a' = a /\ b' = b.
Proof. intros H. split; congruence. Qed.
Lemma calm_nil j : @Panicked Ip j ∉ [].
Proof. apply not_elem_of_nil. Qed.
Lemma calm_one (o : pool_obs Ip) j : (forall j, o ≠ Panicked j) -> Panicked j ∉ [o].
Proof. intros H [=]%list_elem_of_singleton. by eapply H. Qed.
#[local] Hint Resolve calm_nil : core.
Lemma kept p p' receivers :
  p_engine p' = p_engine p -> p_refreshes p' = p_refreshes p -> p_receivers p' = receivers ->
  p_settings p' = p_settings p -> engine_kept p p' receivers.
Proof. by repeat split. Qed.
#[local] Hint Resolve kept : core.

Lemma accept_moves p i ip b1 b2 r1 r2 r3 obs p' :
  p_conns p !! i = None -> pool_accept cfg p i ip b1 b2 r1 r2 r3 = (obs, p') -> pool_move p obs p'.
Proof.
  intros Hi. unfold pool_accept. cbv zeta. destruct (admission _ _ _ _ _ _ _ _ _) as [[bans lim] refused] eqn:E.
  destruct refused as [why|]; intros H; injection H as <- <-.
  - apply pm_calm; [done|done|by left|intros j; by apply calm_one|left; by apply kept].
  - eapply pm_accept; try done. unfold admission in E.
    destruct (Z.ltb_spec (Z.of_nat (size (p_conns p))) (max_connections (pool cfg))); [done|discriminate E].
Qed.
Lemma first_byte_moves p i ip pk b1 b2 random n1 n2 n3 n4 obs p' :
  p_conns p !! i = Some {| cn_ip := ip; cn_task := Peeking; cn_todo := [] |} ->
  pool_first_byte cfg p i ip pk b1 b2 random n1 n2 n3 n4 = (obs, p') -> pool_move p obs p'.
Proof.
  intros Hi. unfold pool_first_byte. destruct (detect _ _).
  3-4: intros H; injection H as <- <-; by eapply pm_gone.
  - destruct (is_banned _ _ _ _) as [bans banned]. cbv zeta. destruct banned.
    + cbn [session_start]. intros H; injection H as <- <-. eapply pm_gone; cbn; try done. by destruct (p_counters p).
    + destruct (session_start false _ _ _ _ _ _ _ _) as [cn [[s effs]|]] eqn:Es;
        [|unfold session_start in Es; by destruct (generate_extranonce1 _ _)].
      intros H; injection H as <- <-. eapply pm_task; [exact Hi|eapply tm_sv1; exact Es|done..| |done].
      intros j. by apply calm_one.
  - destruct (is_banned _ _ _ _) as [bans banned]. cbv zeta. destruct banned; intros H; injection H as <- <-.
    + by eapply pm_gone.
    + eapply pm_task; [exact Hi|apply tm_secure|done..| |].
      * intros j. by apply calm_one.
      * apply kept; try done. by rewrite partial_alter_self.
Qed.
Lemma handshake_moves p i ip ok n1 n2 n3 n4 p' :
  p_conns p !! i = Some {| cn_ip := ip; cn_task := Securing; cn_todo := [] |} ->
  pool_handshake cfg p i ip ok n1 n2 n3 n4 = p' -> pool_move p [] p'.
Proof.
  intros Hi <-. unfold pool_handshake. destruct ok.
  - destruct (sv2_start _ _ _ _ _ _ _ _ _) as [g [[s effs]|]] eqn:Es.
    + eapply pm_task; [exact Hi|eapply tm_sv2; exact Es|done..].
    + unfold sv2_start in Es. cbn [orb negb] in Es. by destruct (generate_extranonce1 _ _).
  - unfold sv2_start. cbn [orb negb]. by eapply pm_gone.
Qed.
(** A pool in which one receiver changed. *)
Record one_receiver p (i : nat) (rx : option Rx) (q : Pool Ip) : Prop := {
  or_conns : p_conns q = p_conns p;
  or_counters : p_counters q = p_counters p;
  or_stats : p_stats q = p_stats p;
  or_engine : p_engine q = p_engine p;
  or_refreshes : p_refreshes q = p_refreshes p;
  or_settings : p_settings q = p_settings p;
  or_bans : p_bans q = p_bans p;
  or_clock : p_clock q = p_clock p;
  or_receivers : p_receivers q = partial_alter (fun _ => rx) i (p_receivers p);
}.
Lemma no_receiver p i : one_receiver p i (p_receivers p !! i) p.
Proof. split; try done. by rewrite partial_alter_self. Qed.
Lemma receive_spec p i got q :
  receive p i = Some (got, q) -> exists rx, hears (Some got) (p_receivers p !! i) rx /\ one_receiver p i rx q.
Proof.
  unfold receive. destruct (p_receivers p !! i) as [r|] eqn:Er; [|done]. cbn [mbind option_bind].
  destruct (rx_recv r) as [[b r']|] eqn:Eb; [|done]. cbn [mbind option_bind]. intros [-> ->]%stepped_inj.
  exists (Some r'). split; [by exists r, r'|]. by split.
Qed.
Lemma sv1_turn_moves p q i ip s env e rx obs p' :
  p_conns p !! i = Some {| cn_ip := ip; cn_task := Sv1Task s true; cn_todo := [] |} -> one_receiver p i rx q ->
  hears (sv1_got e) (p_receivers p !! i) rx ->
  pool_sv1_turn from_str q i ip s env e = Some (obs, p') -> pool_move p obs p'.
Proof.
  intros Hi [Hc Hg Hs He Hr Hset _ _ Hx] Hh. unfold pool_sv1_turn, panicked.
  destruct (session_step _ _ _ _) as [[[[s' effs] msgs] go]|] eqn:E; intros [-> ->]%stepped_inj.
  - eapply pm_task; [exact Hi| |by rewrite <- Hc|done|done|by apply kept].
    change (p_counters (put_conn q i ip (Sv1Task s' go) effs)) with (p_counters q). rewrite Hg.
    eapply tm_sv1_turn; [exact E|exact He|exact Hh].
  - eapply pm_panic; [exact Hi|eapply tp_sv1; exact E|by rewrite <- Hc|done..|]. apply kept; try done.
    cbn. rewrite Hx. unfold delete, map_delete. by rewrite partial_alter_partial_alter_eq.
Qed.
Lemma sv2_turn_moves p q i ip s env e rx obs p' :
  p_conns p !! i = Some {| cn_ip := ip; cn_task := Sv2Task s true; cn_todo := [] |} -> one_receiver p i rx q ->
  hears (sv2_got e) (p_receivers p !! i) rx ->
  pool_sv2_turn error_text hex_flags q i ip s env e = Some (obs, p') -> pool_move p obs p'.
Proof.
  intros Hi [Hc Hg Hs He Hr Hset _ _ Hx] Hh. unfold pool_sv2_turn, panicked. rewrite Hg.
  destruct (sv2_step _ _ _ _ _ _) as [[[[[g' s'] effs] msgs] go]|] eqn:E; intros [-> ->]%stepped_inj.
  - eapply pm_task; [exact Hi| |cbn; by rewrite <- Hc|done|done|by apply kept].
    eapply tm_sv2_turn; [exact E|exact He|exact Hh].
  - eapply pm_panic; [exact Hi|eapply tp_sv2; exact E|by rewrite <- Hc|done..|]. apply kept; try done.
    cbn. rewrite Hx. unfold delete, map_delete. by rewrite partial_alter_partial_alter_eq.
Qed.
(** The steps of the engine and of the tasks beside it. *)
Lemma refresh_moves p k gbt clean : p_refreshes p !! k = None -> pool_move p [] (pool_refresh cfg p k gbt clean).
Proof.
  intros Hk. unfold pool_refresh. destruct (refresh_job _ _ _ _) as [ids [job|why|]] eqn:Ej; apply pm_calm; try done.
  - left. apply publish_states.
  - right. left. split; [|done]. eapply rm_build; try done. by rewrite Ej.
  - by left.
  - right. left. split; [|done]. by eapply rm_noted.
  - by left.
  - left. by apply kept.
Qed.
Lemma refresh_next_moves p k ph now : p_refreshes p !! k = Some ph -> pool_move p [] (pool_refresh_next p k ph now).
Proof.
  intros Hk. destruct ph as [job clean|job clean|job clean]; cbn [pool_refresh_next].
  - destruct (commit_job _ _ _ _) as [e c] eqn:Ec. apply pm_calm; [done|done|by left|done|]. right. left. split; [|done]. by eapply rm_commit.
  - apply pm_calm; [done|done|by left|done|]. right. left. split; [|done]. by eapply rm_push.
  - apply pm_calm; [done|done|by left|done|]. right. left. split; [|done]. by eapply rm_send.
Qed.
Lemma change_address_states address io settings stats :
  ps_worker_states (change_address address io settings stats).1.2 = ps_worker_states stats.
Proof.
  unfold change_address, save_setting, set_setting. destruct (update _ _) as [st [u|err|]]; [|done..].
  destruct (ps_store stats); [|done]. by destruct io.
Qed.
Lemma settings_moves p address io : pool_move p [] (pool_settings_post p address io).
Proof.
  unfold pool_settings_post. pose proof (change_address_states address io (p_settings p) (p_stats p)) as Hs.
  destruct (change_address address io (p_settings p) (p_stats p)) as [[settings stats] r] eqn:E.
  apply pm_calm; [done|done|left; exact Hs|done|]. right. right. split; [|done]. exists address, io. by rewrite E.
Qed.
Lemma ticks_moves p f :
  ps_worker_states (f (p_stats p)) = ps_worker_states (p_stats p) -> pool_move p [] (p <! p_stats ::= f !>).
Proof. intros Hf. apply pm_calm; [done|done|by left|done|left; by apply kept]. Qed.
Lemma settle_moves p i c e todo env b1 b2 obs p' :
  p_conns p !! i = Some c -> cn_todo c = e :: todo ->
  pool_settle p i c e todo env b1 b2 = Some (obs, p') -> pool_move p obs p'.
Proof.
  intros Hi Ht. unfold pool_settle. cbv zeta.
  assert (forall x : pool_obs Ip, (forall j, x ≠ Panicked j) -> forall j, Panicked j ∉ [x]) as H1
    by (intros x Hx j; by apply calm_one).
  destruct e; try (intros [-> ->]%stepped_inj; eapply (pm_settle p i c _ todo env);
    [exact Hi|exact Ht|reflexivity..|exact calm_nil|by apply kept]).
  destruct (in_order _ _ _); [|done]. unfold ban. destruct (instant_add _ _) as [until|] eqn:Eu; cbn [mbind option_bind].
  - intros H; injection H as <- <-. eapply (pm_settle p i c _ todo env); [exact Hi|exact Ht|reflexivity..|by apply H1|by apply kept].
  - assert (ban_duration (ban_make_room (p_bans p) (cn_ip c) b1) = ban_duration (p_bans p)) as Hd
      by (unfold ban_make_room; repeat case_match; done).
    unfold instant_add in Eu. rewrite Hd in Eu. destruct (Z.ltb_spec (b2 + ban_duration (p_bans p)) INSTANT_END); [done|].
    assert (task_panic p (drop_conn (p <! p_clock := b2 !>) i) (cn_task c) (cn_todo c)) as Hp
      by (rewrite Ht; by apply tp_ban).
    destruct (cn_task c) as [| |s go|s [|]|] eqn:Ec; intros [-> ->]%stepped_inj;
      first [by eapply pm_panic; [exact Hi|rewrite Ec; exact Hp|reflexivity..|apply kept]
            |eapply (pm_settle p i c _ todo env); [exact Hi|exact Ht|by rewrite Ec|reflexivity..|exact calm_nil|by apply kept]].
Qed.
Lemma pool_step_moves p e obs p' : pool_step p e = Some (obs, p') -> pool_move p obs p'.
Proof.
  destruct e as [i ip b1 b2 r1 r2 r3|i pk b1 b2 random n1 n2 n3 n4|i ok n1 n2 n3 n4|i env e|i env e|i env w|i env
    |k gbt clean|k now|address io|i env b1 b2|i now1 now2|i|b r now io|now a b|ts io|poll]; cbn [Pool.pool_step].
  - destruct (in_order p b1 b2 && bool_decide _) eqn:E; [|done]. apply andb_true_iff in E as [_ E].
    apply bool_decide_eq_true in E. intros [= H]. by apply (accept_moves _ _ _ _ _ _ _ _ _ _ E H).
  - destruct (p_conns p !! i) as [[ip t [|]]|] eqn:Hi; cbn; try done. destruct t; try done.
    destruct (in_order _ _ _); [|done]. intros [= H]. by eapply first_byte_moves.
  - destruct (p_conns p !! i) as [[ip t [|]]|] eqn:Hi; cbn; try done. destruct t; try done.
    intros [-> ->]%stepped_inj. by eapply handshake_moves.
  - destruct (p_conns p !! i) as [[ip t [|]]|] eqn:Hi; cbn; try done. destruct t as [| |s [|]| |]; try done.
    destruct (sv1_job_event e) eqn:He; [done|]. eapply sv1_turn_moves; [exact Hi|apply no_receiver|by destruct e].
  - destruct (p_conns p !! i) as [[ip t [|]]|] eqn:Hi; cbn; try done. destruct t as [| | |s [|]|]; try done.
    destruct (sv2_job_event e) eqn:He; [done|]. eapply sv2_turn_moves; [exact Hi|apply no_receiver|by destruct e].
  - destruct (p_conns p !! i) as [[ip t [|]]|] eqn:Hi; cbn; try done. destruct t as [| |s [|]| |]; try done.
    unfold pool_sv1_job. destruct (receive p i) as [[got q]|] eqn:Er; [|done]. apply receive_spec in Er as (rx & Hh & Ho).
    eapply sv1_turn_moves; [exact Hi|exact Ho|by destruct got].
  - destruct (p_conns p !! i) as [[ip t [|]]|] eqn:Hi; cbn; try done. destruct t as [| | |s [|]|]; try done.
    unfold pool_sv2_job. destruct (receive p i) as [[got q]|] eqn:Er; [|done]. apply receive_spec in Er as (rx & Hh & Ho).
    eapply sv2_turn_moves; [exact Hi|exact Ho|by destruct got].
  - destruct (p_refreshes p !! k) eqn:Hk; [done|]. intros [-> ->]%stepped_inj. by apply refresh_moves.
  - destruct (p_refreshes p !! k) as [ph|] eqn:Hk; [|done]. intros [-> ->]%stepped_inj. by apply refresh_next_moves.
  - intros [-> ->]%stepped_inj. apply settings_moves.
  - destruct (p_conns p !! i) as [c|] eqn:Hi; [|done]. destruct (cn_todo c) as [|e todo] eqn:Ht; [done|].
    by apply settle_moves.
  - destruct (p_conns p !! i) as [[ip t [|]]|] eqn:Hi; cbn; try done.
    destruct t as [| |s [|]|s [|]|]; try done; intros [-> ->]%stepped_inj;
      (eapply pm_task; [exact Hi|constructor|done..|done|]; apply kept; try done; by rewrite partial_alter_self).
  - destruct (p_conns p !! i) as [[ip t [|]]|] eqn:Hi; cbn; try done. destruct t; try done.
    intros [-> ->]%stepped_inj. by eapply pm_gone.
  - destruct (_ <=? _); [|done]. cbn. intros [-> ->]%stepped_inj. apply pm_calm; [done|done|right; by eauto|done|left; by apply kept].
  - intros [-> ->]%stepped_inj. apply ticks_moves, flush_states.
  - intros [-> ->]%stepped_inj. apply ticks_moves. unfold hashrate_tick, record_hashrate_snapshot, persist_round_state, on_store.
    by repeat case_match.
  - intros [-> ->]%stepped_inj. apply ticks_moves. destruct poll as [[h d]|]; [|done]. by destruct h, d.
Qed.

(** ** The ban list *)

(** The bans among the observations. *)
Definition ban_log obs : list (Ip * Z) := omap (fun o => match o with NowBanned ip t => Some (ip, t) | _ => None end) obs.
Lemma ban_log_app obs obs' : ban_log (obs ++ obs') = ban_log obs ++ ban_log obs'.
Proof. apply omap_app. Qed.
Lemma elem_of_ban_log obs ip t : (ip, t) ∈ ban_log obs <-> NowBanned ip t ∈ obs.
Proof.
  unfold ban_log. rewrite list_elem_of_omap. split; [|intros H; by exists (NowBanned ip t)].
  intros ([]&Ho&[=->->]). done.
Qed.
(** What a run keeps of the ban list, whose duration and size are fixed. *)
Record bans_ok (dur : Z) (max : nat) (p : Pool Ip) (log : list (Ip * Z)) : Prop := {
  bo_duration : ban_duration (p_bans p) = dur;
  bo_max : ban_max_entries (p_bans p) = max;
  bo_inv : bans_inv (p_bans p) log (p_clock p);
}.
(** Whoever is let in was not banned within the duration, or was crowded out. *)
Definition lets_in_fairly (dur : Z) (max : nat) (log : list (Ip * Z)) obs : Prop :=
  forall l1 l2 ip t t0, obs = l1 ++ LetIn ip t :: l2 -> (ip, t0) ∈ log ++ ban_log l1 ->
  t0 + dur <= t \/ crowded max (log ++ ban_log l1) ip t0.

Lemma is_banned_params (b : BanList Ip) ip n1 n2 :
  ban_duration (is_banned b ip n1 n2).1 = ban_duration b /\ ban_max_entries (is_banned b ip n1 n2).1 = ban_max_entries b.
Proof. unfold is_banned. repeat case_match; done. Qed.
Lemma no_let_in obs : (forall ip t, LetIn ip t ∉ obs) -> forall dur max log, lets_in_fairly dur max log obs.
Proof. intros H dur max log l1 l2 ip t t0 ->. exfalso. apply (H ip t), elem_of_app. right. by left. Qed.
Lemma singleton_split {A} (x y : A) l1 l2 : [x] = l1 ++ y :: l2 -> l1 = [] /\ y = x.
Proof. destruct l1 as [|z l1]; [by intros [= -> <-]|]. intros [= _ H]. by destruct l1. Qed.
Lemma in_order_spec p b1 b2 : in_order p b1 b2 = true -> p_clock p <= b1 /\ b1 <= b2.
Proof. intros [H1 H2]%andb_true_iff. lia. Qed.
(** A check of the ban list, whatever comes of it. *)
Lemma checked_bans dur max p log ip b1 b2 :
  in_order p b1 b2 = true -> bans_ok dur max p log ->
  ban_duration (is_banned (p_bans p) ip b1 b2).1 = dur /\ ban_max_entries (is_banned (p_bans p) ip b1 b2).1 = max /\
  bans_inv (is_banned (p_bans p) ip b1 b2).1 log b2 /\
  ((is_banned (p_bans p) ip b1 b2).2 = false -> lets_in_fairly dur max log [LetIn ip b1]).
Proof.
  intros [H1 H2]%in_order_spec [Hd Hm Hi]. destruct (is_banned_params (p_bans p) ip b1 b2) as [-> ->].
  split; [done|]. split; [done|]. split; [by eapply is_banned_inv|]. intros Hf l1 l2 x t t0 [-> Heq]%singleton_split.
  assert (x = ip) as -> by congruence. assert (t = b1) as -> by congruence. cbn. rewrite app_nil_r. intros Hlog.
  rewrite <- Hd, <- Hm. by apply (is_banned_admits _ _ (p_clock p) _ _ b2).
Qed.
Lemma accept_bans dur max p log i ip b1 b2 r1 r2 r3 obs p' :
  in_order p b1 b2 = true -> bans_ok dur max p log -> pool_accept cfg p i ip b1 b2 r1 r2 r3 = (obs, p') ->
  p_clock p <= p_clock p' /\ bans_ok dur max p' (log ++ ban_log obs) /\ lets_in_fairly dur max log obs.
Proof.
  intros Ho Hb. destruct (in_order_spec _ _ _ Ho). destruct (checked_bans dur max p log ip b1 b2 Ho Hb) as (Hd & Hm & Hi & Hf).
  unfold pool_accept, admission. cbv zeta. destruct (_ <? _); cbn [negb].
  - destruct (is_banned (p_bans p) ip b1 b2) as [bans banned]. cbn [fst snd] in *. destruct banned.
    + intros [= <- <-]. cbn. rewrite app_nil_r. split; [lia|]. split; [done|]. apply no_let_in.
      intros x t [=]%list_elem_of_singleton.
    + destruct (check_and_record _ _ _ _ _) as [lim allowed]. destruct allowed; intros [= <- <-]; cbn; rewrite app_nil_r;
        (split; [lia|]); (split; [done|]); [by apply Hf|]. apply no_let_in. intros x t [=]%list_elem_of_singleton.
  - intros [= <- <-]. cbn. rewrite app_nil_r. destruct Hb as [Hd' Hm' Hi']. split; [lia|]. split.
    + split; cbn; try done. eapply bans_inv_later; [|exact Hi']. cbn. lia.
    + apply no_let_in. intros x t [=]%list_elem_of_singleton.
Qed.
Lemma first_byte_bans dur max p log i ip pk b1 b2 random n1 n2 n3 n4 obs p' :
  in_order p b1 b2 = true -> bans_ok dur max p log ->
  pool_first_byte cfg p i ip pk b1 b2 random n1 n2 n3 n4 = (obs, p') ->
  p_clock p <= p_clock p' /\ bans_ok dur max p' (log ++ ban_log obs) /\ lets_in_fairly dur max log obs.
Proof.
  intros Ho Hb. destruct (in_order_spec _ _ _ Ho). destruct (checked_bans dur max p log ip b1 b2 Ho Hb) as (Hd & Hm & Hi & Hf).
  assert (forall log, lets_in_fairly dur max log []) as Hnone by (intros l; apply no_let_in; intros x t; apply not_elem_of_nil).
  unfold pool_first_byte. destruct (detect _ _).
  3-4: intros [= <- <-]; cbn; rewrite app_nil_r; (split; [lia|]); (split; [|done]); destruct Hb; by split.
  - destruct (is_banned (p_bans p) ip b1 b2) as [bans banned]. cbn [fst snd] in *. cbv zeta.
    assert (banned = false \/ (session_start banned cfg (extranonce_counter (p_counters p)) random (p_engine p) n1 n2 n3 n4).2 = None)
      as Hcase by (destruct banned; [by right|by left]).
    destruct (session_start _ _ _ _ _ _ _ _ _) as [cn [[s effs]|]]; cbn [snd] in Hcase.
    + intros [<- <-]%pair_equal_spec. destruct Hcase as [->|]; [|done]. cbn. rewrite app_nil_r.
      split; [lia|]. split; [done|by apply Hf].
    + intros [<- <-]%pair_equal_spec. cbn. rewrite app_nil_r. split; [lia|]. by split.
  - destruct (is_banned (p_bans p) ip b1 b2) as [bans banned]. cbn [fst snd] in *. cbv zeta.
    destruct banned; intros [= <- <-]; cbn; rewrite app_nil_r; (split; [lia|]); (split; [done|]); [done|by apply Hf].
Qed.
Lemma calm_bans dur max p log obs p' :
  p_bans p' = p_bans p -> p_clock p' = p_clock p -> ban_log obs = [] -> (forall ip t, LetIn ip t ∉ obs) ->
  bans_ok dur max p log ->
  p_clock p <= p_clock p' /\ bans_ok dur max p' (log ++ ban_log obs) /\ lets_in_fairly dur max log obs.
Proof.
  intros Hb Hc Hl Hn [Hd Hm Hi]. rewrite Hl, app_nil_r, Hc. split; [lia|]. split; [split; by rewrite Hb, ?Hc|].
  by apply no_let_in.
Qed.
Lemma settle_bans dur max p log i c e todo env b1 b2 obs p' :
  bans_ok dur max p log -> pool_settle p i c e todo env b1 b2 = Some (obs, p') ->
  p_clock p <= p_clock p' /\ bans_ok dur max p' (log ++ ban_log obs) /\ lets_in_fairly dur max log obs.
Proof.
  intros Hb. assert (forall ip t, @LetIn Ip ip t ∉ []) as Hnil by (intros ip t; apply not_elem_of_nil).
  unfold pool_settle. cbv zeta. destruct e; try (intros [-> ->]%stepped_inj; by apply calm_bans).
  destruct (in_order p b1 b2) eqn:Ho; [|done]. apply in_order_spec in Ho as [H1 H2]. destruct Hb as [Hd Hm Hi].
  assert (forall obs q, p_bans q = p_bans p -> p_clock q = b2 -> ban_log obs = [] -> (forall ip t, LetIn ip t ∉ obs) ->
    p_clock p <= p_clock q /\ bans_ok dur max q (log ++ ban_log obs) /\ lets_in_fairly dur max log obs) as Hsame.
  { intros o q Hqb Hqc Hl Hn. rewrite Hl, app_nil_r, Hqc. split; [lia|]. split; [|by apply no_let_in].
    split; rewrite ?Hqb, ?Hqc; try done. eapply bans_inv_later; [|exact Hi]. lia. }
  destruct (ban (p_bans p) (cn_ip c) b1 b2) as [bans|] eqn:Eb.
  - intros [-> ->]%stepped_inj. destruct (ban_inv _ log _ _ _ _ _ H1 H2 Hi Eb) as (Hd' & Hm' & Hi').
    cbn. split; [lia|]. split; [split; cbn; congruence || done|]. apply no_let_in. intros x t [=]%list_elem_of_singleton.
  - assert (forall ip t, LetIn ip t ∉ [Panicked (Ip := Ip) i]) as Hp by (intros ip t [=]%list_elem_of_singleton).
    destruct (cn_task c) as [| |s go|s [|]|]; intros [-> ->]%stepped_inj; by apply Hsame.
Qed.
(** A turn of a session leaves the ban list alone. *)
Lemma sv1_turn_bans dur max p q i rx ip s env e log obs p' :
  one_receiver p i rx q -> bans_ok dur max p log -> pool_sv1_turn from_str q i ip s env e = Some (obs, p') ->
  p_clock p <= p_clock p' /\ bans_ok dur max p' (log ++ ban_log obs) /\ lets_in_fairly dur max log obs.
Proof.
  intros Ho Hb. unfold pool_sv1_turn, panicked.
  assert (forall j (ip : Ip) (t : Z), LetIn ip t ∉ [Panicked (Ip := Ip) j]) as Hp by (intros j ip' t [=]%list_elem_of_singleton).
  assert (forall ip t, @LetIn Ip ip t ∉ []) as Hnil by (intros ip' t; apply not_elem_of_nil).
  destruct (session_step _ _ _ _) as [[[[s' effs] msgs] go]|]; intros [-> ->]%stepped_inj;
    (apply calm_bans; [exact (or_bans _ _ _ _ Ho)|exact (or_clock _ _ _ _ Ho)|done..]).
Qed.
Lemma sv2_turn_bans dur max p q i rx ip s env e log obs p' :
  one_receiver p i rx q -> bans_ok dur max p log ->
  pool_sv2_turn error_text hex_flags q i ip s env e = Some (obs, p') ->
  p_clock p <= p_clock p' /\ bans_ok dur max p' (log ++ ban_log obs) /\ lets_in_fairly dur max log obs.
Proof.
  intros Ho Hb. unfold pool_sv2_turn, panicked.
  assert (forall j (ip : Ip) (t : Z), LetIn ip t ∉ [Panicked (Ip := Ip) j]) as Hp by (intros j ip' t [=]%list_elem_of_singleton).
  assert (forall ip t, @LetIn Ip ip t ∉ []) as Hnil by (intros ip' t; apply not_elem_of_nil).
  destruct (sv2_step _ _ _ _ _ _) as [[[[[g' s'] effs] msgs] go]|]; intros [-> ->]%stepped_inj;
    (apply calm_bans; [exact (or_bans _ _ _ _ Ho)|exact (or_clock _ _ _ _ Ho)|done..]).
Qed.
Lemma pool_step_bans dur max p log e obs p' :
  bans_ok dur max p log -> pool_step p e = Some (obs, p') ->
  p_clock p <= p_clock p' /\ bans_ok dur max p' (log ++ ban_log obs) /\ lets_in_fairly dur max log obs.
Proof.
  intros Hb. assert (forall ip t, @LetIn Ip ip t ∉ []) as Hnil by (intros ip t; apply not_elem_of_nil).
  assert (forall i (ip : Ip) (t : Z), LetIn ip t ∉ [Panicked (Ip := Ip) i]) as Hp by (intros i ip t [=]%list_elem_of_singleton).
  destruct e as [i ip b1 b2 r1 r2 r3|i pk b1 b2 random n1 n2 n3 n4|i ok n1 n2 n3 n4|i env e|i env e|i env w|i env
    |k gbt clean|k now|address io|i env b1 b2|i now1 now2|i|b r now io|now a b|ts io|poll]; cbn [Pool.pool_step].
  - destruct (in_order p b1 b2) eqn:E; [|done]. destruct (bool_decide _); [|done]. intros [= H]. by eapply accept_bans.
  - destruct (p_conns p !! i) as [[ip t [|]]|] eqn:Hi; cbn; try done. destruct t; try done.
    destruct (in_order _ _ _) eqn:E; [|done]. intros [= H]. by eapply first_byte_bans.
  - destruct (p_conns p !! i) as [[ip t [|]]|] eqn:Hi; cbn; try done. destruct t; try done.
    intros [-> ->]%stepped_inj. unfold pool_handshake. destruct (sv2_start _ _ _ _ _ _ _ _ _) as [g [[s effs]|]]; by apply calm_bans.
  - destruct (p_conns p !! i) as [[ip t [|]]|] eqn:Hi; cbn; try done. destruct t as [| |s [|]| |]; try done.
    destruct (sv1_job_event e); [done|]. eapply sv1_turn_bans; [apply (no_receiver p i)|done].
  - destruct (p_conns p !! i) as [[ip t [|]]|] eqn:Hi; cbn; try done. destruct t as [| | |s [|]|]; try done.
    destruct (sv2_job_event e); [done|]. eapply sv2_turn_bans; [apply (no_receiver p i)|done].
  - destruct (p_conns p !! i) as [[ip t [|]]|] eqn:Hi; cbn; try done. destruct t as [| |s [|]| |]; try done.
    unfold pool_sv1_job. destruct (receive p i) as [[got q]|] eqn:Er; [|done]. apply receive_spec in Er as (rx & _ & Ho).
    by eapply sv1_turn_bans.
  - destruct (p_conns p !! i) as [[ip t [|]]|] eqn:Hi; cbn; try done. destruct t as [| | |s [|]|]; try done.
    unfold pool_sv2_job. destruct (receive p i) as [[got q]|] eqn:Er; [|done]. apply receive_spec in Er as (rx & _ & Ho).
    by eapply sv2_turn_bans.
  - destruct (p_refreshes p !! k); [done|]. intros [-> ->]%stepped_inj. unfold pool_refresh.
    destruct (refresh_job _ _ _ _) as [ids [job|why|]]; by apply calm_bans.
  - destruct (p_refreshes p !! k) as [[]|]; [..|done]; intros [-> ->]%stepped_inj; by apply calm_bans.
  - intros [-> ->]%stepped_inj. unfold pool_settings_post. destruct (change_address _ _ _ _) as [[settings stats] r].
    by apply calm_bans.
  - destruct (p_conns p !! i) as [c|] eqn:Hi; [|done]. destruct (cn_todo c) as [|e todo] eqn:Ht; [done|]. by apply settle_bans.
  - destruct (p_conns p !! i) as [[ip t [|]]|] eqn:Hi; cbn; try done.
    destruct t as [| |s [|]|s [|]|]; try done; intros [-> ->]%stepped_inj; by apply calm_bans.
  - destruct (p_conns p !! i) as [[ip t [|]]|] eqn:Hi; cbn; try done. destruct t; try done.
    intros [-> ->]%stepped_inj. by apply calm_bans.
  - destruct (Z.leb_spec (p_clock p) b); [|done]. unfold prune_tick. intros [-> ->]%stepped_inj. cbn. rewrite app_nil_r.
    split; [lia|]. split; [|by apply no_let_in]. destruct Hb as [Hd Hm Hi]. split; cbn; try done.
    apply ban_prune_inv. by eapply bans_inv_later; [|exact Hi].
  - intros [-> ->]%stepped_inj. by apply calm_bans.
  - intros [-> ->]%stepped_inj. by apply calm_bans.
  - intros [-> ->]%stepped_inj. by apply calm_bans.
Qed.

(** ** Runs *)

(** Induction over a run, with the observations and the number of steps made so far. *)
Lemma pool_run_ind (P : nat -> list (pool_obs Ip) -> Pool Ip -> Prop) l :
  (forall k obs p e obs' p', P k obs p -> pool_step p e = Some (obs', p') -> P (S k) (obs ++ obs') p') ->
  forall k obs p obs' p', P k obs p -> pool_run p l = Some (obs', p') -> P (k + length l)%nat (obs ++ obs') p'.
Proof.
  intros Hstep. induction l as [|e l IH]; intros k obs p obs' p' Hp; cbn [Pool.pool_run].
  - intros [-> ->]%stepped_inj. by rewrite app_nil_r, Nat.add_0_r.
  - destruct (pool_step p e) as [[obs1 p1]|] eqn:E; [|done]. cbn [mbind option_bind].
    destruct (pool_run p1 l) as [[obs2 p2]|] eqn:E2; [|done]. cbn [mbind option_bind].
    intros [-> ->]%stepped_inj. cbn [length]. rewrite <- Nat.add_succ_comm, app_assoc. by eapply IH; [eapply Hstep|].
Qed.
Lemma lets_in_fairly_app dur max log obs obs' :
  lets_in_fairly dur max log obs -> lets_in_fairly dur max (log ++ ban_log obs) obs' ->
  lets_in_fairly dur max log (obs ++ obs').
Proof.
  intros H1 H2 l1 l2 ip t t0 Heq. apply app_eq_inv in Heq as [(m & -> & Hm)|(m & -> & Hm)].
  - destruct m as [|x m]; cbn in Hm.
    + specialize (H2 [] l2 ip t t0). cbn in H2. rewrite !app_nil_r in *. by apply H2.
    + injection Hm as <- _. by apply (H1 l1 m ip t).
  - rewrite ban_log_app, app_assoc. by apply (H2 m l2 ip t).
Qed.
Lemma bans_ok_init sh now :
  bans_ok (from_secs (ban_duration_secs (security cfg))) MAX_TRACKED_IPS (pool_init cfg sh now) [].
Proof.
  split; [reflexivity|reflexivity|]. split; cbn [pool_init p_bans banlist_new ban_entries ban_max_entries].
  - intros ip u. by rewrite lookup_empty.
  - intros ip t H. by apply not_elem_of_nil in H.
  - intros ip t H. by apply not_elem_of_nil in H.
Qed.
Lemma pool_run_bans sh now l obs p :
  pool_run (pool_init cfg sh now) l = Some (obs, p) ->
  now <= p_clock p /\
  bans_ok (from_secs (ban_duration_secs (security cfg))) MAX_TRACKED_IPS p (ban_log obs) /\
  lets_in_fairly (from_secs (ban_duration_secs (security cfg))) MAX_TRACKED_IPS [] obs.
Proof.
  intros Hrun.
  apply (pool_run_ind (fun _ obs p => now <= p_clock p /\
    bans_ok (from_secs (ban_duration_secs (security cfg))) MAX_TRACKED_IPS p (ban_log obs) /\
    lets_in_fairly (from_secs (ban_duration_secs (security cfg))) MAX_TRACKED_IPS [] obs)
    l) with (k := O) (obs := []) in Hrun; [exact Hrun| |].
  - intros _ o q e o' q' (Hc & Hb & Hf) Hs. destruct (pool_step_bans _ _ _ _ _ _ _ Hb Hs) as (Hc' & Hb' & Hf').
    rewrite ban_log_app. split; [lia|]. split; [done|]. by apply lets_in_fairly_app.
  - split; [apply Z.le_refl|]. split; [|apply no_let_in; intros ip t; apply not_elem_of_nil].
    apply bans_ok_init.
Qed.

(** ** The sessions *)

Section sessions.
Context {HIL : DashIterLaws} (Hfs : forall line, from_str line ≠ Panic) (Hcf : Config.validate cfg = Ok tt)
  (Hu : extranonces_u64 cfg) (Hf : valid_binary prec emax (max_retarget_factor (vardiff cfg)) = true) (Hdec : decodes_ok).
Abbreviation total := (extranonce1_size (pool cfg) + extranonce2_size (pool cfg)).

Definition task_ok (t : task) : Prop :=
  match t with
  | Sv1Task s _ => session_inv (vardiff cfg) (initial_difficulty (pool cfg)) (s_extranonce1 s) (extranonce2_size (pool cfg)) s
  | Sv2Task s _ => sv2_inv (vardiff cfg) (initial_difficulty (pool cfg)) total s
  | _ => True
  end.
Lemma total_positive : 1 <= total.
Proof. pose proof (validate_extranonces cfg Hcf Hu) as [He _]. destruct Hu. lia. Qed.
Lemma sv1_start_spec counter random engine n1 n2 n3 n4 counter' s effs :
  session_start false cfg counter random engine n1 n2 n3 n4 = (counter', Some (s, effs)) ->
  counter' = wrap 64 (counter + 1) /\ s_extranonce1 s = (generate_extranonce1 counter (extranonce1_size (pool cfg))).2 /\
  s_worker s = None /\ effs = [MinerConnected] /\ task_ok (Sv1Task s true).
Proof.
  unfold session_start. destruct (generate_extranonce1 counter (extranonce1_size (pool cfg))) as [cn en1] eqn:E.
  assert (cn = wrap 64 (counter + 1)) as -> by exact (eq_sym (f_equal fst E)).
  pose proof (session_new_inv (vardiff cfg) (initial_difficulty (pool cfg)) en1 (extranonce2_size (pool cfg)) cfg en1 random
    n1 n2 n3 n4 eq_refl eq_refl eq_refl eq_refl) as Hi.
  assert (s_extranonce1 (session_new cfg en1 random n1 n2 n3 n4) = en1) as He by done.
  assert (s_worker (session_new cfg en1 random n1 n2 n3 n4) = None) as Hw by done.
  set (s0 := session_new cfg en1 random n1 n2 n3 n4) in *. clearbody s0. intros H.
  assert (counter' = wrap 64 (counter + 1) /\ s = (match current_job engine with Some j => with_job s0 (Some j) | None => s0 end)
    /\ effs = [MinerConnected]) as (-> & -> & ->) by (repeat split; congruence).
  split; [done|]. split; [by destruct (current_job engine)|]. split; [by destruct (current_job engine)|]. split; [done|].
  cbn [task_ok]. destruct Hi as [I1 I2 I3 I4 I5 [I6 I7]]. destruct (current_job engine); split; cbn; try done; by split.
Qed.
Lemma task_move_ok engine g t rx g' t' rx' todo :
  task_move engine g t rx g' t' rx' todo -> task_ok t ->
  task_ok t' /\ holder_run (task_worker t) todo = Some (task_worker t').
Proof.
  pose proof (validate_vardiff_section cfg Hcf) as Hvd.
  destruct 1 as [g rx random n1 n2 n3 n4 cn s effs Hs|g rx|g rx n1 n2 n3 n4 g' s effs Hs
    |g s rx env e s' effs msgs go rx' Hs _ _|g s rx env e g' s' effs msgs go rx' Hs _ _|g s rx now1 now2|g s rx now1 now2]; cbn [task_ok task_worker]; intros Hok.
  - apply sv1_start_spec in Hs as (_ & _ & -> & -> & Hi). by split.
  - done.
  - pose proof Hs as Hs'. apply (sv2_start_inv cfg Hu) in Hs as (Hi & _). split; [done|].
    unfold sv2_start in Hs'. cbn [orb negb] in Hs'. destruct (generate_extranonce1 _ _).
    assert (effs = [MinerConnected] /\ v_worker s = None) as [-> ->] by (split; [congruence|]; by injection Hs' as _ <- _). done.
  - destruct (session_step_inv from_str _ _ _ _ Hfs Hvd Hf s env e Hok) as (s1 & effs1 & msgs1 & go1 & Hs1 & Hi).
    assert (s1 = s') as -> by congruence. split; [|by eapply session_step_holds].
    by rewrite (proj1 (inv_extranonce _ _ _ _ _ Hi)).
  - destruct (sv2_step_inv error_text hex_flags _ _ total total_positive Hdec Hvd Hf g s env e Hok)
      as (g1 & s1 & effs1 & msgs1 & go1 & Hs1 & Hi).
    assert (s1 = s') as -> by congruence. split; [done|by eapply sv2_step_holds].
  - split; [done|apply session_close_holds].
  - split; [done|apply sv2_close_holds].
Qed.

Definition tasks_ok (p : Pool Ip) : Prop := forall i c, p_conns p !! i = Some c -> task_ok (cn_task c).
(** Each worker's entry counts the sessions whose effects put it online. *)
Definition pool_tracked (p : Pool Ip) (H : gmap nat string) : Prop :=
  tracked (p_stats p) H /\
  forall i, match p_conns p !! i with
            | Some c => holder_run (H !! i) (cn_todo c) = Some (task_worker (cn_task c))
            | None => H !! i = None
            end.
Record pool_inv obs (p : Pool Ip) : Prop := {
  pi_tasks : tasks_ok p;
  pi_calm : forall i, Panicked i ∉ obs;
  pi_slots : Z.of_nat (size (p_conns p)) <= max_connections (pool cfg);
  pi_tracked : exists H, pool_tracked p H;
}.
Lemma pool_tracked_size p H : pool_tracked p H -> (size H <= size (p_conns p))%nat.
Proof.
  intros [_ Hh]. rewrite <- !(size_dom (D := gset nat)). apply subseteq_size. intros i. rewrite !elem_of_dom.
  intros [w Hw]. specialize (Hh i). destruct (p_conns p !! i); [done|congruence].
Qed.
(** One connection changes, the statistics do not. *)
Lemma tracked_put p p' H i c' :
  pool_tracked p H -> p_stats p' = p_stats p -> p_conns p' = <[i := c']> (p_conns p) ->
  holder_run (H !! i) (cn_todo c') = Some (task_worker (cn_task c')) -> pool_tracked p' H.
Proof.
  intros [Ht Hh] Hs Hc Hi. split; [by rewrite Hs|]. intros j. rewrite Hc. destruct (decide (j = i)) as [->|Hj].
  - by rewrite lookup_insert_eq.
  - rewrite lookup_insert_ne by done. apply Hh.
Qed.
Lemma at_rest p H i ip t : pool_tracked p H -> p_conns p !! i = Some {| cn_ip := ip; cn_task := t; cn_todo := [] |} -> H !! i = task_worker t.
Proof. intros [_ Hh] Hi. specialize (Hh i). rewrite Hi in Hh. cbn in Hh. by injection Hh. Qed.
Lemma tracked_drop p p' H i :
  pool_tracked p H -> p_stats p' = p_stats p -> p_conns p' = delete i (p_conns p) -> H !! i = None -> pool_tracked p' H.
Proof.
  intros [Ht Hh] Hs Hc Hi. split; [by rewrite Hs|]. intros j. rewrite Hc. destruct (decide (j = i)) as [->|Hj].
  - by rewrite lookup_delete_eq.
  - rewrite lookup_delete_ne by done. apply Hh.
Qed.
(** An effect arrives. *)
Lemma tracked_settle p p' H i c e todo env :
  pool_tracked p H -> Z.of_nat (size (p_conns p)) < umax 64 -> p_conns p !! i = Some c -> cn_todo c = e :: todo ->
  p_conns p' = <[i := {| cn_ip := cn_ip c; cn_task := cn_task c; cn_todo := todo |}]> (p_conns p) ->
  p_stats p' = apply_effect (p_stats p) (env, e) -> exists H', pool_tracked p' H'.
Proof.
  intros HH Hsz Hi Ht Hc Hs. pose proof (pool_tracked_size p H HH) as Hle. destruct HH as [Htr Hh].
  pose proof (Hh i) as Hhi. rewrite Hi, Ht in Hhi. cbn [holder_run] in Hhi.
  destruct (holder_step (H !! i) e) as [h|] eqn:Hst; [|done]. cbn [mbind option_bind] in Hhi.
  exists (partial_alter (fun _ => h) i H). split.
  - rewrite Hs. apply apply_effect_tracked; [done|lia|done].
  - intros j. rewrite Hc. destruct (decide (j = i)) as [->|Hj].
    + by rewrite lookup_insert_eq, lookup_partial_alter_eq.
    + rewrite lookup_insert_ne, lookup_partial_alter_ne by done. apply Hh.
Qed.
Lemma calm_task_panic p p' t todo :
  task_ok t -> task_panic p p' t todo -> INSTANT_END <= p_clock p' + ban_duration (p_bans p).
Proof.
  pose proof (validate_vardiff_section cfg Hcf) as Hvd. intros Hok Hp. destruct Hp as [s env e Hs|s env e Hs|t reason todo Hb]; [| |done].
  - destruct (session_step_inv from_str _ _ _ _ Hfs Hvd Hf s env e Hok) as (s1 & effs & msgs & go & Hs1 & _). congruence.
  - destruct (sv2_step_inv error_text hex_flags _ _ total total_positive Hdec Hvd Hf (p_counters p) s env e Hok)
      as (g1 & s1 & effs & msgs & go & Hs1 & _). congruence.
Qed.
Lemma calm_app obs obs' : (forall i, @Panicked Ip i ∉ obs) -> (forall i, @Panicked Ip i ∉ obs') -> forall i, Panicked i ∉ obs ++ obs'.
Proof. intros H1 H2 i. rewrite elem_of_app. intros [Hi|Hi]; [by apply (H1 i)|by apply (H2 i)]. Qed.
Lemma pool_move_tasks p obs p' : tasks_ok p -> pool_move p obs p' -> tasks_ok p'.
Proof.
  intros Hok Hm j c'. destruct Hm as [i ip t p' Hi Hfree Hc Hg Hs _|i ip t t' rx' todo obs p' Hi Hmv Hc Hs Hq _|i ip t p' Hi Hw Hc Hg Hs _
    |i c e todo env obs p' Hi Ht Hc Hg Hs Hq _|i c p' Hi Hp Hc Hg Hs _|obs p' Hc Hg Hs Hq _]; rewrite Hc.
  - intros [[<- <-]|[_ Hj]]%lookup_insert_Some; [exact I|by eapply Hok].
  - intros [[<- <-]|[_ Hj]]%lookup_insert_Some; [|by eapply Hok]. by eapply task_move_ok, (Hok _ _ Hi).
  - intros [_ Hj]%lookup_delete_Some. by eapply Hok.
  - intros [[<- <-]|[_ Hj]]%lookup_insert_Some; [exact (Hok _ _ Hi)|by eapply Hok].
  - intros [_ Hj]%lookup_delete_Some. by eapply Hok.
  - apply Hok.
Qed.
Lemma pool_move_inv obs p obs' p' :
  max_connections (pool cfg) < umax 64 -> p_clock p' + ban_duration (p_bans p) < INSTANT_END ->
  pool_inv obs p -> pool_move p obs' p' -> pool_inv (obs ++ obs') p'.
Proof.
  intros Hmax Hend [Hok Hcalm Hsl [H HH]] Hm. pose proof HH as [Htr Hh]. pose proof (pool_move_tasks _ _ _ Hok Hm) as Hok'.
  destruct Hm as [i ip t p' Hi Hfree Hc Hg Hs _|i ip t t' rx' todo obs' p' Hi Hmv Hc Hs Hq _|i ip t p' Hi Hw Hc Hg Hs _
    |i c e todo env obs' p' Hi Ht Hc Hg Hs Hq _|i c p' Hi Hp Hc Hg Hs _|obs' p' Hc Hg Hs Hq _].
  - split; [done|apply calm_app; [done|intros j; by apply calm_one]| |].
    + rewrite Hc, map_size_insert_None by done. lia.
    + exists H. eapply tracked_put; [exact HH|exact Hs|exact Hc|]. specialize (Hh i). rewrite Hi in Hh. by rewrite Hh.
  - split; [done|by apply calm_app| |].
    + rewrite Hc, map_size_insert_Some by eauto. done.
    + exists H. eapply tracked_put; [exact HH|exact Hs|exact Hc|]. rewrite (at_rest _ _ _ _ _ HH Hi).
      by apply (task_move_ok _ _ _ _ _ _ _ _ Hmv), (Hok _ _ Hi).
  - split; [done|apply calm_app; [done|apply calm_nil]| |].
    + rewrite Hc, map_size_delete_Some by eauto. lia.
    + exists H. eapply tracked_drop; [exact HH|exact Hs|exact Hc|]. by rewrite (at_rest _ _ _ _ _ HH Hi).
  - split; [done|by apply calm_app| |].
    + rewrite Hc, map_size_insert_Some by eauto. done.
    + eapply tracked_settle; [exact HH|lia|exact Hi|exact Ht|exact Hc|exact Hs].
  - pose proof (calm_task_panic p p' _ _ (Hok _ _ Hi) Hp). lia.
  - split; [done|by apply calm_app|by rewrite Hc|]. exists H. split; [|intros j; rewrite Hc; apply Hh].
    destruct Hs as [Hs|(now & io & ->)]; [|apply prune_tracked; exact Htr].
    eapply tracked_same; [by apply same_states|done].
Qed.
Lemma pool_run_inv sh now l obs p :
  0 <= max_connections (pool cfg) < umax 64 -> ps_worker_states (sh_stats sh) = ∅ ->
  pool_run (pool_init cfg sh now) l = Some (obs, p) ->
  p_clock p + from_secs (ban_duration_secs (security cfg)) < INSTANT_END -> pool_inv obs p.
Proof.
  intros Hmax Hst Hrun. set (dur := from_secs _).
  apply (pool_run_ind (fun _ obs p => bans_ok dur MAX_TRACKED_IPS p (ban_log obs) /\
    (p_clock p + dur < INSTANT_END -> pool_inv obs p)) l) with (k := O) (obs := []) in Hrun; [apply Hrun| |].
  - intros _ o q e o' q' [Hb Hi] Hs. destruct (pool_step_bans _ _ _ _ _ _ _ Hb Hs) as (Hclk & Hb' & _).
    rewrite ban_log_app. split; [done|]. intros Hend. eapply pool_move_inv; [lia| |apply Hi; lia|by eapply pool_step_moves].
    by rewrite (bo_duration _ _ _ _ Hb).
  - split; [apply bans_ok_init|]. intros _. split; cbn [pool_init p_conns p_stats].
    + intros i c. cbn [pool_init p_conns]. by rewrite lookup_empty.
    + apply calm_nil.
    + rewrite map_size_empty. lia.
    + exists ∅. split; [|intros i; cbn [pool_init p_conns]; by rewrite !lookup_empty].
      intros w. cbn [pool_init p_stats]. rewrite Hst, lookup_empty. unfold sessions_of.
      by rewrite map_filter_empty, map_size_empty.
Qed.
(** With no effect on its way, the sessions that are online are those that
    have the worker. *)
Lemma rested_sessions p H w :
  pool_tracked p H -> (forall i c, p_conns p !! i = Some c -> cn_todo c = []) ->
  sessions_of H w = Z.of_nat (size (filter (fun ic : nat * conn Ip => task_worker (cn_task ic.2) = Some w) (p_conns p))).
Proof.
  intros [_ Hh] Hrest. unfold sessions_of. f_equal. rewrite <- !(size_dom (D := gset nat)). f_equal. apply set_eq. intros i.
  rewrite !elem_of_dom. specialize (Hh i). split; intros [x Hx]; apply map_lookup_filter_Some in Hx as [Hi Hw]; cbn in Hw.
  - destruct (p_conns p !! i) as [c|] eqn:Hc; [|congruence]. rewrite (Hrest i c Hc) in Hh. cbn in Hh.
    exists c. apply map_lookup_filter_Some. cbn. split; [done|]. assert (task_worker (cn_task c) = H !! i) as -> by congruence.
    by rewrite Hi, Hw.
  - rewrite Hi, (Hrest i x Hi) in Hh. cbn in Hh. exists w. apply map_lookup_filter_Some. cbn. split; [|done]. congruence.
Qed.
End sessions.

(** ** The extranonce counter *)

Definition drawn (g : Counters) (size : Z) : list byte := (generate_extranonce1 (extranonce_counter g) size).2.
(** A turn draws one prefix or none. *)
Definition draws (g : Counters) (pre : list byte) (g' : Counters) (pre' : list byte) : Prop :=
  (extranonce_counter g' = extranonce_counter g /\ pre' = pre) \/
  (extranonce_counter g' = wrap 64 (extranonce_counter g + 1) /\ exists size, 0 <= size /\ pre' = drawn g size).
Implicit Types (s : Sv2Session) (g : Counters) (env : Sv2Env).
Lemma draws_none g pre : draws g pre g pre.
Proof. by left. Qed.
#[local] Hint Resolve draws_none : core.
Lemma announce_channel_prefix s env effs m :
  v_extranonce_prefix (r_session (announce_channel s env effs m)) = v_extranonce_prefix s.
Proof.
  unfold announce_channel. destruct (send env 0 m); [|done..]. cbv zeta.
  destruct (v_pending_job _) as [job|]; [|done].
  pose proof (send_job_fields (s <! v_channel_open := true !>) env 1 job true) as Hf.
  destruct (send_job _ env 1 job true) as [[s2 msgs] ok]. cbn [fst] in Hf. unfold inv_fields in Hf.
  assert (v_extranonce_prefix s2 = v_extranonce_prefix s) as Hp
    by (transitivity (v_extranonce_prefix (s <! v_channel_open := true !>)); [congruence|done]). by destruct ok.
Qed.
Lemma assign_channel_draws g s requested w g' s' :
  assign_channel g s requested w = Some (g', s') -> extranonce_counter g' = wrap 64 (extranonce_counter g + 1) /\
  exists size, 0 <= size /\ v_extranonce_prefix s' = drawn g size.
Proof.
  unfold assign_channel. cbv zeta. destruct (Z.ltb_spec (v_extranonce_total s) (Z.max requested 1)); [done|]. unfold drawn.
  destruct (generate_extranonce1 _ _) as [cn prefix] eqn:E. intros Heq.
  assert (cn = wrap 64 (extranonce_counter g + 1)) as -> by exact (eq_sym (f_equal fst E)).
  assert (g' = {| extranonce_counter := wrap 64 (extranonce_counter g + 1); next_channel_id := wrap 32 (next_channel_id g + 1) |}
    /\ v_extranonce_prefix s' = prefix) as [-> ->] by (split; [congruence|by injection Heq as _ <-]).
  split; [done|]. exists (v_extranonce_total s - Z.max requested 1). split; [lia|by rewrite E].
Qed.
Lemma handle_open_draws g s env payload g' r :
  handle_open_extended g s env payload error_text = Some (g', r) ->
  draws g (v_extranonce_prefix s) g' (v_extranonce_prefix (r_session r)).
Proof.
  unfold handle_open_extended. intros H.
  assert (forall s1 msgs reason, v_extranonce_prefix s1 = v_extranonce_prefix s -> Some (g, quit s1 [] msgs reason) = Some (g', r) ->
    draws g (v_extranonce_prefix s) g' (v_extranonce_prefix (r_session r))) as Hq.
  { intros s1 msgs reason Hp Heq. assert (g' = g /\ r = quit s1 [] msgs reason) as [-> ->] by (split; congruence).
    cbn. by rewrite Hp. }
  destruct (negb _); [by apply Hq in H|].
  destruct (decode_open_extended payload) as [open|e|]; [|by apply Hq in H|done].
  destruct (check_worker_name _ _) as [u|e|]; [|by apply Hq in H|done].
  cbv zeta in H. destruct (_ <? _); [by injection H as <- <-|].
  set (new := negb (bool_decide (v_worker s = Some (user_identity open)))) in H. clearbody new.
  destruct (if new then let '(guard, ok) := record_new_authorization (v_guard s) in (s <! v_guard := guard !>, ok)
            else (s, true)) as [s1 ok] eqn:E1.
  assert (v_extranonce_prefix s1 = v_extranonce_prefix s) as Hp1
    by (destruct new; [destruct (record_new_authorization _)|]; by injection E1 as <- _).
  destruct ok; cbn [negb] in H; [|by apply Hq in H]. clear E1.
  destruct (if new then release_worker s1 _ else _) as [s2 gone].
  destruct (assign_channel g s2 _ _) as [[g2 s3]|] eqn:Ea; [|done]. cbn [mbind option_bind] in H.
  apply assign_channel_draws in Ea as [Hg Hp].
  assert (channel_fields (if new then adopt_identity s3 (v_env env) (user_identity open) else (s3, [])).1 = channel_fields s3)
    as Hc by (destruct new; [apply adopt_identity_spec|done]).
  destruct (if new then adopt_identity _ _ _ else _) as [s4 come]. cbn [fst] in Hc.
  apply stepped_inj in H as [-> ->]. right. rewrite announce_channel_prefix. split; [done|].
  assert (v_extranonce_prefix s4 = v_extranonce_prefix s3) as -> by (unfold channel_fields in Hc; congruence). exact Hp.
Qed.
Lemma sv2_step_draws g s env e g' s' effs msgs go :
  sv2_step error_text hex_flags g s env e = Some (g', s', effs, msgs, go) ->
  draws g (v_extranonce_prefix s) g' (v_extranonce_prefix s').
Proof.
  assert (forall s1, inv_fields s1 = inv_fields s -> v_extranonce_prefix s1 = v_extranonce_prefix s) as Hinv
    by (intros s1 H; unfold inv_fields in H; congruence).
  destruct e as [| | |ty p| |b| |]; cbn [sv2_step]; try (intros H; injection H as <- <- <- <- <-; done).
  - unfold on_inbound. destruct (check_message_size _ _); [|intros H; injection H as <- <- <- <- <-; done..].
    destruct (sv2_handle_message _ _ g s env ty p) as [[g1 r]|] eqn:Em; [|done]. cbn [mbind option_bind]. cbv zeta.
    assert (draws g (v_extranonce_prefix s) g1 (v_extranonce_prefix (r_session r))) as Hr.
    { unfold sv2_handle_message in Em. destruct (try_consume _ _ _) as [rate allowed]. cbv zeta in Em.
      set (s1 := s <! v_guard ::= _ !>) in Em. change (v_extranonce_prefix s) with (v_extranonce_prefix s1). clearbody s1.
      destruct (negb allowed); [by injection Em as <- <-|].
      destruct (_ =? _).
      { injection Em as <- <-. unfold handle_setup_connection. destruct (decode_setup_connection p) as [setup|e|]; [|done..].
        destruct (setup_protocol setup); [|done]. destruct (_ || _); [done|]. destruct (negb _); [done|]. by rewrite reply_session. }
      destruct (_ =? _); [by apply handle_open_draws in Em|].
      destruct (_ =? _); injection Em as <- <-; [|done].
      pose proof (sv2_handle_submit_fields s1 env p) as Hf. unfold inv_fields in Hf.
      assert (v_extranonce_prefix (r_session (sv2_handle_submit s1 env p)) = v_extranonce_prefix s1) as -> by congruence. done. }
    destruct (r_flow r); intros H; injection H as <- <- <- <- <-; exact Hr.
  - destruct (v_channel_open s); [|intros H; injection H as <- <- <- <- <-; done].
    unfold sv2_on_retarget. destruct (check_retarget _ _ _ _) as [[v [d|]]|]; cbn [mbind option_bind]; [| |done].
    + destruct (send env 0 _); intros H; injection H as <- <- <- <- <-; done.
    + intros H; injection H as <- <- <- <- <-. done.
  - unfold sv2_on_job. cbv zeta. set (s1 := if jb_clean b then _ else s).
    assert (v_extranonce_prefix s1 = v_extranonce_prefix s) as <- by (unfold s1; by destruct (jb_clean b)). clearbody s1.
    destruct (v_channel_open s1).
    + pose proof (send_job_fields s1 env 0 (jb_job b) (jb_clean b)) as Hf.
      destruct (send_job s1 _ _ _ _) as [[s2 ms] ok]. cbn [fst] in Hf. unfold inv_fields in Hf.
      assert (v_extranonce_prefix s2 = v_extranonce_prefix s1) as Hp by congruence.
      destruct ok; intros H; injection H as <- <- <- <- <-; left; by split.
    + intros H; injection H as <- <- <- <- <-. done.
Qed.

Section prefixes.
Context {HIL : DashIterLaws} (Hfs : forall line, from_str line ≠ Panic) (Hcf : Config.validate cfg = Ok tt)
  (Hu : extranonces_u64 cfg) (Hf : valid_binary prec emax (max_retarget_factor (vardiff cfg)) = true) (Hdec : decodes_ok).
Lemma task_move_draws engine g t rx g' t' rx' todo :
  task_move engine g t rx g' t' rx' todo -> task_ok t ->
  match task_prefix t' with
  | Some pre' => (extranonce_counter g' = extranonce_counter g /\ task_prefix t = Some pre') \/
      (extranonce_counter g' = wrap 64 (extranonce_counter g + 1) /\ exists size, 0 <= size /\ pre' = drawn g size)
  | None => extranonce_counter g' = extranonce_counter g
  end.
Proof.
  pose proof (validate_vardiff_section cfg Hcf) as Hvd. pose proof (proj1 (proj1 Hu)) as Hsize.
  destruct 1 as [g rx random n1 n2 n3 n4 cn s effs Hs|g rx|g rx n1 n2 n3 n4 g' s effs Hs
    |g s rx env e s' effs msgs go rx' Hs _ _|g s rx env e g' s' effs msgs go rx' Hs _ _|g s rx now1 now2|g s rx now1 now2]; cbn [task_ok task_prefix]; intros Hok; try done.
  - apply sv1_start_spec in Hs as (-> & -> & _). right. split; [done|]. by exists (extranonce1_size (pool cfg)).
  - unfold sv2_start in Hs. cbn [orb negb] in Hs. right. unfold drawn.
    destruct (generate_extranonce1 _ _) as [cn prefix] eqn:E. injection Hs as <- <- _. split; [exact (eq_sym (f_equal fst E))|].
    exists (extranonce1_size (pool cfg)). split; [done|]. by rewrite E.
  - left. split; [done|].
    destruct (session_step_inv from_str _ _ _ _ Hfs Hvd Hf s env e Hok) as (s1 & effs1 & msgs1 & go1 & Hs1 & Hi).
    assert (s1 = s') as -> by congruence. by rewrite (proj1 (inv_extranonce _ _ _ _ _ Hi)).
  - apply sv2_step_draws in Hs as [[H1 H2]|[H1 H2]]; [left; by rewrite H2|by right].
Qed.

(** Each session's prefix was drawn at a value of the counter no other
    session has; [d] prefixes were drawn so far. *)
Record fresh_prefixes (k : nat) (p : Pool Ip) (d : Z) (at_ : gmap nat Z) : Prop := {
  fp_drawn : 0 <= d <= Z.of_nat k;
  fp_counter : extranonce_counter (p_counters p) = wrap 64 (1 + d);
  fp_prefix : forall i c pre, p_conns p !! i = Some c -> task_prefix (cn_task c) = Some pre ->
    exists x size, at_ !! i = Some x /\ 0 <= size /\ pre = (generate_extranonce1 x size).2;
  fp_range : forall i x, at_ !! i = Some x -> 1 <= x <= d;
  fp_inj : forall i j x, at_ !! i = Some x -> at_ !! j = Some x -> i = j;
}.
(** Nothing is drawn, and every session has the prefix it had. *)
Lemma fresh_same k p p' d at_ :
  fresh_prefixes k p d at_ -> extranonce_counter (p_counters p') = extranonce_counter (p_counters p) ->
  (forall i c' pre, p_conns p' !! i = Some c' -> task_prefix (cn_task c') = Some pre ->
     exists c, p_conns p !! i = Some c /\ task_prefix (cn_task c) = Some pre) ->
  fresh_prefixes (S k) p' d at_.
Proof.
  intros [H1 H2 H3 H4 H5] Hg Hc. split; [lia|by rewrite Hg| |done..].
  intros i c pre Hi Hp. destruct (Hc i c pre Hi Hp) as (c0 & Hi0 & Hp0). by apply (H3 i c0).
Qed.
Lemma pool_move_fresh k p obs' p' d at_ :
  Z.of_nat k < 2 ^ 64 - 1 -> tasks_ok p ->
  fresh_prefixes k p d at_ -> pool_move p obs' p' -> exists d' at', fresh_prefixes (S k) p' d' at'.
Proof.
  intros Hk Hok Hfp Hm.
  destruct Hm as [i ip t p' Hi Hfree Hc Hg Hs _|i ip t t' rx' todo obs' p' Hi Hmv Hc Hs Hq _|i ip t p' Hi Hw Hc Hg Hs _
    |i c e todo env obs' p' Hi Ht Hc Hg Hs Hq _|i c p' Hi Hp Hc Hg Hs _|obs' p' Hc Hg Hs Hq _].
  - exists d, at_. eapply fresh_same; [exact Hfp|by rewrite Hg|]. intros j c pre. rewrite Hc.
    intros [[<- <-]|[_ Hj]]%lookup_insert_Some; [done|by eauto].
  - pose proof (task_move_draws _ _ _ _ _ _ _ _ Hmv (Hok _ _ Hi)) as Hd.
    destruct (task_prefix t') as [pre'|] eqn:Ep; [destruct Hd as [[Hg Hp]|[Hg (size & Hsz & ->)]]|].
    + exists d, at_. eapply fresh_same; [exact Hfp|done|]. intros j c pre. rewrite Hc.
      intros [[<- <-]|[_ Hj]]%lookup_insert_Some; [|by eauto]. cbn. intros Hpre. eexists. split; [exact Hi|].
      cbn. congruence.
    + destruct Hfp as [H1 H2 H3 H4 H5]. exists (d + 1), (<[i := 1 + d]> at_).
      assert (extranonce_counter (p_counters p) = 1 + d) as Hx by (rewrite H2; unfold wrap; apply Z.mod_small; lia).
      split; [lia|rewrite Hg, Hx; f_equal; lia| | |].
      * intros j c pre. rewrite Hc. intros [[<- <-]|[Hne Hj]]%lookup_insert_Some.
        -- cbn. rewrite Ep. intros [= <-]. exists (1 + d), size. rewrite lookup_insert_eq. unfold drawn. by rewrite Hx.
        -- intros Hp. destruct (H3 j c pre Hj Hp) as (x & sz & Hat & Hrest). exists x, sz. by rewrite lookup_insert_ne.
      * intros j x [[<- <-]|[_ Hj]]%lookup_insert_Some; [lia|specialize (H4 _ _ Hj); lia].
      * intros a b x [[<- <-]|[Ha1 Ha2]]%lookup_insert_Some [[<- Hb]|[Hb1 Hb2]]%lookup_insert_Some; try done.
        -- specialize (H4 _ _ Hb2). lia.
        -- specialize (H4 _ _ Ha2). lia.
        -- by apply (H5 a b x).
    + exists d, at_. eapply fresh_same; [exact Hfp|done|]. intros j c pre. rewrite Hc.
      intros [[<- <-]|[_ Hj]]%lookup_insert_Some; [cbn; congruence|by eauto].
  - exists d, at_. eapply fresh_same; [exact Hfp|by rewrite Hg|]. intros j c pre. rewrite Hc.
    intros [_ Hj]%lookup_delete_Some. by eauto.
  - exists d, at_. eapply fresh_same; [exact Hfp|by rewrite Hg|]. intros j c' pre. rewrite Hc.
    intros [[<- <-]|[_ Hj]]%lookup_insert_Some; by eauto.
  - exists d, at_. eapply fresh_same; [exact Hfp|by rewrite Hg|]. intros j c' pre. rewrite Hc.
    intros [_ Hj]%lookup_delete_Some. by eauto.
  - exists d, at_. eapply fresh_same; [exact Hfp|by rewrite Hg|]. intros j c' pre. rewrite Hc. by eauto.
Qed.
Lemma pool_run_fresh sh now l obs p :
  Z.of_nat (length l) < 2 ^ 64 -> pool_run (pool_init cfg sh now) l = Some (obs, p) ->
  exists d at_, fresh_prefixes (length l) p d at_.
Proof.
  intros Hl Hrun.
  apply (pool_run_ind (fun k _ p => tasks_ok p /\ (Z.of_nat k < 2 ^ 64 -> exists d at_, fresh_prefixes k p d at_)) l)
    with (k := O) (obs := []) in Hrun; [by apply Hrun| |].
  - intros k _ q e o q' [Hok Hfp] Hs%pool_step_moves. split; [by eapply pool_move_tasks|]. intros Hk.
    destruct Hfp as (d & at_ & Hfp); [lia|]. eapply pool_move_fresh; [lia|exact Hok|exact Hfp|exact Hs].
  - split; [intros i c; cbn [pool_init p_conns]; by rewrite lookup_empty|]. intros _. exists 0, ∅.
    split; [done|done|intros i c pre; cbn [pool_init p_conns]; by rewrite lookup_empty|intros i x; by rewrite lookup_empty..].
Qed.
(** Prefixes of one width, while fewer were drawn than the width can tell
    apart. *)
Lemma fresh_prefixes_differ k p d at_ i j ci cj n prei prej :
  fresh_prefixes k p d at_ -> n <= 8 -> Z.of_nat k < 256 ^ n -> i ≠ j ->
  p_conns p !! i = Some ci -> p_conns p !! j = Some cj ->
  task_prefix (cn_task ci) = Some prei -> task_prefix (cn_task cj) = Some prej ->
  Z.of_nat (length prei) = n -> Z.of_nat (length prej) = n -> prei ≠ prej.
Proof.
  intros [H1 _ H3 H4 H5] Hn Hk Hij Hi Hj Hpi Hpj Hli Hlj Heq.
  destruct (H3 _ _ _ Hi Hpi) as (x & sx & Hax & Hsx & ->). destruct (H3 _ _ _ Hj Hpj) as (y & sy & Hay & Hsy & ->).
  pose proof (H4 _ _ Hax). pose proof (H4 _ _ Hay).
  assert (256 ^ n <= 2 ^ 64) by (change (2 ^ 64) with (256 ^ 8); by apply Z.pow_le_mono_r).
  destruct (generate_extranonce1_value x sx) as [Hvx Hlx]; [unfold is_u64, is_u in *; lia|done|].
  destruct (generate_extranonce1_value y sy) as [Hvy Hly]; [unfold is_u64, is_u in *; lia|done|].
  assert (sx = n) as -> by lia. assert (sy = n) as -> by lia. rewrite Heq, Hvy in Hvx.
  rewrite !Z.mod_small in Hvx by lia. subst y. apply Hij. by apply (H5 i j x).
Qed.
End prefixes.
End moves.
