(* ===== verification/PoolJobs.v ===== *)
(** The engine inside the serving process: what holds of the job history, of
    the refresh under way and of the work the sessions are on in every pool
    reached by refreshes that take turns. *)
From S2P Require Export PoolFacts SessionJobs.
From Stdlib Require Import Strings.Ascii.

(** ** The engine and the refresh under way *)

(** The current job is the newest of the history, except between the two. *)
Definition phase_ok (e : TemplateEngine) (ph : option phase) : Prop :=
  (length (job_history e) <= JOB_HISTORY_DEPTH)%nat /\ linked (job_history e) /\
  match ph with
  | Some (Committed job clean) => current_job e = Some job /\
      (clean = false -> forall x, last (job_history e) = Some x -> prev_hash (je_job x) = prev_hash job)
  | Some (Pushed job _) => current_job e = Some job /\ current_job e = je_job <$> last (job_history e)
  | Some (Built _ _) | None => current_job e = je_job <$> last (job_history e)
  end.
Lemma engine_new_phase : phase_ok engine_new None.
Proof. split; [cbn; lia|done]. Qed.
Lemma commit_phase e job clean now e' c :
  phase_ok e (Some (Built job clean)) -> commit_job e job clean now = (e', c) -> phase_ok e' (Some (Committed job c)).
Proof.
  intros (Hlen & Hl & Hcur). unfold commit_job. intros H.
  assert (e' = {| current_job := Some job; job_history := job_history e; last_template_ok := Some now; last_template_error := None |}
    /\ c = clean || tip_moved (prev_hash <$> current_job e) (prev_hash job)) as [-> ->] by (split; congruence).
  split; [done|]. split; [done|]. split; [done|]. cbn [job_history]. intros [_ Hc]%orb_false_iff x Hlast.
  rewrite Hcur, Hlast in Hc. cbn in Hc. unfold tip_moved in Hc. apply negb_false_iff, bool_decide_eq_true in Hc. congruence.
Qed.
Lemma push_phase e job c now : phase_ok e (Some (Committed job c)) -> phase_ok (push_history e job c now) (Some (Pushed job c)).
Proof.
  intros (Hlen & Hl & Hcur & Htip). unfold push_history, phase_ok. cbn [job_history current_job].
  set (h := if (JOB_HISTORY_DEPTH <=? length (job_history e))%nat then _ else _).
  assert ((length h < JOB_HISTORY_DEPTH)%nat /\ linked h /\ last h = last (job_history e)) as (H1 & H2 & H3).
  { unfold h, JOB_HISTORY_DEPTH in *. destruct (Nat.leb_spec 8 (length (job_history e))).
    - split; [|split; [by apply linked_tail|apply last_tail_keep; lia]]. destruct (job_history e); cbn in *; lia.
    - done. }
  clearbody h. split; [rewrite length_app; cbn; lia|]. split; [|by rewrite last_snoc].
  apply linked_snoc; [done|]. cbn. intros Hc x Hlast. apply (Htip Hc). by rewrite <- H3.
Qed.

(** At most one refresh is under way. *)
Definition under_way (m : gmap nat phase) (ph : option phase) : Prop :=
  match ph with None => m = ∅ | Some x => exists k, m = {[k := x]} end.
Lemma under_way_exists m : (size m <= 1)%nat -> exists ph, under_way m ph.
Proof.
  intros H. destruct (decide (m = ∅)) as [->|Hne]; [by exists None|].
  apply map_choose in Hne as (k & x & Hk). exists (Some x), k. apply map_eq. intros j.
  destruct (decide (j = k)) as [->|Hj]; [by rewrite lookup_singleton_eq|].
  rewrite lookup_singleton_ne by done. destruct (m !! j) as [y|] eqn:E; [|done].
  assert (size ({[k := x]} : gmap nat phase) < size m)%nat; [|rewrite map_size_singleton in *; lia].
  apply map_subset_size. split; [by apply map_singleton_subseteq_l|]. intros Hs. eapply lookup_weaken in Hs; [|exact E].
  by rewrite lookup_singleton_ne in Hs.
Qed.
Lemma under_way_start (m : gmap nat phase) k x ph : (size (<[k := x]> m) <= 1)%nat -> m !! k = None -> under_way m ph -> m = ∅ /\ ph = None.
Proof.
  intros Hs Hk Hu. rewrite map_size_insert_None in Hs by done. assert (m = ∅) as -> by (apply map_size_empty_inv; lia).
  split; [done|]. destruct ph as [y|]; [|done]. destruct Hu as [j Hj]. symmetry in Hj. by apply map_non_empty_singleton in Hj.
Qed.
Lemma under_way_at m k x ph : m !! k = Some x -> under_way m ph -> ph = Some x /\ m = {[k := x]}.
Proof.
  destruct ph as [y|]; [|by intros H ->; rewrite lookup_empty in H]. intros H [j ->].
  apply lookup_singleton_Some in H as [-> ->]. done.
Qed.

(** ** The sessions' work *)

(** The job a session in its loop works on, or [None] if it has none yet. *)
Definition task_job (t : task) : option (option StratumJob) :=
  match t with Sv1Task s true => Some (s_current_job s) | Sv2Task s true => Some (v_pending_job s) | _ => None end.
(** A job is current that was not broadcast yet. *)
Definition unannounced (ph : option phase) : bool :=
  match ph with Some (Committed _ _) | Some (Pushed _ _) => true | _ => false end.

Section jobs.
Context {Ip : Type} `{!EqDecision Ip} `{!Countable Ip}.
Context {HJ : JsonLib f64} {HL : HexLib} {HS : Sha256Lib} {HB : BitcoinLib} {HV : Sv2Lib} {HI : DashIter}
  {HC : BroadcastLib} {HW : PowLib} {HCL : BroadcastLaws} {HIL : DashIterLaws}.
Context (from_str : string -> outcome string StratumRequest) (error_text : PoolError -> string) (hex_flags : Z -> string)
  (cfg : Config).
Context (Hfs : forall line, from_str line ≠ Panic) (Hcf : Config.validate cfg = Ok tt)
  (Hu : extranonces_u64 cfg) (Hf : valid_binary prec emax (max_retarget_factor (vardiff cfg)) = true) (Hdec : decodes_ok).
Abbreviation pool_step := (pool_step (Ip := Ip) from_str error_text hex_flags cfg).
Abbreviation pool_run := (pool_run (Ip := Ip) from_str error_text hex_flags cfg).
Abbreviation pool_move := (pool_move (Ip := Ip) from_str error_text hex_flags cfg).
Abbreviation task_move := (task_move from_str error_text hex_flags cfg).
Implicit Types (p : Pool Ip).

Lemma start_job engine counter random n1 n2 n3 n4 c s effs :
  session_start false cfg counter random engine n1 n2 n3 n4 = (c, Some (s, effs)) -> s_current_job s = current_job engine.
Proof.
  unfold session_start. destruct (generate_extranonce1 _ _) as [cn en1].
  assert (s_current_job (session_new cfg en1 random n1 n2 n3 n4) = None) as Hn by done.
  set (s0 := session_new _ _ _ _ _ _ _) in *. clearbody s0. intros H.
  assert (s = match current_job engine with Some j => with_job s0 (Some j) | None => s0 end) as -> by congruence.
  by destruct (current_job engine).
Qed.
Lemma sv2_start_job engine g n1 n2 n3 n4 g' s effs :
  sv2_start false true cfg g engine n1 n2 n3 n4 = (g', Some (s, effs)) -> v_pending_job s = current_job engine.
Proof.
  unfold sv2_start. cbn [orb negb]. destruct (generate_extranonce1 _ _) as [cn prefix]. intros H.
  assert (s = sv2_session_new cfg prefix n1 n2 n3 n4 <! v_pending_job := current_job engine !>) as -> by congruence. done.
Qed.
(** A task's move keeps it up with its receiver. *)
Definition up_to_date (engine : TemplateEngine) (t : task) (rx : option Rx) : Prop :=
  forall job, task_job t = Some job -> exists r, rx = Some r /\ newest_job r job = current_job engine.
Lemma heard_sv1 engine s env e s' effs msgs go rx rx' :
  session_step from_str s env e = Some (s', effs, msgs, go) -> e_engine env = engine -> hears (sv1_got e) rx rx' ->
  up_to_date engine (Sv1Task s true) rx -> exists r, rx' = Some r /\ newest_job r (s_current_job s') = current_job engine.
Proof.
  intros Hs <- Hh Hup. destruct (Hup _ eq_refl) as (r & -> & Hr).
  destruct (session_step_job from_str s env e s' effs msgs go Hs) as [Hj _].
  assert (keeps_job s env s' -> forall r', newest_job r' (s_current_job s) = current_job (e_engine env) ->
    newest_job r' (s_current_job s') = current_job (e_engine env)) as Hkeep.
  { intros [->| ->] r' Hr'; [done|]. unfold job_or_current. rewrite <- Hr'. apply newest_default. }
  destruct e as [| | | |line w|w|b w| |]; cbn [sv1_got hears] in Hh; try (exists r; split; [exact Hh|by apply Hkeep]).
  - destruct Hh as (r0 & r' & [= <-] & Hrecv & ->). exists r'. split; [done|]. rewrite Hj, <- Hr. by apply newest_recv.
  - destruct Hh as (r0 & r' & [= <-] & Hrecv & ->). exists r'. split; [done|]. apply Hkeep; [done|].
    rewrite <- Hr. by apply newest_lagged.
Qed.
Lemma heard_sv2 engine g s env e g' s' effs msgs rx rx' :
  v_extranonce_total s = extranonce1_size (pool cfg) + extranonce2_size (pool cfg) ->
  sv2_step error_text hex_flags g s env e = Some (g', s', effs, msgs, true) -> hears (sv2_got e) rx rx' ->
  up_to_date engine (Sv2Task s true) rx -> exists r, rx' = Some r /\ newest_job r (v_pending_job s') = current_job engine.
Proof.
  intros Ht Hs Hh Hup. destruct (Hup _ eq_refl) as (r & -> & Hr).
  rewrite (sv2_step_job error_text hex_flags _ (total_positive cfg Hcf Hu) Hdec _ _ _ _ _ _ _ _ Ht Hs).
  destruct e as [| | |ty pl| |b| |]; cbn [sv2_got hears] in Hh; try (exists r; split; [exact Hh|done]).
  - destruct Hh as (r0 & r' & [= <-] & Hrecv & ->). exists r'. split; [done|]. rewrite <- Hr. by apply newest_recv.
  - destruct Hh as (r0 & r' & [= <-] & Hrecv & ->). exists r'. split; [done|]. rewrite <- Hr. by apply newest_lagged.
Qed.
Lemma task_move_up_to_date engine g t rx g' t' rx' todo :
  task_move engine g t rx g' t' rx' todo -> task_ok cfg t -> up_to_date engine t rx -> up_to_date engine t' rx'.
Proof.
  destruct 1 as [g rx random n1 n2 n3 n4 cn s effs Hs|g rx|g rx n1 n2 n3 n4 g' s effs Hs
    |g s rx env e s' effs msgs go rx' Hs He Hh|g s rx env e g' s' effs msgs go rx' Hs _ Hh|g s rx now1 now2|g s rx now1 now2];
    intros Hok Hup job Hw; try done.
  - injection Hw as <-. exists rx_subscribe. split; [done|]. rewrite newest_subscribe. by eapply start_job.
  - injection Hw as <-. exists rx_subscribe. split; [done|]. rewrite newest_subscribe. by eapply sv2_start_job.
  - destruct go; [|done]. injection Hw as <-. by eapply heard_sv1.
  - destruct go; [|done]. injection Hw as <-. eapply heard_sv2; [exact (vi_total _ _ _ _ Hok)|done..].
Qed.
(** Whatever the engine does, a session in its loop keeps a receiver. *)
Lemma task_move_receiver engine g t rx g' t' rx' todo :
  task_move engine g t rx g' t' rx' todo -> (is_Some (task_job t) -> is_Some rx) -> is_Some (task_job t') -> is_Some rx'.
Proof.
  assert (forall got rx rx', hears got rx rx' -> is_Some rx -> is_Some rx') as Hhears.
  { intros [b|] r r'; cbn; [|by intros ->]. intros (? & ? & _ & _ & ->) _. by eexists. }
  destruct 1 as [g rx random n1 n2 n3 n4 cn s effs Hs|g rx|g rx n1 n2 n3 n4 g' s effs Hs
    |g s rx env e s' effs msgs go rx' Hs He Hh|g s rx env e g' s' effs msgs go rx' Hs _ Hh|g s rx now1 now2|g s rx now1 now2];
    intros Hrx Hw; cbn [task_job] in Hw; try (by apply is_Some_None in Hw); try by eexists.
  - eapply Hhears; [exact Hh|]. apply Hrx. by eexists.
  - eapply Hhears; [exact Hh|]. apply Hrx. by eexists.
Qed.

Record jobs_inv (ph : option phase) (p : Pool Ip) : Prop := {
  ji_tasks : tasks_ok cfg p;
  ji_under_way : under_way (p_refreshes p) ph;
  ji_phase : phase_ok (p_engine p) ph;
  ji_receivers : forall i c, p_conns p !! i = Some c -> is_Some (task_job (cn_task c)) -> is_Some (p_receivers p !! i);
  ji_jobs : unannounced ph = false ->
    forall i c, p_conns p !! i = Some c -> up_to_date (p_engine p) (cn_task c) (p_receivers p !! i);
}.
(** The connections and receivers change, the engine does not. *)
Lemma jobs_inv_kept ph p p' receivers :
  jobs_inv ph p -> tasks_ok cfg p' -> engine_kept p p' receivers ->
  (forall i c', p_conns p' !! i = Some c' -> (exists c, p_conns p !! i = Some c /\ cn_task c = cn_task c' /\ receivers !! i = p_receivers p !! i)
     \/ ((is_Some (task_job (cn_task c')) -> is_Some (receivers !! i)) /\
         (unannounced ph = false -> up_to_date (p_engine p) (cn_task c') (receivers !! i)))) ->
  jobs_inv ph p'.
Proof.
  intros [H1 H2 H3 H4 H5] Hok (He & Hr & Hx & _) Hc. split; [done|by rewrite Hr|by rewrite He|..].
  - intros i c' Hi Hw. rewrite Hx. destruct (Hc i c' Hi) as [(c & Hi' & Ht & ->)|[H _]]; [|by apply H].
    apply (H4 i c); [done|by rewrite Ht].
  - intros Hph i c' Hi. rewrite He, Hx. destruct (Hc i c' Hi) as [(c & Hi' & <- & ->)|[_ H]]; [|by apply H]. by apply H5.
Qed.
Lemma jobs_inv_drop ph p p' i :
  jobs_inv ph p -> tasks_ok cfg p' -> p_conns p' = delete i (p_conns p) ->
  engine_kept p p' (delete i (p_receivers p)) -> jobs_inv ph p'.
Proof.
  intros Hinv Hok Hc He. eapply jobs_inv_kept; [exact Hinv|done|exact He|]. intros j c'. rewrite Hc.
  intros [Hne Hj]%lookup_delete_Some. left. exists c'. by rewrite lookup_delete_ne.
Qed.
(** A step of a refresh. *)
Lemma jobs_inv_refresh ph p p' :
  jobs_inv ph p -> tasks_ok cfg p' -> p_conns p' = p_conns p -> (size (p_refreshes p') <= 1)%nat ->
  refresh_move cfg p p' -> exists ph', jobs_inv ph' p'.
Proof.
  intros [H1 H2 H3 H4 H5] Hok Hc Hsz Hm.
  destruct Hm as [why He Hr Hx|k gbt job clean Hk _ He Hr Hx|k job clean now cl Hk He Hr Hx|k job cl now Hk He Hr Hx|k job cl Hk He Hr Hx].
  - exists ph. split; rewrite ?Hr, ?Hx, ?Hc, ?He; try done.
  - rewrite Hr in Hsz. destruct (under_way_start _ _ _ _ Hsz Hk H2) as [Hm ->]. exists (Some (Built job clean)).
    split; rewrite ?Hr, ?Hx, ?Hc, ?He, ?Hm; try done. by exists k.
  - destruct (under_way_at _ _ _ _ Hk H2) as [-> Hm]. exists (Some (Committed job cl)).
    split; rewrite ?Hr, ?Hx, ?Hc; try done.
    + exists k. rewrite Hm. apply insert_singleton_eq.
    + by eapply commit_phase.
  - destruct (under_way_at _ _ _ _ Hk H2) as [-> Hm]. exists (Some (Pushed job cl)).
    split; rewrite ?Hr, ?Hx, ?Hc, ?He; try done.
    + exists k. rewrite Hm. apply insert_singleton_eq.
    + by apply push_phase.
  - destruct (under_way_at _ _ _ _ Hk H2) as [-> Hm]. exists None. destruct H3 as (Hl & Hlk & Hcur & Hlast).
    split; rewrite ?Hr, ?Hx, ?Hc, ?He, ?Hm; try done.
    + cbn. apply delete_singleton_eq.
    + intros i c Hi Hw. rewrite lookup_fmap. apply fmap_is_Some. by eapply H4.
    + intros _ i c Hi j Hj. destruct (H4 i c Hi) as [rx Hrx]; [by eexists|]. rewrite lookup_fmap, Hrx. eexists. split; [done|].
      rewrite Hcur. apply newest_send.
Qed.
Lemma pool_move_jobs ph p obs p' :
  jobs_inv ph p -> (size (p_refreshes p') <= 1)%nat -> pool_move p obs p' -> exists ph', jobs_inv ph' p'.
Proof.
  intros Hinv Hsz Hm. pose proof (pool_move_tasks _ _ _ _ Hfs Hcf Hu Hf Hdec _ _ _ (ji_tasks _ _ Hinv) Hm) as Hok.
  destruct Hm as [i ip t p' Hi Hfree Hc Hg Hs He|i ip t t' rx' todo obs p' Hi Hmv Hc Hs Hq He|i ip t p' Hi Hw Hc Hg Hs He
    |i c e todo env obs p' Hi Ht Hc Hg Hs Hq He|i c p' Hi Hp Hc Hg Hs He|obs p' Hc Hg Hs Hq He].
  - exists ph. eapply jobs_inv_kept; [exact Hinv|done|exact He|]. intros j c'. rewrite Hc.
    intros [[<- <-]|[_ Hj]]%lookup_insert_Some; [right|left; by exists c']. split; [by intros ?%is_Some_None|done].
  - exists ph. eapply jobs_inv_kept; [exact Hinv|done|exact He|]. intros j c'. rewrite Hc.
    pose proof (ji_tasks _ _ Hinv _ _ Hi) as Htok.
    intros [[<- <-]|[Hne Hj]]%lookup_insert_Some; [right|left; exists c'; by rewrite lookup_partial_alter_ne].
    rewrite lookup_partial_alter_eq. split.
    + eapply task_move_receiver; [exact Hmv|]. intros Hw. exact (ji_receivers _ _ Hinv _ _ Hi Hw).
    + intros Hph. eapply task_move_up_to_date; [exact Hmv|exact Htok|]. exact (ji_jobs _ _ Hinv Hph _ _ Hi).
  - exists ph. by eapply jobs_inv_drop.
  - exists ph. eapply jobs_inv_kept; [exact Hinv|done|exact He|]. intros j c'. rewrite Hc.
    intros [[<- <-]|[_ Hj]]%lookup_insert_Some; left; [by exists c|by exists c'].
  - exists ph. by eapply jobs_inv_drop.
  - destruct He as [He|[[He _]|Hset]]; [|by eapply jobs_inv_refresh|]; exists ph.
    + eapply jobs_inv_kept; [exact Hinv|done|exact He|]. intros j c'. rewrite Hc. intros Hj. left. by exists c'.
    + destruct Hset as (_ & He & Hr & Hx). destruct Hinv as [H1 H2 H3 H4 H5]. by split; rewrite ?He, ?Hr, ?Hx, ?Hc.
Qed.

(** ** Runs in which refreshes take turns *)

(** Never two refreshes under way. *)
Fixpoint refreshes_in_turn (p : Pool Ip) (l : list (pool_event Ip)) : bool :=
  (size (p_refreshes p) <=? 1)%nat &&
  match l with
  | [] => true
  | e :: l => match pool_step p e with Some (_, p) => refreshes_in_turn p l | None => true end
  end.
Lemma pool_run_in_turn (P : Pool Ip -> Prop) :
  (forall p e obs p', P p -> (size (p_refreshes p') <= 1)%nat -> pool_step p e = Some (obs, p') -> P p') ->
  forall l p obs p', P p -> refreshes_in_turn p l = true -> pool_run p l = Some (obs, p') -> P p'.
Proof.
  intros Hstep. induction l as [|e l IH]; intros p obs p' Hp Ht; cbn [Pool.pool_run].
  - by intros [-> ->]%stepped_inj.
  - cbn [refreshes_in_turn] in Ht. apply andb_true_iff in Ht as [_ Ht].
    destruct (pool_step p e) as [[obs1 p1]|] eqn:E; [|done]. cbn [mbind option_bind].
    destruct (pool_run p1 l) as [[obs2 p2]|] eqn:E2; [|done]. cbn [mbind option_bind].
    intros [-> ->]%stepped_inj. eapply IH; [|exact Ht|exact E2]. eapply Hstep; [exact Hp| |exact E].
    destruct l; cbn [refreshes_in_turn] in Ht; apply andb_true_iff in Ht as [Ht _]; by apply Nat.leb_le in Ht.
Qed.
Lemma pool_run_jobs sh now l obs p :
  phase_ok (sh_engine sh) None -> refreshes_in_turn (pool_init cfg sh now) l = true ->
  pool_run (pool_init cfg sh now) l = Some (obs, p) -> exists ph, jobs_inv ph p.
Proof.
  intros He Ht. apply (pool_run_in_turn (fun p => exists ph, jobs_inv ph p)); [|clear Ht|exact Ht].
  - intros q e o q' [ph Hph] Hsz Hs%pool_step_moves. by eapply pool_move_jobs.
  - exists None. split; [|done|done|..].
    + intros i c. cbn [pool_init p_conns]. by rewrite lookup_empty.
    + intros i c. cbn [pool_init p_conns]. by rewrite lookup_empty.
    + intros _ i c. cbn [pool_init p_conns]. by rewrite lookup_empty.
Qed.
(** A share is logged by a turn of the session, on work the engine honours. *)
Lemma pool_step_logs p e obs p' i c c' w d :
  tasks_ok cfg p -> pool_step p e = Some (obs, p') ->
  p_conns p !! i = Some c -> cn_todo c = [] -> p_conns p' !! i = Some c' -> LogShare w d ∈ cn_todo c' ->
  task_worker (cn_task c) = Some w /\
  exists prefix, task_prefix (cn_task c) = Some prefix /\ earned (p_engine p) prefix (min_difficulty (vardiff cfg)) w.
Proof.
  intros Hok Hs%pool_step_moves Hi Hrest Hi' Hlog.
  destruct Hs as [k ip t p' Hk Hfree Hc Hg Hs He|k ip t t' rx' todo obs p' Hk Hmv Hc Hs Hq He|k ip t p' Hk Hw Hc Hg Hs He
    |k c0 e0 todo env obs p' Hk Ht Hc Hg Hs Hq He|k c0 p' Hk Hp Hc Hg Hs He|obs p' Hc Hg Hs Hq He]; rewrite Hc in Hi'.
  1: apply lookup_insert_Some in Hi' as [[<- <-]|[_ Hi']]; [by apply no_log in Hlog|].
  2: apply lookup_insert_Some in Hi' as [[<- <-]|[_ Hi']].
  4: apply lookup_delete_Some in Hi' as [_ Hi'].
  5: apply lookup_insert_Some in Hi' as [[<- <-]|[_ Hi']]; [congruence|].
  6: apply lookup_delete_Some in Hi' as [_ Hi'].
  all: try (assert (c' = c) as -> by congruence; rewrite Hrest in Hlog; by apply no_log in Hlog).
  rewrite Hk in Hi. injection Hi as <-. cbn [cn_todo cn_task] in *. pose proof (Hok _ _ Hk) as Htok. cbn [cn_task] in Htok.
  destruct Hmv as [g rx random n1 n2 n3 n4 cn s effs Hst|g rx|g rx n1 n2 n3 n4 g' s effs Hst
    |g s rx env ev s' effs msgs go rx' Hst Heng Hh|g s rx env ev g' s' effs msgs go rx' Hst Heng Hh|g s rx now1 now2|g s rx now1 now2].
  - apply (sv1_start_spec cfg) in Hst as (_ & _ & _ & -> & _). by apply no_log in Hlog.
  - by apply no_log in Hlog.
  - unfold sv2_start in Hst. cbn [orb negb] in Hst. destruct (generate_extranonce1 _ _).
    assert (effs = [MinerConnected]) as -> by congruence. by apply no_log in Hlog.
  - destruct (session_step_job _ _ _ _ _ _ _ _ Hst) as [_ Hl]. destruct (Hl w d Hlog) as (Ha & -> & Hearn).
    destruct Htok as [_ _ [_ Hv] _ Hauth _]. destruct (Hauth Ha) as [_ [x Hx]]. cbn [task_worker task_prefix].
    rewrite Hx in *. rewrite Hv, Heng in Hearn. split; [done|]. by exists (s_extranonce1 s).
  - destruct (sv2_step_logs error_text hex_flags _ (total_positive cfg Hcf Hu) Hdec _ _ _ _ _ _ _ _ _ w d (vi_total _ _ _ _ Htok) Hst Hlog)
      as (Ha & -> & Hearn).
    destruct Htok as [_ [_ Hv] _ _ _ Hopen]. destruct (Hopen Ha) as (_ & [x Hx] & _). cbn [task_worker task_prefix].
    rewrite Hx in *. rewrite Hv, Heng in Hearn. split; [done|]. by exists (v_extranonce_prefix s).
  - unfold session_close in Hlog. apply no_log in Hlog. by destruct (s_worker s).
  - unfold sv2_close in Hlog. apply no_log in Hlog. by destruct (v_worker s).
Qed.
(** Accepted work is on the tip of the newest entry of the history. *)
Lemma earned_tip engine prefix floor w ph :
  phase_ok engine ph -> earned engine prefix floor w ->
  exists entry params r x, find_job engine (sp_job_id params) = Some entry /\ sp_worker params = w /\
    validate_share_no_dedup params (je_job entry) entry prefix floor = Ok r /\
    last (job_history engine) = Some x /\ prev_hash (je_job entry) = prev_hash (je_job x) /\
    match ph with Some (Committed _ _) => True | _ => current_job engine = Some (je_job x) end.
Proof.
  intros (_ & Hl & Hph) (entry & params & r & Hfind & Hw & Hv).
  assert (je_superseded_by_clean entry = false) as Hs
    by (unfold validate_share_no_dedup in Hv; by destruct (je_superseded_by_clean entry)).
  destruct (last (job_history engine)) as [x|] eqn:Hlast.
  - exists entry, params, r, x. split; [done|]. split; [done|]. split; [done|]. split; [done|].
    split; [by eapply find_entry_tip|]. destruct ph as [[]|]; [exact Hph|done|by destruct Hph|exact Hph].
  - apply last_None in Hlast. unfold find_job in Hfind. by rewrite Hlast in Hfind.
Qed.
End jobs.
