(* ===== verification/PoolWork.v ===== *)
(** The work the serving process gives out: every job that is current,
    remembered, on its way to a session or worked on was built by some refresh,
    for the payout address of that moment. *)
From S2P Require Export MainFacts PoolJobs.
From Stdlib Require Import Strings.Ascii.

Section work.
Context {Ip : Type} `{!EqDecision Ip} `{!Countable Ip}.
Context {HJ : JsonLib f64} {HL : HexLib} {HS : Sha256Lib} {HB : BitcoinLib} {HV : Sv2Lib} {HI : DashIter}
  {HC : BroadcastLib} {HW : PowLib} {HCL : BroadcastLaws}.
Context (from_str : string -> outcome string StratumRequest) (error_text : PoolError -> string) (hex_flags : Z -> string)
  (cfg : Config).
Context (Hfs : forall line, from_str line ≠ Panic) (Hcf : Config.validate cfg = Ok tt)
  (Hu : extranonces_u64 cfg) (Hf : valid_binary prec emax (max_retarget_factor (vardiff cfg)) = true) (Hdec : decodes_ok).
Abbreviation pool_step := (pool_step (Ip := Ip) from_str error_text hex_flags cfg).
Abbreviation pool_run := (pool_run (Ip := Ip) from_str error_text hex_flags cfg).
Abbreviation pool_move := (pool_move (Ip := Ip) from_str error_text hex_flags cfg).
Abbreviation task_move := (task_move from_str error_text hex_flags cfg).
Implicit Types (p : Pool Ip) (P : StratumJob -> Prop).

(** Only the dashboard changes the payout address. *)
Lemma receive_settings p i got q : receive p i = Some (got, q) -> p_settings q = p_settings p.
Proof. intros (rx & _ & Ho)%receive_spec. exact (or_settings _ _ _ _ Ho). Qed.
Lemma pool_step_settings p e obs p' :
  pool_step p e = Some (obs, p') -> p_settings p' = p_settings p \/
  exists address io, e = SettingsPost address io /\ p_settings p' = (change_address address io (p_settings p) (p_stats p)).1.1.
Proof.
  destruct e as [i ip b1 b2 r1 r2 r3|i pk b1 b2 random n1 n2 n3 n4|i ok n1 n2 n3 n4|i env e|i env e|i env w|i env
    |k gbt clean|k now|address io|i env b1 b2|i now1 now2|i|b r now io|now a b|ts io|poll]; cbn [Pool.pool_step].
  10: { intros [-> ->]%stepped_inj. right. exists address, io. split; [done|]. unfold pool_settings_post.
        by destruct (change_address _ _ _ _) as [[settings stats] r]. }
  all: intros H; left; revert H.
  6-7: unfold pool_sv1_job, pool_sv2_job; destruct (p_conns p !! i) as [[ip t [|]]|]; try done; destruct t as [| |s [|]|s [|]|]; try done;
    cbn [cn_todo cn_ip cn_task]; destruct (receive p i) as [[got q]|] eqn:Er; [|done]; apply receive_settings in Er; rewrite <- Er;
    cbn [mbind option_bind]; revert Er; intros _.
  all: unfold pool_accept, pool_first_byte, pool_handshake, pool_sv1_turn, pool_sv2_turn, pool_refresh, pool_refresh_next,
    pool_settle, panicked; cbv zeta; repeat case_match; try done; intros [-> ->]%stepped_inj; try reflexivity.
Qed.

(** ** What is given out *)

Definition phase_job (ph : phase) : StratumJob :=
  match ph with Built job _ | Committed job _ | Pushed job _ => job end.
(** A job the process is on, remembers, is about to send or has a session
    working on it. *)
Inductive gives (p : Pool Ip) : StratumJob -> Prop :=
| gives_built k ph : p_refreshes p !! k = Some ph -> gives p (phase_job ph)
| gives_current job : current_job (p_engine p) = Some job -> gives p job
| gives_remembered x : x ∈ job_history (p_engine p) -> gives p (je_job x)
| gives_sent i rx b : p_receivers p !! i = Some rx -> b ∈ rx_pending rx -> gives p (jb_job b)
| gives_worked i c job : p_conns p !! i = Some c -> task_job (cn_task c) = Some (Some job) -> gives p job.
Definition gives_only (P : StratumJob -> Prop) (p : Pool Ip) : Prop := forall job, gives p job -> P job.
Definition rx_only (P : StratumJob -> Prop) (rx : option Rx) : Prop := forall r b, rx = Some r -> b ∈ rx_pending r -> P (jb_job b).
Definition task_only (P : StratumJob -> Prop) (t : task) : Prop := forall job, task_job t = Some (Some job) -> P job.

Lemma only_hears P got rx rx' : hears got rx rx' -> rx_only P rx -> rx_only P rx'.
Proof.
  destruct got as [got|]; cbn [hears]; [|by intros ->]. intros (r & r' & -> & Hr & ->) Hp r1 b [= <-] Hb.
  pose proof (rx_recv_pending r) as Hl. rewrite Hr in Hl. apply (Hp r); [done|]. destruct got as [b0|].
  - rewrite Hl. by apply elem_of_cons; right.
  - by rewrite <- Hl.
Qed.
Lemma only_heard P b rx rx' : hears (Some (Some b)) rx rx' -> rx_only P rx -> P (jb_job b).
Proof.
  intros (r & r' & -> & Hr & ->) Hp. pose proof (rx_recv_pending r) as Hl. rewrite Hr in Hl.
  apply (Hp r); [done|]. rewrite Hl. apply elem_of_cons. by left.
Qed.
Lemma only_task_move P engine g t rx g' t' rx' todo :
  task_move engine g t rx g' t' rx' todo -> task_ok cfg t -> (forall job, current_job engine = Some job -> P job) ->
  rx_only P rx -> task_only P t -> rx_only P rx' /\ task_only P t'.
Proof.
  assert (rx_only P (Some rx_subscribe)) as Hnew by (intros r b [= <-]; rewrite rx_subscribe_pending; by intros ?%elem_of_nil).
  destruct 1 as [g rx random n1 n2 n3 n4 cn s effs Hs|g rx|g rx n1 n2 n3 n4 g' s effs Hs
    |g s rx env e s' effs msgs go rx' Hs He Hh|g s rx env e g' s' effs msgs go rx' Hs _ Hh|g s rx now1 now2|g s rx now1 now2];
    intros Hok Hcur Hrx Ht; (split; [try done; try (by eapply only_hears)|]); intros job Hw; try done.
  - apply Hcur. apply start_job in Hs. by injection Hw as <-.
  - apply Hcur. apply sv2_start_job in Hs. by injection Hw as <-.
  - destruct go; [|done]. assert (s_current_job s' = Some job) as Hj by (apply (inj Some); exact Hw).
    destruct (session_step_job from_str s env e s' effs msgs true Hs) as [Hjob _].
    assert (keeps_job s env s' -> P job) as Hkeep.
    { intros [Hk|Hk]; rewrite Hk in Hj; [by apply Ht; cbn; rewrite Hj|]. unfold job_or_current in Hj. rewrite He in Hj.
      destruct (s_current_job s) as [j|] eqn:Ej; [|by apply Hcur]. apply Ht. cbn. rewrite Ej. exact (f_equal Some Hj). }
    destruct e as [| | | |line w|w|b w| |]; try (by apply Hkeep). cbn [sv1_got] in Hh.
    assert (job = jb_job b) as -> by congruence. by eapply only_heard.
  - destruct go; [|done]. assert (v_pending_job s' = Some job) as Hj by (apply (inj Some); exact Hw).
    rewrite (sv2_step_job error_text hex_flags _ (total_positive cfg Hcf Hu) Hdec _ _ _ _ _ _ _ _ (vi_total _ _ _ _ Hok) Hs) in Hj.
    destruct e as [| | |ty pl| |b| |]; try (by apply Ht; cbn; rewrite Hj). cbn [sv2_got] in Hh.
    assert (job = jb_job b) as -> by congruence. by eapply only_heard.
Qed.
(** The connections and receivers change, the engine does not. *)
Lemma gives_kept P p p' receivers :
  gives_only P p -> engine_kept p p' receivers ->
  (forall i, receivers !! i = p_receivers p !! i \/ rx_only P (receivers !! i)) ->
  (forall i c', p_conns p' !! i = Some c' ->
     (exists c, p_conns p !! i = Some c /\ cn_task c = cn_task c') \/ task_only P (cn_task c')) ->
  gives_only P p'.
Proof.
  intros H (He & Hr & Hx & _) Hrx Hc job [k ph Hk|j Hj|x Hin|i rx b Hi Hb|i c j Hi Hj].
  - rewrite Hr in Hk. by eapply H, gives_built.
  - rewrite He in Hj. by apply H, gives_current.
  - rewrite He in Hin. by apply H, gives_remembered.
  - rewrite Hx in Hi. destruct (Hrx i) as [Hsame|Honly]; [|by eapply Honly]. rewrite Hsame in Hi. by eapply H, gives_sent.
  - destruct (Hc i c Hi) as [(c0 & Hi0 & Ht)|Honly]; [|by apply Honly]. rewrite <- Ht in Hj. by eapply H, gives_worked.
Qed.
Lemma gives_dropped P p p' i :
  gives_only P p -> p_conns p' = delete i (p_conns p) -> engine_kept p p' (delete i (p_receivers p)) -> gives_only P p'.
Proof.
  intros H Hc He. eapply gives_kept; [exact H|exact He|..].
  - intros j. destruct (decide (i = j)) as [->|Hne]; [|left; by rewrite lookup_delete_ne].
    right. intros r b Hr. by rewrite lookup_delete_eq in Hr.
  - intros j c'. rewrite Hc. intros [Hne Hj]%lookup_delete_Some. left. by exists c'.
Qed.
Lemma elem_of_lastn {A} n (l : list A) x : x ∈ lastn n l -> x ∈ l.
Proof. unfold lastn. intros H. rewrite <- (take_drop (length l - n) l). apply elem_of_app. by right. Qed.
(** A step of a refresh gives out what it built. *)
Lemma gives_refresh P p p' :
  gives_only P p -> p_conns p' = p_conns p -> refresh_move cfg p p' ->
  (forall gbt job, (refresh_job (p_settings p) (pool cfg) (p_ids p) gbt).2 = Ok job -> P job) -> gives_only P p'.
Proof.
  intros H Hc Hm HP. assert (forall k ph, p_refreshes p !! k = Some ph -> P (phase_job ph)) as Hph
    by (intros k ph Hk; by eapply H, gives_built).
  destruct Hm as [why He Hr Hx|k gbt job clean Hk Hb He Hr Hx|k job clean now cl Hk He Hr Hx|k job cl now Hk He Hr Hx|k job cl Hk He Hr Hx].
  all: intros j [k' ph Hk'|j' Hj|x Hin|i rx b Hi Hm|i c j' Hi Hj].
  all: try (rewrite Hc in Hi; by eapply H, gives_worked).
  all: try (rewrite Hx in Hi; by eapply H, gives_sent).
  all: try (rewrite Hr in Hk'; try (apply lookup_insert_Some in Hk' as [[_ <-]|[_ Hk']]); try (apply lookup_delete_Some in Hk' as [_ Hk']);
    try (by eapply Hph); cbn; first [by eapply HP|exact (Hph _ _ Hk)]).
  all: try (rewrite He in Hj; cbn in Hj; by eapply H, gives_current).
  all: try (rewrite He in Hin; cbn in Hin; by eapply H, gives_remembered).
  - unfold commit_job in He. assert (current_job (p_engine p') = Some job) as Hcur by (by injection He as <- _).
    assert (j' = job) as -> by congruence. exact (Hph _ _ Hk).
  - unfold commit_job in He. assert (job_history (p_engine p') = job_history (p_engine p)) as Hh by (by injection He as <- _).
    rewrite Hh in Hin. by eapply H, gives_remembered.
  - rewrite He in Hin. cbn [push_history job_history] in Hin. apply elem_of_app in Hin as [Hin|Hin].
    + eapply H, gives_remembered. destruct (JOB_HISTORY_DEPTH <=? _)%nat; [|exact Hin].
      destruct (job_history (p_engine p)); [done|]. by apply elem_of_cons; right.
    + apply list_elem_of_singleton in Hin as ->. exact (Hph _ _ Hk).
  - rewrite Hx, lookup_fmap in Hi. destruct (p_receivers p !! i) as [r|] eqn:Er; [|done]. injection Hi as <-.
    rewrite rx_send_pending in Hm by (unfold JOB_BROADCAST_CAP; lia). apply elem_of_lastn, elem_of_app in Hm as [Hm|Hm].
    + by eapply H, gives_sent.
    + apply list_elem_of_singleton in Hm as ->. exact (Hph _ _ Hk).
Qed.
Lemma pool_move_gives P p obs p' :
  tasks_ok cfg p -> pool_move p obs p' -> gives_only P p ->
  (forall gbt job, (refresh_job (p_settings p) (pool cfg) (p_ids p) gbt).2 = Ok job -> P job) -> gives_only P p'.
Proof.
  intros Hok Hm H HP.
  destruct Hm as [i ip t p' Hi Hfree Hc Hg Hs He|i ip t t' rx' todo obs p' Hi Hmv Hc Hs Hq He|i ip t p' Hi Hw Hc Hg Hs He
    |i c e todo env obs p' Hi Ht Hc Hg Hs Hq He|i c p' Hi Hp Hc Hg Hs He|obs p' Hc Hg Hs Hq He].
  - eapply gives_kept; [exact H|exact He|by left|]. intros j c'. rewrite Hc.
    intros [[<- <-]|[_ Hj]]%lookup_insert_Some; [right; done|left; by exists c'].
  - destruct (only_task_move P _ _ _ _ _ _ _ _ Hmv (Hok _ _ Hi)) as [Hrx Hto].
    { intros job Hj. by apply H, gives_current. }
    { intros r b Hr Hb. by eapply H, gives_sent. }
    { intros job Hj. by eapply H, gives_worked. }
    eapply gives_kept; [exact H|exact He|..].
    + intros j. destruct (decide (i = j)) as [<-|Hne]; [right; by rewrite lookup_partial_alter_eq|left; by rewrite lookup_partial_alter_ne].
    + intros j c'. rewrite Hc. intros [[<- <-]|[_ Hj]]%lookup_insert_Some; [by right|left; by exists c'].
  - by eapply gives_dropped.
  - eapply gives_kept; [exact H|exact He|by left|]. intros j c'. rewrite Hc.
    intros [[<- <-]|[_ Hj]]%lookup_insert_Some; left; [by exists c|by exists c'].
  - by eapply gives_dropped.
  - destruct He as [He|[[He _]|(_ & He & Hr & Hx)]]; [|by eapply gives_refresh|].
    + eapply gives_kept; [exact H|exact He|by left|]. intros j c'. rewrite Hc. left. by exists c'.
    + intros job [k ph Hk|j Hj|x Hin|i rx b Hi Hb|i c j Hi Hj]; apply H.
      * rewrite Hr in Hk. by eapply gives_built.
      * rewrite He in Hj. by apply gives_current.
      * rewrite He in Hin. by apply gives_remembered.
      * rewrite Hx in Hi. by eapply gives_sent.
      * rewrite Hc in Hi. by eapply gives_worked.
Qed.

(** ** Whom it pays *)

(** What a refresh builds, it builds for the payout address in force. *)
Lemma refresh_job_cases settings pool_cfg ids gbt job :
  (refresh_job settings pool_cfg ids gbt).2 = Ok job ->
  exists address g, valid_coinbase_address settings = Some address /\ gbt = Ok g /\
    (build_job ids g address (coinbase_tag pool_cfg) (Z.to_nat (extranonce1_size pool_cfg))
      (Z.to_nat (extranonce2_size pool_cfg))).2 = Ok job.
Proof.
  unfold refresh_job. destruct (valid_coinbase_address settings) as [a|]; [|done]. destruct gbt as [g|e|]; [|done..].
  destruct (build_job _ _ _ _ _ _) as [ids' [j|e|]] eqn:Eb; [|done..]. intros Hj. exists a, g. split; [done|]. split; [done|].
  rewrite Eb. by injection Hj as ->.
Qed.
(** The addresses the operator gave: the configured one, the stored one, and
    those posted on the dashboard. *)
Definition given_address (stored : option string) (l : list (pool_event Ip)) (address : string) : Prop :=
  address = coinbase_address (pool cfg) \/ stored = Some address \/ exists posted io, SettingsPost posted io ∈ l /\ address = trim posted.
Lemma change_address_given address io settings stats :
  let settings' := (change_address address io settings stats).1.1 in
  settings' = settings_step settings (OpUpdate (trim address)) /\
  (rs_address settings' = rs_address settings \/ rs_address settings' = trim address).
Proof.
  cbv zeta. unfold change_address, settings_step, update. destruct (Settings.validate _ _) as [u|err|]; cbn [fst]; [|by split; [|left]..].
  destruct (save_setting _ _ _ _). split; [done|by right].
Qed.
Record works_for (name : string) (given : string -> Prop) (p : Pool Ip) : Prop := {
  wf_tasks : tasks_ok cfg p;
  wf_settings : settings_inv name (p_settings p);
  wf_given : given (rs_address (p_settings p));
  wf_gives : gives_only (fun job => exists ids g address, given address /\ Settings.validate address name = Ok tt /\
    (build_job ids g address (coinbase_tag (pool cfg)) (Z.to_nat (extranonce1_size (pool cfg)))
      (Z.to_nat (extranonce2_size (pool cfg)))).2 = Ok job) p;
}.
Lemma works_for_init name given sh now :
  settings_inv name (sh_settings sh) -> given (rs_address (sh_settings sh)) -> sh_engine sh = engine_new ->
  works_for name given (pool_init cfg sh now).
Proof.
  intros Hinv Hgiven He. split; [|done|done|].
  - intros i c. cbn [pool_init p_conns]. by rewrite lookup_empty.
  - intros job [k ph Hk|j Hj|x Hin|i rx b Hi Hb|i c j Hi Hj]; cbn [pool_init p_refreshes p_engine p_receivers p_conns] in *;
      rewrite ?lookup_empty, ?He in *; try done. by apply elem_of_nil in Hin.
Qed.
Lemma pool_step_works name given p e obs p' :
  (forall posted io, e = SettingsPost posted io -> given (trim posted)) ->
  works_for name given p -> pool_step p e = Some (obs, p') -> works_for name given p'.
Proof.
  intros Hpost [Hok [Hn Hv] Hgiven Hgives] Hs. pose proof (pool_step_moves _ _ _ _ _ _ _ _ Hs) as Hm.
  assert (settings_inv name (p_settings p') /\ given (rs_address (p_settings p'))) as [Hinv' Hgiven'].
  { destruct (pool_step_settings _ _ _ _ Hs) as [->|(a & io & -> & ->)]; [done|].
    destruct (change_address_given a io (p_settings p) (p_stats p)) as [-> Ha]. split; [by apply settings_step_inv|].
    destruct Ha as [->| ->]; [done|]. by eapply Hpost. }
  split; [by eapply pool_move_tasks|done|done|]. eapply pool_move_gives; [exact Hok|exact Hm|exact Hgives|].
  intros gbt job (a & g & Ha & -> & Hb)%refresh_job_cases. exists (p_ids p), g, a.
  unfold valid_coinbase_address in Ha. destruct (rs_valid (p_settings p)) eqn:Evalid; [|done].
  assert (a = rs_address (p_settings p)) as -> by congruence. split; [done|]. split; [|exact Hb].
  by destruct (Settings.validate _ _) as [[]| |].
Qed.
Lemma pool_run_works name given l :
  (forall posted io, SettingsPost posted io ∈ l -> given (trim posted)) ->
  forall p obs p', works_for name given p -> pool_run p l = Some (obs, p') -> works_for name given p'.
Proof.
  induction l as [|e l IH]; intros Hpost p obs p' Hp; cbn [Pool.pool_run]; [by intros [-> ->]%stepped_inj|].
  destruct (pool_step p e) as [[obs1 p1]|] eqn:E; [|done]. cbn [mbind option_bind].
  destruct (pool_run p1 l) as [[obs2 p2]|] eqn:E2; [|done]. cbn [mbind option_bind]. intros [-> ->]%stepped_inj.
  eapply IH; [| |exact E2].
  - intros a io Hin. eapply Hpost. apply elem_of_cons. right. exact Hin.
  - eapply pool_step_works; [|exact Hp|exact E]. intros a io ->. eapply Hpost. apply elem_of_cons. by left.
Qed.
End work.

Lemma chain_network_known chain name : chain_network chain = Some name -> exists net, network_of name = Some net.
Proof.
  unfold chain_network. intros Hname.
  repeat (destruct (bool_decide _); [injection Hname as <-; eexists; reflexivity|]). done.
Qed.
(** Start-up takes the payout address from the configuration or the store. *)
Lemma boot_address `{HB : BitcoinLib} `{HQ : SqliteLib} cfg env sh dash :
  boot cfg env = Ok (sh, dash) ->
  exists chain name net, be_chain env = Ok chain /\ chain_network chain = Some name /\ network_of name = Some net /\
    settings_inv name (sh_settings sh) /\ sh_engine sh = engine_new /\
    (rs_address (sh_settings sh) = coinbase_address (pool cfg) \/
     load_setting (boot_stats cfg env) "coinbase_address" (be_io_setting env) = Some (rs_address (sh_settings sh))).
Proof.
  unfold boot. intros Hb. apply outcome_bind_ok in Hb as (? & _ & Hb). apply outcome_bind_ok in Hb as (settings & Hset & Hb).
  apply outcome_bind_ok in Hb as (dash' & _ & Hb). cbv zeta in Hb.
  assert (sh_settings sh = settings /\ sh_engine sh = engine_new) as [-> ->] by (injection Hb as <- _; done). clear Hb.
  unfold boot_settings in Hset. apply outcome_bind_ok in Hset as (chain & Hchain & Hset).
  apply outcome_bind_ok in Hset as (s0 & Hnew & Hset). injection Hset as <-.
  assert (be_chain env = Ok chain) as Hch by (destruct (be_chain env); [by injection Hchain as ->|done..]).
  assert (settings_new (pool cfg) chain = Ok s0) as Hnew' by (destruct (settings_new _ _); [by injection Hnew as ->|done..]).
  destruct (settings_new_inv _ _ _ Hnew') as (name & Hname & Hinv). destruct (chain_network_known _ _ Hname) as [net Hnet].
  exists chain, name, net. split; [done|]. split; [done|]. split; [done|].
  split; [exact (settings_step_inv _ _ (OpApplyPersisted _) Hinv)|]. split; [done|].
  assert (rs_address s0 = coinbase_address (pool cfg)) as Ha.
  { unfold settings_new in Hnew'. rewrite Hname in Hnew'. cbv zeta in Hnew'. case_match; [done|]. by injection Hnew' as <-. }
  destruct (load_setting _ _ _) as [a|]; cbn [apply_persisted]; [|by left].
  destruct (is_ok _); [by right|by left].
Qed.
(** Whatever extranonces complete it, a job pays the address it was built for. *)
Lemma job_pays `{HL : HexLib} `{!HexLaws} `{SL : Sha256Lib} `{BL : BitcoinLib} `{!BitcoinLaws} ids g address tag n1 n2 job spk :
  (build_job ids g address tag n1 n2).2 = Ok job -> address_script_pubkey address = Some spk ->
  find_bytes (coinbase_prefix (gbt_height g) tag (n1 + n2)) SENTINEL = None ->
  exists commitment, forall e1 e2, (length e1 + length e2 = n1 + n2)%nat ->
    assemble_coinbase job e1 e2 = Ok (paid_coinbase g tag (n1 + n2) spk commitment (e1 ++ e2)).
Proof.
  intros Hb Hspk Hp. destruct (build_job _ _ _ _ _ _) as [ids' r] eqn:Eb. cbn [snd] in Hb. rewrite Hb in Eb.
  destruct (build_job_pays _ _ _ _ _ _ _ _ _ Eb Hspk Hp) as [commitment Hpays]. exists commitment. intros e1 e2 Hlen.
  destruct (Hpays e1 e2 Hlen) as [-> ->]. done.
Qed.
