(* ===== verification/PoolBlocks.v ===== *)
(** From a device's solution to the node: what a turn of the serving process
    does with a submission that solves a job it still remembers. *)
From S2P Require Export PoolWork.
From Stdlib Require Import Strings.Ascii.

(** A submission, freed of its protocol: the remembered job it names, the
    version, time and nonce of the header, the session's part of the
    extranonce and the device's, the hashes the session accepted before. *)
Record Offer := {
  of_entry : JobEntry;
  of_version : Z;
  of_ntime : Z;
  of_nonce : Z;
  of_prefix : list byte;
  of_rest : list byte;
  of_seen : gset (list byte);
}.
Definition of_job (o : Offer) : StratumJob := je_job (of_entry o).
Definition of_coinbase (o : Offer) : list byte :=
  coinbase1 (of_job o) ++ of_prefix o ++ of_rest o ++ coinbase2 (of_job o).

Section offers.
Context {HL : HexLib} {HS : Sha256Lib}.

(** [header] is what the device hashed, and solves the job: no clean job
    superseded it, the time is in its window, the hash is at most the network
    target and new to the session. *)
Definition solves (o : Offer) (header : list byte) : Prop :=
  let job := of_job o in
  je_superseded_by_clean (of_entry o) = false /\
  min_time job <= of_ntime o <= saturating_add 32 (cur_time job) 7200 /\
  (exists internal b, hex_decode (prev_hash job) = Some (swap_words internal) /\
     from_str_radix16 32 (bits job) = Some b /\
     header = share_header job internal b (of_version o) (of_ntime o) (of_nonce o) (of_coinbase o)) /\
  le2z (double_sha256 header) <= be2z (network_target job) /\
  double_sha256 header ∉ of_seen o.

(** What validation says of it. *)
Definition block_of (o : Offer) (header : list byte) : ShareResult :=
  Block (hash_to_difficulty (double_sha256 header))
    (assemble_block_hex header (of_coinbase o) (transactions (of_job o))) (double_sha256 header).
Context {HLA : HexLaws} {HSA : Sha256Laws}.
Lemma solution_is_block o header params d :
  job_wf (of_job o) -> solves o header ->
  (length (of_prefix o) + length (of_rest o))%nat = (extranonce1_len (of_job o) + extranonce2_len (of_job o))%nat ->
  sp_ntime params = of_ntime o -> sp_nonce params = of_nonce o -> sp_extranonce2 params = of_rest o ->
  resolve_version (version (of_job o)) (sp_version_bits params) (sp_version_rolling_mask params) = Ok (of_version o) ->
  validate_share_no_dedup params (of_job o) (of_entry o) (of_prefix o) d = Ok (block_of o header).
Proof.
  intros Hwf (Hs & Ht & (internal & b & Hp & Hb & ->) & Hle & _) Hlen Ent Enn Een Hv.
  destruct (wf_prev_hash _ Hwf) as (internal' & Hp' & Hi').
  assert (length internal = 32%nat) as Hi.
  { rewrite <- (length_swap_words internal). assert (swap_words internal = swap_words internal') as -> by congruence.
    by rewrite length_swap_words. }
  rewrite <- Ent in Ht. rewrite <- Een in Hlen.
  rewrite (validate_judges params (of_job o) (of_entry o) (of_prefix o) d internal b (of_version o)) by done.
  cbv zeta. rewrite Ent, Enn, Een. rewrite (proj2 (Z.leb_le _ _)) by exact Hle. done.
Qed.
End offers.

(** ** The two protocols *)

Lemma submission_starts height hash hex worker answers :
  exists more, (submit_found_block height hash hex worker answers).1 = ArchiveBlock height hash hex :: InflightAdd 1 :: Attempt hex :: more.
Proof.
  unfold submit_found_block, SUBMIT_INLINE_ATTEMPTS. cbn [inline_attempts].
  destruct (try_submit (answers 1%nat)) as [u|e|]; [by eexists| |by eexists]. destruct (is_permanent_reject e); [by eexists|].
  destruct (try_submit (answers 2%nat)) as [u|e'|]; [by eexists| |by eexists]. destruct (is_permanent_reject e'); [by eexists|].
  destruct (try_submit (answers 3%nat)) as [u|e''|]; [by eexists| |by eexists]. destruct (is_permanent_reject e''); by eexists.
Qed.
(** The effect of a turn that hands a solution on. *)
Definition handed (o : Offer) `{HexLib} `{Sha256Lib} (header : list byte) (worker : string)
    (answers : nat -> outcome PoolError ()) : session_effect :=
  SubmitBlock (submit_found_block (height (of_job o)) (hash_display_hex (double_sha256 header))
    (assemble_block_hex header (of_coinbase o) (transactions (of_job o))) worker answers).1.
Lemma dedup_new set0 res : ShareResult_hash res ∉ seen set0 ->
  ShareSet_dedup set0 (Ok res) = (ShareSet_insert set0 (ShareResult_hash res), Ok res).
Proof. intros Hn. unfold ShareSet_dedup, ShareSet_contains. by rewrite bool_decide_eq_false_2. Qed.

(** The protocol gives a submission a message type of its own. *)
Class Sv2TypesLaws `{Sv2Lib} : Prop := {
  submit_not_setup : MESSAGE_TYPE_SUBMIT_SHARES_EXTENDED ≠ MESSAGE_TYPE_SETUP_CONNECTION;
  submit_not_open : MESSAGE_TYPE_SUBMIT_SHARES_EXTENDED ≠ MESSAGE_TYPE_OPEN_EXTENDED_MINING_CHANNEL;
}.

Section turns.
Context {Ip : Type} `{!EqDecision Ip} `{!Countable Ip}.
Context {HJ : JsonLib f64} {HL : HexLib} {HLA : HexLaws} {HS : Sha256Lib} {HSA : Sha256Laws} {HB : BitcoinLib} {HV : Sv2Lib}
  {HI : DashIter} {HC : BroadcastLib} {HW : PowLib}.
Context (from_str : string -> outcome string StratumRequest) (error_text : PoolError -> string) (hex_flags : Z -> string)
  (cfg : Config).
Implicit Types (p : Pool Ip).

Lemma verdict_hands_on o header s req env worker :
  handed o header worker (e_answers env)
    ∈ (handle_verdict s req env worker (height (of_job o)) (Ok (block_of o header))).1.2.
Proof.
  unfold handed, block_of, handle_verdict. destruct (submit_found_block _ _ _ _ _) as [effs [u|e|]]; [destruct (credit_share _ _ _)|..];
    cbn [fst snd]; apply elem_of_cons; by left.
Qed.
Lemma sv2_verdict_hands_on o header s env seq worker :
  handed o header worker (e_answers (v_env env))
    ∈ r_effects (sv2_verdict s env seq worker (height (of_job o)) (Ok (block_of o header))).
Proof.
  unfold handed, block_of, sv2_verdict. destruct (submit_found_block _ _ _ _ _) as [effs [u|e|]]; [destruct (sv2_credit_share _ _ _)|..];
    unfold sv2_accept, sv2_reject; rewrite ?reply_effects; cbn [fst r_effects quit]; apply elem_of_cons; by left.
Qed.

(** An event that brings an offer: a line or a frame the session lets through
    to its submission, for a job the engine remembers. *)
Inductive offers p (i : nat) : pool_event Ip -> Offer -> Prop :=
| offers_sv1 ip s env line written req sub entry v :
    p_conns p !! i = Some {| cn_ip := ip; cn_task := Sv1Task s true; cn_todo := [] |} ->
    trim_is_empty line = false -> (try_consume (share_rate (s_guard s)) (e_clk env 0) (e_clk env 1)).2 = true ->
    request_parse from_str line = Ok req -> from_request req = Ok (Submit sub) ->
    s_authorized s = true -> Z.of_nat (length (submit_extranonce2 sub)) = s_extranonce2_size s ->
    find_job (p_engine p) (submit_job_id sub) = Some entry ->
    (let params := share_params s sub empty_str in
     resolve_version (version (je_job entry)) (sp_version_bits params) (sp_version_rolling_mask params) = Ok v) ->
    offers p i (Sv1Turn i env (ReadLine (Some line) written))
      {| of_entry := entry; of_version := v; of_ntime := submit_ntime sub; of_nonce := submit_nonce sub;
         of_prefix := s_extranonce1 s; of_rest := submit_extranonce2 sub; of_seen := seen (s_share_set s) |}
| offers_sv2 ip s env payload sub entry v :
    p_conns p !! i = Some {| cn_ip := ip; cn_task := Sv2Task s true; cn_todo := [] |} ->
    check_message_size (v_guard s) (Z.of_nat (length payload)) = Ok tt ->
    (try_consume (share_rate (v_guard s)) (e_clk (v_env env) 0) (e_clk (v_env env) 1)).2 = true ->
    v_channel_open s = true -> decode_submit_extended payload = Ok sub ->
    Z.of_nat (length (sx_extranonce sub)) = v_extranonce_size s ->
    sv2_find_job s (p_engine p) (sx_job_id sub) = Some entry ->
    resolve_version (version (je_job entry)) (Some (Z.land (sx_version sub) VERSION_ROLLING_MASK)) (Some VERSION_ROLLING_MASK) = Ok v ->
    offers p i (Sv2Turn i env (Inbound MESSAGE_TYPE_SUBMIT_SHARES_EXTENDED payload))
      {| of_entry := entry; of_version := v; of_ntime := sx_ntime sub; of_nonce := sx_nonce sub;
         of_prefix := v_extranonce_prefix s; of_rest := sx_extranonce sub; of_seen := seen (v_share_set s) |}.

(** The turn hands it on. *)
Definition hands_on p i e (o : Offer) (header : list byte) : Prop :=
  exists p' c worker answers, pool_step from_str error_text hex_flags cfg p e = Some ([], p') /\ p_conns p' !! i = Some c /\
    handed o header worker answers ∈ cn_todo c.
Lemma sv1_hands_on ip s env line written req sub entry v p i header :
  let o := {| of_entry := entry; of_version := v; of_ntime := submit_ntime sub; of_nonce := submit_nonce sub;
              of_prefix := s_extranonce1 s; of_rest := submit_extranonce2 sub; of_seen := seen (s_share_set s) |} in
  p_conns p !! i = Some {| cn_ip := ip; cn_task := Sv1Task s true; cn_todo := [] |} ->
  trim_is_empty line = false -> (try_consume (share_rate (s_guard s)) (e_clk env 0) (e_clk env 1)).2 = true ->
  request_parse from_str line = Ok req -> from_request req = Ok (Submit sub) ->
  s_authorized s = true -> Z.of_nat (length (submit_extranonce2 sub)) = s_extranonce2_size s ->
  find_job (p_engine p) (submit_job_id sub) = Some entry ->
  (forall w d, validate_share_no_dedup (share_params s sub w) (je_job entry) entry (s_extranonce1 s) d = Ok (block_of o header)) ->
  double_sha256 header ∉ seen (s_share_set s) ->
  hands_on p i (Sv1Turn i env (ReadLine (Some line) written)) o header.
Proof.
  intros o Hi Hline Hrate Hreq Hsub Hauth Hlen Hjob Hval Hnew.
  set (env' := with_engine env (p_engine p)). set (worker := default "?" (s_worker s)).
  destruct (try_consume (share_rate (s_guard s)) (e_clk env 0) (e_clk env 1)) as [rate ok] eqn:Er. cbn in Hrate. subst ok.
  set (s1 := with_guard s (with_share_rate (s_guard s) rate)).
  assert (exists s2 effs r, handle_line from_str s line env' = Some (s2, effs, r) /\
    handed o header worker (e_answers env') ∈ effs) as (s2 & effs & r & Hl & Hin).
  { unfold handle_line. rewrite Hline. change (e_clk env') with (e_clk env). rewrite Er. cbv iota beta zeta. cbn [negb].
    rewrite Hreq, Hsub. cbn [handle_message]. unfold handle_submit. fold s1.
    change (s_authorized s1) with (s_authorized s). rewrite Hauth. cbn [negb].
    change (s_extranonce2_size s1) with (s_extranonce2_size s). rewrite Hlen, Z.eqb_refl. cbn [negb].
    change (e_engine env') with (p_engine p). rewrite Hjob.
    change (share_params s1 sub (default "?" (s_worker s1))) with (share_params s sub worker).
    change (s_extranonce1 s1) with (s_extranonce1 s). rewrite Hval.
    change (s_share_set s1) with (s_share_set s). rewrite dedup_new by exact Hnew.
    change (default "?" (s_worker s1)) with worker.
    destruct (handle_verdict _ _ _ _ _ _) as [[s2 effs] r] eqn:Ev. exists s2, effs, r. split; [done|].
    pose proof (verdict_hands_on o header (with_share_set s1 (ShareSet_insert (s_share_set s) (ShareResult_hash (block_of o header)))) req env' worker) as H.
    change (height (of_job o)) with (height (je_job entry)) in H. by rewrite Ev in H. }
  unfold hands_on. cbn [Pool.pool_step]. rewrite Hi. cbn [cn_todo cn_ip cn_task sv1_job_event].
  unfold pool_sv1_turn. cbn [session_step]. unfold on_line. fold env'. rewrite Hl.
  destruct r as [msgs|reason]; [destruct written|]; eexists _, _, worker, (e_answers env');
    (split; [reflexivity|]); (split; [apply lookup_insert_eq|]); cbn [cn_todo]; by (exact Hin || (apply elem_of_app; left; exact Hin)).
Qed.
Lemma sv2_hands_on `{!Sv2TypesLaws} ip s env payload sub entry v p i header :
  let o := {| of_entry := entry; of_version := v; of_ntime := sx_ntime sub; of_nonce := sx_nonce sub;
              of_prefix := v_extranonce_prefix s; of_rest := sx_extranonce sub; of_seen := seen (v_share_set s) |} in
  p_conns p !! i = Some {| cn_ip := ip; cn_task := Sv2Task s true; cn_todo := [] |} ->
  check_message_size (v_guard s) (Z.of_nat (length payload)) = Ok tt ->
  (try_consume (share_rate (v_guard s)) (e_clk (v_env env) 0) (e_clk (v_env env) 1)).2 = true ->
  v_channel_open s = true -> decode_submit_extended payload = Ok sub ->
  Z.of_nat (length (sx_extranonce sub)) = v_extranonce_size s ->
  sv2_find_job s (p_engine p) (sx_job_id sub) = Some entry ->
  (forall w d, validate_share_no_dedup (sv2_share_params sub (je_job entry) w) (je_job entry) entry (v_extranonce_prefix s) d
    = Ok (block_of o header)) ->
  double_sha256 header ∉ seen (v_share_set s) ->
  hands_on p i (Sv2Turn i env (Inbound MESSAGE_TYPE_SUBMIT_SHARES_EXTENDED payload)) o header.
Proof.
  intros o Hi Hsize Hrate Hopen Hsub Hlen Hjob Hval Hnew.
  set (env' := sv2_with_engine env (p_engine p)). set (worker := default "?" (v_worker s)).
  destruct (try_consume (share_rate (v_guard s)) (e_clk (v_env env) 0) (e_clk (v_env env) 1)) as [rate ok] eqn:Er.
  cbn in Hrate. subst ok. set (s1 := s <! v_guard ::= fun guard => with_share_rate guard rate !>).
  set (g := p_counters p).
  assert (exists r, sv2_handle_message error_text hex_flags g s env' MESSAGE_TYPE_SUBMIT_SHARES_EXTENDED payload = Some (g, r) /\
    handed o header worker (e_answers (v_env env')) ∈ r_effects r) as (r & Hm & Hin).
  { unfold sv2_handle_message. change (e_clk (v_env env')) with (e_clk (v_env env)). rewrite Er. cbv iota beta zeta. cbn [negb].
    rewrite (proj2 (Z.eqb_neq _ _) submit_not_setup), (proj2 (Z.eqb_neq _ _) submit_not_open), Z.eqb_refl.
    eexists. split; [reflexivity|]. fold s1. unfold sv2_handle_submit.
    change (v_channel_open s1) with (v_channel_open s). rewrite Hopen. cbn [negb]. rewrite Hsub.
    change (v_extranonce_size s1) with (v_extranonce_size s). rewrite Hlen, Z.eqb_refl. cbn [negb].
    change (sv2_find_job s1 (e_engine (v_env env')) (sx_job_id sub)) with (sv2_find_job s (p_engine p) (sx_job_id sub)).
    rewrite Hjob. change (v_extranonce_prefix s1) with (v_extranonce_prefix s). rewrite Hval.
    change (v_share_set s1) with (v_share_set s). rewrite dedup_new by exact Hnew.
    change (default "?" (v_worker s1)) with worker. apply (sv2_verdict_hands_on o header). }
  unfold hands_on. cbn [Pool.pool_step]. rewrite Hi. cbn [cn_todo cn_ip cn_task sv2_job_event].
  unfold pool_sv2_turn. cbn [sv2_step]. unfold on_inbound. rewrite Hsize. fold env' g. rewrite Hm. cbn [mbind option_bind].
  destruct (r_flow r) as [|reason]; eexists _, _, worker, (e_answers (v_env env'));
    (split; [reflexivity|]); (split; [apply lookup_insert_eq|]); cbn [cn_todo]; apply elem_of_app; left; exact Hin.
Qed.
End turns.

(** ** The widths of the extranonce *)

Lemma generate_extranonce1_width counter size : 0 <= size -> Z.of_nat (length (generate_extranonce1 counter size).2) = size.
Proof.
  intros Hs. unfold generate_extranonce1. cbn [snd]. destruct (Z.leb_spec size 8).
  - rewrite length_drop, length_be_bytes. lia.
  - rewrite length_app, length_replicate, length_be_bytes. lia.
Qed.
Section widths.
Context {Ip : Type} `{!EqDecision Ip} `{!Countable Ip}.
Context {HJ : JsonLib f64} {HL : HexLib} {HLA : HexLaws} {HS : Sha256Lib} {HSA : Sha256Laws} {HB : BitcoinLib} {HV : Sv2Lib}
  {HT : Sv2TypesLaws} {HI : DashIter} {HC : BroadcastLib} {HCL : BroadcastLaws} {HW : PowLib}.
Context (from_str : string -> outcome string StratumRequest) (error_text : PoolError -> string) (hex_flags : Z -> string)
  (cfg : Config).
Context (Hfs : forall line, from_str line ≠ Panic) (Hcf : Config.validate cfg = Ok tt)
  (Hu : extranonces_u64 cfg) (Hf : valid_binary prec emax (max_retarget_factor (vardiff cfg)) = true) (Hdec : decodes_ok).
Abbreviation pool_step := (pool_step (Ip := Ip) from_str error_text hex_flags cfg).
Abbreviation pool_run := (pool_run (Ip := Ip) from_str error_text hex_flags cfg).
Implicit Types (p : Pool Ip).

Definition sv1_width (t : task) : Prop :=
  match t with Sv1Task s _ => Z.of_nat (length (s_extranonce1 s)) = extranonce1_size (pool cfg) | _ => True end.
Definition sv1_widths p : Prop := forall i c, p_conns p !! i = Some c -> sv1_width (cn_task c).
Lemma task_move_width engine g t rx g' t' rx' todo :
  task_move from_str error_text hex_flags cfg engine g t rx g' t' rx' todo -> task_ok cfg t -> sv1_width t -> sv1_width t'.
Proof.
  pose proof (validate_vardiff_section cfg Hcf) as Hvd. pose proof (proj1 (proj1 Hu)) as Hsize.
  destruct 1 as [g rx random n1 n2 n3 n4 cn s effs Hs|g rx|g rx n1 n2 n3 n4 g' s effs Hs
    |g s rx env e s' effs msgs go rx' Hs _ _|g s rx env e g' s' effs msgs go rx' Hs _ _|g s rx now1 now2|g s rx now1 now2];
    intros Hok Hw; try done.
  - apply sv1_start_spec in Hs as (_ & He & _). cbn. rewrite He. by apply generate_extranonce1_width.
  - destruct (session_step_inv from_str _ _ _ _ Hfs Hvd Hf s env e Hok) as (s1 & effs1 & msgs1 & go1 & Hs1 & Hi).
    assert (s1 = s') as -> by congruence. cbn. by rewrite (proj1 (inv_extranonce _ _ _ _ _ Hi)).
Qed.
Lemma pool_step_widths p e obs p' :
  tasks_ok cfg p -> sv1_widths p -> pool_step p e = Some (obs, p') -> sv1_widths p'.
Proof.
  intros Hok Hw Hm%pool_step_moves. intros j c'.
  destruct Hm as [i ip t p' Hi Hfree Hc _ _ _|i ip t t' rx' todo obs' p' Hi Hmv Hc _ _ _|i ip t p' Hi _ Hc _ _ _
    |i c e' todo env obs' p' Hi Ht Hc _ _ _ _|i c p' Hi _ Hc _ _ _|obs' p' Hc _ _ _ _]; rewrite Hc.
  - intros [[<- <-]|[_ Hj]]%lookup_insert_Some; [done|by eapply Hw].
  - intros [[<- <-]|[_ Hj]]%lookup_insert_Some; [|by eapply Hw].
    eapply task_move_width; [exact Hmv|exact (Hok _ _ Hi)|exact (Hw _ _ Hi)].
  - intros [_ Hj]%lookup_delete_Some. by eapply Hw.
  - intros [[<- <-]|[_ Hj]]%lookup_insert_Some; [exact (Hw _ _ Hi)|by eapply Hw].
  - intros [_ Hj]%lookup_delete_Some. by eapply Hw.
  - apply Hw.
Qed.
Lemma pool_run_widths sh now l obs p : pool_run (pool_init cfg sh now) l = Some (obs, p) -> tasks_ok cfg p /\ sv1_widths p.
Proof.
  intros Hrun. apply (pool_run_ind from_str error_text hex_flags cfg (fun _ _ p => tasks_ok cfg p /\ sv1_widths p) l)
    with (k := O) (obs := []) in Hrun; [done| |].
  - intros k _ q e o q' [Hok Hw] Hs. split; [|by eapply pool_step_widths]. apply pool_step_moves in Hs. by eapply pool_move_tasks.
  - split; intros i c; cbn [pool_init p_conns]; by rewrite lookup_empty.
Qed.
(** Any offer fills the extranonce the job left room for. *)
Lemma offer_width p i e o : tasks_ok cfg p -> sv1_widths p -> offers from_str p i e o ->
  (length (of_prefix o) + length (of_rest o) = Z.to_nat (extranonce1_size (pool cfg)) + Z.to_nat (extranonce2_size (pool cfg)))%nat.
Proof.
  intros Hok Hw Ho. destruct Hu as [[H1 _] [H2 _]].
  destruct Ho as [ip s env line written req sub entry v Hi _ _ _ _ _ Hlen _ _|ip s env payload sub entry v Hi _ _ _ _ Hlen _ _];
    specialize (Hok _ _ Hi); specialize (Hw _ _ Hi); cbn in *.
  - destruct (inv_extranonce _ _ _ _ _ Hok) as [_ Hn2]. lia.
  - pose proof (vi_split _ _ _ _ Hok). lia.
Qed.
Lemma offer_hands_on p i e o header :
  offers from_str p i e o -> job_wf (of_job o) -> solves o header ->
  (length (of_prefix o) + length (of_rest o))%nat = (extranonce1_len (of_job o) + extranonce2_len (of_job o))%nat ->
  hands_on from_str error_text hex_flags cfg p i e o header.
Proof.
  intros Ho Hwf Hs Hlen. pose proof Hs as (_ & _ & _ & _ & Hnew).
  pose proof (fun params d => solution_is_block o header params d Hwf Hs Hlen) as Hb. clear Hwf Hs Hlen.
  destruct Ho as [ip s env line written req sub entry v Hi Hline Hrate Hreq Hsub Hauth Hl Hjob Hv
    |ip s env payload sub entry v Hi Hsize Hrate Hopen Hsub Hl Hjob Hv].
  - eapply sv1_hands_on; try done. intros w d. apply (Hb (share_params s sub w)); done.
  - eapply sv2_hands_on; try done. intros w d. apply (Hb (sv2_share_params sub (je_job entry) w)); done.
Qed.
(** The job an offer names is one the engine remembers. *)
Lemma find_entry_job h id entry : find_entry h id = Some entry -> exists x, x ∈ h /\ je_job entry = je_job x.
Proof.
  induction h as [|x h IH]; cbn [find_entry]; [done|]. destruct (bool_decide _).
  - intros [= <-]. exists x. split; [apply elem_of_cons; by left|done].
  - intros (y & Hy & Hj)%IH. exists y. split; [apply elem_of_cons; by right|done].
Qed.
Lemma offer_given p i e o : offers from_str p i e o -> gives p (of_job o).
Proof.
  intros Ho.
  assert (exists id, find_job (p_engine p) id = Some (of_entry o)) as [id (x & Hx & Hj)%find_entry_job].
  { destruct Ho as [ip s env line written req sub entry v _ _ _ _ _ _ _ Hjob _|ip s env payload sub entry v _ _ _ _ _ _ Hjob _];
      [by eexists|]. unfold sv2_find_job in Hjob. destruct (engine_job_id _ _) as [id|]; [by eexists|done]. }
  unfold of_job. rewrite Hj. by apply gives_remembered.
Qed.
End widths.

(** ** From the command line *)

(** Every job that is given out was built for an address the operator gave. *)
Lemma main_job_given {Ip : Type} `{!EqDecision Ip} `{!Countable Ip} `{HJ : JsonLib f64} `{HL : HexLib} `{!HexLaws}
    `{HS : Sha256Lib} `{HB : BitcoinLib} `{!BitcoinLaws} `{HV : Sv2Lib} `{HI : DashIter}
    `{HC : BroadcastLib} `{HCL : !BroadcastLaws} `{HW : PowLib} `{HQ : SqliteLib} `{HT : TomlLib}
    from_str error_text hex_flags args read vars cf env sh dash now l obs (p : Pool Ip) job :
  (forall line, from_str line ≠ Panic) -> extranonces_u64 cf ->
  valid_binary prec emax (max_retarget_factor (vardiff cf)) = true -> decodes_ok ->
  main_start args read vars env = Ok (Serving cf sh dash) ->
  pool_run from_str error_text hex_flags cf (pool_init cf sh now) l = Some (obs, p) -> gives p job ->
  exists chain name net address spk ids g,
    be_chain env = Ok chain /\ chain_network chain = Some name /\ network_of name = Some net /\
    given_address cf (load_setting (boot_stats cf env) "coinbase_address" (be_io_setting env)) l address /\
    address_is_valid_for address net = true /\ address_script_pubkey address = Some spk /\
    (build_job ids g address (coinbase_tag (pool cf)) (Z.to_nat (extranonce1_size (pool cf)))
       (Z.to_nat (extranonce2_size (pool cf)))).2 = Ok job.
Proof.
  intros Hfs Hu Hf Hdec [Hcf Hboot]%main_start_serves Hrun Hgives.
  destruct (boot_address _ _ _ _ Hboot) as (chain & name & net & Hch & Hname & Hnet & Hinv & Heng & Ha).
  set (given := given_address cf _ l).
  destruct (pool_run_works from_str error_text hex_flags cf Hfs Hcf Hu Hf Hdec name given l) with (3 := Hrun) as [_ _ _ Hw].
  - intros posted io Hin. right. right. by exists posted, io.
  - apply works_for_init; [done| |done]. destruct Ha as [Ha|Ha]; [by left|by right; left].
  - destruct (Hw job Hgives) as (ids & g & address & Hgiven & (net' & Hnet' & [spk Hspk] & Hval)%validate_ok & Hb).
    exists chain, name, net, address, spk, ids, g. assert (net' = net) as -> by congruence. done.
Qed.
