(* ===== verification/PoolBounds.v ===== *)
(** The bounds of the serving process: what each of its tables and of its
    sessions' memories can hold, whatever the peers send. *)
From S2P Require Export PoolFacts ValidatorFacts EngineFacts.
From Stdlib Require Import Strings.Ascii.

(** ** The ban list and the limiter *)

Section tables.
Context {Ip : Type} `{!EqDecision Ip} `{!Countable Ip}.
Implicit Types (b : BanList Ip) (l : ConnectionRateLimiter Ip) (ip : Ip).

Definition bans_bounded b : Prop := (size (ban_entries b) <= ban_max_entries b)%nat /\ (0 < ban_max_entries b)%nat.
(** Each address has at most a minute's worth of connections on record. *)
Record limiter_bounded l : Prop := {
  lb_size : (size (windows l) <= max_tracked l)%nat;
  lb_window : forall ip ts, windows l !! ip = Some ts -> (length ts <= Z.to_nat (max_per_minute l))%nat;
}.

Lemma size_delete_le {A} (m : gmap Ip A) ip : (size (delete ip m) <= size m)%nat.
Proof. rewrite map_size_delete. destruct (m !! ip); cbn; lia. Qed.
Lemma size_insert_known {A} (m : gmap Ip A) ip x : is_Some (m !! ip) -> size (<[ip:=x]> m) = size m.
Proof. intros [y Hy]. by rewrite map_size_insert, Hy. Qed.
Lemma size_insert_le {A} (m : gmap Ip A) ip x : (size (<[ip:=x]> m) <= S (size m))%nat.
Proof. rewrite map_size_insert. destruct (m !! ip); cbn; lia. Qed.

Lemma is_banned_bounded b ip n1 n2 : bans_bounded b -> bans_bounded (is_banned b ip n1 n2).1.
Proof.
  intros [Hs Hm]. pose proof (size_delete_le (ban_entries b) ip). unfold is_banned, bans_bounded.
  repeat case_match; cbn; lia.
Qed.
Lemma ban_prune_bounded b now : bans_bounded b -> bans_bounded (ban_prune b now).
Proof. intros [Hs Hm]. split; [|done]. cbn. etransitivity; [apply map_size_filter|done]. Qed.
Lemma ban_make_room_max b ip now : ban_max_entries (ban_make_room b ip now) = ban_max_entries b.
Proof. unfold ban_make_room. by repeat case_match. Qed.
Lemma ban_bounded b ip n1 n2 b' : bans_bounded b -> ban b ip n1 n2 = Some b' -> bans_bounded b' /\ ban_max_entries b' = ban_max_entries b.
Proof.
  intros [Hs Hm]. pose proof (ban_make_room_max b ip n1) as Hr.
  assert ((size (<[ip := (n2 + ban_duration (ban_make_room b ip n1))%Z]> (ban_entries (ban_make_room b ip n1))) <= ban_max_entries b)%nat) as Hroom.
  { destruct (make_room_size b ip n1 Hm Hs) as [Hk|Hlt].
    - unfold ban_make_room. rewrite bool_decide_eq_true_2, andb_false_r by done. by rewrite size_insert_known.
    - pose proof (size_insert_le (ban_entries (ban_make_room b ip n1)) ip (n2 + ban_duration (ban_make_room b ip n1))%Z). lia. }
  unfold ban, instant_add. case_match; [|done]. cbn [mbind option_bind]. intros [= <-]. unfold bans_bounded. cbn.
  rewrite Hr. repeat split; lia.
Qed.

Lemma limiter_prune_bounded l now : limiter_bounded l -> limiter_bounded (limiter_prune l now).
Proof.
  intros [Hs Hw]. unfold limiter_prune. destruct (instant_checked_sub _ _); [|done]. split; cbn.
  - etransitivity; [apply map_size_filter|done].
  - intros ip ts [Hl _]%map_lookup_filter_Some. by eapply Hw.
Qed.
Lemma limiter_prune_params l now :
  max_tracked (limiter_prune l now) = max_tracked l /\ max_per_minute (limiter_prune l now) = max_per_minute l.
Proof. unfold limiter_prune. by destruct (instant_checked_sub _ _). Qed.
Lemma record_in_window_bounded l ip cut now :
  limiter_bounded l -> is_Some (windows l !! ip) \/ (size (windows l) < max_tracked l)%nat ->
  limiter_bounded (record_in_window l ip cut now).1.
Proof.
  intros [Hs Hw] Hroom. unfold record_in_window.
  set (entry := match cut with Some c => _ | None => _ end).
  assert (length entry <= Z.to_nat (max_per_minute l))%nat as He.
  { assert (length (default [] (windows l !! ip)) <= Z.to_nat (max_per_minute l))%nat
      by (destruct (windows l !! ip) as [ts|] eqn:E; [by eapply Hw|cbn; lia]).
    unfold entry. destruct cut as [c|]; [|done]. pose proof (filter_length_le (after c) (default [] (windows l !! ip))). lia. }
  assert (forall e, (length e <= Z.to_nat (max_per_minute l))%nat -> limiter_bounded (with_windows l (<[ip:=e]> (windows l)))) as Hk.
  { intros e Hle. split; cbn.
    - destruct Hroom as [Hr|Hr]; [by rewrite size_insert_known|]. pose proof (size_insert_le (windows l) ip e). lia.
    - intros ip' ts. destruct (decide (ip = ip')) as [<-|Hne].
      + rewrite lookup_insert_eq. by intros [= <-].
      + rewrite lookup_insert_ne by done. apply Hw. }
  destruct (Z.leb_spec (max_per_minute l) (Z.of_nat (length entry))); cbn; [by apply Hk|].
  apply Hk. rewrite length_app. cbn. lia.
Qed.
Lemma check_and_record_bounded l ip n1 n2 n3 : limiter_bounded l -> limiter_bounded (check_and_record l ip n1 n2 n3).1.
Proof.
  intros Hl. unfold check_and_record.
  destruct (Nat.leb_spec (max_tracked l) (size (windows l))); cbn [andb]; [|apply record_in_window_bounded; [done|by right]].
  case_bool_decide; cbn [negb]; [apply record_in_window_bounded; [done|by left]|]. cbv zeta.
  destruct (limiter_prune_params l n2) as [Ht _].
  pose proof (limiter_prune_bounded l n2 Hl) as Hp.
  destruct (Nat.leb_spec (max_tracked (limiter_prune l n2)) (size (windows (limiter_prune l n2)))); [done|].
  apply record_in_window_bounded; [done|]. by right.
Qed.
Lemma check_and_record_params l ip n1 n2 n3 :
  max_tracked (check_and_record l ip n1 n2 n3).1 = max_tracked l /\
  max_per_minute (check_and_record l ip n1 n2 n3).1 = max_per_minute l.
Proof.
  destruct (limiter_prune_params l n2) as [H1 H2]. unfold check_and_record, record_in_window.
  repeat case_match; cbn; by split.
Qed.
End tables.

(** ** The memory of a session *)

(** What a turn does to the hashes a session remembers: nothing, one verdict
    recorded, or forgotten with a clean job. *)
Definition tracker_move (set set' : ShareSet) : Prop :=
  set' = set \/ (exists r, set' = (ShareSet_dedup set r).1) \/ set' = ShareSet_clear set.
Definition tracker_bounded (set : ShareSet) : Prop := ShareSet_wf set /\ max_size set = 4096%nat.
Lemma tracker_new_bounded : tracker_bounded ShareSet_new.
Proof. split; [|done]. split; [constructor|]. split; [done|]. cbn. lia. Qed.
Lemma tracker_move_bounded set set' : tracker_move set set' -> tracker_bounded set -> tracker_bounded set'.
Proof.
  intros [->|[[r ->]| ->]] [Hwf Hm]; [by split| |].
  - destruct r as [res|e|]; cbn; [|by split..]. destruct (ShareSet_contains set (ShareResult_hash res)) eqn:E; [by split|].
    apply bool_decide_eq_false in E. destruct (ShareSet_insert_fresh set _ Hwf E) as (Hwf' & Hm' & _). split; [done|]. cbn. congruence.
  - destruct Hwf as (_ & _ & _ & Hpos). split; [|done]. split; [constructor|]. split; [done|]. cbn. split; [lia|done].
Qed.
Lemma tracker_bounded_size set : tracker_bounded set -> (size (seen set) <= 4096)%nat /\ (length (Validator.order set) <= 4096)%nat.
Proof. intros [Hwf Hm]. rewrite (ShareSet_size set Hwf). destruct Hwf as (_ & _ & Hl & _). rewrite Hm in Hl. by split. Qed.

Section sv1.
Context {HJ : JsonLib f64} {HL : HexLib} {HS : Sha256Lib} (from_str : string -> outcome string StratumRequest).
Implicit Types (s : Session) (env : Env).
Lemma tracker_same s s' : s_share_set s' = s_share_set s -> tracker_move (s_share_set s) (s_share_set s').
Proof. by left. Qed.
Lemma handle_authorize_tracker s req p env : s_share_set (handle_authorize s req p env).1.1 = s_share_set s.
Proof.
  unfold handle_authorize, adopt_worker. cbv zeta. repeat case_match; simplify_eq; try done.
Qed.
Lemma count_invalid_tracker s req e : s_share_set (count_invalid s req e).1 = s_share_set s.
Proof. unfold count_invalid. by destruct (record_invalid _). Qed.
Lemma handle_verdict_tracker s req env w h v : s_share_set (handle_verdict s req env w h v).1.1 = s_share_set s.
Proof.
  destruct v as [[a d hash|d hex hash]|e|]; cbn; [done| | |done].
  - by destruct (submit_found_block _ _ _ _ _) as [effs [[]|x|]].
  - destruct (is_malicious e); [|done]. unfold count_invalid. by destruct (record_invalid _).
Qed.
Lemma handle_submit_tracker s req p env : tracker_move (s_share_set s) (s_share_set (handle_submit s req p env).1.1).
Proof.
  pose proof (handle_submit_outcome s req p env) as Ho. remember (handle_submit s req p env) as out.
  destruct Ho as [Ha|s1 r1 Ha Hl Hc|Ha Hl Hf|entry Ha Hl Hf Hv|entry set verdict Ha Hl Hf Hv]; try by left.
  - left. pose proof (count_invalid_tracker s req (BadExtranonceSize (Z.of_nat (length (submit_extranonce2 p))) (s_extranonce2_size s))) as H.
    by rewrite Hc in H.
  - right. left. rewrite handle_verdict_tracker. cbn. unfold submit_verdict in Hv. eexists. by rewrite Hv.
Qed.
Lemma handle_line_tracker s line env s' effs r :
  handle_line from_str s line env = Some (s', effs, r) -> tracker_move (s_share_set s) (s_share_set s').
Proof.
  unfold handle_line. destruct (trim_is_empty line); [intros [= <- <- <-]; by left|].
  destruct (try_consume _ _ _) as [rate allowed].
  set (s1 := with_guard s _). assert (s_share_set s1 = s_share_set s) as <- by done. clearbody s1.
  destruct (negb allowed); [intros [= <- <- <-]; by left|].
  destruct (request_parse _ _) as [req|e|]; [|intros [= <- <- <-]; by left|done].
  destruct (from_request req) as [m|e|]; [|intros [= <- <- <-]; by left|done].
  destruct m as [p|p|p|p|x|m]; cbn [handle_message].
  - intros [= <- <- <-]. by left.
  - intros [= H]. pose proof (handle_authorize_tracker s1 req p env) as Hk. rewrite H in Hk. by left.
  - intros [= H]. pose proof (handle_submit_tracker s1 req p env) as Hk. by rewrite H in Hk.
  - intros [= <- <- <-]. left. unfold handle_configure. by destruct (version_rolling p).
  - unfold handle_suggest_difficulty. destruct (suggest _ _ _) as [[v a]|]; [|done]. cbn. intros [= <- <- <-]. by left.
  - intros [= <- <- <-]. by left.
Qed.
Lemma session_step_tracker s env e s' effs msgs go :
  session_step from_str s env e = Some (s', effs, msgs, go) -> tracker_move (s_share_set s) (s_share_set s').
Proof.
  destruct e as [| | | |[line|] wr|wr|b wr| |]; cbn [session_step].
  1-4,6,9-10: intros H; injection H as <- <- <- <-; by left.
  - unfold on_line. destruct (handle_line from_str s line env) as [[[s1 effs1] r]|] eqn:E; [|done].
    apply handle_line_tracker in E. intros H. enough (s' = s1) as -> by done.
    destruct r; [destruct wr|]; congruence.
  - destruct (retarget_enabled s); [|intros H; injection H as <- <- <- <-; by left].
    unfold on_retarget. destruct (check_retarget _ _ _ _) as [[v [x|]]|]; cbn [mbind option_bind]; [| |done];
      intros H; injection H as <- <- <- <-; by left.
  - unfold on_job. cbv zeta. intros H.
    assert (s_share_set s' = s_share_set (if jb_clean b then with_share_set s (ShareSet_clear (s_share_set s)) else s)) as ->
      by (destruct (_ && _); by injection H as <- _ _ _).
    destruct (jb_clean b); [by right; right|by left].
Qed.
End sv1.

Section sv2.
Context {HL : HexLib} {HS : Sha256Lib} {HV : Sv2Lib} (error_text : PoolError -> string) (hex_flags : Z -> string).
Implicit Types (s : Sv2Session) (g : Counters) (env : Sv2Env).

(** What a turn does to the hashes and to the job identifiers. *)
Definition memory_move s s' : Prop :=
  tracker_move (v_share_set s) (v_share_set s') /\
  (v_job_ids s' = v_job_ids s \/ (length (v_job_ids s') <= MAX_JOB_IDS)%nat).
Lemma memory_same s s' : v_share_set s' = v_share_set s -> v_job_ids s' = v_job_ids s -> memory_move s s'.
Proof. by repeat split; left. Qed.
Lemma memory_sent s s' :
  v_share_set s' = v_share_set s -> (length (v_job_ids s') <= MAX_JOB_IDS)%nat -> memory_move s s'.
Proof. split; [by left|by right]. Qed.
Lemma memory_from s1 s s' :
  v_share_set s1 = v_share_set s -> v_job_ids s1 = v_job_ids s -> memory_move s1 s' -> memory_move s s'.
Proof. unfold memory_move. by intros -> ->. Qed.
#[local] Hint Resolve memory_same : core.

Lemma send_job_memory s env k job future :
  v_share_set (send_job s env k job future).1.1 = v_share_set s /\
  (length (v_job_ids (send_job s env k job future).1.1) <= MAX_JOB_IDS)%nat.
Proof.
  assert (v_share_set (assign_job_id s (job_id job)).1 = v_share_set s /\
    (length (v_job_ids (assign_job_id s (job_id job)).1) <= MAX_JOB_IDS)%nat) as Ha.
  { split; [done|]. cbn. rewrite trim_front_drop, length_drop. lia. }
  unfold send_job. destruct (assign_job_id s (job_id job)) as [s1 id]. cbv zeta. cbn [fst] in Ha.
  by repeat case_match.
Qed.
Lemma announce_channel_memory s env effs m : memory_move s (r_session (announce_channel s env effs m)).
Proof.
  unfold announce_channel. destruct (send env 0 m); [|by apply memory_same..]. cbv zeta.
  destruct (v_pending_job (s <! v_channel_open := true !>)) as [job|]; [|by apply memory_same].
  pose proof (send_job_memory (s <! v_channel_open := true !>) env 1 job true) as [H1 H2].
  destruct (send_job _ env 1 job true) as [[s2 ms] ok]. destruct ok; by apply memory_sent.
Qed.
Lemma open_fields_memory s s' s'' : open_fields s' = open_fields s -> memory_move s' s'' -> memory_move s s''.
Proof. unfold open_fields. intros [= _ _ _ _ _ H1 _ _ H2 _ _]. by apply memory_from. Qed.
Lemma assign_channel_memory g s requested w g' s' :
  assign_channel g s requested w = Some (g', s') -> v_share_set s' = v_share_set s /\ v_job_ids s' = v_job_ids s.
Proof.
  unfold assign_channel. destruct (_ <? _); [done|]. destruct (generate_extranonce1 _ _). by intros [= _ <-].
Qed.
Lemma handle_open_memory g s env payload g' r :
  handle_open_extended g s env payload error_text = Some (g', r) -> memory_move s (r_session r).
Proof.
  unfold handle_open_extended. destruct (negb _); [intros [= _ <-]; by apply memory_same|].
  destruct (decode_open_extended payload) as [open|e|]; [|intros [= _ <-]; by apply memory_same|done].
  destruct (check_worker_name _ _); [|intros [= _ <-]; by apply memory_same|done]. cbv zeta.
  destruct (_ <? _); [intros [= _ <-]; by apply memory_same|].
  assert (forall s1 gone (new : bool), open_fields s1 = open_fields s -> forall out,
    ('(g, s1) ← assign_channel g s1 (min_extranonce_size open) (user_identity open);
     let target := opening_target (v_difficulty s1) (max_target open) in
     let '(s1, come) := if new then adopt_identity s1 (v_env env) (user_identity open) else (s1, []) in
     let effs := gone ++ come in
     let m := open_extended_success (open_request_id open) (v_channel_id s1) target
                (wrap 16 (v_extranonce_size s1)) (v_extranonce_prefix s1) in
     Some (g, announce_channel s1 env effs m)) = Some out -> memory_move s (r_session out.2)) as Hgo.
  { intros s1 gone new Hs1 out. destruct (assign_channel _ _ _ _) as [[g2 s2]|] eqn:E; [|done]. cbn [mbind option_bind].
    apply assign_channel_memory in E as [E1 E2]. cbv zeta. intros H. eapply open_fields_memory; [exact Hs1|].
    destruct new.
    - pose proof (adopt_identity_spec s2 (v_env env) (user_identity open)) as (Ho & _ & _).
      destruct (adopt_identity _ _ _) as [s3 come]. injection H as <-. eapply memory_from; [exact E1|exact E2|].
      eapply open_fields_memory; [exact Ho|]. apply announce_channel_memory.
    - injection H as <-. eapply memory_from; [exact E1|exact E2|]. apply announce_channel_memory. }
  destruct (negb (bool_decide _)).
  - destruct (record_new_authorization _) as [guard [|]]; cbn [negb]; [|intros [= _ <-]; by apply memory_same].
    pose proof (release_worker_spec (s <! v_guard := guard !>) (e_clk (v_env env) 2)) as [Ho _].
    destruct (release_worker _ _) as [s2 gone]. intros H. by apply (Hgo s2 gone true Ho) in H.
  - cbn [negb]. intros H. by apply (Hgo s [] false eq_refl) in H.
Qed.
Lemma sv2_verdict_memory s env seq w h v :
  v_share_set (r_session (sv2_verdict s env seq w h v)) = v_share_set s /\
  v_job_ids (r_session (sv2_verdict s env seq w h v)) = v_job_ids s.
Proof.
  unfold sv2_verdict, sv2_accept, sv2_reject, sv2_credit_share, sv2_count_invalid. cbv zeta.
  repeat case_match; simplify_eq; rewrite ?reply_session; done.
Qed.
Lemma sv2_handle_submit_memory s env p : memory_move s (r_session (sv2_handle_submit s env p)).
Proof.
  unfold sv2_handle_submit. destruct (negb (v_channel_open s)); [by apply memory_same|].
  destruct (decode_submit_extended p) as [submit|e|]; [|by apply memory_same..]. cbv zeta.
  destruct (negb (_ =? _)).
  { unfold sv2_count_invalid, sv2_reject. destruct (record_invalid _) as [cn []]; rewrite ?reply_session; by apply memory_same. }
  destruct (sv2_find_job _ _ _) as [entry|].
  2: { unfold sv2_reject. rewrite reply_session. by apply memory_same. }
  destruct (validate_share_no_dedup _ _ _ _ _) as [x|e|]; [| |by apply memory_same];
    destruct (ShareSet_dedup _ _) as [set verdict] eqn:E; unfold memory_move;
    destruct (sv2_verdict_memory (s <! v_share_set := set !>) env (sequence_number submit) (default "?" (v_worker s))
      (height (je_job entry)) verdict) as [-> ->]; (split; [right; left; eexists; by rewrite E|by left]).
Qed.
Lemma handle_setup_memory s env p : memory_move s (r_session (handle_setup_connection s env p hex_flags)).
Proof.
  unfold handle_setup_connection, setup_error. repeat case_match; rewrite ?reply_session; by apply memory_same.
Qed.
Lemma sv2_step_memory g s env e g' s' effs msgs go :
  sv2_step error_text hex_flags g s env e = Some (g', s', effs, msgs, go) -> memory_move s s'.
Proof.
  destruct e as [| | |t p| |b| |]; cbn [sv2_step];
    try (intros H; injection H as <- <- <- <- <-; by apply memory_same).
  - unfold on_inbound. destruct (check_message_size _ _); [|intros H; injection H as <- <- <- <- <-; by apply memory_same..].
    destruct (sv2_handle_message _ _ g s env t p) as [[g1 r]|] eqn:Em; [|done]. cbn [mbind option_bind]. intros H.
    assert (s' = r_session r) as -> by (destruct (r_flow r); by injection H as <- <- <- <- <-). clear H. revert Em.
    unfold sv2_handle_message. destruct (try_consume _ _ _) as [rate allowed]. cbv zeta.
    set (s1 := s <! v_guard ::= _ !>). intros Em. eapply (memory_from s1); [done|done|]. clearbody s1. revert Em.
    destruct (negb allowed); [intros [= _ <-]; by apply memory_same|].
    destruct (_ =? _); [intros [= _ <-]; apply handle_setup_memory|].
    destruct (_ =? _); [apply handle_open_memory|].
    destruct (_ =? _); intros [= _ <-]; [apply sv2_handle_submit_memory|by apply memory_same].
  - destruct (v_channel_open s); [|intros H; injection H as <- <- <- <- <-; by apply memory_same].
    unfold sv2_on_retarget. destruct (check_retarget _ _ _ _) as [[v [d|]]|]; cbn [mbind option_bind]; [| |done].
    + destruct (send env 0 _); intros H; injection H as <- <- <- <- <-; by apply memory_same.
    + intros H; injection H as <- <- <- <- <-; by apply memory_same.
  - unfold sv2_on_job. cbv zeta. set (s1 := if jb_clean b then _ else s).
    assert (tracker_move (v_share_set s) (v_share_set s1) /\ v_job_ids s1 = v_job_ids s) as [Ht Hj]
      by (unfold s1; destruct (jb_clean b); (split; [|done]); [by right; right|by left]).
    clearbody s1. destruct (v_channel_open s1).
    + pose proof (send_job_memory s1 env 0 (jb_job b) (jb_clean b)) as [H1 H2].
      destruct (send_job s1 env 0 (jb_job b) (jb_clean b)) as [[s2 ms] ok]. cbn [fst] in H1, H2.
      destruct ok; intros H; injection H as _ <- _ _ _; (split; [cbn; by rewrite H1|by right]).
    + intros H; injection H as _ <- _ _ _. split; [done|by left].
Qed.
End sv2.

(** ** The pool *)

Definition task_bounded (t : task) : Prop :=
  match t with
  | Sv1Task s _ => tracker_bounded (s_share_set s)
  | Sv2Task s _ => tracker_bounded (v_share_set s) /\ (length (v_job_ids s) <= MAX_JOB_IDS)%nat
  | _ => True
  end.

Section pool.
Context {Ip : Type} `{!EqDecision Ip} `{!Countable Ip}.
Context {HJ : JsonLib f64} {HL : HexLib} {HS : Sha256Lib} {HB : BitcoinLib} {HV : Sv2Lib} {HI : DashIter}
  {HC : BroadcastLib} {HW : PowLib} {HCL : BroadcastLaws}.
Context (from_str : string -> outcome string StratumRequest) (error_text : PoolError -> string) (hex_flags : Z -> string)
  (cfg : Config).
Abbreviation pool_step := (pool_step (Ip := Ip) from_str error_text hex_flags cfg).
Abbreviation pool_run := (pool_run (Ip := Ip) from_str error_text hex_flags cfg).
Abbreviation pool_move := (pool_move (Ip := Ip) from_str error_text hex_flags cfg).
Abbreviation task_move := (task_move from_str error_text hex_flags cfg).
Implicit Types (p : Pool Ip) (rx : option Rx).

(** *** The ban list and the limiter along a run *)

Record tables_bounded p : Prop := {
  tb_bans : bans_bounded (p_bans p);
  tb_bans_max : ban_max_entries (p_bans p) = MAX_TRACKED_IPS;
  tb_limiter : limiter_bounded (p_limiter p);
  tb_limiter_max : max_tracked (p_limiter p) = MAX_TRACKED_IPS;
  tb_per_minute : max_per_minute (p_limiter p) = max_connections_per_ip (security cfg);
}.
Lemma tables_put p p' :
  tables_bounded p -> bans_bounded (p_bans p') /\ ban_max_entries (p_bans p') = ban_max_entries (p_bans p) ->
  limiter_bounded (p_limiter p') /\ max_tracked (p_limiter p') = max_tracked (p_limiter p) /\
    max_per_minute (p_limiter p') = max_per_minute (p_limiter p) -> tables_bounded p'.
Proof. intros [H1 H2 H3 H4 H5] [Hb Hm] (Hl & Ht & Hp). split; [done|by rewrite Hm|done|by rewrite Ht|by rewrite Hp]. Qed.
Lemma tables_same p p' : p_bans p' = p_bans p -> p_limiter p' = p_limiter p -> tables_bounded p -> tables_bounded p'.
Proof. intros Hb Hl Hp. apply (tables_put p); [done|rewrite Hb|rewrite Hl]; by destruct Hp. Qed.
Lemma check_bans p ip b1 b2 : tables_bounded p ->
  bans_bounded (is_banned (p_bans p) ip b1 b2).1 /\ ban_max_entries (is_banned (p_bans p) ip b1 b2).1 = ban_max_entries (p_bans p).
Proof. intros Hp. split; [apply is_banned_bounded; by destruct Hp|apply is_banned_params]. Qed.
Lemma tables_bans p p' ip b1 b2 :
  tables_bounded p -> p_bans p' = (is_banned (p_bans p) ip b1 b2).1 -> p_limiter p' = p_limiter p -> tables_bounded p'.
Proof. intros Hp Hb Hl. apply (tables_put p); [done|rewrite Hb; by apply check_bans|rewrite Hl; by destruct Hp]. Qed.
Lemma accept_tables p i ip b1 b2 r1 r2 r3 :
  tables_bounded p -> tables_bounded (pool_accept cfg p i ip b1 b2 r1 r2 r3).2.
Proof.
  intros Hp. unfold pool_accept, admission. cbv zeta. pose proof (check_bans p ip b1 b2 Hp) as Hb.
  assert (limiter_bounded (p_limiter p)) as Hl by by destruct Hp.
  pose proof (check_and_record_bounded (p_limiter p) ip r1 r2 r3 Hl) as Hc.
  pose proof (check_and_record_params (p_limiter p) ip r1 r2 r3) as Hm.
  destruct (negb _); [by apply (tables_same p)|].
  destruct (is_banned _ _ _ _) as [bans [|]]; cbn [fst] in Hb; [by apply (tables_put p)|].
  destruct (check_and_record _ _ _ _ _) as [lim [|]]; cbn [fst] in Hc, Hm; by apply (tables_put p).
Qed.
Lemma first_byte_tables p i ip pk b1 b2 random n1 n2 n3 n4 :
  tables_bounded p -> tables_bounded (pool_first_byte cfg p i ip pk b1 b2 random n1 n2 n3 n4).2.
Proof.
  intros Hp. unfold pool_first_byte. destruct (detect _ _); [| |by apply (tables_same p)..];
    pose proof (fun p' => tables_bans p p' ip b1 b2 Hp) as H; destruct (is_banned _ _ _ _) as [bans banned]; cbv zeta; cbn [fst] in H.
  - destruct (session_start _ _ _ _ _ _ _ _ _) as [c [[s effs]|]]; by apply H.
  - destruct banned; by apply H.
Qed.
Lemma settle_tables p i c e todo env b1 b2 obs p' :
  tables_bounded p -> pool_settle p i c e todo env b1 b2 = Some (obs, p') -> tables_bounded p'.
Proof.
  intros Hp. unfold pool_settle, panicked. cbv zeta.
  destruct e; try (intros [-> ->]%stepped_inj; by apply (tables_same p)).
  destruct (in_order _ _ _); [|done]. destruct (ban _ _ _ _) as [bans|] eqn:E.
  - apply ban_bounded in E; [|by destruct Hp]. intros [-> ->]%stepped_inj.
    apply (tables_put p); [done|exact E|by destruct Hp].
  - destruct (cn_task c) as [| |s go|s [|]|]; intros [-> ->]%stepped_inj; by apply (tables_same p).
Qed.
Lemma receive_tables p i got q : receive p i = Some (got, q) -> p_bans q = p_bans p /\ p_limiter q = p_limiter p.
Proof.
  unfold receive. destruct (p_receivers p !! i); [|done]. cbn [mbind option_bind].
  destruct (rx_recv _) as [[b r']|]; [|done]. by intros [-> ->]%stepped_inj.
Qed.
Lemma sv1_turn_tables q i ip s env e obs p' :
  tables_bounded q -> pool_sv1_turn from_str q i ip s env e = Some (obs, p') -> tables_bounded p'.
Proof.
  intros Hq. unfold pool_sv1_turn, panicked.
  destruct (session_step _ _ _ _) as [[[[s' effs] msgs] go]|]; intros [-> ->]%stepped_inj; by apply (tables_same q).
Qed.
Lemma sv2_turn_tables q i ip s env e obs p' :
  tables_bounded q -> pool_sv2_turn error_text hex_flags q i ip s env e = Some (obs, p') -> tables_bounded p'.
Proof.
  intros Hq. unfold pool_sv2_turn, panicked.
  destruct (sv2_step _ _ _ _ _ _) as [[[[[g s'] effs] msgs] go]|]; intros [-> ->]%stepped_inj; by apply (tables_same q).
Qed.
Lemma pool_step_tables p e obs p' : tables_bounded p -> pool_step p e = Some (obs, p') -> tables_bounded p'.
Proof.
  intros Hp. destruct e as [i ip b1 b2 r1 r2 r3|i pk b1 b2 random n1 n2 n3 n4|i ok n1 n2 n3 n4|i env e|i env e|i env w|i env
    |k gbt clean|k now|address io|i env b1 b2|i now1 now2|i|b r now io|now a b|ts io|poll]; cbn [Pool.pool_step].
  2-7,12-13: destruct (p_conns p !! i) as [[ip t [|]]|]; [|done..]; cbn [cn_todo cn_ip cn_task];
    destruct t as [| |s [|]|s [|]|]; try done.
  - destruct (_ && _); [|done]. intros [= H]. pose proof (accept_tables p i ip b1 b2 r1 r2 r3 Hp) as Ha. by rewrite H in Ha.
  - destruct (in_order _ _ _); [|done]. intros [= H].
    pose proof (first_byte_tables p i ip pk b1 b2 random n1 n2 n3 n4 Hp) as Ha. by rewrite H in Ha.
  - intros [-> ->]%stepped_inj. unfold pool_handshake. destruct (sv2_start _ _ _ _ _ _ _ _ _) as [g [[s effs]|]]; by apply (tables_same p).
  - destruct (sv1_job_event e); [done|]. by apply sv1_turn_tables.
  - destruct (sv2_job_event e); [done|]. by apply sv2_turn_tables.
  - unfold pool_sv1_job. destruct (receive p i) as [[got q]|] eqn:E; [|done]. apply receive_tables in E as [E1 E2].
    apply sv1_turn_tables. by apply (tables_same p).
  - unfold pool_sv2_job. destruct (receive p i) as [[got q]|] eqn:E; [|done]. apply receive_tables in E as [E1 E2].
    apply sv2_turn_tables. by apply (tables_same p).
  - intros [-> ->]%stepped_inj. by apply (tables_same p).
  - intros [-> ->]%stepped_inj. by apply (tables_same p).
  - intros [-> ->]%stepped_inj. by apply (tables_same p).
  - destruct (p_refreshes p !! k); [done|]. intros [-> ->]%stepped_inj. unfold pool_refresh.
    destruct (refresh_job _ _ _ _) as [ids [job|why|]]; by apply (tables_same p).
  - destruct (p_refreshes p !! k) as [[job cl|job cl|job cl]|]; [..|done]; intros [-> ->]%stepped_inj; cbn [pool_refresh_next];
      [destruct (commit_job _ _ _ _)|..]; by apply (tables_same p).
  - intros [-> ->]%stepped_inj. unfold pool_settings_post. destruct (change_address _ _ _ _) as [[settings stats] r].
    by apply (tables_same p).
  - destruct (p_conns p !! i) as [c|]; [|done]. destruct (cn_todo c) as [|e todo]; [done|]. by apply settle_tables.
  - destruct (_ <=? _); [|done]. cbn. intros [-> ->]%stepped_inj.
    apply (tables_put p); [done|split; [by apply ban_prune_bounded; destruct Hp|done]|].
    split; [by apply limiter_prune_bounded; destruct Hp|apply limiter_prune_params].
  - intros [-> ->]%stepped_inj. by apply (tables_same p).
  - intros [-> ->]%stepped_inj. by apply (tables_same p).
  - intros [-> ->]%stepped_inj. by apply (tables_same p).
Qed.

(** *** The connections, their sessions, the channel and the job history *)

Definition rx_bounded rx : Prop := forall r, rx = Some r -> (length (rx_pending r) <= JOB_BROADCAST_CAP)%nat.
Record pool_bounded p : Prop := {
  pb_conns : (size (p_conns p) <= Z.to_nat (max_connections (pool cfg)))%nat;
  pb_tasks : forall i c, p_conns p !! i = Some c -> task_bounded (cn_task c);
  pb_history : (length (job_history (p_engine p)) <= JOB_HISTORY_DEPTH)%nat;
  pb_receivers : forall i, rx_bounded (p_receivers p !! i);
}.
Lemma rx_subscribe_bounded : rx_bounded (Some rx_subscribe).
Proof. intros r [= <-]. rewrite rx_subscribe_pending. cbn. lia. Qed.
Lemma hears_bounded got rx rx' : hears got rx rx' -> rx_bounded rx -> rx_bounded rx'.
Proof.
  destruct got as [b|]; [|by intros ->]. intros (r & r' & -> & Hr & ->) Hb r0 [= <-]. specialize (Hb r eq_refl).
  pose proof (rx_recv_pending r) as Hp. rewrite Hr in Hp. destruct b as [b|]; rewrite Hp in *; cbn in *; lia.
Qed.
Lemma rx_send_bounded b rx : rx_bounded (rx_send JOB_BROADCAST_CAP b <$> rx).
Proof.
  intros r Hr. destruct rx as [r0|]; [|done]. injection Hr as <-. rewrite rx_send_pending by (unfold JOB_BROADCAST_CAP; lia).
  unfold lastn. rewrite length_drop. lia.
Qed.
Lemma task_move_bounded engine g t rx g' t' rx' todo :
  task_move engine g t rx g' t' rx' todo -> task_bounded t -> rx_bounded rx -> task_bounded t' /\ rx_bounded rx'.
Proof.
  destruct 1 as [g rx random n1 n2 n3 n4 cn s effs Hs|g rx|g rx n1 n2 n3 n4 g' s effs Hs
    |g s rx env e s' effs msgs go rx' Hs _ Hh|g s rx env e g' s' effs msgs go rx' Hs _ Hh|g s rx now1 now2|g s rx now1 now2];
    cbn [task_bounded]; intros Ht Hr; try done.
  - split; [|apply rx_subscribe_bounded]. unfold session_start in Hs. destruct (generate_extranonce1 _ _).
    assert (s_share_set s = ShareSet_new) as -> by (destruct (current_job engine); by injection Hs as _ <- _).
    apply tracker_new_bounded.
  - split; [|apply rx_subscribe_bounded]. unfold sv2_start in Hs. cbn [orb negb] in Hs. destruct (generate_extranonce1 _ _).
    assert (v_share_set s = ShareSet_new /\ v_job_ids s = []) as [-> ->] by by injection Hs as _ <- _.
    split; [apply tracker_new_bounded|]. cbn. lia.
  - split; [|by eapply hears_bounded]. eapply tracker_move_bounded; [|exact Ht]. by eapply session_step_tracker.
  - split; [|by eapply hears_bounded]. apply sv2_step_memory in Hs as [Hset Hids]. destruct Ht as [Ht Hl].
    split; [by eapply tracker_move_bounded|]. destruct Hids as [->|]; done.
Qed.
Lemma push_history_bounded e job clean now :
  (length (job_history e) <= JOB_HISTORY_DEPTH)%nat -> (length (job_history (push_history e job clean now)) <= JOB_HISTORY_DEPTH)%nat.
Proof.
  intros H. unfold push_history. cbn [job_history]. rewrite length_app. cbn [length].
  destruct (Nat.leb_spec JOB_HISTORY_DEPTH (length (job_history e))); [|lia].
  destruct (job_history e); cbn in *; unfold JOB_HISTORY_DEPTH in *; lia.
Qed.
Lemma refresh_move_bounded p p' : pool_bounded p -> refresh_move cfg p p' ->
  (length (job_history (p_engine p')) <= JOB_HISTORY_DEPTH)%nat /\ forall i, rx_bounded (p_receivers p' !! i).
Proof.
  intros [_ _ Hh Hr]. destruct 1 as [why He _ Hx|k gbt job clean _ _ He _ Hx|k job clean now cl _ He _ Hx|k job cl now _ He _ Hx
    |k job cl _ He _ Hx]; rewrite Hx.
  - split; [by rewrite He|done].
  - split; [by rewrite He|done].
  - split; [|done]. unfold commit_job in He. by injection He as <- _.
  - split; [rewrite He; by apply push_history_bounded|done].
  - split; [by rewrite He|]. intros i. rewrite lookup_fmap. apply rx_send_bounded.
Qed.
(** A move that leaves the engine alone and changes connection [i] only. *)
Lemma bounded_put p p' i c rx' :
  pool_bounded p -> p_engine p' = p_engine p -> p_conns p' = <[i := c]> (p_conns p) -> task_bounded (cn_task c) ->
  p_receivers p' = partial_alter (fun _ => rx') i (p_receivers p) -> rx_bounded rx' ->
  is_Some (p_conns p !! i) \/ (size (p_conns p) < Z.to_nat (max_connections (pool cfg)))%nat -> pool_bounded p'.
Proof.
  intros [Hc Ht Hh Hr] He Hp Hb Hx Hrx Hroom. split.
  - rewrite Hp. destruct Hroom as [Hk|Hk]; [by rewrite size_insert_known|]. pose proof (size_insert_le (p_conns p) i c). lia.
  - intros j d. rewrite Hp. intros [[<- <-]|[_ Hj]]%lookup_insert_Some; [done|by eapply Ht].
  - by rewrite He.
  - intros j. rewrite Hx. destruct (decide (i = j)) as [<-|Hne]; [by rewrite lookup_partial_alter_eq|by rewrite lookup_partial_alter_ne].
Qed.
Lemma bounded_drop p p' i :
  pool_bounded p -> p_engine p' = p_engine p -> p_conns p' = delete i (p_conns p) ->
  p_receivers p' = delete i (p_receivers p) -> pool_bounded p'.
Proof.
  intros [Hc Ht Hh Hr] He Hp Hx. split.
  - rewrite Hp. pose proof (size_delete_le (p_conns p) i). lia.
  - intros j d. rewrite Hp. intros [_ Hj]%lookup_delete_Some. by eapply Ht.
  - by rewrite He.
  - intros j r. rewrite Hx. intros [_ Hj]%lookup_delete_Some. by eapply Hr.
Qed.
Lemma bounded_same p p' : pool_bounded p -> p_conns p' = p_conns p ->
  (length (job_history (p_engine p')) <= JOB_HISTORY_DEPTH)%nat /\ (forall i, rx_bounded (p_receivers p' !! i)) -> pool_bounded p'.
Proof. intros [Hc Ht Hh Hr] Hp [H1 H2]. split; rewrite ?Hp; done. Qed.
Lemma pool_move_bounded p obs p' : pool_bounded p -> pool_move p obs p' -> pool_bounded p'.
Proof.
  intros Hp. destruct 1 as [i ip t p' Hi Hroom Hc _ _ (He & _ & Hx & _)|i ip t t' rx' todo obs p' Hi Hm Hc _ _ (He & _ & Hx & _)
    |i ip t p' Hi _ Hc _ _ (He & _ & Hx & _)|i c e todo env obs p' Hi Ht Hc _ _ _ (He & _ & Hx & _)
    |i c p' Hi _ Hc _ _ (He & _ & Hx & _)|obs p' Hc _ _ _ Hk].
  - eapply (bounded_put p p' i _ (p_receivers p !! i)); [done|done|exact Hc|done| |by apply pb_receivers|right; lia].
    by rewrite Hx, partial_alter_self.
  - apply task_move_bounded in Hm as [Hb Hr]; [|exact (pb_tasks _ Hp i _ Hi)|by apply pb_receivers].
    eapply (bounded_put p p' i); [done|done|exact Hc|exact Hb|exact Hx|exact Hr|left; by eexists].
  - by apply (bounded_drop p p' i).
  - eapply (bounded_put p p' i _ (p_receivers p !! i)); [done|done|exact Hc|exact (pb_tasks _ Hp i _ Hi)| |by apply pb_receivers|left; by eexists].
    by rewrite Hx, partial_alter_self.
  - by apply (bounded_drop p p' i).
  - apply (bounded_same p); [done|done|].
    destruct Hk as [(He & _ & Hx & _)|[[Hm _]|(_ & He & _ & Hx)]]; [|by apply (refresh_move_bounded p)|]; rewrite He, Hx; by destruct Hp.
Qed.

Lemma pool_init_bounded sh now : (length (job_history (sh_engine sh)) <= JOB_HISTORY_DEPTH)%nat ->
  tables_bounded (pool_init cfg sh now) /\ pool_bounded (pool_init cfg sh now).
Proof.
  intros Hh. split.
  - split; [split|done|split|done|done]; cbn [p_bans p_limiter pool_init banlist_new limiter_new ban_entries windows ban_max_entries max_tracked].
    + rewrite map_size_empty. apply Nat.le_0_l.
    + apply Nat.ltb_lt. vm_compute. reflexivity.
    + rewrite map_size_empty. apply Nat.le_0_l.
    + intros ip ts. by rewrite lookup_empty.
  - split; cbn [p_conns p_engine p_receivers pool_init]; [rewrite map_size_empty; lia|intros i c; by rewrite lookup_empty|done|].
    intros i r. by rewrite lookup_empty.
Qed.
Lemma pool_run_bounded p l obs p' :
  pool_run p l = Some (obs, p') -> tables_bounded p -> pool_bounded p -> tables_bounded p' /\ pool_bounded p'.
Proof.
  revert p obs. induction l as [|e l IH]; intros p obs; cbn [Pool.pool_run].
  - intros [_ ->]%stepped_inj. by split.
  - destruct (pool_step p e) as [[obs1 p1]|] eqn:E; [|done]. cbn [mbind option_bind].
    destruct (pool_run p1 l) as [[obs2 p2]|] eqn:El; [|done]. cbn [mbind option_bind].
    intros [_ ->]%stepped_inj Ht Hp. eapply IH; [exact El|by eapply pool_step_tables|].
    eapply pool_move_bounded; [exact Hp|by apply pool_step_moves in E].
Qed.
End pool.
