(* ===== verification/PoolLives.v ===== *)
(** One serving process after another on the same database: what the first
    saves and the next begins with. *)
From S2P Require Export PoolWork.
From Stdlib Require Import Strings.Ascii.

Section lives.
Context {Ip : Type} `{!EqDecision Ip} `{!Countable Ip}.
Context {HJ : JsonLib f64} {HL : HexLib} {HS : Sha256Lib} {HB : BitcoinLib} {HV : Sv2Lib} {HI : DashIter}
  {HC : BroadcastLib} {HW : PowLib}.
Context (from_str : string -> outcome string StratumRequest) (error_text : PoolError -> string) (hex_flags : Z -> string)
  (cfg : Config).
Abbreviation pool_step := (pool_step (Ip := Ip) from_str error_text hex_flags cfg).
Abbreviation pool_run := (pool_run (Ip := Ip) from_str error_text hex_flags cfg).
Implicit Types (p : Pool Ip).

(** ** What a step does to the statistics *)

Inductive stats_move (ps : PoolStats) : PoolStats -> Prop :=
| sm_same : stats_move ps ps
| sm_event x : stats_move ps (stats_step ps x)
| sm_publish job : stats_move ps (publish_template_stats ps job)
| sm_hashrate ts io : stats_move ps (hashrate_tick ps ts io)
| sm_network poll : stats_move ps (network_tick ps poll).
Definition is_post (e : pool_event Ip) : bool := match e with SettingsPost _ _ => true | _ => false end.
Lemma receive_stats p i got q : receive p i = Some (got, q) -> p_stats q = p_stats p.
Proof. intros (rx & _ & Ho)%receive_spec. exact (or_stats _ _ _ _ Ho). Qed.
Lemma sm_effect ps ps' env e : ps' = apply_effect ps (env, e) -> stats_move ps ps'.
Proof. intros ->. exact (sm_event ps (SessionEffect 0 env e)). Qed.
Lemma settle_stats p i c e todo env b1 b2 obs p' :
  pool_settle p i c e todo env b1 b2 = Some (obs, p') -> stats_move (p_stats p) (p_stats p').
Proof.
  unfold pool_settle. cbv zeta. intros H.
  destruct e; try (apply stepped_inj in H as [-> ->]; eapply sm_effect; reflexivity).
  unfold panicked in H. repeat case_match; try done; apply stepped_inj in H as [-> ->]; apply sm_same.
Qed.
Lemma pool_step_stats p e obs p' :
  pool_step p e = Some (obs, p') -> is_post e = false -> stats_move (p_stats p) (p_stats p').
Proof.
  destruct e as [i ip b1 b2 r1 r2 r3|i pk b1 b2 random n1 n2 n3 n4|i ok n1 n2 n3 n4|i env e|i env e|i env w|i env
    |k gbt clean|k now|address io|i env b1 b2|i now1 now2|i|b r now io|now a b|ts io|poll]; intros Hs He; try done;
    clear He; revert Hs; cbn [Pool.pool_step].
  10: destruct (p_conns p !! i) as [c|]; [|done]; destruct (cn_todo c); [done|]; apply settle_stats.
  12: destruct (p_clock p <=? b); [|done]; cbn; intros [-> ->]%stepped_inj; exact (sm_event _ (PruneIdle now io)).
  12: intros [-> ->]%stepped_inj; exact (sm_event _ (FlushShareLog now a b)).
  6-7: unfold pool_sv1_job, pool_sv2_job; destruct (p_conns p !! i) as [[ip t [|]]|]; try done; destruct t as [| |s [|]|s [|]|]; try done;
    cbn [cn_todo cn_ip cn_task]; destruct (receive p i) as [[got q]|] eqn:Er; [|done]; apply receive_stats in Er; rewrite <- Er;
    cbn [mbind option_bind]; revert Er; intros _.
  all: unfold pool_accept, pool_first_byte, pool_handshake, pool_sv1_turn, pool_sv2_turn, pool_refresh, pool_refresh_next,
    panicked; cbv zeta; repeat case_match; try done; intros [-> ->]%stepped_inj; try apply sm_same; try apply sm_publish;
    try apply sm_hashrate; try apply sm_network.
Qed.

(** ** The settings table *)

Lemma stats_move_saved ps ps' : stats_move ps ps' -> saved ps' = saved ps.
Proof.
  destruct 1 as [|x|job|ts io|poll].
  - done.
  - apply stats_step_saved.
  - apply saved_same. unfold publish_template_stats. cbv zeta. by destruct (bits_to_difficulty _).
  - apply snapshot_saved.
  - apply saved_same. destruct poll as [[h d]|]; [|done]. by destruct h, d.
Qed.
Lemma pool_run_no_post l : (forall a io, SettingsPost a io ∉ l) ->
  forall p obs q, pool_run p l = Some (obs, q) -> saved (p_stats q) = saved (p_stats p) /\ p_settings q = p_settings p.
Proof.
  induction l as [|e l IH]; intros Hno p obs q; cbn [Pool.pool_run]; [by intros [-> ->]%stepped_inj|].
  destruct (pool_step p e) as [[obs1 p1]|] eqn:E; [|done]. cbn [mbind option_bind].
  destruct (pool_run p1 l) as [[obs2 p2]|] eqn:E2; [|done]. cbn [mbind option_bind]. intros [-> ->]%stepped_inj.
  destruct IH with (2 := E2) as [-> ->]; [intros a io Hin; apply (Hno a io), elem_of_cons; by right|].
  assert (is_post e = false) as He.
  { destruct e as [| | | | | | | | |a io| | | | | | |]; try done. exfalso. apply (Hno a io), elem_of_cons. by left. }
  split; [by eapply stats_move_saved, pool_step_stats|].
  destruct (pool_step_settings _ _ _ _ _ _ _ _ E) as [->|(a & io & -> & _)]; [done|discriminate He].
Qed.
(** A saved address stays in the database until the process ends. *)
Lemma saved_through p a obs0 p0 l obs q ts io now b1 b2 from polls db :
  pool_step p (SettingsPost a None) = Some (obs0, p0) -> (change_address a None (p_settings p) (p_stats p)).2 = Ok true ->
  pool_run p0 l = Some (obs, q) -> (forall x y, SettingsPost x y ∉ l) ->
  (ps_store (p_stats q) = Some db \/ ps_store (shutdown (p_stats q) ts io now b1 b2 from polls).1 = Some db) ->
  Settings.validate (trim a) (rs_network (p_settings p)) = Ok tt /\ db_settings db !! "coinbase_address" = Some (trim a).
Proof.
  cbn [Pool.pool_step]. intros [-> ->]%stepped_inj Hok Hrun Hno Hend. destruct (change_address_saved _ _ _ Hok) as (Hv & m & Hm & Hlook).
  split; [done|]. destruct (pool_run_no_post l Hno _ _ _ Hrun) as [Hq _].
  assert (p_stats (pool_settings_post p a None) = (change_address a None (p_settings p) (p_stats p)).1.2) as Hp0
    by (unfold pool_settings_post; by destruct (change_address _ _ _ _) as [[settings stats] r]).
  rewrite Hp0, Hm in Hq. assert (saved (p_stats q) = Some (db_settings db)) as Hdb.
  { destruct Hend as [Hs|Hs]; [unfold saved; by rewrite Hs|]. rewrite <- (shutdown_saved (p_stats q) ts io now b1 b2 from polls).
    unfold saved. by rewrite Hs. }
  rewrite Hq in Hdb. by injection Hdb as <-.
Qed.
End lives.
