(* ===== verification/NodeLight.v ===== *)
(** The node's light on the dashboard page: what a run of the serving process
    did with the node's templates, as a log of its refreshes, and what the page
    shows of it. *)
From S2P Require Export DashPage PoolLives.
From Stdlib Require Import Strings.Ascii.

(** How a refresh ended: its job became current at an instant, the payout
    address was not valid, or no job came of the node's answer. *)
Inductive report := Made (job : StratumJob) (at_ : Z) | Paused | Missed.
Definition made (r : report) : option (StratumJob * Z) := match r with Made job t => Some (job, t) | _ => None end.
Definition last_made (log : list report) : option (StratumJob * Z) := last (omap made log).

(** ** What the page shows of an engine *)

Definition shows (e : TemplateEngine) (tnow : Z) : option Z * string :=
  (age_secs (template_health e tnow), default empty_str (last_template_error e)).
Lemma stats_json_shows `{DashIter} sh now inow tnow :
  (ss_template_age_secs (stats_json sh now inow tnow),
   default empty_str (ss_template_error (stats_json sh now inow tnow))) = shows (sh_engine sh) tnow.
Proof. unfold stats_json. by destruct (current_job (sh_engine sh)). Qed.

(** The engine's report is the log's. *)
Definition why_missed (why : string) : Prop :=
  starts_with "mining paused" why = false /\ why ≠ empty_str.
Definition error_told (r : option report) (error : option string) : Prop :=
  match r with
  | None | Some (Made _ _) => error = None
  | Some Paused => exists why, error = Some why /\ starts_with "mining paused" why = true
  | Some Missed => exists why, error = Some why /\ why_missed why
  end.
Record told (log : list report) (e : TemplateEngine) : Prop := {
  td_job : current_job e = fst <$> last_made log;
  td_ok : last_template_ok e = snd <$> last_made log;
  td_error : error_told (last log) (last_template_error e);
}.
Lemma told_new : told [] engine_new.
Proof. done. Qed.
Lemma last_made_snoc log r : last_made (log ++ [r]) = match made r with Some x => Some x | None => last_made log end.
Proof. unfold last_made. rewrite omap_app. cbn. destruct (made r); [by rewrite last_snoc|by rewrite app_nil_r]. Qed.
Lemma last_made_last log job t : last log = Some (Made job t) -> last_made log = Some (job, t).
Proof. intros (l & ->)%last_Some. by rewrite last_made_snoc. Qed.

(** Ages in whole seconds against a limit in seconds. *)
Lemma age_below d n : 0 <= n -> (d / NANOS <? n) = true <-> d < from_secs n.
Proof.
  intros Hn. rewrite Z.ltb_lt. unfold from_secs, NANOS. split; intros H.
  - pose proof (Z.div_mod d 1000000000). pose proof (Z.mod_pos_bound d 1000000000). lia.
  - apply Z.div_lt_upper_bound; lia.
Qed.
(** What each state of the light says of the log: green, that the last refresh
    made the current job less than 90 seconds ago; red, that the last job made
    is 300 seconds old, whatever was tried since; grey, that nothing was tried or
    that mining is paused, which the text tells apart; amber, all the rest. *)
Record light_tells (log : list report) (job : option StratumJob) (tnow : Z) (v : node_view) : Prop := {
  lt_job : job = fst <$> last_made log;
  lt_green : nv_led v = LedOn <-> exists j t, last log = Some (Made j t) /\ duration_since tnow t < from_secs 90;
  lt_red : nv_led v = LedBad <->
    last log ≠ Some Paused /\ exists j t, last_made log = Some (j, t) /\ from_secs 300 <= duration_since tnow t;
  lt_grey : nv_led v = LedOff <-> log = [] \/ last log = Some Paused;
  lt_paused : nv_rail v = "paused" <-> last log = Some Paused;
}.
Lemma rail_text_not_paused b1 b2 s : ((if b1 : bool then "stale " else "template ") +:+ s +:+ (if b2 : bool then empty_str else " old"))%string ≠ "paused".
Proof. by destruct b1. Qed.
(** The three lights of a template of that age. *)
Definition age_led (age : Z) (error : bool) : led :=
  if 300 <=? age then LedBad else if (90 <=? age) || error then LedWarn else LedOn.
Lemma age_led_on d error : age_led (d / NANOS) error = LedOn <-> d < from_secs 90 /\ error = false.
Proof.
  unfold age_led. rewrite <- (age_below d 90) by lia.
  destruct (Z.leb_spec 300 (d / NANOS)), (Z.leb_spec 90 (d / NANOS)), (Z.ltb_spec (d / NANOS) 90), error; cbn; naive_solver lia.
Qed.
Lemma age_led_bad d error : age_led (d / NANOS) error = LedBad <-> from_secs 300 <= d.
Proof.
  unfold age_led. rewrite <- Z.nlt_ge, <- (age_below d 300), not_true_iff_false by lia.
  destruct (Z.leb_spec 300 (d / NANOS)), (Z.ltb_spec (d / NANOS) 300), (90 <=? d / NANOS), error; cbn; naive_solver lia.
Qed.
Lemma age_led_off d error : age_led d error ≠ LedOff.
Proof. unfold age_led. by repeat case_match. Qed.
(** The page by what the engine reports. *)
Definition rail_of (d : StatsSnapshot) : led * bool := (nv_led (render_node d), bool_decide (nv_rail (render_node d) = "paused")).
Lemma render_cases d : let err := default empty_str (ss_template_error d) in
  rail_of d = if starts_with "mining paused" err then (LedOff, true)
              else let has_err := negb (bool_decide (err = empty_str)) in
                   (match ss_template_age_secs d with
                    | None => if has_err then LedWarn else LedOff
                    | Some age => age_led age has_err
                    end, false).
Proof.
  unfold rail_of, render_node, age_led, NODE_BAD_SECS, NODE_WARN_SECS. cbv zeta.
  destruct (starts_with _ _); [done|]. destruct (ss_template_age_secs d) as [age|].
  - cbn [nv_led nv_rail]. rewrite (bool_decide_eq_false_2 (_ = "paused")) by apply rail_text_not_paused. f_equal. by repeat case_match.
  - by destruct (negb _).
Qed.
(** The page by the log. *)
Definition light_of (log : list report) (tnow : Z) : led * bool :=
  match last log with
  | None => (LedOff, false)
  | Some Paused => (LedOff, true)
  | Some (Made _ t) => (age_led (duration_since tnow t / NANOS) false, false)
  | Some Missed =>
      (match last_made log with Some (_, t) => age_led (duration_since tnow t / NANOS) true | None => LedWarn end, false)
  end.
Lemma told_light log e d tnow :
  told log e -> (ss_template_age_secs d, default empty_str (ss_template_error d)) = shows e tnow ->
  rail_of d = light_of log tnow.
Proof.
  intros [_ Ho He] [= Ha Herr]. rewrite render_cases. cbv zeta. rewrite Ha, Herr, Ho. unfold light_of.
  destruct (last log) as [[j t| |]|] eqn:El; cbn [error_told] in He.
  - rewrite He, (last_made_last _ _ _ El). done.
  - destruct He as (why & Hw & Hp). rewrite Hw. cbn. by rewrite Hp.
  - destruct He as (why & He & [Hp Hw]). rewrite He. cbn. rewrite Hp, (bool_decide_eq_false_2 (why = _)) by done.
    by destruct (last_made log) as [[j t]|].
  - apply last_None in El as ->. by rewrite He.
Qed.
Lemma render_tells log e d tnow :
  told log e -> (ss_template_age_secs d, default empty_str (ss_template_error d)) = shows e tnow ->
  light_tells log (current_job e) tnow (render_node d).
Proof.
  intros Ht Hs. pose proof (told_light _ _ _ _ Ht Hs) as Hr. destruct Ht as [Hj _ _]. clear Hs.
  pose proof (f_equal fst Hr) as Hl. pose proof (f_equal snd Hr) as Hp. unfold rail_of, light_of in Hl, Hp. cbn [fst snd] in Hl, Hp. clear Hr.
  assert (nv_rail (render_node d) = "paused" <-> last log = Some Paused) as Hpaused.
  { rewrite <- (bool_decide_eq_true (nv_rail (render_node d) = "paused")), Hp. destruct (last log) as [[]|]; naive_solver. }
  split; [exact Hj|..|exact Hpaused]; rewrite Hl; clear Hl Hp Hpaused.
  - destruct (last log) as [[j t| |]|]; cbn; [rewrite age_led_on; naive_solver| naive_solver | |naive_solver].
    destruct (last_made log) as [[j t]|]; [rewrite age_led_on|]; naive_solver.
  - destruct (last log) as [[j t| |]|] eqn:El; cbn; [|naive_solver| |].
    + rewrite (last_made_last _ _ _ El), age_led_bad. naive_solver.
    + destruct (last_made log) as [[j t]|]; [rewrite age_led_bad|]; naive_solver.
    + apply last_None in El as ->. naive_solver.
  - pose proof age_led_off. rewrite <- last_None.
    destruct (last log) as [[j t| |]|]; cbn; [naive_solver|naive_solver| |naive_solver].
    destruct (last_made log) as [[j t]|]; naive_solver.
Qed.

(** ** The log of a run *)

Section run.
Context {Ip : Type} `{!EqDecision Ip} `{!Countable Ip}.
Context {HJ : JsonLib f64} {HL : HexLib} {HS : Sha256Lib} {HB : BitcoinLib} {HV : Sv2Lib} {HI : DashIter}
  {HC : BroadcastLib} {HW : PowLib}.
Context (from_str : string -> outcome string StratumRequest) (error_text : PoolError -> string) (hex_flags : Z -> string)
  (cfg : Config).
Abbreviation pool_step := (pool_step (Ip := Ip) from_str error_text hex_flags cfg).
Abbreviation pool_run := (pool_run (Ip := Ip) from_str error_text hex_flags cfg).
Implicit Types (p : Pool Ip).

(** What an event says of the templates; a refresh that panics says nothing. *)
Definition reported p (e : pool_event Ip) : list report :=
  match e with
  | Refresh k gbt _ =>
      match valid_coinbase_address (p_settings p), (refresh_job (p_settings p) (pool cfg) (p_ids p) gbt).2 with
      | None, _ => [Paused]
      | Some _, Err _ => [Missed]
      | Some _, _ => []
      end
  | RefreshNext k now => match p_refreshes p !! k with Some (Built job _) => [Made job now] | _ => [] end
  | _ => []
  end.
Fixpoint reports p (l : list (pool_event Ip)) : list report :=
  match l with
  | [] => []
  | e :: l => reported p e ++ match pool_step p e with Some (_, p) => reports p l | None => [] end
  end.

Lemma refresh_job_why settings pool_cfg ids gbt why :
  (refresh_job settings pool_cfg ids gbt).2 = Err why ->
  match valid_coinbase_address settings with
  | None => starts_with "mining paused" why = true
  | Some _ => why_missed why
  end.
Proof.
  unfold refresh_job. destruct (valid_coinbase_address settings) as [a|]; [|by intros [= <-]].
  destruct gbt as [g|err|]; [|intros [= <-]; by split|done].
  destruct (build_job _ _ _ _ _ _) as [ids1 [job|err|]]; [done|intros [= <-]; by split|done].
Qed.
Lemma told_error log e r why :
  told log e -> made r = None -> error_told (Some r) (Some why) -> told (log ++ [r]) (note_template_failure e why).
Proof. intros [Hj Ho _] Hr Hw. split; rewrite ?last_made_snoc, ?last_snoc, ?Hr; done. Qed.
Lemma told_refresh p k gbt clean log :
  told log (p_engine p) -> told (log ++ reported p (Refresh k gbt clean)) (p_engine (pool_refresh cfg p k gbt clean)).
Proof.
  intros Ht. unfold pool_refresh, reported.
  pose proof (refresh_job_why (p_settings p) (pool cfg) (p_ids p) gbt) as Hw.
  destruct (valid_coinbase_address (p_settings p)) as [a|] eqn:Ea.
  - destruct (refresh_job _ _ _ _) as [ids [job|why|]]; cbn [snd] in *.
    1, 3: by rewrite app_nil_r.
    apply told_error; [done|done|]. exists why. split; [done|]. by apply Hw.
  - assert (exists why, (refresh_job (p_settings p) (pool cfg) (p_ids p) gbt).2 = Err why) as [why Ew]
      by (unfold refresh_job; rewrite Ea; by eexists).
    destruct (refresh_job _ _ _ _) as [ids built]; cbn [snd] in *. subst built.
    apply told_error; [done|done|]. exists why. split; [done|]. by apply Hw.
Qed.
Lemma told_next p k ph now log :
  p_refreshes p !! k = Some ph -> told log (p_engine p) ->
  told (log ++ reported p (RefreshNext k now)) (p_engine (pool_refresh_next p k ph now)).
Proof.
  intros Hk Ht. unfold reported. rewrite Hk. destruct ph as [job clean|job clean|job clean].
  2-3: rewrite app_nil_r; by destruct Ht.
  destruct Ht as [_ _ _]. by split; rewrite ?last_made_snoc, ?last_snoc.
Qed.
Lemma receive_engine p i got q : receive p i = Some (got, q) -> p_engine q = p_engine p.
Proof. intros (rx & _ & Ho)%receive_spec. exact (or_engine _ _ _ _ Ho). Qed.
Lemma told_step p e obs p' log :
  pool_step p e = Some (obs, p') -> told log (p_engine p) -> told (log ++ reported p e) (p_engine p').
Proof.
  intros Hs Ht. destruct e as [i ip b1 b2 r1 r2 r3|i pk b1 b2 random n1 n2 n3 n4|i ok n1 n2 n3 n4|i env e|i env e|i env w|i env
    |k gbt clean|k now|address io|i env b1 b2|i now1 now2|i|b r now io|now a b|ts io|poll].
  8: { cbn [Pool.pool_step] in Hs. destruct (p_refreshes p !! k); [done|]. apply stepped_inj in Hs as [-> ->]. by apply told_refresh. }
  8: { cbn [Pool.pool_step] in Hs. destruct (p_refreshes p !! k) as [ph|] eqn:Hk; [|done].
       apply stepped_inj in Hs as [-> ->]. by apply told_next. }
  all: cbn [reported]; rewrite app_nil_r; enough (p_engine p' = p_engine p) as -> by done; clear Ht; revert Hs; cbn [Pool.pool_step].
  6-7: unfold pool_sv1_job, pool_sv2_job; destruct (p_conns p !! i) as [[ip t [|]]|]; try done; destruct t as [| |s [|]|s [|]|]; try done;
    cbn [cn_todo cn_ip cn_task]; destruct (receive p i) as [[got q]|] eqn:Er; [|done]; apply receive_engine in Er; rewrite <- Er;
    cbn [mbind option_bind]; revert Er; intros _.
  all: unfold pool_accept, pool_first_byte, pool_handshake, pool_sv1_turn, pool_sv2_turn, pool_settings_post,
    pool_settle, panicked; cbv zeta; repeat case_match; try done; intros [-> ->]%stepped_inj; reflexivity.
Qed.
Lemma told_run l : forall p obs p' log,
  pool_run p l = Some (obs, p') -> told log (p_engine p) -> told (log ++ reports p l) (p_engine p').
Proof.
  induction l as [|e l IH]; intros p obs p' log; cbn [Pool.pool_run reports].
  { intros [-> ->]%stepped_inj. by rewrite app_nil_r. }
  destruct (pool_step p e) as [[obs1 p1]|] eqn:E; [|done]. cbn [mbind option_bind].
  destruct (pool_run p1 l) as [[obs2 p2]|] eqn:E2; [|done]. cbn [mbind option_bind]. intros [-> ->]%stepped_inj Ht.
  rewrite app_assoc. eapply IH; [exact E2|]. by eapply told_step.
Qed.
End run.
