(* ===== verification/ReferenceJson.v ===== *)
(** A concrete JSON value type for the [JsonLib] interface, with its laws: a
    tree of constructors, numbers kept as integers or doubles, objects as
    association lists. *)
From S2P Require Export Reference Sv1.

Inductive RefValue :=
| RNull
| RBool (b : bool)
| RNum (z : Z)
| RFloat (x : f64)
| RStr (s : string)
| RArr (l : list RefValue)
| RObj (m : list (string * RefValue)).

Fixpoint robj_get (m : list (string * RefValue)) (k : string) : option RefValue :=
  match m with
  | [] => None
  | (k', v) :: m => if decide (k' = k) then Some v else robj_get m k
  end.
(** Compact printing (strings are not escaped). *)
Fixpoint ref_to_string (v : RefValue) : string :=
  match v with
  | RNull => "null"
  | RBool b => if b then "true" else "false"
  | RNum z => dec z
  | RFloat x => dec (f64_to_u 64 x)
  | RStr s => "'" ++ s ++ "'"
  | RArr l => "[" ++ String.concat "," (map ref_to_string l) ++ "]"
  | RObj m => "{" ++ String.concat "," (map (fun kv => kv.1 ++ ":" ++ ref_to_string kv.2)%string m) ++ "}"
  end%string.

#[export] Instance ref_json : JsonLib f64 := {
  Value := RefValue;
  JMap := list (string * RefValue);
  json_null := RNull;
  json_bool := RBool;
  json_u64 := RNum;
  json_f64 := RFloat;
  json_str := RStr;
  json_array := RArr;
  json_object := RObj;
  jmap_empty := [];
  jmap_insert k v m := (k, v) :: m;
  jmap_get := robj_get;
  is_null v := match v with RNull => true | _ => false end;
  as_array v := match v with RArr l => Some l | _ => None end;
  as_object v := match v with RObj m => Some m | _ => None end;
  as_str v := match v with RStr s => Some s | _ => None end;
  as_u64 v := match v with RNum z => if (0 <=? z) && (z <? 2 ^ 64) then Some z else None | _ => None end;
  as_f64 v := match v with RFloat x => Some x | RNum z => Some (f64_of_Z z) | _ => None end;
  to_string := ref_to_string;
}.
#[export] Instance ref_json_laws : JsonLaws.
Proof.
  split; try done.
  - intros z [H1 H2]. cbn. by rewrite (proj2 (Z.leb_le 0 z) H1), (proj2 (Z.ltb_lt z _) H2).
  - intros v z. cbn. destruct v; try done. destruct (_ && _) eqn:E; [|done]. intros [= <-].
    apply andb_true_iff in E as [E1 E2]. b2p. by split.
Qed.
