(* ===== verification/Samples.v ===== *)
(** Sample data the witnesses of the properties evaluate on: a block template
    and the job built from it, a job with small fields, configurations. *)
From S2P Require Export Reference Vardiff Settings.

(** ** A template as the node returns it, and the job built from it *)

Definition gbt_example : GbtResult :=
  {| gbt_version := 0x20000000;
     gbt_prev_hash := "000000000019d6689c085ae165831e934ff763ae46a2a6c172b3f1b60a8ce26f";
     gbt_bits := "207fffff"; gbt_cur_time := 1700000000; gbt_min_time := 1699990000;
     gbt_height := 101; gbt_coinbase_value := 5000000000;
     gbt_transactions := [{| gtx_data := [x01; x02];
       gtx_txid := "4a5e1e4baab89f3a32518a88c31bc87f618f76673e2cc77ab2127b7afdeda33b";
       gtx_hash := "4a5e1e4baab89f3a32518a88c31bc87f618f76673e2cc77ab2127b7afdeda33b";
       gtx_fee := 500; gtx_weight := 400 |}];
     gbt_longpoll_id := None; gbt_rules := ["segwit"];
     gbt_default_witness_commitment := Some "6a24aa21a9ed" |}.
Definition job_example : outcome PoolError StratumJob :=
  (build_job (init_job_ids 1700000000000) gbt_example "bcrt1qexample" "/solo/" 4 4).2.
Definition job_example_ok : StratumJob :=
  Eval vm_compute in match job_example with Ok j => j | _ => {|
    job_id := ""; prev_hash := ""; coinbase1 := []; coinbase2 := []; merkle_branch := [];
    merkle_branch_raw := []; version := 0; bits := ""; cur_time := 0; min_time := 0; height := 0;
    network_target := []; coinbase_template := []; extranonce_offset := 0; extranonce1_len := 0;
    extranonce2_len := 0; transactions := []; coinbase_value := 0 |} end.

Lemma job_example_built :
  exists ids', build_job (init_job_ids 1700000000000) gbt_example "bcrt1qexample" "/solo/" 4 4
    = (ids', Ok job_example_ok).
Proof. eexists. vm_compute. reflexivity. Qed.

(** ** A small job, its history entry and a submission for it *)

Definition wjob : StratumJob :=
  {| job_id := "0000000100000001";
     prev_hash := hex_encode (swap_words (replicate 32 x11));
     coinbase1 := [x01; x02]; coinbase2 := [xff]; merkle_branch := []; merkle_branch_raw := [];
     version := 0x20000000; bits := "207fffff"; cur_time := 1700000000; min_time := 1699990000;
     height := 101;
     network_target := [x7f; xff; xff] ++ replicate 29 x00;
     coinbase_template := [x01; x02] ++ replicate 4 x00 ++ [xff];
     extranonce_offset := 2; extranonce1_len := 2; extranonce2_len := 2;
     transactions := []; coinbase_value := 5000000000 |}.

Lemma wjob_wf : job_wf wjob.
Proof.
  split.
  - exists (replicate 4 x00). split; reflexivity.
  - reflexivity.
  - exists (replicate 32 x11). split; vm_compute; reflexivity.
  - exists 0x207fffff. split; [reflexivity|]. split; [by unfold is_u|]. vm_compute. reflexivity.
  - reflexivity.
  - reflexivity.
Qed.

Definition wentry : JobEntry :=
  {| je_job := wjob; je_created_at := 0; je_clean := true; je_superseded_by_clean := false |}.
Definition wparams (ntime nonce : Z) (bits : option Z) : ShareParams :=
  {| sp_worker := "w"; sp_job_id := "0000000100000001"; sp_extranonce2 := [x03; x04];
     sp_ntime := ntime; sp_nonce := nonce; sp_version_bits := bits;
     sp_version_rolling_mask := Some VERSION_ROLLING_MASK |}.

(** ** Configurations *)

(** The vardiff section of the shipped example configuration. *)
Definition vcfg : VardiffConfig := {|
  target_share_time_secs := 15; retarget_interval_secs := 60;
  min_difficulty := 512; max_difficulty := 4194304;
  max_retarget_factor := f64_lit 4 0 |}.
Definition pool_example : PoolConfig := {|
  listen_addr := "0.0.0.0:3333"; coinbase_address := "bcrt1qexample"; coinbase_tag := "/solo/";
  initial_difficulty := 4096; extranonce1_size := 4; extranonce2_size := 4; max_connections := 256;
  idle_timeout_secs := 300; found_block_dir := "found-blocks"; pool_network := None |}.
Definition security_example : SecurityConfig := {|
  max_connections_per_ip := 5; max_shares_per_sec := 500; ban_duration_secs := 300;
  max_invalid_shares := 5; max_message_bytes := 4096; max_worker_name_len := 128;
  max_authorizations_per_session := 8 |}.
Definition config_example : Config := {|
  pool := pool_example;
  bitcoin_rpc := {| url := "http://127.0.0.1:8332"; cookie_path := None; user := None; password := None;
                    timeout_secs := 10 |};
  zmq := {| hashblock_endpoint := "tcp://127.0.0.1:28332"; poll_fallback := true; poll_interval_ms := 1000 |};
  vardiff := vcfg; security := security_example;
  metrics := {| prometheus_addr := "127.0.0.1:9090"; stats_db_path := None; allow_runtime_settings := true;
                allowed_hosts := ["pool.example.net"] |};
  logging := {| level := "info"; json := false; log_dir_raw := None; log_max_files := 14 |};
  sv2 := default_sv2_config; env_overrides := [] |}.
Definition settings_example : RuntimeSettings :=
  {| rs_network := "regtest"; rs_address := "bcrt1qexample"; rs_valid := true |}.
