(* ===== verification/SamplesSession.v ===== *)
(** Sample sessions the witnesses evaluate on: a table of request lines, an
    engine with one job, a fresh session and one that mines. *)
From S2P Require Export Session Samples ReferenceJson.
From Stdlib Require Import Strings.Ascii.

(** The requests of the samples: a line is looked up in a table. *)
Definition sample_request (method : string) (params : list RefValue) : StratumRequest :=
  {| req_id := RNum 1; req_method := method; req_params := RArr params |}.
Definition sample_from_str (line : string) : outcome string StratumRequest :=
  if bool_decide (line = "subscribe") then Ok (sample_request "mining.subscribe" [RStr "cgminer/4.10"])
  else if bool_decide (line = "authorize") then Ok (sample_request "mining.authorize" [RStr "w.1"; RStr "x"])
  else if bool_decide (line = "configure") then
    Ok (sample_request "mining.configure"
      [RArr [RStr "version-rolling"]; RObj [("version-rolling.mask", RStr "ffffffff")]])
  else if bool_decide (line = "suggest") then Ok (sample_request "mining.suggest_difficulty" [RNum 1])
  else Err "expected value at line 1 column 1".
Definition sample_engine : TemplateEngine :=
  {| current_job := Some wjob; job_history := [wentry]; last_template_ok := Some 0; last_template_error := None |}.
Definition sample_env : Env := {|
  e_engine := sample_engine; e_answers := fun _ => Ok tt; e_stash := fun _ => None;
  e_clk := fun i => from_secs 1 |}.
Definition sample_session : Session := session_new config_example [x00; x01] 7 0 0 0 0.
(** The sample session once it mines: authorized as [w.1], two bytes of
    extranonce2. *)
Definition mining_session : Session :=
  let s := with_identity (with_subscribed sample_session None) (Some "w.1") true in
  {| s_worker := s_worker s; s_user_agent := None; s_session_id := s_session_id s; s_subscribed := true;
     s_authorized := true; s_version_rolling_enabled := false; s_version_rolling_mask := VERSION_ROLLING_MASK;
     s_version_rolling_min_bit_count := None; s_extranonce1 := [x00; x01]; s_extranonce2_size := 2;
     s_current_job := Some wjob; s_difficulty := 4096; s_vardiff := s_vardiff s; s_vardiff_cfg := vcfg;
     s_share_set := ShareSet_new; s_guard := s_guard s; s_shares_accepted := 0; s_shares_rejected := 0;
     s_connect_time := 0 |}.
Definition sample_submit (nonce : Z) : SubmitParams := {|
  submit_worker := "w.1"; submit_job_id := job_id wjob; submit_extranonce2 := [x03; x04];
  submit_ntime := 1700000000; submit_nonce := nonce; submit_version_bits := None |}.
Definition submit_request : StratumRequest := sample_request "mining.submit" [].
