(* ===== verification/SamplesSv2.v ===== *)
(** Sample Stratum V2 data the witnesses evaluate on: a codec in a few bytes,
    a session with an open channel and the device on the other end. *)
From S2P Require Export Sv2Device SamplesSession.
From Stdlib Require Import Strings.Ascii.

(** Payloads of the samples: a setup has none, an open carries the size it
    asks for, a submission its job, its nonce and its extranonce. *)
#[export] Instance sample_sv2_lib : Sv2Lib := {|
  decode_setup_payload p :=
    match p with
    | [] => Ok {| setup_protocol := MiningProtocol; min_version := 2; max_version := 2; flags := 0 |}
    | _ => Err "SetupConnection"
    end;
  decode_open_payload p :=
    match p with
    | [n] => Ok {| open_request_id := 1; user_identity := "w.1"; nominal_hash_rate := 0;
                   max_target := replicate 32 xff; min_extranonce_size := b2z n |}
    | _ => Err "OpenExtendedMiningChannel"
    end;
  decode_submit_payload p :=
    match p with
    | job :: nonce :: extranonce =>
        Ok {| sx_channel_id := 1; sequence_number := 7; sx_job_id := b2z job; sx_nonce := b2z nonce;
              sx_ntime := 1700000000; sx_version := 0x20000000; sx_extranonce := extranonce |}
    | _ => Err "SubmitSharesExtended"
    end;
  encode_message _ := Ok [];
  MESSAGE_TYPE_SETUP_CONNECTION := 0;
  MESSAGE_TYPE_OPEN_EXTENDED_MINING_CHANNEL := 19;
  MESSAGE_TYPE_SUBMIT_SHARES_EXTENDED := 27;
|}.
Lemma sample_decodes_ok : decodes_ok.
Proof.
  split.
  - intros [|n [|]]; discriminate.
  - intros [|n [|]] o [= <-]. cbn. pose proof (b2z_range n). lia.
Qed.

Definition sample_sv2_env : Sv2Env := {| v_env := sample_env; v_written := fun _ => true |}.
Definition sample_counters : Counters := {| extranonce_counter := 5; next_channel_id := 3 |}.
Definition sample_errors (e : PoolError) : string := display e.
Definition sample_flags (z : Z) : string := "0x" +:+ hex_fixed 8 z.
(** Setting up and opening a channel with four bytes of extranonce. *)
Definition sample_turns : list (Counters * Sv2Env * sv2_event) :=
  [(sample_counters, sample_sv2_env, Inbound 0 []); (sample_counters, sample_sv2_env, Inbound 19 [x04])].

(** ** Sessions over the small job *)

(** A session with an open channel: two bytes of prefix, two of extranonce,
    the small job announced as number 1. *)
Definition sample_sv2_session : Sv2Session :=
  sv2_session_new config_example [x00; x00; x00; x05] 0 0 0 0 <! v_pending_job := Some wjob !>.
Definition mining_sv2_session : Sv2Session :=
  sample_sv2_session <! v_setup_done := true !> <! v_channel_open := true !> <! v_channel_id := 3 !>
    <! v_worker := Some "w.1" !> <! v_extranonce_prefix := [x00; x01] !> <! v_extranonce_size := 2 !>
    <! v_extranonce_total := 4 !> <! v_job_ids := [(1, job_id wjob)] !> <! v_next_job_id := 2 !>.
(** The device on the other end. *)
Definition mining_device : Device := {|
  dv_prefix := [x00; x01]; dv_size := 2; dv_target := difficulty_to_sv2_target 4096; dv_future := None;
  dv_job := Some (build_new_extended_job wjob 3 1 true);
  dv_prev := match build_set_new_prev_hash wjob 3 1 with Ok p => Some p | _ => None end |}.
Lemma mining_in_step : in_step mining_sv2_session mining_device.
Proof.
  split; [exists [job_id wjob]; by split|]. intros _. split; [done|]. intros job [= <-]. split; [done|].
  eexists _, _. split; [vm_compute; reflexivity|]. split; [vm_compute; reflexivity|]. by vm_compute.
Qed.
(** The next job of the engine, on another tip. *)
Definition wjob_next : StratumJob := {|
  job_id := "0000000100000003"; prev_hash := hex_encode (swap_words (replicate 32 x22));
  coinbase1 := coinbase1 wjob; coinbase2 := coinbase2 wjob; merkle_branch := []; merkle_branch_raw := [];
  version := version wjob; bits := bits wjob; cur_time := cur_time wjob; min_time := min_time wjob; height := 102;
  network_target := network_target wjob; coinbase_template := coinbase_template wjob; extranonce_offset := 2;
  extranonce1_len := 2; extranonce2_len := 2; transactions := []; coinbase_value := 5000000000 |}.

(** ** An engine, a session and its device *)

Definition sample_refresh : refresh_input :=
  {| ri_settings := settings_example; ri_gbt := Ok gbt_example; ri_now1 := 0; ri_now2 := 0; ri_clean := true |}.
Definition sample_refreshed : JobIds * TemplateEngine * list engine_effect :=
  match refresh_run pool_example (init_job_ids 0) engine_new [sample_refresh] with
  | Ok x => x
  | _ => (init_job_ids 0, engine_new, [])
  end.
Definition sample_tip_engine : TemplateEngine := sample_refreshed.1.2.
Definition sample_tip_env : Sv2Env := {|
  v_env := {| e_engine := sample_tip_engine; e_answers := fun _ => Ok tt; e_stash := fun _ => None;
              e_clk := fun i => from_secs 1 |};
  v_written := fun _ => true |}.
Definition sample_tip_start : Sv2Session :=
  sv2_session_new config_example [x00; x00; x00; x05] 0 0 0 0 <! v_pending_job := current_job sample_tip_engine !>.
Definition sample_turn (s : Sv2Session) (t : Z) (payload : list byte) : Sv2Session * list PoolMessage :=
  match sv2_step sample_errors sample_flags sample_counters s sample_tip_env (Inbound t payload) with
  | Some (_, s, _, msgs, true) => (s, msgs)
  | _ => (s, [])
  end.
Definition sample_set_up := sample_turn sample_tip_start 0 [].
Definition sample_opened := sample_turn sample_set_up.1 19 [x04].
Definition sample_world : world := {|
  w_ids := sample_refreshed.1.1; w_engine := sample_tip_engine; w_queue := []; w_session := sample_opened.1;
  w_device := device_run (device_run device_new sample_set_up.2) sample_opened.2 |}.
Definition sample_tip_bits (_ : string) : string := "207fffff".

Lemma sample_turn_steps s t payload :
  (match sv2_step sample_errors sample_flags sample_counters s sample_tip_env (Inbound t payload) with
   | Some (_, _, _, _, true) => true
   | _ => false
   end) = true ->
  exists g' effs, sv2_step sample_errors sample_flags sample_counters s sample_tip_env (Inbound t payload) =
    Some (g', (sample_turn s t payload).1, effs, (sample_turn s t payload).2, true).
Proof.
  unfold sample_turn. destruct (sv2_step _ _ _ _ _ _) as [[[[[g' s'] effs] msgs] [|]]|]; try done. eauto.
Qed.
Lemma sample_world_reachable : reachable sample_errors sample_flags config_example sample_tip_bits sample_world.
Proof.
  destruct (sample_turn_steps sample_tip_start 0 []) as (g1 & effs1 & H1); [vm_compute; reflexivity|].
  destruct (sample_turn_steps sample_set_up.1 19 [x04]) as (g2 & effs2 & H2); [vm_compute; reflexivity|].
  eapply reach_step; [eapply reach_step|].
  - apply (reach_start _ _ _ _ [sample_refresh] (init_job_ids 0) sample_refreshed.1.1 sample_tip_engine
             sample_refreshed.2 sample_counters 0 0 0 0 {| extranonce_counter := 6; next_channel_id := 3 |}
             sample_tip_start [MinerConnected]).
    + vm_compute. reflexivity.
    + intros b Hin. assert (Forall (fun e => match e with Broadcast b => bits (jb_job b) = "207fffff" | _ => True end)
        sample_refreshed.2) as Hall by (repeat constructor). rewrite Forall_forall in Hall. exact (Hall _ Hin).
    + reflexivity.
  - by eapply world_turn; [..|exact H1].
  - by eapply world_turn; [..|exact H2].
Qed.
