(* ===== verification/SamplesDashboard.v ===== *)
(** Sample requests and shared state for the witnesses about the dashboard and
    start-up. *)
From S2P Require Export Main SamplesSession.
From Stdlib Require Import Strings.Ascii.

(** Headers as a list of names and values; a value is readable when it is
    visible ASCII. *)
#[export] Instance ref_http : HttpLib := {
  HeaderMap := list (string * string);
  HeaderValue := string;
  header_get h k := snd <$> List.find (fun e => bool_decide (fst e = k)) h;
  header_to_str v := if forallb (fun c => (ord c =? 9) || ((32 <=? ord c) && (ord c <? 127))) (to_list v) then Some v else None;
}.

Definition sample_dash : DashState := {|
  ds_allow_settings := true; ds_stratum_port := 3333; ds_sv2_enabled := true; ds_sv2_authority_pubkey := None;
  ds_allowed_hosts := ["pool.example.net"] |}.
Definition sample_store : StatsStore := {|
  db_best_share_difficulty := 0; db_best_hashrate_hps := f64_zero; db_round_work := f64_zero; db_round_start_ts := 1;
  db_worker_best_shares := ∅; db_found_blocks := []; db_hashrate_history := ∅; db_settings := ∅; db_share_log := [];
  db_write_error := None |}.
Definition no_io (_ : nat) : option string := None.
Definition sample_stats : PoolStats := new_with_store (fun _ => "negative") (Some ("stats.db", Ok sample_store)) no_io 10 0.
Definition sample_shared : Shared := {|
  sh_stats := sample_stats; sh_settings := settings_example; sh_engine := engine_new;
  sh_ids := init_job_ids 1700000000000 |}.
Definition dash_refresh : RefreshInputs := {|
  fr_pool_cfg := pool_example; fr_gbt := Ok gbt_example; fr_now1 := 1; fr_now2 := 2 |}.
Definition request_to (host : string) : HeaderMap := [("host", host)].
Definition lan_request : HeaderMap := [("host", "192.168.1.5:9090"); ("origin", "http://192.168.1.5:9090")].
Definition config_with_store : Config := {|
  pool := pool_example; bitcoin_rpc := bitcoin_rpc config_example; zmq := zmq config_example; vardiff := vcfg;
  security := security_example;
  metrics := {| prometheus_addr := "127.0.0.1:9090"; stats_db_path := Some "stats.db"; allow_runtime_settings := true;
                allowed_hosts := ["Pool.Example.net:9090"] |};
  logging := logging config_example; sv2 := default_sv2_config; env_overrides := [] |}.
Definition sample_boot (db : StatsStore) : BootEnv := {|
  be_file := file_of db; be_open_io := no_io; be_conversion_error := fun _ => "negative"; be_io := no_io; be_io_setting := None;
  be_rpc := Ok tt; be_chain := Ok "regtest"; be_authority := Ok "authority"; be_now := 20; be_start := 0;
  be_millis := 1700000100000 |}.
