(* ===== verification/PropsTemplate.v ===== *)
(** The properties of [src/bitcoin/template.rs], with their witnesses. *)
From S2P Require Import Reference Samples.

(** ** Targets *)

(** [difficulty_to_target d] is the 32-byte big-endian quotient of the
    difficulty-1 target by [d] (by 1 for [d = 0]), exactly, for every [u64]. *)
Theorem difficulty_to_target_exact d :
  is_u64 d ->
  length (difficulty_to_target d) = 32%nat /\
  be2z (difficulty_to_target d) = DIFF1 / Z.max 1 d.
Proof. intros H. split; [by apply difficulty_to_target_length | by apply difficulty_to_target_value]. Qed.
Lemma difficulty_to_target_exact_witness :
  length (difficulty_to_target 100000) = 32%nat /\
  be2z (difficulty_to_target 100000) = DIFF1 / Z.max 1 100000.
Proof. apply (difficulty_to_target_exact 100000). by unfold is_u. Defined.

(** [compact_to_target] decodes compact bits: mantissa times [256^(e-3)]
    (a truncating division below exponent 3) in 32 bytes; it fails exactly on
    a non-zero mantissa with an exponent past 32, and never panics. *)
Theorem compact_to_target_spec bits :
  is_u32 bits ->
  let e := Z.land (Z.shiftr bits 24) 0xff in
  let m := Z.land bits 0x007fffff in
  (e <= 32 \/ m = 0 ->
     exists t, compact_to_target bits = Ok t /\ length t = 32%nat /\ be2z t = compact_value bits) /\
  (32 < e -> m ≠ 0 -> exists err, compact_to_target bits = Err err).
Proof. apply compact_to_target_value. Qed.
Lemma compact_to_target_spec_witness :
  exists t, compact_to_target 0x1d00ffff = Ok t /\ length t = 32%nat /\
    be2z t = compact_value 0x1d00ffff.
Proof.
  apply (compact_to_target_spec 0x1d00ffff); [by unfold is_u | by left].
Defined.

(** What [hash_to_difficulty] computes. With [H] the hash as a number:
    below [2^160] it saturates at [u64::MAX]; above, it never overstates the
    quotient [DIFF1 / H] by more than a factor [1 + 2^-56], and unless it
    returns 0 it reports more than half of it. *)
Theorem hash_to_difficulty_bounds hash :
  length hash = 32%nat ->
  let H := le2z hash in
  let D := hash_to_difficulty hash in
  is_u64 D /\
  (H < 2 ^ 160 -> D = umax 64) /\
  (2 ^ 160 <= H -> D * H * 2 ^ 56 <= DIFF1 * (2 ^ 56 + 1) /\ (D = 0 \/ DIFF1 < 2 * (D * H))).
Proof.
  intros Hl H D. split; [by apply hash_to_difficulty_range|].
  split; [by apply hash_to_difficulty_saturates|]. intros HH.
  unfold D. destruct (hash_to_difficulty_leading hash Hl HH) as (nz & s & Hnz & Hs & [Hlo Hhi] & ->).
  fold H in Hlo, Hhi |- *. destruct (4 <=? nz) eqn:E; b2p; [|rewrite !Z.mul_0_l; unfold DIFF1; lia].
  assert (256 ^ (nz - 4) * 256 ^ (24 - nz) = 2 ^ 160) as Hpow.
  { rewrite <- Z.pow_add_r by lia. replace (nz - 4 + (24 - nz)) with 20 by lia. done. }
  pose proof (Z.pow_pos_nonneg 256 (nz - 4)). pose proof (Z.pow_pos_nonneg 256 (24 - nz)).
  set (p := 256 ^ (nz - 4)) in *. set (r := 256 ^ (24 - nz)) in *.
  pose proof (Z.mul_div_le DIFF1_SIG s). pose proof (Z.mul_succ_div_gt DIFF1_SIG s).
  assert (0 <= DIFF1_SIG / s) by (apply Z.div_pos; unfold DIFF1_SIG; lia).
  set (q := DIFF1_SIG / s) in *. change DIFF1 with (DIFF1_SIG * 2 ^ 160).
  rewrite <- Hpow. clearbody q p r. clear Hpow.
  assert (q * 2 ^ 56 <= q * s) by (apply Z.mul_le_mono_nonneg_l; lia).
  assert (q * p * H <= q * p * ((s + 1) * r)) by (apply Z.mul_le_mono_nonneg_l; nia).
  assert (q * p * (s * r) <= q * p * H) by (apply Z.mul_le_mono_nonneg_l; nia).
  set (g := p * r). assert (0 < g) by (unfold g; nia).
  replace (q * p * ((s + 1) * r)) with (q * (s + 1) * g) in * by (unfold g; ring).
  replace (q * p * (s * r)) with (q * s * g) in * by (unfold g; ring).
  set (m := q * p * H) in *. clearbody m g. split.
  - assert (q * (s + 1) * 2 ^ 56 <= DIFF1_SIG * (2 ^ 56 + 1)) as Hq by lia.
    apply (Z.mul_le_mono_nonneg_r _ _ g) in Hq; lia.
  - destruct (Z.eq_dec q 0) as [->|Hq]; [by left|right].
    assert (DIFF1_SIG < 2 * (q * s)) as Hd by nia.
    apply (Z.mul_lt_mono_pos_r g) in Hd; lia.
Qed.
Lemma hash_to_difficulty_bounds_witness :
  let hash := replicate 27 x00 ++ [xff; x7f; x00; x00; x00] in
  let H := le2z hash in
  let D := hash_to_difficulty hash in
  is_u64 D /\
  (H < 2 ^ 160 -> D = umax 64) /\
  (2 ^ 160 <= H -> D * H * 2 ^ 56 <= DIFF1 * (2 ^ 56 + 1) /\ (D = 0 \/ DIFF1 < 2 * (D * H))).
Proof. apply (hash_to_difficulty_bounds (replicate 27 x00 ++ [xff; x7f; x00; x00; x00])). reflexivity. Defined.

(** C40: The result of [hash_to_difficulty] is not "the actual difficulty of
    the hash (at least the assigned difficulty)": it keeps only one
    significant byte of the quotient. For every difficulty of the form
    [1.5 * 256^k] there is a hash that meets its target and is reported one
    third below it; and there is a hash of true difficulty 255 reported as 0. *)
Theorem hash_to_difficulty_understates :
  (forall k, 0 <= k <= 6 -> exists hash,
     length hash = 32%nat /\ le2z hash * (3 * 256 ^ k / 2) <= DIFF1 /\
     lex_le (rev hash) (difficulty_to_target (3 * 256 ^ k / 2)) = true /\
     hash_to_difficulty hash = 256 ^ k) /\
  exists hash, length hash = 32%nat /\ lex_le (rev hash) (difficulty_to_target 255) = true /\
    hash_to_difficulty hash = 0.
Proof.
  split.
  - intros k Hk. exists (rev (difficulty_to_target (3 * 256 ^ k / 2))).
    assert (k = 0 \/ k = 1 \/ k = 2 \/ k = 3 \/ k = 4 \/ k = 5 \/ k = 6) as Hc by lia.
    destruct Hc as [->|[->|[->|[->|[->|[->| ->]]]]]]; vm_compute; repeat split; discriminate.
  - exists (rev (replicate 5 x00 ++ [xff; xff; x01] ++ replicate 24 x00)).
    vm_compute. repeat split.
Qed.
Lemma hash_to_difficulty_understates_witness :
  exists hash, length hash = 32%nat /\ le2z hash * (3 * 256 ^ 2 / 2) <= DIFF1 /\
     lex_le (rev hash) (difficulty_to_target (3 * 256 ^ 2 / 2)) = true /\
     hash_to_difficulty hash = 256 ^ 2.
Proof. apply (proj1 hash_to_difficulty_understates 2). lia. Defined.

(** ** Merkle branch *)

(** C17: The branch sent to miners is right: the loop of
    [compute_merkle_branch_raw] ends without an index error on every list of
    transaction ids, and folding the branch over any coinbase hash (as
    [StratumJob::merkle_root] does) gives Bitcoin's merkle root of the
    coinbase followed by the transactions. *)
Theorem merkle_branch_is_coinbase_path `{Sha256Lib} txids :
  exists branch, compute_merkle_branch_raw txids = Some branch /\
    forall leaf, merkle_tree_root (length txids + 1) (leaf :: txids) = Some (merkle_fold leaf branch).
Proof.
  destruct (merkle_branch_total txids []) as (br & Hb & _). exists br. split; [done|]. intros leaf.
  destruct (merkle_branch_total txids leaf) as (br' & Hb' & Ht). congruence.
Qed.

(** ** Coinbase *)

(** The height push decodes, under the protocol's reading of the first
    push of a coinbase script, to the block height, for every height below
    [2^63] (OP_0, the small integers and minimal signed numbers). *)
Theorem bip34_height_roundtrip h rest :
  0 <= h < 2 ^ 63 -> read_height_push (encode_bip34_height h ++ rest) = Some (h, rest).
Proof. apply encode_bip34_height_read. Qed.
Lemma bip34_height_roundtrip_witness :
  read_height_push (encode_bip34_height 900000 ++ [x2f]) = Some (900000, [x2f]).
Proof. apply (bip34_height_roundtrip 900000 [x2f]). lia. Defined.


