(* ===== verification/PropsValidator.v ===== *)
(** The properties of [src/mining/validator.rs], with their witnesses. *)
From S2P Require Import Reference Samples.

(** The genesis block: the header built from what the program would hold for
    it hashes to the value every explorer displays. *)
Example genesis_hash :
  match build_header 1 (hex_encode (swap_words (replicate 32 x00)))
          (rev (default [] (hex_decode "4a5e1e4baab89f3a32518a88c31bc87f618f76673e2cc77ab2127b7afdeda33b")))
          1231006505 "1d00ffff" 2083236893 with
  | Ok h => hash_display_hex (double_sha256 h)
  | _ => ""
  end = "000000000019d6689c085ae165831e934ff763ae46a2a6c172b3f1b60a8ce26f".
Proof. vm_compute. reflexivity. Qed.

(** ** Validation *)

(** C1: Share validation decides proof of work. For a job the builder
    returned that no clean job superseded, a time inside the window, the
    reserved extranonce width and acceptable version bits, the result is
    [share_verdict]: with [H] the double SHA-256 of the header assembled from
    the notified work, read as a number, a block when [H] is at most the
    network target, else a share when [H * max(1, difficulty)] is at most the
    difficulty-1 target, else a low-difficulty rejection. The network target
    is tried first. *)
Theorem share_validation_spec `{HL : HexLib} `{!HexLaws} `{SL : Sha256Lib} `{!Sha256Laws}
    params job entry en1 d v :
  job_wf job -> je_superseded_by_clean entry = false -> is_u64 d ->
  min_time job <= sp_ntime params <= saturating_add 32 (cur_time job) 7200 ->
  (length en1 + length (sp_extranonce2 params))%nat
    = (extranonce1_len job + extranonce2_len job)%nat ->
  resolve_version (version job) (sp_version_bits params) (sp_version_rolling_mask params) = Ok v ->
  exists internal b,
    hex_decode (prev_hash job) = Some (swap_words internal) /\
    from_str_radix16 32 (bits job) = Some b /\
    let coinbase := coinbase1 job ++ en1 ++ sp_extranonce2 params ++ coinbase2 job in
    validate_share_no_dedup params job entry en1 d =
      share_verdict job d
        (share_header job internal b v (sp_ntime params) (sp_nonce params) coinbase) coinbase.
Proof.
  intros Hwf Hs Hd Ht Hlen Hv.
  destruct (wf_prev_hash job Hwf) as (internal & Hp & Hi).
  destruct (wf_bits job Hwf) as (b & Hb & _). exists internal, b.
  split; [done|]. split; [done|]. by apply validate_decides.
Qed.
Lemma share_validation_spec_witness :
  exists internal b,
    hex_decode (prev_hash wjob) = Some (swap_words internal) /\
    from_str_radix16 32 (bits wjob) = Some b /\
    let coinbase := coinbase1 wjob ++ [x00; x01] ++ [x03; x04] ++ coinbase2 wjob in
    validate_share_no_dedup (wparams 1700000000 7 (Some 0x2000)) wjob wentry [x00; x01] 1 =
      share_verdict wjob 1 (share_header wjob internal b 0x20002000 1700000000 7 coinbase) coinbase.
Proof.
  apply (share_validation_spec (wparams 1700000000 7 (Some 0x2000)) wjob wentry [x00; x01] 1 0x20002000).
  - apply wjob_wf.
  - reflexivity.
  - by unfold is_u.
  - cbn. unfold saturating_add, umax. lia.
  - reflexivity.
  - vm_compute. reflexivity.
Defined.

(** No submission makes validation panic: for a job the builder returned,
    every combination of job id, extranonce, time, nonce, version bits, mask
    and difficulty yields a result or an error. *)
Theorem validation_never_panics `{HL : HexLib} `{!HexLaws} `{SL : Sha256Lib} params job entry en1 d :
  job_wf job -> validate_share_no_dedup params job entry en1 d ≠ Panic.
Proof. apply validate_no_panic. Qed.
Lemma validation_never_panics_witness :
  validate_share_no_dedup (wparams 5 7 None) wjob wentry [] 1 ≠ Panic.
Proof. apply (validation_never_panics (wparams 5 7 None) wjob wentry [] 1 wjob_wf). Defined.

(** The rejections, in the order the code takes them: a superseded job is
    stale whatever else is wrong; then a time before the template's minimum or
    more than 7200 s past its current time; then version bits outside the
    negotiated mask. None of them computes a hash. *)
Theorem validation_rejections `{HexLib} `{Sha256Lib} params job entry en1 d :
  (je_superseded_by_clean entry = true ->
     validate_share_no_dedup params job entry en1 d = Err (StaleJob (sp_job_id params))) /\
  (je_superseded_by_clean entry = false ->
     sp_ntime params < min_time job \/ saturating_add 32 (cur_time job) 7200 < sp_ntime params ->
     exists detail, validate_share_no_dedup params job entry en1 d
       = Err (InvalidParams "mining.submit" detail)) /\
  (je_superseded_by_clean entry = false ->
     min_time job <= sp_ntime params <= saturating_add 32 (cur_time job) 7200 ->
     forall cb b mask,
       assemble_coinbase job en1 (sp_extranonce2 params) = Ok cb ->
       sp_version_bits params = Some b -> sp_version_rolling_mask params = Some mask ->
       Z.land b (not32 mask) ≠ 0 ->
       exists detail, validate_share_no_dedup params job entry en1 d
         = Err (InvalidParams "mining.submit" detail)).
Proof.
  unfold validate_share_no_dedup, check_ntime.
  split; [by intros ->|]. split.
  - intros -> Ht. destruct (_ || _) eqn:E; [by eexists|]. apply orb_false_iff in E as [E1 E2]. b2p. lia.
  - intros -> Ht cb b mask Hcb Hb Hm Hbits.
    rewrite (proj2 (Z.ltb_ge _ _)) by lia.
    rewrite (proj2 (Z.ltb_ge (saturating_add _ _ _) _)) by lia. cbn [orb mbind outcome_bind].
    rewrite Hcb, Hb, Hm. cbn [mbind outcome_bind]. unfold resolve_version.
    rewrite (proj2 (Z.eqb_neq _ _)) by done. by eexists.
Qed.
Lemma validation_rejections_witness :
  exists detail, validate_share_no_dedup (wparams 1700000000 7 (Some 0x20000000)) wjob wentry [x00; x01] 1
    = Err (InvalidParams "mining.submit" detail).
Proof.
  eapply (proj2 (proj2 (validation_rejections (wparams 1700000000 7 (Some 0x20000000)) wjob wentry
    [x00; x01] 1)));
    first [reflexivity | vm_compute; split; discriminate | vm_compute; discriminate].
Defined.

(** Version rolling stays inside the mask. When the submitted bits are
    inside the negotiated mask, the header version takes the miner's bit at
    every position of the mask and the template's bit everywhere else. *)
Theorem version_rolling_inside_mask base b mask :
  is_u32 base -> is_u32 b -> is_u32 mask -> Z.land b (not32 mask) = 0 ->
  exists v, resolve_version base (Some b) (Some mask) = Ok v /\
    forall n, 0 <= n -> Z.testbit v n = if Z.testbit mask n then Z.testbit b n else Z.testbit base n.
Proof. apply resolve_version_rolled. Qed.
Lemma version_rolling_inside_mask_witness :
  exists v, resolve_version 0x20000000 (Some 0x1FFFE000) (Some VERSION_ROLLING_MASK) = Ok v /\
    forall n, 0 <= n -> Z.testbit v n =
      if Z.testbit VERSION_ROLLING_MASK n then Z.testbit 0x1FFFE000 n else Z.testbit 0x20000000 n.
Proof. apply (version_rolling_inside_mask 0x20000000 0x1FFFE000); first [by unfold is_u | reflexivity]. Defined.

(** The header commits to the node's tip. Building a header from the
    Stratum previous hash of a job puts in bytes 4..36 the full byte reversal
    of the node's display-order hash, in an 80-byte header. *)
Theorem header_carries_node_prev_hash `{HL : HexLib} `{!HexLaws}
    core stratum version mr ntime bits_hex nonce h :
  stratum_prev_hash core = Ok stratum -> length mr = 32%nat ->
  build_header version stratum mr ntime bits_hex nonce = Ok h ->
  exists display, hex_decode core = Some display /\ length h = 80%nat /\
    take 32 (drop 4 h) = rev display.
Proof.
  intros Hs Hmr Hh. pose proof (build_header_length _ _ _ _ _ _ _ Hmr Hh) as Hl.
  destruct (stratum_prev_hash_internal _ _ Hs) as (d & Hd & Hd32 & Hdec).
  exists d. split; [done|]. split; [done|]. unfold build_header in Hh. rewrite Hdec in Hh.
  destruct (from_str_radix16 32 bits_hex) as [b|] eqn:Eb.
  2: { cbn [ok_or mbind outcome_bind] in Hh. by destruct (decide _). }
  assert (length (rev d) = 32%nat) as Hrev by (by rewrite length_rev).
  pose proof (build_header_ok version stratum mr ntime bits_hex nonce (rev d) b Hdec Hrev Eb) as Hb.
  unfold build_header in Hb. rewrite Hdec, Eb in Hb. rewrite Hb in Hh.
  match type of Hh with Ok ?x = _ => assert (h = x) as -> by congruence end.
  rewrite drop_app_length' by (by rewrite length_le_bytes). by rewrite take_app_length'.
Qed.
Lemma header_carries_node_prev_hash_witness :
  exists display, hex_decode "000000000019d6689c085ae165831e934ff763ae46a2a6c172b3f1b60a8ce26f" = Some display /\
    length (default [] (match build_header 1 (match stratum_prev_hash "000000000019d6689c085ae165831e934ff763ae46a2a6c172b3f1b60a8ce26f" with Ok s => s | _ => "" end) (replicate 32 x22) 5 "1d00ffff" 7 with Ok h => Some h | _ => None end)) = 80%nat /\
    take 32 (drop 4 (default [] (match build_header 1 (match stratum_prev_hash "000000000019d6689c085ae165831e934ff763ae46a2a6c172b3f1b60a8ce26f" with Ok s => s | _ => "" end) (replicate 32 x22) 5 "1d00ffff" 7 with Ok h => Some h | _ => None end))) = rev display.
Proof.
  eapply (header_carries_node_prev_hash _ _ 1 (replicate 32 x22) 5 "1d00ffff" 7);
    vm_compute; reflexivity.
Defined.

(** ** Blocks *)

(** The block handed to [submitblock] parses: it is the hex of the
    80-byte header followed by a CompactSize that the protocol's reader takes
    for one more than the number of template transactions, the coinbase, and
    the template's transactions in order. *)
Theorem block_hex_parses `{HL : HexLib} `{!HexLaws} header coinbase txs :
  Z.of_nat (length txs) < 2 ^ 64 - 1 ->
  exists rest, hex_decode (assemble_block_hex header coinbase txs) = Some (header ++ rest) /\
    read_varint rest = Some (1 + Z.of_nat (length txs), coinbase ++ concat txs).
Proof. apply block_hex_reads. Qed.
Lemma block_hex_parses_witness :
  exists rest, hex_decode (assemble_block_hex (replicate 80 x07) [x01] [[x02]; [x03; x04]])
      = Some (replicate 80 x07 ++ rest) /\
    read_varint rest = Some (1 + Z.of_nat 2, [x01] ++ concat [[x02]; [x03; x04]]).
Proof. apply (block_hex_parses (replicate 80 x07) [x01] [[x02]; [x03; x04]]). reflexivity. Defined.

(** ** Duplicates *)

(** C20: No share is credited twice. Over any sequence of validation outcomes
    and clean jobs, two acceptances of one header hash since the last clean
    job are more than 4096 acceptances apart; the tracker holds exactly the
    last 4096 accepted hashes; and a submission whose hash it holds is turned
    into a duplicate error and changes nothing. *)
Theorem dedup_no_double_credit es :
  let '(s, accepted) := dedup_run es in
  (forall i j x, accepted !! i = Some x -> accepted !! j = Some x -> (i < j)%nat -> (4096 < j - i)%nat) /\
  (forall key, ShareSet_contains s key = true <-> key ∈ drop (length accepted - 4096) accepted) /\
  (forall res, ShareSet_contains s (ShareResult_hash res) = true ->
     ShareSet_dedup s (Ok res) = (s, Err DuplicateShare)).
Proof.
  pose proof (dedup_run_inv es) as Hinv. destruct (dedup_run es) as [s acc].
  destruct Hinv as ((_ & Hs & _) & _ & Ho & Hd). cbn [fst snd] in *.
  split; [done|]. split.
  - intros key. unfold ShareSet_contains. rewrite bool_decide_eq_true, Hs, Ho.
    apply elem_of_list_to_set.
  - intros res Hc. cbn. by rewrite Hc.
Qed.
