(* ===== verification/PropsVardiff.v ===== *)
(** Properties of the variable-difficulty controller. *)
From S2P Require Import Vardiff Samples.

Example vcfg_ok : validate_vardiff vcfg = Ok tt.
Proof. reflexivity. Qed.
(** A session at 100000 that credited 20 shares of 1024 in its first minute. *)
Definition floor_session : Vardiff :=
  set_share_record (new_vardiff vcfg 100000 0 0) (replicate 20 (from_secs 45, 1024)) 0.
Example floor_session_retarget :
  snd <$> check_retarget floor_session (from_secs 60) (from_secs 60) (from_secs 60) = Some (Some 25000).
Proof. vm_compute. reflexivity. Qed.

(** C30: Under a configuration that [Config::validate] accepts, [check_retarget] never panics. Before a
    retarget interval has passed it changes nothing. From then on it moves the mark to now, and either
    leaves the difficulty alone or moves it to a different value inside [min_difficulty, max_difficulty],
    keeping the old difficulty as the previous one. *)
Theorem retarget_in_configured_range v now1 now2 now3 :
  validate_vardiff (cfg v) = Ok tt -> valid_binary prec emax (max_retarget_factor (cfg v)) = true ->
  exists v' r, check_retarget v now1 now2 now3 = Some (v', r) /\
    cfg v' = cfg v /\ share_times v' = share_times v /\ started_at v' = started_at v /\
    (duration_since now1 (last_retarget v) < retarget_interval v -> v' = v /\ r = None) /\
    (retarget_interval v <= duration_since now1 (last_retarget v) -> last_retarget v' = now2) /\
    match r with
    | None => current v' = current v /\ previous v' = previous v
    | Some d => min_difficulty (cfg v) <= d <= max_difficulty (cfg v) /\ d ≠ current v
                /\ current v' = d /\ previous v' = current v
    end.
Proof. apply check_retarget_spec. Qed.
Lemma retarget_in_configured_range_witness :
  exists v' r, check_retarget floor_session (from_secs 60) (from_secs 60) (from_secs 60) = Some (v', r) /\
    cfg v' = cfg floor_session /\ share_times v' = share_times floor_session /\
    started_at v' = started_at floor_session /\
    (duration_since (from_secs 60) (last_retarget floor_session) < retarget_interval floor_session ->
       v' = floor_session /\ r = None) /\
    (retarget_interval floor_session <= duration_since (from_secs 60) (last_retarget floor_session) ->
       last_retarget v' = from_secs 60) /\
    match r with
    | None => current v' = current floor_session /\ previous v' = previous floor_session
    | Some d => min_difficulty vcfg <= d <= max_difficulty vcfg /\ d ≠ current floor_session
                /\ current v' = d /\ previous v' = current floor_session
    end.
Proof. apply (retarget_in_configured_range floor_session); vm_compute; reflexivity. Defined.

(** The instant a session sleeps until and the due check agree: waking at [retarget_due] or later
    judges the session and moves the next wake-up strictly past the clock, waking earlier changes
    nothing. The session can therefore neither spin nor miss a retarget. *)
Theorem retarget_due_agrees v due now1 now2 now3 v' r :
  0 < retarget_interval_secs (cfg v) -> retarget_due v = Some due -> now1 <= now2 ->
  check_retarget v now1 now2 now3 = Some (v', r) ->
  (due <= now1 -> last_retarget v' = now2 /\
     forall due', retarget_due v' = Some due' -> due' = now2 + retarget_interval v /\ now1 < due') /\
  (now1 < due -> v' = v /\ r = None).
Proof.
  intros Hi Hdue Hnow H.
  assert (due = last_retarget v + retarget_interval v) as ->.
  { unfold retarget_due, instant_add in Hdue. break_in Hdue; [congruence|done]. }
  assert (0 < retarget_interval v) as Hpos by (unfold retarget_interval, from_secs, NANOS; lia).
  unfold check_retarget in H.
  destruct (Z.ltb_spec (duration_since now1 (last_retarget v)) (retarget_interval v)) as [Hlt|Hge].
  { injection H as <- <-. unfold duration_since in Hlt. split; [lia|done]. }
  unfold duration_since in Hge. split; [|lia]. intros _.
  assert (last_retarget v' = now2 /\ cfg v' = cfg v) as [Hl Hcfg].
  { destruct (work_in_window _ _ _) as [work observed].
    destruct (f64_le _ _); [by injection H as <- <-|].
    destruct (f64_in _ _ _); [by injection H as <- <-|].
    destruct (retarget_step _ _) as [d|]; [|done]. cbn in H.
    destruct (_ =? _); injection H as <- <-; [done|]. by autorewrite with pool_len. }
  split; [done|]. intros due'. unfold retarget_due, retarget_interval, instant_add.
  rewrite Hl, Hcfg. unfold retarget_interval in *. destruct (_ <? _); [|done]. intros [= <-]. lia.
Qed.
Lemma retarget_due_agrees_witness :
  exists v' r, last_retarget v' = from_secs 61 /\ r = Some 25000 /\
  ((from_secs 60 <= from_secs 61 -> last_retarget v' = from_secs 61 /\
     forall due', retarget_due v' = Some due' ->
       due' = from_secs 61 + retarget_interval floor_session /\ from_secs 61 < due') /\
   (from_secs 61 < from_secs 60 -> v' = floor_session /\ r = None)).
Proof.
  destruct (check_retarget floor_session (from_secs 61) (from_secs 61) (from_secs 61)) as [[v' r]|] eqn:E;
    [|vm_compute in E; discriminate E].
  exists v', r. split; [|split].
  1,2: vm_compute in E; injection E as <- <-; reflexivity.
  apply (retarget_due_agrees floor_session (from_secs 60) (from_secs 61) (from_secs 61) (from_secs 61));
    [reflexivity|reflexivity|reflexivity|exact E].
Defined.

(** A share is credited with a threshold the miner was given (the current assignment, the previous one
    or the floor), and with the floor respected as the share check guarantees, never with more than the
    difficulty its hash reached. *)
Theorem credit_never_exceeds_hash v h :
  min_difficulty (cfg v) <= h ->
  credit_for v h ∈ [current v; previous v; min_difficulty (cfg v)] /\ credit_for v h <= h /\
  (current v <= h -> credit_for v h = current v) /\
  (h < current v -> previous v <= h -> credit_for v h = previous v).
Proof.
  intros Hmin. rewrite !elem_of_cons.
  destruct (credit_for_cases v h) as [[? ->]|[(? & ? & ->)|(? & ? & ->)]]; repeat split; lia || tauto.
Qed.
Lemma credit_never_exceeds_hash_witness :
  credit_for floor_session 50000 = 512 /\
  credit_for floor_session 50000 ∈ [current floor_session; previous floor_session; 512] /\
  credit_for floor_session 50000 <= 50000.
Proof.
  split; [reflexivity|].
  destruct (credit_never_exceeds_hash floor_session 50000) as (H1 & H2 & _); [by vm_compute|].
  split; assumption.
Defined.

(** Evicting old shares is invisible to every window inside the retention period: after any later
    [record_share], the work of a window is the saturated sum of exactly the recorded shares inside it,
    over the smaller of the window and the age of the record. *)
Theorem window_counts_recorded_work v d now now' window :
  now <= now' -> 0 <= d -> Forall (fun e => 0 <= snd e) (share_times v) -> window <= SHARE_RETENTION ->
  work_in_window (record_share v d now) window now' =
    (Z.min (foldr Z.add 0 (map snd (List.filter (in_window now' window) (share_times v ++ [(now, d)]))))
           (umax 64),
     Z.min (duration_since now' (started_at v)) window).
Proof.
  intros Hnow Hd Hpos Hw. unfold work_in_window, record_share. cbn [share_times started_at set_share_record].
  rewrite filter_drop_while by (intros e; by apply expired_out_of_window).
  rewrite saturating_sum_exact; [done|].
  apply Forall_map, List.Forall_forall. intros e He. apply List.filter_In in He as [He _].
  apply in_app_or in He as [He|[<-|[]]]; [|done].
  rewrite List.Forall_forall in Hpos. by apply Hpos.
Qed.
Lemma window_counts_recorded_work_witness :
  work_in_window (record_share floor_session 1024 (from_secs 86500)) (from_secs 60) (from_secs 86510) =
    (Z.min (foldr Z.add 0 (map snd (List.filter (in_window (from_secs 86510) (from_secs 60))
       (share_times floor_session ++ [(from_secs 86500, 1024)])))) (umax 64),
     Z.min (duration_since (from_secs 86510) (started_at floor_session)) (from_secs 60)).
Proof.
  apply window_counts_recorded_work; try (vm_compute; discriminate).
  repeat constructor; vm_compute; discriminate.
Defined.

(** A reconnecting worker keeps its record: the history a session hands off, restored into the next
    session, makes every window inside the retention report the work of both sessions together, observed
    from the earlier of the two starts. *)
Theorem handoff_preserves_work a b t_take t_restore now window :
  t_restore <= now -> window <= SHARE_RETENTION ->
  Forall (fun e => 0 <= snd e) (share_times a ++ share_times b) ->
  let '(a', h) := take_share_history a t_take in
  work_in_window (restore_share_history b h t_restore) window now =
    (Z.min (foldr Z.add 0 (map snd
       (List.filter (in_window now window) (share_times a ++ share_times b)))) (umax 64),
     Z.min (duration_since now (Z.min (started_at a) (started_at b))) window)
  /\ work_in_window a' window now = (0, Z.min (duration_since now t_take) window).
Proof.
  intros Hnow Hw Hpos. cbn. split; [|done].
  unfold work_in_window, restore_share_history. cbn [share_times started_at set_share_record
    hist_share_times hist_started_at].
  rewrite !List.filter_app, filter_filter_weaker.
  2: { intros e He. destruct (expired t_restore e) eqn:E; [|done].
       by rewrite (expired_out_of_window t_restore now window e) in He. }
  rewrite <- List.filter_app, saturating_sum_exact.
  - f_equal. f_equal. f_equal. apply Z.min_comm.
  - apply Forall_map, List.Forall_forall. intros e He. apply List.filter_In in He as [He _].
    rewrite List.Forall_forall in Hpos. by apply Hpos.
Qed.
Lemma handoff_preserves_work_witness :
  let '(a', h) := take_share_history floor_session (from_secs 100) in
  work_in_window (restore_share_history (new_vardiff vcfg 1024 (from_secs 110) (from_secs 110)) h
                    (from_secs 111)) (from_secs 3600) (from_secs 120) =
    (Z.min (foldr Z.add 0 (map snd (List.filter (in_window (from_secs 120) (from_secs 3600))
       (share_times floor_session ++ [])))) (umax 64),
     Z.min (duration_since (from_secs 120) (Z.min 0 (from_secs 110))) (from_secs 3600))
  /\ work_in_window a' (from_secs 3600) (from_secs 120) =
     (0, Z.min (duration_since (from_secs 120) (from_secs 100)) (from_secs 3600)).
Proof.
  apply (handoff_preserves_work floor_session (new_vardiff vcfg 1024 (from_secs 110) (from_secs 110)));
    try (vm_compute; discriminate).
  repeat constructor; vm_compute; discriminate.
Defined.

(** A configuration the pool accepts, whose target share time is above its
    retarget interval. *)
Definition slow_cfg : VardiffConfig := {|
  target_share_time_secs := 120; retarget_interval_secs := 30;
  min_difficulty := 1024; max_difficulty := 1000000000;
  max_retarget_factor := f64_lit 4 0 |}.
(** When the target share time is more than one and a half retarget intervals, a session that submits
    nothing has its difficulty raised at its first retarget: with a 120 s target and a 30 s interval, a
    configuration [Config::validate] accepts, thirty silent seconds multiply the difficulty by four. *)
Theorem silence_can_raise_difficulty :
  validate_vardiff slow_cfg = Ok tt /\
  snd <$> check_retarget (new_vardiff slow_cfg 4096 0 0) (from_secs 30) (from_secs 30) (from_secs 30)
    = Some (Some 16384).
Proof. split; [reflexivity|]. vm_compute. reflexivity. Qed.
