(* ===== verification/PropsEngine.v ===== *)
(** Properties of the template engine. *)
From stdpp Require Import sorting.
From S2P Require Import BlockArchive Samples.
From Stdlib Require Import Strings.Ascii.

Definition refresh_example (prev : string) (clean : bool) : refresh_input := {|
  ri_settings := settings_example;
  ri_gbt := Ok {| gbt_version := gbt_version gbt_example; gbt_prev_hash := prev; gbt_bits := gbt_bits gbt_example;
    gbt_cur_time := gbt_cur_time gbt_example; gbt_min_time := gbt_min_time gbt_example;
    gbt_height := gbt_height gbt_example; gbt_coinbase_value := gbt_coinbase_value gbt_example;
    gbt_transactions := []; gbt_longpoll_id := None; gbt_default_witness_commitment := None; gbt_rules := [] |};
  ri_now1 := 0; ri_now2 := 0; ri_clean := clean |}.
(** Two tips. *)
Definition tip1 : string := hex_encode (replicate 31 x00 ++ [x01]).
Definition tip2 : string := hex_encode (replicate 31 x00 ++ [x02]).

(** After any sequence of refreshes, whatever the node answered and whether or not the caller asked for a
    clean job, at most eight jobs are remembered, the current job is the newest of them, and a job that is
    still honoured is on the current tip: when a session looks a job up and validation accepts a share
    for it, the job's prevhash is the current job's. Work on a dead prevhash is never accepted. *)
Theorem accepted_work_is_on_current_tip `{HL : HexLib} `{HS : Sha256Lib} `{HB : BitcoinLib}
    pool_cfg ids l ids' e effs :
  refresh_run pool_cfg ids engine_new l = Ok (ids', e, effs) ->
  (length (job_history e) <= 8)%nat /\ current_job e = je_job <$> last (job_history e) /\
  forall id entry params en1 d r,
    find_job e id = Some entry ->
    validate_share_no_dedup params (je_job entry) entry en1 d = Ok r ->
    exists c, current_job e = Some c /\ prev_hash (je_job entry) = prev_hash c.
Proof.
  intros H. destruct (refresh_run_inv _ _ _ _ _ _ _ engine_new_inv H) as (Hlen & Hl & Hcur).
  split; [exact Hlen|]. split; [exact Hcur|]. intros id entry params en1 d r Hf Hv.
  assert (je_superseded_by_clean entry = false) as Hs.
  { unfold validate_share_no_dedup in Hv. by destruct (je_superseded_by_clean entry). }
  destruct (last (job_history e)) as [x|] eqn:Hlast.
  - exists (je_job x). split; [done|]. by eapply find_entry_tip.
  - apply last_None in Hlast. unfold find_job in Hf. by rewrite Hlast in Hf.
Qed.
Definition run_example : outcome PoolError (JobIds * TemplateEngine * list engine_effect) :=
  refresh_run pool_example (init_job_ids 1700000000000) engine_new
    [refresh_example tip1 true; refresh_example tip1 false; refresh_example tip2 false].
Lemma accepted_work_is_on_current_tip_witness :
  exists ids' e effs,
    run_example = Ok (ids', e, effs) /\ length (job_history e) = 3%nat /\
    map je_clean (job_history e) = [true; false; true] /\
    (length (job_history e) <= 8)%nat /\ current_job e = je_job <$> last (job_history e).
Proof.
  destruct run_example as [[[ids' e] effs]|err|] eqn:E; [|vm_compute in E; discriminate E..].
  exists ids', e, effs. split; [reflexivity|].
  split; [vm_compute in E; injection E as <- <- <-; reflexivity|].
  split; [vm_compute in E; injection E as <- <- <-; reflexivity|].
  destruct (accepted_work_is_on_current_tip pool_example (init_job_ids 1700000000000)
    [refresh_example tip1 true; refresh_example tip1 false; refresh_example tip2 false] ids' e effs E)
    as (H1 & H2 & _). split; [exact H1|exact H2].
Defined.

(** What a refresh does, on every branch. It broadcasts exactly when a job was built from an address that
    is valid on the node's network; the broadcast is clean exactly when the caller asked for it or the
    prevhash differs from the current job's, the job becomes current and newest, and the health report is
    cleared. Otherwise nothing goes out, the current job and history stay, and the health report holds a
    reason. *)
Theorem refresh_effects `{HL : HexLib} `{HS : Sha256Lib} `{HB : BitcoinLib}
    net settings pool_cfg ids gbt now1 now2 e clean ids' e' effs :
  settings_inv net settings ->
  refresh settings pool_cfg ids gbt now1 now2 e clean = Ok (ids', e', effs) ->
  (effs = [] /\ current_job e' = current_job e /\ job_history e' = job_history e /\
   is_Some (last_template_error e')) \/
  (exists address n job c, validate address net = Ok tt /\ network_of net = Some n /\
     address_is_valid_for address n = true /\
     effs = [PublishTemplateStats (height job) (coinbase_value job) (Z.of_nat (length (transactions job)));
             Broadcast {| jb_job := job; jb_clean := c |}] /\
     (c = true <-> clean = true \/ forall old, current_job e = Some old -> prev_hash old ≠ prev_hash job) /\
     current_job e' = Some job /\
     last (job_history e') = Some {| je_job := job; je_created_at := now2; je_clean := c;
                                     je_superseded_by_clean := false |} /\
     template_health e' now1 = {| age_secs := Some 0; health_error := None |}).
Proof.
  intros [Hn Hv] H. apply refresh_cases in H as [(why & -> & ->)|(a & g & job & Ha & _ & _ & H)].
  { left. split; [done|]. split; [done|]. split; [done|]. by eexists. }
  right. cbn in H. destruct H as [-> ->].
  unfold valid_coinbase_address in Ha. destruct (rs_valid settings); [|done]. injection Ha as <-.
  assert (validate (rs_address settings) net = Ok tt) as Hok.
  { destruct (validate (rs_address settings) net) as [[]| |]; [done|discriminate Hv..]. }
  destruct (proj1 (validate_ok _ _) Hok) as (n & Hnet & _ & Hvalid).
  eexists _, n, job, _. split; [exact Hok|]. split; [done|]. split; [done|]. split; [done|].
  split; [|split; [done|split; [unfold push_history; cbn [job_history]; by rewrite last_snoc|]]].
  - rewrite orb_true_iff. unfold tip_moved. rewrite negb_true_iff, bool_decide_eq_false.
    destruct (current_job e) as [old|]; cbn; [|naive_solver].
    split; (intros [?|Hc]; [by left|right]); [intros ? [= <-]; congruence|].
    intros [= Heq]. by apply (Hc old).
  - unfold template_health, duration_since. cbn. by rewrite Z.sub_diag.
Qed.
Lemma refresh_effects_witness :
  exists ids' e' effs,
    refresh settings_example pool_example (init_job_ids 1700000000000) (Ok gbt_example) 7 8 engine_new false
      = Ok (ids', e', effs) /\
    effs ≠ [] /\
    ((effs = [] /\ current_job e' = current_job engine_new /\ job_history e' = job_history engine_new /\
      is_Some (last_template_error e')) \/
     (exists address n job c, validate address "regtest" = Ok tt /\ network_of "regtest" = Some n /\
       address_is_valid_for address n = true /\
       effs = [PublishTemplateStats (height job) (coinbase_value job) (Z.of_nat (length (transactions job)));
               Broadcast {| jb_job := job; jb_clean := c |}] /\
       (c = true <-> false = true \/ forall old, current_job engine_new = Some old -> prev_hash old ≠ prev_hash job) /\
       current_job e' = Some job /\
       last (job_history e') = Some {| je_job := job; je_created_at := 8; je_clean := c;
                                       je_superseded_by_clean := false |} /\
       template_health e' 7 = {| age_secs := Some 0; health_error := None |})).
Proof.
  destruct (refresh settings_example pool_example (init_job_ids 1700000000000) (Ok gbt_example) 7 8 engine_new
    false) as [[[ids' e'] effs]|err|] eqn:E; [|vm_compute in E; discriminate E..].
  exists ids', e', effs. split; [reflexivity|].
  split; [vm_compute in E; injection E as <- <- <-; discriminate|].
  apply (refresh_effects "regtest" settings_example pool_example (init_job_ids 1700000000000) (Ok gbt_example)
    7 8 engine_new false ids' e' effs); [split; reflexivity|exact E].
Defined.


(** The background retrier credits a block at most once, and exactly when the node accepted it: with every
    wake-up before the deadline, the credit is given iff some answer is an acceptance and every earlier one a
    transient failure. A boot-time replay, which carries no worker, never credits. *)
Theorem retrier_credits_accepted_block height hash block_hex worker start l :
  Forall (fun x => x.1 < start + SUBMIT_RETRY_DEADLINE) l ->
  let credits := List.filter (fun x => match x with CreditBlock _ _ _ => true | _ => false end) in
  let effs := spawn_resubmit_task height hash block_hex (Some worker) start l in
  (credits effs = [CreditBlock worker hash height] /\
     exists pre now post, l = pre ++ (now, Ok tt) :: post /\ Forall (fun x => transient x.2) pre) \/
  (credits effs = [] /\
     forall pre now post, l = pre ++ (now, Ok tt) :: post -> ~ Forall (fun x => transient x.2) pre).
Proof.
  unfold spawn_resubmit_task. cbv zeta. generalize (start + SUBMIT_RETRY_DEADLINE) as deadline.
  intros deadline. induction 1 as [|[now a] l Hnow Hl IH].
  { right. split; [done|]. by intros [] ??. }
  cbn [resubmit_loop]. cbn in Hnow. apply Z.ltb_lt in Hnow as ->.
  destruct (transient_or_settled a) as [Ht|[->|(e & -> & He)]].
  - pose proof Ht as (e & He & Hp). rewrite He, Hp. cbn [List.filter].
    destruct IH as [(Hc & pre & n & post & -> & Hpre)|(Hc & Hno)].
    + left. split; [done|]. exists ((now, a) :: pre), n, post. split; [done|]. by constructor.
    + right. split; [done|]. intros [|x pre] n post Heq Hpre.
      * injection Heq as -> -> ->. by destruct Ht as (? & ? & ?).
      * injection Heq as <- ->. apply Forall_cons in Hpre as [_ Hpre]. by eapply Hno.
  - left. split; [done|]. by exists [], now, l.
  - right. cbn [try_submit]. rewrite He. split; [done|]. intros [|x pre] n post Heq Hpre; [done|].
    injection Heq as <- ->. apply Forall_cons in Hpre as [Hx _].
    eapply settled_not_transient; [|exact Hx]. right. eauto.
Qed.
Lemma retrier_credits_accepted_block_witness :
  let l := [(0, Err ConnectionClosed); (10, Ok tt); (20, Ok tt)] in
  let credits := List.filter (fun x => match x with CreditBlock _ _ _ => true | _ => false end) in
  let effs := spawn_resubmit_task 101 "h" "00" (Some "w") 0 l in
  effs = [Backoff 10000; Attempt "00"; Backoff 10000; Attempt "00"; MarkSubmitted 101 "h"; CreditBlock "w" "h" 101] /\
  ((credits effs = [CreditBlock "w" "h" 101] /\
     exists pre now post, l = pre ++ (now, Ok tt) :: post /\ Forall (fun x => transient x.2) pre) \/
   (credits effs = [] /\
     forall pre now post, l = pre ++ (now, Ok tt) :: post -> ~ Forall (fun x => transient x.2) pre)).
Proof.
  split; [reflexivity|].
  apply (retrier_credits_accepted_block 101 "h" "00" "w" 0). repeat constructor.
Defined.

(** The boot-time replay loses no block: every archived file ends in the submitted bucket when the node has
    the block, in the rejected bucket when it refused it for good, and otherwise stays where it is for the
    next boot; files that are not archived blocks are not touched. *)
Theorem replay_loses_no_block answers a n hex :
  arch_top a !! n = Some hex ->
  let a' := (replay_archived_blocks answers a).1 in
  (has_hex_extension n = true -> replayed (answers n) a' n hex) /\
  (has_hex_extension n = false -> arch_top a' !! n = Some hex).
Proof.
  intros Ht. cbv zeta. unfold replay_archived_blocks. split; intros Hx.
  - apply replay_loop_spec; [apply list_archived_NoDup|apply elem_of_list_archived; eauto|done].
  - destruct (replay_loop_other answers (list_archived_blocks a) a n) as (-> & _); [|done].
    intros [_ H]%elem_of_list_archived. congruence.
Qed.
Definition archive_example : Archive :=
  {| arch_top := {["block_7_h.hex" := "00"; "README" := "x"]}; arch_submitted := ∅; arch_rejected := ∅ |}.
Lemma replay_loses_no_block_witness :
  let answers := fun _ : string => Ok tt : outcome PoolError () in
  let a' := (replay_archived_blocks answers archive_example).1 in
  arch_submitted a' !! "block_7_h.hex" = Some "00" /\ arch_top a' !! "README" = Some "x".
Proof.
  intros answers a'.
  destruct (replay_loses_no_block answers archive_example "block_7_h.hex" "00") as [H _]; [reflexivity|].
  destruct (replay_loses_no_block answers archive_example "README" "x") as [_ H']; [reflexivity|].
  split; [exact (proj2 (H eq_refl))|exact (H' eq_refl)].
Defined.

(** C9: No block that was written down is lost, over any number of lives of the pool. Whatever interleaving of
    blocks being found, their submission and resubmission, the writes and moves of their files, crashes at any
    moment that leave unfinished files behind, and boots with their replay: a file that was written is still whole;
    it left the top of the directory only for [submitted/] after the node took the block or for [rejected/] after
    the node refused it; and while it is at the top, the next boot submits it and does with it what the node's
    answer says. *)
Theorem no_found_block_is_lost (accepts refuses : string -> Prop) s n hex :
  rtc (bk_step accepts refuses) bk_init s -> bk_landed s !! n = Some hex ->
  (arch_top (bk_dir s) !! n = Some hex /\
     forall answers, replayed (answers n) (replay_archived_blocks answers (bk_dir s)).1 n hex) \/
  (arch_top (bk_dir s) !! n = None /\ arch_submitted (bk_dir s) !! n = Some hex /\ accepts n) \/
  (arch_top (bk_dir s) !! n = None /\ arch_rejected (bk_dir s) !! n = Some hex /\ refuses n).
Proof.
  intros Hr Hl. destruct (bi_landed _ _ _ (bk_reach_inv _ _ s Hr) n hex Hl) as (_ & Hx & [Ht|H]); [left|by right].
  split; [done|]. intros answers. apply replay_loop_spec; [apply list_archived_NoDup|apply elem_of_list_archived; eauto|done].
Qed.
(** A block is found while the node is away, the pool crashes once its file is written, boots, and crashes again
    during the replay; the third process finds the node. *)
Definition away : nat -> outcome PoolError () := fun _ => Err ConnectionClosed.
Definition file7 : string := "block_7_h.hex".
Definition dir7 (submitted : bool) : Archive :=
  if submitted then {| arch_top := ∅; arch_submitted := {[file7 := "00"]}; arch_rejected := ∅ |}
  else {| arch_top := {[file7 := "00"]}; arch_submitted := ∅; arch_rejected := ∅ |}.
Definition blocks7 (submitted : bool) (tasks : list block_task) : Blocks :=
  {| bk_dir := dir7 submitted; bk_tasks := tasks; bk_found := {[file7]} ∪ ∅; bk_landed := {[file7 := "00"]} |}.
Lemma no_found_block_is_lost_witness :
  exists s, rtc (bk_step (fun m => m = file7) (fun _ => False)) bk_init s /\ bk_landed s !! file7 = Some "00" /\
  arch_submitted (bk_dir s) !! file7 = Some "00" /\
  ((arch_top (bk_dir s) !! file7 = Some "00" /\
      forall answers, replayed (answers file7) (replay_archived_blocks answers (bk_dir s)).1 file7 "00") \/
   (arch_top (bk_dir s) !! file7 = None /\ arch_submitted (bk_dir s) !! file7 = Some "00" /\ file7 = file7) \/
   (arch_top (bk_dir s) !! file7 = None /\ arch_rejected (bk_dir s) !! file7 = Some "00" /\ False)).
Proof.
  exists (blocks7 true [Replaying []]).
  assert (rtc (bk_step (fun m => m = file7) (fun _ => False)) bk_init (blocks7 true [Replaying []])) as Hr.
  { eapply rtc_l; [apply (bk_find _ _ bk_init 7 "h" "00" "w" away); [apply not_elem_of_empty|intros [k Hk]; discriminate Hk]|].
    eapply rtc_l; [eapply (bk_effect _ _ _ [] []); [reflexivity|apply sp_archive]|].
    eapply rtc_l; [eapply (bk_write _ _ _ [Effects _] [] 7 "h" "00"); reflexivity|].
    eapply rtc_l; [apply (bk_crash _ _ _ ∅); intros m part Hm; rewrite lookup_empty in Hm; discriminate Hm|].
    eapply rtc_l; [apply bk_boot; reflexivity|].
    eapply rtc_l; [apply (bk_crash _ _ _ ∅); intros m part Hm; rewrite lookup_empty in Hm; discriminate Hm|].
    eapply rtc_l; [apply bk_boot; reflexivity|].
    eapply rtc_l; [eapply (bk_replay _ _ _ [] [] file7 [] (fun _ => Ok tt) (dir7 true) _ [[]]); [vm_compute; reflexivity|reflexivity| | |]|].
    - intros e He. discriminate He.
    - vm_compute. reflexivity.
    - repeat constructor.
    - assert (forall x y : Blocks, x = y -> rtc (bk_step (fun m => m = file7) (fun _ => False)) x y) as Heq by (intros x y ->; apply rtc_refl).
      apply Heq. vm_compute. reflexivity. }
  split; [exact Hr|]. split; [vm_compute; reflexivity|]. split; [vm_compute; reflexivity|].
  apply (no_found_block_is_lost _ _ _ _ _ Hr). vm_compute. reflexivity.
Defined.

(** The name an archived block is written under gives back its height and hash: for any height and the
    display form of any 32-byte hash, [parse_archive_name] inverts [archive_path], and the file is one the
    replay lists. *)
Theorem archive_name_roundtrip `{HL : HexLib} `{!HexLaws} height hash :
  is_u64 height -> length hash = 32%nat ->
  parse_archive_name (archive_name height (hash_display_hex hash)) = Some (height, hash_display_hex hash)
  /\ has_hex_extension (archive_name height (hash_display_hex hash)) = true.
Proof.
  intros Hh Hl. split.
  - apply parse_archive_name_of; [done| |].
    + unfold str_len. rewrite (hex_decode_length _ (rev hash)) by apply hex_decode_encode.
      rewrite length_rev, Hl. done.
    + apply hex_encode_digits.
  - apply archive_name_hex.
Qed.
Lemma archive_name_roundtrip_witness :
  parse_archive_name (archive_name 900000 (hash_display_hex (replicate 32 xab)))
    = Some (900000, hash_display_hex (replicate 32 xab))
  /\ has_hex_extension (archive_name 900000 (hash_display_hex (replicate 32 xab))) = true.
Proof. apply (archive_name_roundtrip 900000 (replicate 32 xab)); [split; reflexivity || discriminate|reflexivity]. Defined.

(** Refreshes that overlap break the rule above: the current-job lock is released before the history lock
    is taken, so a refresh holding a job [a] on the old tip can push it after a refresh that committed and
    pushed [b] on the new tip. Then the dead job [a] is honoured, and shares for the current job [b] are
    refused as stale. *)
Theorem overlapping_refreshes_honour_dead_tip a b :
  job_id a ≠ job_id b -> prev_hash a ≠ prev_hash b ->
  exists s ea eb, rtc sys_step (sys_init engine_new) s /\ tasks s = [] /\
    current_job (engine s) = Some b /\
    find_job (engine s) (job_id a) = Some ea /\ je_job ea = a /\ je_superseded_by_clean ea = false /\
    find_job (engine s) (job_id b) = Some eb /\ je_job eb = b /\ je_superseded_by_clean eb = true.
Proof.
  intros Hid Hprev.
  set (e1 := (commit_job engine_new a false 0).1). set (e2 := (commit_job e1 b true 0).1).
  set (e3 := push_history e2 b true 0). set (e4 := push_history e3 a true 0).
  exists {| engine := e4; tasks := []; sent := [{| jb_job := b; jb_clean := true |}; {| jb_job := a; jb_clean := true |}] |}.
  eexists _, _. split; [|split; [done|split; [done|]]].
  - eapply rtc_l; [apply (step_build _ a false)|].
    eapply rtc_l; [apply (step_build _ b true)|]. cbn.
    eapply rtc_l; [apply (step_commit engine_new [] a false [Built b true] [] 0 e1 true); done|].
    eapply rtc_l; [apply (step_commit e1 [Committed a true] b true [] [] 0 e2 true); done|].
    eapply rtc_l; [apply (step_push e2 [Committed a true] b true [] [] 0)|].
    eapply rtc_l; [apply (step_push e3 [] a true [Pushed b true] [] 0)|].
    eapply rtc_l; [apply (step_broadcast e4 [Pushed a true] b true [] [])|].
    eapply rtc_l; [apply (step_broadcast e4 [] a true [] [{| jb_job := b; jb_clean := true |}])|].
    apply rtc_refl.
  - unfold find_job. cbn. rewrite (bool_decide_eq_false_2 (job_id b = job_id a)) by congruence.
    rewrite !bool_decide_eq_true_2 by done. done.
Qed.
Definition wjob2 : StratumJob :=
  {| job_id := "0000000100000002";
     prev_hash := hex_encode (swap_words (replicate 32 x22));
     coinbase1 := coinbase1 wjob; coinbase2 := coinbase2 wjob; merkle_branch := []; merkle_branch_raw := [];
     version := version wjob; bits := bits wjob; cur_time := cur_time wjob; min_time := min_time wjob;
     height := 102; network_target := network_target wjob; coinbase_template := coinbase_template wjob;
     extranonce_offset := 2; extranonce1_len := 2; extranonce2_len := 2; transactions := [];
     coinbase_value := 5000000000 |}.
Lemma overlapping_refreshes_honour_dead_tip_witness :
  exists s ea eb, rtc sys_step (sys_init engine_new) s /\ tasks s = [] /\
    current_job (engine s) = Some wjob2 /\
    find_job (engine s) (job_id wjob) = Some ea /\ je_job ea = wjob /\ je_superseded_by_clean ea = false /\
    find_job (engine s) (job_id wjob2) = Some eb /\ je_job eb = wjob2 /\ je_superseded_by_clean eb = true.
Proof. apply overlapping_refreshes_honour_dead_tip; vm_compute; discriminate. Defined.
