(* ===== verification/PropsSecurity.v ===== *)
(** Properties of the protection layer, the connection budget, the
    configuration checks and the payout-address gate. *)
From S2P Require Import SecurityFacts EngineFacts Samples.

(** C37: The connection limiter enforces its rate: over any history of connections and background prunes, with
    the clock running forward, at most [max_per_minute] connections from one address are let through in any
    sixty seconds, whatever other addresses do and however often the table is pruned. *)
Theorem connection_rate_bounded {Ip : Type} `{!EqDecision Ip} `{!Countable Ip}
    (max : Z) (cap : nat) (start : Z) (evs : list (lim_event Ip)) (ip : Ip) (T : Z) :
  0 <= max -> ordered start evs ->
  count_within T (times_of ip (lim_run (limiter_new max cap) evs).2) <= max.
Proof.
  intros Hm Ho. destruct (lim_run_inv max start (limiter_new max cap) [] evs) as [now' [_ Hi]];
    [by apply limiter_new_inv|done|]. apply (Hi ip).
Qed.
Definition burst : list (lim_event Z) :=
  map (fun i => let t := from_secs (100 + Z.of_nat i) in EConnect 7 t t t) (seq 0 5)
  ++ [EPrune (from_secs 110); EConnect 7 (from_secs 161) (from_secs 161) (from_secs 161)].
Lemma connection_rate_bounded_witness :
  (lim_run (limiter_new 3 100) burst).2 =
    [(7, from_secs 100); (7, from_secs 101); (7, from_secs 102); (7, from_secs 161)] /\
  count_within (from_secs 161) (times_of 7 (lim_run (limiter_new 3 100) burst).2) <= 3.
Proof.
  split; [reflexivity|].
  apply (connection_rate_bounded 3 100 0 burst 7 (from_secs 161)); [done|].
  cbn [burst app map seq ordered]. unfold from_secs, NANOS. cbn. lia.
Defined.

(** A ban takes effect and ends on time, and the list stays bounded: after [ban], the address is banned
    exactly while the clock is before the instant of the ban plus the configured duration; no other address
    becomes banned; and the list never holds more than its maximum. With a duration of zero nothing is ever
    banned. *)
Theorem ban_is_effective_and_bounded {Ip : Type} `{!EqDecision Ip} `{!Countable Ip}
    (b b' : BanList Ip) (ip : Ip) (t1 t2 : Z) :
  (0 < ban_max_entries b)%nat -> (size (ban_entries b) <= ban_max_entries b)%nat ->
  ban b ip t1 t2 = Some b' ->
  (size (ban_entries b') <= ban_max_entries b')%nat /\
  (forall n1 n2, (is_banned b' ip n1 n2).2 = (n1 <? t2 + ban_duration b)) /\
  (forall ip' n1 n2, ip' ≠ ip -> (is_banned b' ip' n1 n2).2 = true -> (is_banned b ip' n1 n2).2 = true).
Proof.
  intros Hmax Hsz H.
  pose proof (make_room_size b ip t1 Hmax Hsz) as Hroom.
  unfold ban in H. apply bind_Some in H as (until & Hu & H). injection H as <-.
  assert (ban_duration (ban_make_room b ip t1) = ban_duration b /\
          ban_max_entries (ban_make_room b ip t1) = ban_max_entries b /\
          ban_entries (ban_make_room b ip t1) ⊆ ban_entries b) as (Hd & Hmx & Hsub).
  { unfold ban_make_room. destruct (_ && _); [|done]. destruct (Nat.leb _ _).
    - destruct (earliest _) as [[v u]|]; cbn; split; try done; split; try done.
      + etrans; [apply delete_subseteq|apply map_filter_subseteq].
      + apply map_filter_subseteq.
    - split; [done|]. split; [done|]. apply map_filter_subseteq. }
  rewrite Hd in Hu. unfold instant_add in Hu. destruct (_ <? INSTANT_END); [|done]. injection Hu as <-.
  split; [|split].
  - cbn [ban_entries ban_max_entries with_bans]. rewrite Hmx.
    destruct (ban_entries (ban_make_room b ip t1) !! ip) as [u|] eqn:E.
    + rewrite map_size_insert_Some by eauto. apply map_subseteq_size in Hsub. lia.
    + rewrite map_size_insert_None by done. destruct Hroom as [[u Hin]|Hroom]; [|lia].
      unfold ban_make_room in E. rewrite Hin, bool_decide_eq_true_2 in E by eauto.
      cbn [negb] in E. rewrite andb_false_r in E. congruence.
  - intros n1 n2. unfold is_banned. cbn [ban_entries with_bans]. rewrite lookup_insert_eq.
    by destruct (n1 <? _).
  - intros ip' n1 n2 Hne. unfold is_banned. cbn [ban_entries with_bans]. rewrite lookup_insert_ne by done.
    destruct (ban_entries (ban_make_room b ip t1) !! ip') as [u|] eqn:E; [|done].
    rewrite (lookup_weaken _ _ _ _ E Hsub). by destruct (n1 <? u).
Qed.
Lemma ban_is_effective_and_bounded_witness :
  let b := {| ban_entries := {[1 := 50; 2 := 60]}; ban_duration := 300; ban_max_entries := 2 |} : BanList Z in
  exists b', ban b 3 10 11 = Some b' /\ (is_banned b' 1 12 12).2 = false /\
    (size (ban_entries b') <= ban_max_entries b')%nat /\
    (forall n1 n2, (is_banned b' 3 n1 n2).2 = (n1 <? 11 + 300)) /\
    (forall ip' n1 n2, ip' ≠ 3 -> (is_banned b' ip' n1 n2).2 = true -> (is_banned b ip' n1 n2).2 = true).
Proof.
  intros b. eexists. split; [reflexivity|]. split; [reflexivity|].
  apply (ban_is_effective_and_bounded b _ 3 10 11); [cbn; lia|vm_compute; lia|reflexivity].
Defined.

(** C23: The connection budget holds under every interleaving of the acceptor's load and compare-exchange with
    the ends of session tasks: the counter is always the live sessions plus the connection being admitted and
    never above [max_connections], so no slot leaks on a refusal, a return or a panic; and once every session
    has ended and no admission is under way the counter is zero. *)
Theorem connection_budget_respected max_connections b :
  0 <= max_connections < 2 ^ 64 -> rtc (budget_step max_connections) budget_init b ->
  active b = live b + held (acc b) /\ 0 <= live b /\ active b <= max_connections /\
  (live b = 0 -> acc b = Idle -> active b = 0).
Proof.
  intros Hmc Hrun.
  assert (budget_inv max_connections b) as (H1 & H2 & H3).
  { remember budget_init as b0 eqn:E0.
    assert (budget_inv max_connections b0) as Hi by (subst b0; unfold budget_inv; cbn; lia). clear E0.
    induction Hrun as [|x y z Hs Hr IH]; [done|]. by apply IH, (budget_step_inv _ x). }
  split; [done|]. split; [done|]. split; [done|]. intros Hl Ha. rewrite Ha, Hl in H1. done.
Qed.
Lemma connection_budget_respected_witness :
  exists b, rtc (budget_step 1) budget_init b /\ refused b = [Capacity] /\
  (active b = live b + held (acc b) /\ 0 <= live b /\ active b <= 1 /\
   (live b = 0 -> acc b = Idle -> active b = 0)).
Proof.
  assert (rtc (budget_step 1) budget_init {| active := 0; acc := Idle; live := 0; refused := [Capacity] |}) as Hr.
  { eapply rtc_l; [apply b_load|]. eapply rtc_l; [apply b_cas_ok; lia|]. eapply rtc_l; [apply b_spawn|].
    eapply rtc_l; [apply b_load|]. eapply rtc_l; [apply b_full; cbv; discriminate|].
    eapply rtc_l; [apply b_exit; lia|]. apply rtc_refl. }
  exists {| active := 0; acc := Idle; live := 0; refused := [Capacity] |}. split; [exact Hr|].
  split; [reflexivity|]. apply (connection_budget_respected 1); [split; [discriminate|reflexivity]|exact Hr].
Defined.

(** The payout address used for mining is always one the node's network accepts: from boot, after any
    sequence of persisted and dashboard changes, [valid_coinbase_address] is [None] or an address that parses
    and belongs to the network the node reported; a change is applied exactly when it validates. *)
Theorem payout_address_on_node_network `{HB : BitcoinLib} pool_cfg chain s ops :
  settings_new pool_cfg chain = Ok s ->
  exists name net, chain_network chain = Some name /\ network_of name = Some net /\
    (forall a, valid_coinbase_address (fold_left settings_step ops s) = Some a ->
       is_Some (address_script_pubkey a) /\ address_is_valid_for a net = true) /\
    (forall a, valid_coinbase_address (fst (update (fold_left settings_step ops s) a)) = Some a \/
       (update (fold_left settings_step ops s) a).1 = fold_left settings_step ops s /\
       forall u, (update (fold_left settings_step ops s) a).2 ≠ Ok u).
Proof.
  intros Hnew. destruct (settings_new_inv _ _ _ Hnew) as (name & Hname & Hinv).
  assert (exists net, network_of name = Some net) as [net Hnet].
  { unfold chain_network in Hname.
    repeat (destruct (bool_decide _); [injection Hname as <-; eexists; reflexivity|]). done. }
  assert (settings_inv name (fold_left settings_step ops s)) as [Hn Hv].
  { clear Hnew. revert s Hinv. induction ops as [|op ops IH]; intros s Hinv; [done|].
    cbn. apply IH. by apply settings_step_inv. }
  exists name, net. split; [done|]. split; [done|]. split.
  - intros a Ha. unfold valid_coinbase_address in Ha. rewrite Hv in Ha.
    destruct (validate _ _) as [[]|e|] eqn:E; try done. injection Ha as <-.
    apply validate_ok in E as (net' & Hnet' & Hp & Hval). by assert (net' = net) as -> by congruence.
  - intros a. unfold update. clear Hv. destruct (validate _ _) as [[]|e|]; [left; reflexivity|right; done..].
Qed.
Lemma payout_address_on_node_network_witness :
  let ops := [OpUpdate "bc1qmainnet"; OpUpdate "bcrt1qother"] in
  exists s name net, settings_new pool_example "regtest" = Ok s /\
    valid_coinbase_address (fold_left settings_step ops s) = Some "bcrt1qother" /\
    chain_network "regtest" = Some name /\ network_of name = Some net /\
    (forall a, valid_coinbase_address (fold_left settings_step ops s) = Some a ->
       is_Some (address_script_pubkey a) /\ address_is_valid_for a net = true) /\
    (forall a, valid_coinbase_address (fst (update (fold_left settings_step ops s) a)) = Some a \/
       (update (fold_left settings_step ops s) a).1 = fold_left settings_step ops s /\
       forall u, (update (fold_left settings_step ops s) a).2 ≠ Ok u).
Proof.
  intros ops. exists settings_example.
  destruct (payout_address_on_node_network pool_example "regtest" settings_example ops) as (name & net & H);
    [vm_compute; reflexivity|].
  exists name, net. split; [vm_compute; reflexivity|]. split; [vm_compute; reflexivity|]. exact H.
Defined.
