(* ===== verification/PropsConfig.v ===== *)
(** Properties of the configuration checks and overrides. *)
From S2P Require Import TemplateFacts Vardiff Samples.
From Stdlib Require Import Strings.Ascii.


(** Two values of the same TOML type. *)
Definition same_type (a b : toml_value) : Prop :=
  match a, b with
  | TString _, TString _ | TInteger _, TInteger _ | TFloat _, TFloat _ | TBoolean _, TBoolean _ => True
  | _, _ => False
  end.
(** An environment override changes one key. When [SOLO_POOL_<SECTION>__<KEY>] is applied, exactly the
    lower-cased key of the lower-cased section changes, keeping the type it has in the file when it is
    there, every other key of every section stays, and the reported name is that section and key; a variable
    without the prefix changes nothing. *)
Theorem override_changes_one_key root name raw root' k :
  apply_override root name raw = Ok (root', k) ->
  match k with
  | None => root' = root /\ str_strip_prefix ENV_PREFIX name = None
  | Some k =>
      exists sec key sec0 key0 v,
        str_strip_prefix ENV_PREFIX name ≫= split_once "__" = Some (sec0, key0) /\
        sec = to_ascii_lowercase sec0 /\ key = to_ascii_lowercase key0 /\ k = (sec ++ "." ++ key)%string /\
        let get (r : gmap string toml_value) s k :=
          match r !! s with Some (TTable t) => t !! k | _ => None end in
        get root' sec key = Some v /\
        (forall old, get root sec key = Some old -> same_type old v) /\
        (forall k', k' ≠ key -> get root' sec k' = get root sec k') /\
        (forall s', s' ≠ sec -> root' !! s' = root !! s')
  end.
Proof.
  unfold apply_override. destruct (str_strip_prefix ENV_PREFIX name) as [rest|]; [|by intros [= <- <-]].
  destruct (split_once "__" rest) as [[sec0 key0]|] eqn:Es; [|done]. cbv zeta.
  destruct (_ || _); [done|].
  set (sec := to_ascii_lowercase sec0). set (key := to_ascii_lowercase key0).
  destruct (default (TTable ∅) (root !! sec)) as [| | | | |table] eqn:Et; try done.
  intros H. apply outcome_bind_ok in H as (v & Hv & H). injection H as <- <-.
  exists sec, key, sec0, key0, v. split; [exact Es|]. split; [done|]. split; [done|]. split; [done|].
  rewrite lookup_insert_eq. rewrite lookup_insert_eq. split; [done|].
  assert (forall k', match root !! sec with Some (TTable t) => t !! k' | _ => None end = table !! k') as Hold.
  { intros k'. destruct (root !! sec) as [[]|]; cbn in Et; try done; injection Et as <-; done. }
  split; [|split].
  - intros old. rewrite Hold. intros Hk. rewrite Hk in Hv. unfold parse_as in Hv. unfold same_type.
    destruct old; try discriminate Hv;
      [by injection Hv as <-|destruct (parse_i64 raw)|destruct (parse_f64 raw)|destruct (parse_bool raw)];
      try discriminate Hv; injection Hv as <-; done.
  - intros k' Hk. rewrite lookup_insert_ne by done. by rewrite Hold.
  - intros s' Hs. by rewrite lookup_insert_ne.
Qed.
Lemma override_changes_one_key_witness :
  let root := {["vardiff" := TTable {["min_difficulty" := TInteger 512]}]} : gmap string toml_value in
  exists root', apply_override root "SOLO_POOL_VARDIFF__MIN_DIFFICULTY" "1024" = Ok (root', Some "vardiff.min_difficulty") /\
  match root' !! "vardiff" with Some (TTable t) => t !! "min_difficulty" = Some (TInteger 1024) | _ => False end /\
  exists sec key sec0 key0 v,
    str_strip_prefix ENV_PREFIX "SOLO_POOL_VARDIFF__MIN_DIFFICULTY" ≫= split_once "__" = Some (sec0, key0) /\
    sec = to_ascii_lowercase sec0 /\ key = to_ascii_lowercase key0 /\
    "vardiff.min_difficulty" = (sec ++ "." ++ key)%string /\
    let get (r : gmap string toml_value) s k :=
      match r !! s with Some (TTable t) => t !! k | _ => None end in
    get root' sec key = Some v /\
    (forall old, get root sec key = Some old -> same_type old v) /\
    (forall k', k' ≠ key -> get root' sec k' = get root sec k') /\
    (forall s', s' ≠ sec -> root' !! s' = root !! s').
Proof.
  intros root. eexists. split; [vm_compute; reflexivity|]. split; [vm_compute; reflexivity|].
  apply (override_changes_one_key root "SOLO_POOL_VARDIFF__MIN_DIFFICULTY" "1024" _ (Some "vardiff.min_difficulty")).
  vm_compute. reflexivity.
Defined.
