(* ===== verification/PropsSession.v ===== *)
(** Properties of the Stratum V1 session. *)
From S2P Require Import SessionFacts SamplesSession.
From Stdlib Require Import Strings.Ascii.

(** C12: Whatever a miner sends and the engine broadcasts, a session started under an accepted configuration
    never panics, and at every point: the negotiated version-rolling mask lies inside the BIP 320 mask; the
    difficulty the miner is told is the one vardiff judges it by, and is the initial difficulty or inside
    the configured range; an authorized session has subscribed and has a worker; and its extranonce never
    changes. *)
Theorem session_never_panics_and_keeps_invariant `{HJ : JsonLib f64} `{HL : HexLib} `{HS : Sha256Lib}
    (from_str : string -> outcome string StratumRequest) config counter random t1 t2 t3 t4 engine counter' s effs l :
  (forall line, from_str line ≠ Panic) -> Config.validate config = Ok tt ->
  valid_binary prec emax (max_retarget_factor (vardiff config)) = true ->
  session_start false config counter random engine t1 t2 t3 t4 = (counter', Some (s, effs)) ->
  exists s' effs' msgs, session_run from_str s l = Some (s', effs', msgs) /\
    Z.land (s_version_rolling_mask s') VERSION_ROLLING_MASK = s_version_rolling_mask s' /\
    s_difficulty s' = current (s_vardiff s') /\
    (s_difficulty s' = initial_difficulty (pool config) \/
     min_difficulty (vardiff config) <= s_difficulty s' <= max_difficulty (vardiff config)) /\
    (s_authorized s' = true -> s_subscribed s' = true /\ is_Some (s_worker s')) /\
    s_extranonce1 s' = s_extranonce1 s /\ s_extranonce2_size s' = extranonce2_size (pool config).
Proof.
  intros Hp Hv Hf Hs. unfold session_start in Hs.
  destruct (generate_extranonce1 _ _) as [cn en1]. injection Hs as _ <- _.
  pose proof (validate_vardiff_section config Hv) as Hvd.
  set (s0 := session_new config en1 random t1 t2 t3 t4).
  assert (session_inv (vardiff config) (initial_difficulty (pool config)) en1 (extranonce2_size (pool config)) s0)
    as Hi by by apply session_new_inv.
  assert (s_extranonce1 (match current_job engine with Some j => with_job s0 (Some j) | None => s0 end) = en1)
    as -> by by destruct (current_job engine).
  assert (session_inv (vardiff config) (initial_difficulty (pool config)) en1 (extranonce2_size (pool config))
    (match current_job engine with Some j => with_job s0 (Some j) | None => s0 end)) as Hi'
    by (destruct (current_job engine); [destruct Hi; by split|done]).
  destruct (session_run_inv from_str _ _ _ _ Hp Hvd Hf l _ Hi') as (s' & effs' & msgs & Hrun & [Hm Hd _ Hr Ha [He1 He2]]).
  by exists s', effs', msgs.
Qed.
Lemma session_never_panics_and_keeps_invariant_witness :
  let line s := (sample_env, ReadLine (Some s) true) in
  exists s effs s' effs' msgs,
    session_start false config_example 1 7 sample_engine 0 0 0 0 = (2, Some (s, effs)) /\
    session_run sample_from_str s [line "configure"; line "subscribe"; line "authorize"; line "suggest"]
      = Some (s', effs', msgs) /\
    s_authorized s' = true /\ s_version_rolling_mask s' = VERSION_ROLLING_MASK /\ s_difficulty s' = 512 /\
    Z.land (s_version_rolling_mask s') VERSION_ROLLING_MASK = s_version_rolling_mask s' /\
    s_difficulty s' = current (s_vardiff s').
Proof.
  intros line. destruct (session_start false config_example 1 7 sample_engine 0 0 0 0) as [cn [[s effs]|]] eqn:E;
    [|vm_compute in E; discriminate E].
  destruct (session_never_panics_and_keeps_invariant sample_from_str config_example 1 7 0 0 0 0 sample_engine cn s effs
    [line "configure"; line "subscribe"; line "authorize"; line "suggest"]) as (s' & effs' & msgs & Hrun & Hm & Hd & _).
  - intros l. unfold sample_from_str. repeat (destruct (bool_decide _); [discriminate|]). discriminate.
  - vm_compute. reflexivity.
  - vm_compute. reflexivity.
  - exact E.
  - exists s, effs, s', effs', msgs. injection E as <- <- <-.
    split; [reflexivity|]. split; [exact Hrun|].
    split; [|split; [|split]]; [..|split; [exact Hm|exact Hd]];
      vm_compute in Hrun; injection Hrun as <- _ _; reflexivity.
Defined.

(** C4: A share is credited only when it was earned. If a submission credits anything, the session was
    authorized, the extranonce has the size it was given, the job is one the engine still honours, validation
    accepted it at the pool's floor, its header hash had not been accepted before in this session and is
    remembered now, a found block was accepted by the node; it is credited once, to the session's worker,
    and the miner is told so. *)
Theorem credited_share_was_earned `{HJ : JsonLib f64} `{HL : HexLib} `{HS : Sha256Lib}
    s req p env s' effs r worker credited :
  handle_submit s req p env = (s', effs, r) -> LogShare worker credited ∈ effs ->
  s_authorized s = true /\ worker = default "?" (s_worker s) /\
  Z.of_nat (length (submit_extranonce2 p)) = s_extranonce2_size s /\
  List.filter is_log effs = [LogShare worker credited] /\
  r = Messages [response_ok (req_id req) (json_bool true)] /\
  exists entry res,
    find_job (e_engine env) (submit_job_id p) = Some entry /\ je_superseded_by_clean entry = false /\
    validate_share_no_dedup (share_params s p worker) (je_job entry) entry (s_extranonce1 s)
      (min_difficulty (s_vardiff_cfg s)) = Ok res /\
    ShareResult_hash res ∉ seen (s_share_set s) /\ ShareResult_hash res ∈ seen (s_share_set s') /\
    match res with
    | Valid _ h _ => credited = credit_for (s_vardiff s) h
    | Block h hex hash =>
        credited = credit_for (s_vardiff s) h /\
        (submit_found_block (height (je_job entry)) (hash_display_hex hash) hex worker (e_answers env)).2 = Ok tt
    end.
Proof.
  intros H Hlog. pose proof (handle_submit_outcome s req p env) as Ho. rewrite H in Ho.
  remember (s', effs, r) as out eqn:Hout.
  destruct Ho as [Ha|s1 r1 Ha Hl Hc|Ha Hl Hf|entry Ha Hl Hf Hv|entry set verdict Ha Hl Hf Hv].
  1-4: injection Hout as <- <- <-; by apply no_log in Hlog.
  assert (je_superseded_by_clean entry = false) as Hsup.
  { destruct (je_superseded_by_clean entry) eqn:Hs; [|done]. rewrite submit_verdict_superseded in Hv by done.
    injection Hv as <- <-. injection Hout as <- <- <-. by apply no_log in Hlog. }
  eapply handle_verdict_credits in Hout as (res & -> & Hw & Hl1 & -> & Hset & Hres); [|exact Hlog].
  apply ShareSet_dedup_ok in Hv as (Hvalid & Hnew & Hin).
  split; [done|]. split; [done|]. split; [done|]. split; [done|]. split; [done|].
  exists entry, res. rewrite Hset, Hw. by destruct res.
Qed.
Lemma triple_eta {A B C} (x : A * B * C) : x = (x.1.1, x.1.2, x.2).
Proof. by destruct x as [[]]. Qed.
Definition sample_result (nonce : Z) : Session * list session_effect * HandleResult :=
  handle_submit mining_session submit_request (sample_submit nonce) sample_env.
Lemma credited_share_was_earned_witness :
  LogShare "w.1" 512 ∈ (sample_result 0).1.2 /\ s_authorized mining_session = true /\
  List.filter is_log (sample_result 0).1.2 = [LogShare "w.1" 512] /\
  (sample_result 0).2 = Messages [response_ok (RNum 1) (json_bool true)].
Proof.
  assert (LogShare "w.1" 512 ∈ (sample_result 0).1.2) as Hin.
  { apply list_elem_of_lookup_2 with (i := 4%nat). vm_compute. reflexivity. }
  split; [exact Hin|].
  destruct (credited_share_was_earned mining_session submit_request (sample_submit 0) sample_env
    (sample_result 0).1.1 (sample_result 0).1.2 (sample_result 0).2 "w.1" 512 (triple_eta _) Hin)
    as (H1 & _ & _ & H2 & H3 & _).
  split; [exact H1|]. split; [exact H2|exact H3].
Defined.

(** Only bad work counts against a miner. A submission changes the invalid-share count exactly when, from an
    authorized session, the extranonce has the wrong size or validation and the duplicate check give an error
    other than a stale job or a low-difficulty share; the session is dropped for invalid shares exactly when
    that count is enabled and reaches its maximum. Work for an unknown or superseded job is answered with
    the stale-job error and costs the miner nothing. *)
Theorem only_bad_shares_count `{HJ : JsonLib f64} `{HL : HexLib} `{HS : Sha256Lib} s req p env s' effs r :
  handle_submit s req p env = (s', effs, r) ->
  let bad :=
    s_authorized s = true /\
    (Z.of_nat (length (submit_extranonce2 p)) ≠ s_extranonce2_size s \/
     exists entry e, find_job (e_engine env) (submit_job_id p) = Some entry /\ is_malicious e = true /\
       (ShareSet_dedup (s_share_set s)
          (validate_share_no_dedup (share_params s p (default "?" (s_worker s))) (je_job entry) entry
             (s_extranonce1 s) (min_difficulty (s_vardiff_cfg s)))).2 = Err e) in
  let '(c, disconnect) := record_invalid (invalid_shares (s_guard s)) in
  (bad -> invalid_shares (s_guard s') = c /\
          (r = Disconnect "too many invalid shares" <-> disconnect = true)) /\
  (~ bad -> s_guard s' = s_guard s /\ r ≠ Disconnect "too many invalid shares") /\
  (s_authorized s = true -> Z.of_nat (length (submit_extranonce2 p)) = s_extranonce2_size s ->
   (forall entry, find_job (e_engine env) (submit_job_id p) = Some entry -> je_superseded_by_clean entry = true) ->
   s_guard s' = s_guard s /\ r = reply_err req (StaleJob (submit_job_id p))).
Proof.
  intros H. cbv zeta. fold (submit_verdict s p).
  destruct (record_invalid (invalid_shares (s_guard s))) as [c disc] eqn:Erec.
  pose proof (handle_submit_outcome s req p env) as Ho. rewrite H in Ho.
  remember (s', effs, r) as out eqn:Hout. destruct Ho as [Ha|s1 r1 Ha Hl Hc|Ha Hl Hf|entry Ha Hl Hf Hv|entry set verdict Ha Hl Hf Hv].
  - injection Hout as <- <- <-. rewrite Ha. split; [by intros [? _]|]. split; [|done]. intros _. by split.
  - injection Hout as <- <- <-. pose proof (count_invalid_spec _ _ _ _ _ _ _ Erec Hc) as Hs.
    split; [by intros _|]. split; [intros Hb; exfalso; apply Hb; by auto|done].
  - injection Hout as <- <- <-. rewrite Hf. split; [by intros [_ [?|(? & ? & ? & _)]]|]. split; by intros.
  - injection Hout as <- <- <-. rewrite Hf. split; [|split; [done|]].
    + intros [_ [?|(? & e & [= <-] & _ & He)]]; [done|]. fold (submit_verdict s p entry) in He. by rewrite Hv in He.
    + intros _ _ Hs. rewrite submit_verdict_superseded in Hv by by apply Hs. done.
  - assert (forall entry' e, Some entry = Some entry' -> (submit_verdict s p entry').2 = Err e -> verdict = Err e)
      as Hver by by (intros entry' e [= <-]; rewrite Hv).
    rewrite Hf. split; [|split].
    + intros [_ [?|(entry' & e & Hen & He & Hd)]]; [done|]. apply (Hver entry' e Hen) in Hd as ->.
      by eapply handle_verdict_malicious in Hout.
    + intros Hnb. apply handle_verdict_harmless in Hout as (? & ? & _); [done|].
      intros e ->. destruct (is_malicious e) eqn:Em; [|done]. exfalso. apply Hnb. split; [done|]. right.
      exists entry, e. split; [done|]. split; [done|]. fold (submit_verdict s p entry). by rewrite Hv.
    + intros _ _ Hs. rewrite submit_verdict_superseded in Hv by by apply Hs. injection Hv as <- <-.
      apply handle_verdict_harmless in Hout as (Hg & _ & Hr); [split; [done|by apply Hr]|]. by intros e [= <-].
Qed.
Lemma only_bad_shares_count_witness :
  (sample_result 1).1.2 !! 2%nat = Some (WorkerShareRejected "w.1" "low_difficulty") /\
  (s_authorized mining_session = true ->
   Z.of_nat (length (submit_extranonce2 (sample_submit 1))) = s_extranonce2_size mining_session ->
   (forall entry, find_job (e_engine sample_env) (submit_job_id (sample_submit 1)) = Some entry ->
      je_superseded_by_clean entry = true) ->
   s_guard (sample_result 1).1.1 = s_guard mining_session /\
   (sample_result 1).2 = reply_err submit_request (StaleJob (submit_job_id (sample_submit 1)))).
Proof.
  split; [vm_compute; reflexivity|].
  pose proof (only_bad_shares_count mining_session submit_request (sample_submit 1) sample_env
    (sample_result 1).1.1 (sample_result 1).1.2 (sample_result 1).2 (triple_eta _)) as H.
  destruct (record_invalid (invalid_shares (s_guard mining_session))) as [c d]. exact (proj2 (proj2 H)).
Defined.

(** C32: The line reader is bounded and loses nothing to cancellation. With input buffers of at most [k] bytes it
    never holds more than [max + k] bytes, a line it returns has at most [max] and everything longer is an
    error; and a read dropped by [select!] while waiting, then resumed on later input with the same
    accumulator, gives exactly what one uninterrupted read of all the input gives. *)
Theorem line_reader_bounded_and_resumable (l1 l2 : list (list byte)) (buf : list byte) (max k : Z) :
  Z.of_nat (length buf) <= max -> Forall (fun ch : list byte => Z.of_nat (length ch) <= k) l1 -> 0 <= k ->
  let '(r, buf', rest) := read_line_bounded l1 buf max in
  Z.of_nat (length buf') <= max + k /\
  match r with
  | Line len => len = Z.of_nat (length buf') /\ len <= max /\
                read_line_bounded (l1 ++ l2) buf max = (r, buf', rest ++ l2)
  | TooLong => max < Z.of_nat (length buf') /\ read_line_bounded (l1 ++ l2) buf max = (r, buf', rest ++ l2)
  | Eof => read_line_bounded (l1 ++ l2) buf max = (r, buf', rest ++ l2)
  | Waiting => Z.of_nat (length buf') <= max /\ read_line_bounded (l1 ++ l2) buf max = read_line_bounded l2 buf' max
  end.
Proof.
  intros Hb Hk Hk0. pose proof (read_line_resume l1 l2 buf max) as Hr.
  destruct (read_line_bounded l1 buf max) as [[r buf'] rest] eqn:E.
  destruct (read_line_bound l1 buf max k r buf' rest Hb Hk Hk0 E) as [H1 H2]. split; [done|].
  destruct r; repeat split; try done; apply H2.
Qed.
Lemma line_reader_bounded_and_resumable_witness :
  let l1 := [str_bytes "{1"] in let l2 := [str_bytes "23}" ++ [x0d; x0a] ++ str_bytes "{"] in
  read_line_bounded (l1 ++ l2) [] 8 = (Line 5, str_bytes "{123}", [str_bytes "{"]) /\
  read_line_bounded (l1 ++ l2) [] 8 = read_line_bounded l2 (str_bytes "{1") 8.
Proof.
  intros l1 l2. split; [reflexivity|].
  destruct (line_reader_bounded_and_resumable l1 l2 [] 8 2) as (_ & _ & H);
    [cbn; lia|repeat constructor; cbn; lia|lia|exact H].
Defined.

(** Sessions search disjoint extranonce space: two sessions whose counter values are fewer than 256^size
    apart get different prefixes, all of the configured size, so with the 4-byte default two miners collide
    only after 2^32 connections. *)
Theorem extranonce1_disjoint counter counter' size :
  is_u64 counter -> is_u64 counter' -> 0 <= size -> 0 < counter' - counter < 256 ^ size ->
  (generate_extranonce1 counter size).2 ≠ (generate_extranonce1 counter' size).2 /\
  Z.of_nat (length (generate_extranonce1 counter size).2) = size /\
  (counter < 2 ^ 64 - 1 -> (generate_extranonce1 counter size).1 = counter + 1).
Proof.
  intros Hc Hc' Hs Hd. destruct (generate_extranonce1_value counter size Hc Hs) as [Hv Hl].
  destruct (generate_extranonce1_value counter' size Hc' Hs) as [Hv' _]. split; [|split; [done|]].
  - intros Heq. rewrite Heq, Hv' in Hv.
    pose proof (Z.div_mod counter (256 ^ size) ltac:(lia)). pose proof (Z.div_mod counter' (256 ^ size) ltac:(lia)).
    set (m := 256 ^ size) in *. clearbody m. set (q := counter / m) in *. set (q' := counter' / m) in *.
    assert (counter' - counter = m * (q' - q)) as Hq by lia.
    destruct (Z.le_gt_cases (q' - q) 0); nia.
  - intros Hlt. cbn. unfold wrap, is_u in *. rewrite Z.mod_small; lia.
Qed.
Lemma extranonce1_disjoint_witness :
  (generate_extranonce1 1 4).2 = [x00; x00; x00; x01] /\
  (generate_extranonce1 1 4).2 ≠ (generate_extranonce1 (2 ^ 32) 4).2 /\
  Z.of_nat (length (generate_extranonce1 1 4).2) = 4.
Proof.
  split; [reflexivity|].
  destruct (extranonce1_disjoint 1 (2 ^ 32) 4) as (H1 & H2 & _);
    [split; reflexivity || discriminate|split; reflexivity || discriminate|discriminate|split; reflexivity|].
  split; [exact H1|exact H2].
Defined.
