(* ===== verification/PropsStats.v ===== *)
(** Properties of the pool statistics. *)
From stdpp Require Import sorting.
From S2P Require Import StatsFacts StatsFile SamplesSession.
From Stdlib Require Import Strings.Ascii.

(** Witnesses iterate over a map in the order of its list of entries. *)
#[local] Instance sample_iter : DashIter := fun A m => map_to_list m.
#[local] Instance sample_iter_laws : DashIterLaws.
Proof. by intros A m. Qed.

Definition reject_example : list (Z * reject_event) :=
  [(60, EvAccepted); (3600, EvStale); (3661, EvAccepted); (3661, EvOther "duplicate"); (7200, EvAccepted); (7261, EvOther "invalid")].

(** C34: The best share survives any race. However the compare-and-swap loops of sessions raising the best share
    to [ds] interleave, spurious failures included, the value never falls, every session that is done is at or
    below it, and when all are done it is the largest of the old best and the shares; and from any point of the
    race the sessions can finish. *)
Theorem best_share_race d0 ds cell threads :
  rtc cas_step (d0, map Start ds) (cell, threads) ->
  d0 <= cell /\ Forall (fun d => Done d ∈ threads -> d <= cell) ds /\
  (forallb is_done threads = true -> cell = foldr Z.max d0 ds) /\
  exists cell', rtc cas_step (cell, threads) (cell', map Done ds) /\ cell' = foldr Z.max d0 ds.
Proof.
  intros H. pose proof (cas_run_inv d0 ds _ H) as Hi. pose proof Hi as (Ht & H0 & _ & Hok). cbn in Ht, H0, Hok.
  split; [done|]. split; [|split].
  - rewrite !Forall_forall in *. intros d _ Hd. exact (Hok _ Hd).
  - intros Hd. by apply (cas_done d0 ds (cell, threads)).
  - destruct (cas_finish_all d0 ds cell [] threads Hi) as [cell' Hc]. exists cell'. split; [done|].
    apply (cas_done d0 ds (cell', map Done ds)); [|apply all_done].
    eapply (cas_run_inv d0 ds). by etransitivity.
Qed.
Lemma best_share_race_witness :
  rtc cas_step (10, map Start [50; 30]) (50, [Done 50; Raising 30 10]) /\
  (10 <= 50 /\ Forall (fun d => Done d ∈ [Done 50; Raising 30 10] -> d <= 50) [50; 30] /\
   (forallb is_done [Done 50; Raising 30 10] = true -> 50 = foldr Z.max 10 [50; 30]) /\
   exists cell', rtc cas_step (50, [Done 50; Raising 30 10]) (cell', map Done [50; 30]) /\ cell' = foldr Z.max 10 [50; 30]).
Proof.
  assert (rtc cas_step (10, map Start [50; 30]) (50, [Done 50; Raising 30 10])) as H.
  { eapply rtc_l; [apply (cas_load 10 30 [Start 50] [])|]. eapply rtc_l; [apply (cas_load 10 50 [] [Raising 30 10])|].
    apply rtc_once. by apply (cas_won 10 50 [] [Raising 30 10]). }
  split; [exact H|]. apply (best_share_race 10 [50; 30]). exact H.
Defined.


(** A database with one block, and a run that finds a second one, retries its
    credit, evicts and flushes. *)
Definition block_example (hash : string) : FoundBlock :=
  {| fb_height := 100; fb_hash := hash; fb_worker := "w.1"; fb_ts := 1000; fb_round_work := f64_zero;
     fb_network_difficulty := f64_zero |}.
Definition store_example : StatsStore := {|
  db_best_share_difficulty := 0; db_best_hashrate_hps := f64_zero; db_round_work := f64_zero; db_round_start_ts := 0;
  db_worker_best_shares := ∅; db_found_blocks := [block_example "00aa"]; db_hashrate_history := ∅; db_settings := ∅;
  db_share_log := []; db_write_error := None |}.
Definition stats_run_example : list stats_event :=
  let env := {| se_now := 2000; se_inow := 0; se_io := fun _ => None |} in
  [SessionEffect 0 env (StatsBlockFound "w.1" "00bb" 101); SessionEffect 1 env (StatsBlockFound "w.1" "00bb" 101);
   PruneIdle 2000 None; FlushShareLog 2001 None None].
Definition booted_example (db : StatsStore) : PoolStats :=
  new_with_store (fun _ => "") (Some ("stats.sqlite", Ok db)) (fun _ => None) 1500 0.
Definition reopened_example (db : StatsStore) : PoolStats :=
  new_with_store (fun _ => "") (Some ("stats.sqlite", (open_file (file_of db) (fun _ => None)).2)) (fun _ => None) 1500 0.

(** A file of a version without the round and without logged shares. *)
Definition old_file : StatsFile := new_file
  <! sf_pool_stats := Some {| pt_row := Some {| pr_best_share_difficulty := 77; pr_best_hashrate_hps := f64_one;
       pr_round_work := f64_zero; pr_round_start_ts := 0 |}; pt_round_work := false; pt_round_start_ts := false |} !>
  <! sf_found_blocks := Some [block_example "00aa"] !>.

(** The duplicate test of a found block is not atomic with its recording. Two callers crediting one new hash, the
    inline path and the background retrier, can both pass the test: the block is then recorded and counted twice
    and the round closed twice, the second time with no work, where the same calls one after the other record it
    once. The database, whose key is the hash, keeps one row. *)
Theorem racing_credits_count_block_twice ps worker hash height now io :
  block_known ps hash = false ->
  (exists ps', rtc (credit_step worker hash height now io) (ps, [BeforeTest; BeforeTest]) (ps', [Credited; Credited]) /\
    map fb_hash (ps_found_blocks ps') = map fb_hash (ps_found_blocks ps) ++ [hash; hash] /\
    ps_blocks_found ps' = fetch_add (fetch_add (ps_blocks_found ps)) /\
    (fb_round_work <$> last (ps_found_blocks ps')) = Some f64_zero /\
    (forall db, ps_store ps = Some db -> io 0%nat = None ->
       exists db', ps_store ps' = Some db' /\
         map fb_hash (db_found_blocks db') = map fb_hash (insert_or_ignore (db_found_blocks db)
           {| fb_height := height; fb_hash := hash; fb_worker := worker; fb_ts := now;
              fb_round_work := ps_round_work ps; fb_network_difficulty := ps_network_difficulty ps |}))) /\
  map fb_hash (ps_found_blocks (block_found (block_found ps worker hash height now io) worker hash height now io)) =
    map fb_hash (ps_found_blocks ps) ++ [hash].
Proof.
  intros Hk. split.
  - exists (block_push (block_push ps worker hash height now io) worker hash height now io). split; [|split; [|split; [|split]]].
    + eapply rtc_l; [by apply (credit_new _ _ _ _ _ _ [] [BeforeTest])|].
      eapply rtc_l; [by apply (credit_new _ _ _ _ _ _ [PastTest] [])|].
      eapply rtc_l; [by apply (credit_push _ _ _ _ _ _ [] [PastTest])|].
      apply rtc_once. by apply (credit_push _ _ _ _ _ _ [Credited] []).
    + cbn. by rewrite !map_app, <- app_assoc.
    + done.
    + cbn. by rewrite last_snoc.
    + intros db Hdb Hio. eexists. split; [cbn; by rewrite Hdb|]. by apply double_insert_hashes.
  - unfold block_found at 2. rewrite Hk. unfold block_found. rewrite block_push_known. cbn. by rewrite map_app.
Qed.
Definition fresh_stats : PoolStats := new_with_store (fun _ => "") None (fun _ => None) 0 0.
Lemma racing_credits_count_block_twice_witness :
  exists ps', rtc (credit_step "w" "aa" 1 5 (fun _ => None)) (fresh_stats, [BeforeTest; BeforeTest]) (ps', [Credited; Credited]) /\
    map fb_hash (ps_found_blocks ps') = ["aa"; "aa"] /\ ps_blocks_found ps' = 2.
Proof.
  destruct (racing_credits_count_block_twice fresh_stats "w" "aa" 1 5 (fun _ => None)) as [(ps' & H1 & H2 & H3 & _) _];
    [reflexivity|].
  exists ps'. split; [exact H1|]. split; [exact H2|exact H3].
Defined.
