(* ===== verification/PropsPool.v ===== *)
(** Properties of the serving process: sessions of both protocols, the ban
    list, the statistics, the extranonce counter and the template engine
    together. *)
From S2P Require Import SamplesDashboard SamplesSv2 NodeLight PoolBounds PoolBlocks.
From Stdlib Require Import Strings.Ascii.

(** C22: A banned peer is shut out, whichever session banned it. In any run of the serving process, of any mix of
    sessions and addresses, once a session's peer was banned neither the acceptor nor the check at the start of a
    session lets that address in before the configured duration is over, unless since that ban as many other
    addresses as the list holds were banned, each of them at that time or later. *)
Theorem banned_peer_is_shut_out {Ip : Type} `{!EqDecision Ip} `{!Countable Ip} `{HJ : JsonLib f64} `{HL : HexLib}
    `{HS : Sha256Lib} `{HB : BitcoinLib} `{HV : Sv2Lib} `{HI : DashIter} `{HC : BroadcastLib} `{HW : PowLib}
    from_str error_text hex_flags cf sh now l obs
    (p : Pool Ip) before after ip t0 t :
  pool_run from_str error_text hex_flags cf (pool_init cf sh now) l = Some (obs, p) ->
  obs = before ++ LetIn ip t :: after -> NowBanned ip t0 ∈ before ->
  t0 + from_secs (ban_duration_secs (security cf)) <= t \/
  exists others : gset Ip, (MAX_TRACKED_IPS <= size others)%nat /\ ip ∉ others /\
    forall x, x ∈ others -> exists t', NowBanned x t' ∈ before /\ t0 <= t'.
Proof.
  intros Hrun Hobs Hban. destruct (pool_run_bans _ _ _ _ _ _ _ _ _ Hrun) as (_ & _ & Hf).
  destruct (Hf before after ip t t0 Hobs) as [|(X & Hs & Hi & HX)]; [by apply elem_of_ban_log|by left|].
  right. exists X. split; [done|]. split; [done|]. intros x Hx. destruct (HX x Hx) as (t' & Hin & Ht).
  exists t'. by rewrite <- elem_of_ban_log.
Qed.

(** *** Sample runs over addresses that are numbers *)

#[local] Instance sample_iter : DashIter := fun A m => map_to_list m.
#[local] Instance sample_iter_laws : DashIterLaws.
Proof. by intros A m. Qed.
Definition stats_example : PoolStats := new_with_store (fun _ => "") None (fun _ => None) 0 0.
(** What start-up builds. *)
Definition sh_example : Shared := {|
  sh_stats := stats_example; sh_settings := settings_example; sh_engine := engine_new; sh_ids := init_job_ids 1700000000000 |}.
(** The requests of the samples, and a submission for the first job. *)
Definition pool_from_str (line : string) : outcome string StratumRequest :=
  if bool_decide (line = "submit") then
    Ok (sample_request "mining.submit"
      [RStr "w.1"; RStr (job_id job_example_ok); RStr "00000000"; RStr "6553f100"; RStr "00000001"])
  else sample_from_str line.
Definition run_example (l : list (pool_event Z)) : option (list (pool_obs Z) * Pool Z) :=
  pool_run pool_from_str sample_errors sample_flags config_example
    (pool_init config_example sh_example 0) l.
Definition settle (i : nat) (n : nat) (t : Z) : list (pool_event Z) :=
  replicate n (Settle i {| se_now := 1000; se_inow := 0; se_io := fun _ => None |} (from_secs t) (from_secs t)).
Definition accept (i : nat) (ip t : Z) : pool_event Z :=
  let t := from_secs t in Accept i ip t t t t t.
Definition first_byte (i : nat) (b : byte) (t : Z) : pool_event Z :=
  FirstByte i (PeekByte b) (from_secs t) (from_secs t) 7 0 0 0 0.
(** A field of the pool a sample run ends in, computed from the run. *)
Lemma run_example_view {A} l obs p :
  run_example l = Some (obs, p) -> forall f : Pool Z -> A, f p = default (f p) ((fun r => f (snd r)) <$> run_example l).
Proof. by intros ->. Qed.
Lemma run_example_obs l obs p : run_example l = Some (obs, p) -> fst <$> run_example l = Some obs.
Proof. by intros ->. Qed.
Lemma run_example_none l : run_example l = None -> (fst <$> run_example l) = None.
Proof. by intros ->. Qed.
Lemma pool_from_str_ok line : pool_from_str line ≠ Panic.
Proof. unfold pool_from_str, sample_from_str. by repeat case_bool_decide. Qed.
Lemma config_example_u64 : extranonces_u64 config_example.
Proof. split; split; vm_compute; discriminate || reflexivity. Qed.
(** Two devices, one per protocol, both mining for [w.1]. *)
Definition both_mine : list (pool_event Z) :=
  [accept 0 7 100; first_byte 0 x7b 100] ++ settle 0 1 100 ++
  [Sv1Turn 0 sample_env (ReadLine (Some "subscribe") true); accept 1 8 101; first_byte 1 x00 101;
   Handshake 1 true 0 0 0 0; Sv1Turn 0 sample_env (ReadLine (Some "authorize") true)] ++
  settle 1 1 101 ++ settle 0 2 101 ++
  [Sv2Turn 1 sample_sv2_env (Inbound 0 []); Sv2Turn 1 sample_sv2_env (Inbound 19 [x04])] ++
  settle 0 2 102 ++ settle 1 4 102.
(** The first one sends a line that is too long, and comes back twice. *)
Definition ban_and_back : list (pool_event Z) :=
  both_mine ++ [Sv1Turn 0 sample_env ReadInvalid] ++ settle 0 1 103 ++ [Close 0 0 0] ++ settle 0 4 103 ++
  [End 0; accept 2 7 104; accept 3 7 403].
Lemma banned_peer_is_shut_out_witness :
  let t := from_secs in
  let before := [LetIn 7 (t 100); LetIn 7 (t 100); LetIn 8 (t 101); LetIn 8 (t 101); NowBanned 7 (t 103); Refused 7 BannedIp] in
  exists p, run_example ban_and_back = Some (before ++ [LetIn 7 (t 403)], p) /\
  (t 103 + t 300 <= t 403 \/
   exists others : gset Z, (MAX_TRACKED_IPS <= size others)%nat /\ 7 ∉ others /\
     forall x, x ∈ others -> exists t', NowBanned x t' ∈ before /\ t 103 <= t').
Proof.
  intros t before. destruct (run_example ban_and_back) as [[obs p]|] eqn:E; [|by apply run_example_none in E; vm_compute in E].
  assert (obs = before ++ [LetIn 7 (t 403)]) as Hobs.
  { pose proof (run_example_obs _ _ _ E) as Ho. apply (inj Some). rewrite <- Ho. vm_compute. reflexivity. }
  exists p. rewrite Hobs. split; [reflexivity|].
  refine (banned_peer_is_shut_out pool_from_str sample_errors sample_flags config_example sh_example 0 ban_and_back obs p before []
    7 (t 103) (t 403) E Hobs _).
  unfold before. apply list_elem_of_lookup. exists 4%nat. reflexivity.
Defined.


(** C16: No two sessions mine the same coinbase. In any run of the serving process, any two sessions of either protocol whose
    extranonce prefixes have the same width of at most eight bytes have different prefixes, as long as the run has
    had fewer steps than that width has values, so that the counter both draw from cannot have come round; and
    then no extranonces their devices choose complete them to the same coinbase bytes. *)
Theorem live_sessions_mine_apart {Ip : Type} `{!EqDecision Ip} `{!Countable Ip} `{HJ : JsonLib f64} `{HL : HexLib}
    `{HS : Sha256Lib} `{HB : BitcoinLib} `{HV : Sv2Lib} `{HI : DashIter} `{HC : BroadcastLib} `{HW : PowLib}
    from_str error_text hex_flags cf sh now l obs (p : Pool Ip) i j ci cj n prei prej :
  (forall line, from_str line ≠ Panic) -> Config.validate cf = Ok tt -> extranonces_u64 cf ->
  valid_binary prec emax (max_retarget_factor (vardiff cf)) = true -> decodes_ok ->
  pool_run from_str error_text hex_flags cf (pool_init cf sh now) l = Some (obs, p) ->
  n <= 8 -> Z.of_nat (length l) < 256 ^ n -> i ≠ j ->
  p_conns p !! i = Some ci -> p_conns p !! j = Some cj ->
  task_prefix (cn_task ci) = Some prei -> task_prefix (cn_task cj) = Some prej ->
  Z.of_nat (length prei) = n -> Z.of_nat (length prej) = n ->
  prei ≠ prej /\ forall e1 e2, prei ++ e1 ≠ prej ++ e2.
Proof.
  intros Hfs Hcf Hu Hf Hdec Hrun Hn Hl Hij Hi Hj Hpi Hpj Hli Hlj.
  assert (256 ^ n <= 2 ^ 64) by (change (2 ^ 64) with (256 ^ 8); by apply Z.pow_le_mono_r).
  destruct (pool_run_fresh _ _ _ _ Hfs Hcf Hu Hf Hdec sh now l obs p ltac:(lia) Hrun) as (d & at_ & Hfp).
  assert (prei ≠ prej) as Hne by by eapply (fresh_prefixes_differ (length l) p d at_ i j ci cj n).
  split; [done|]. intros e1 e2 Heq. apply Hne. apply (f_equal (take (length prei))) in Heq.
  rewrite take_app_length in Heq. rewrite Heq. assert (length prei = length prej) as -> by lia. by rewrite take_app_length.
Qed.
Lemma live_sessions_mine_apart_witness :
  exists obs p, run_example both_mine = Some (obs, p) /\
  exists c0 c1, p_conns p !! 0%nat = Some c0 /\ p_conns p !! 1%nat = Some c1 /\
  (task_worker (cn_task c0), task_worker (cn_task c1)) = (Some "w.1", Some "w.1") /\
  (task_prefix (cn_task c0), task_prefix (cn_task c1)) = (Some [x00; x00; x00; x01], Some [x00; x00; x00; x03]) /\
  [x00; x00; x00; x01] ≠ [x00; x00; x00; x03] /\
  forall e1 e2, [x00; x00; x00; x01] ++ e1 ≠ [x00; x00; x00; x03] ++ e2.
Proof.
  destruct (run_example both_mine) as [[obs p]|] eqn:E; [|by apply run_example_none in E; vm_compute in E]. exists obs, p. split; [reflexivity|].
  pose proof (fun A => @run_example_view A both_mine obs p E) as Hp.
  set (view := fun c : conn Z => (task_worker (cn_task c), task_prefix (cn_task c))).
  assert ((view <$> p_conns p !! 0%nat, view <$> p_conns p !! 1%nat)
    = (Some (Some "w.1", Some [x00; x00; x00; x01]), Some (Some "w.1", Some [x00; x00; x00; x03]))) as Hv
    by (etrans; [exact (Hp _ (fun q => (view <$> p_conns q !! 0%nat, view <$> p_conns q !! 1%nat)))|vm_compute; reflexivity]).
  clear Hp. destruct (p_conns p !! 0%nat) as [c0|] eqn:E0; [|discriminate Hv].
  destruct (p_conns p !! 1%nat) as [c1|] eqn:E1; [|discriminate Hv]. unfold view in Hv. cbn [fmap option_fmap option_map] in Hv.
  exists c0, c1. split; [reflexivity|]. split; [reflexivity|].
  assert (task_worker (cn_task c0) = Some "w.1" /\ task_prefix (cn_task c0) = Some [x00; x00; x00; x01] /\
    task_worker (cn_task c1) = Some "w.1" /\ task_prefix (cn_task c1) = Some [x00; x00; x00; x03])
    as (Hw0 & Hp0 & Hw1 & Hp1) by (repeat split; congruence).
  rewrite Hw0, Hw1, Hp0, Hp1. split; [reflexivity|]. split; [reflexivity|].
  apply (live_sessions_mine_apart pool_from_str sample_errors sample_flags config_example sh_example 0 both_mine obs p
    0%nat 1%nat c0 c1 4 [x00; x00; x00; x01] [x00; x00; x00; x03]).
  - exact pool_from_str_ok.
  - vm_compute. reflexivity.
  - exact config_example_u64.
  - vm_compute. reflexivity.
  - exact sample_decodes_ok.
  - exact E.
  - clear. vm_compute. discriminate.
  - vm_compute. reflexivity.
  - exact (Nat.neq_0_succ 0).
  - exact E0.
  - exact E1.
  - exact Hp0.
  - exact Hp1.
  - reflexivity.
  - reflexivity.
Defined.

(** C7: Every share the pool credits is work on the current tip. In any run of the serving process from an engine
    without a job whose refreshes take turns, with sessions of both protocols and job broadcasts in any order
    with them: when a turn of a session logs a share, it is logged for that session's worker; the engine
    remembers the job it was submitted for, validation accepted it with that session's extranonce prefix at the
    configured floor, and the job has the previous hash of the newest job of the history, which is the current
    job unless a refresh stands between making its job current and remembering it. *)
Theorem credits_are_on_the_tip {Ip : Type} `{!EqDecision Ip} `{!Countable Ip} `{HJ : JsonLib f64} `{HL : HexLib}
    `{HS : Sha256Lib} `{HB : BitcoinLib} `{HV : Sv2Lib} `{HI : DashIter}
    `{HC : BroadcastLib} `{HCL : !BroadcastLaws} `{HW : PowLib}
    from_str error_text hex_flags cf sh now l obs (p : Pool Ip) e obs' p' i c c' w d :
  (forall line, from_str line ≠ Panic) -> Config.validate cf = Ok tt -> extranonces_u64 cf ->
  valid_binary prec emax (max_retarget_factor (vardiff cf)) = true -> decodes_ok ->
  sh_engine sh = engine_new ->
  refreshes_in_turn from_str error_text hex_flags cf (pool_init cf sh now) l = true ->
  pool_run from_str error_text hex_flags cf (pool_init cf sh now) l = Some (obs, p) ->
  pool_step from_str error_text hex_flags cf p e = Some (obs', p') ->
  p_conns p !! i = Some c -> cn_todo c = [] -> p_conns p' !! i = Some c' -> LogShare w d ∈ cn_todo c' ->
  task_worker (cn_task c) = Some w /\
  exists prefix params entry r newest, task_prefix (cn_task c) = Some prefix /\
    find_job (p_engine p) (sp_job_id params) = Some entry /\ sp_worker params = w /\
    validate_share_no_dedup params (je_job entry) entry prefix (min_difficulty (vardiff cf)) = Ok r /\
    last (job_history (p_engine p)) = Some newest /\ prev_hash (je_job entry) = prev_hash (je_job newest) /\
    ((forall k job clean, p_refreshes p !! k ≠ Some (Committed job clean)) ->
     current_job (p_engine p) = Some (je_job newest)).
Proof.
  intros Hfs Hcf Hu Hf Hdec Heng Ht Hrun Hs Hi Hrest Hi' Hlog.
  destruct (pool_run_jobs from_str error_text hex_flags cf Hfs Hcf Hu Hf Hdec sh now l obs p) as [ph [Htok Huw Hph _ _]];
    [rewrite Heng; exact engine_new_phase|done|done|].
  destruct (pool_step_logs from_str error_text hex_flags cf Hcf Hu Hdec p e obs' p' i c c' w d Htok Hs Hi Hrest Hi' Hlog)
    as (Hw & prefix & Hp & Hearn).
  split; [done|]. destruct (earned_tip _ _ _ _ _ Hph Hearn) as (entry & params & r & x & Hfind & Hpw & Hv & Hlast & Htip & Hcur).
  exists prefix, params, entry, r, x. split; [done|]. split; [done|]. split; [done|]. split; [done|]. split; [done|].
  split; [done|]. intros Hno. destruct ph as [[]|]; try exact Hcur. destruct Huw as [k Hk]. exfalso.
  apply (Hno k job clean). rewrite Hk. apply lookup_singleton_eq.
Qed.
(** A device takes the job that was broadcast and finds a block on it. *)
Definition line0 (s : string) : pool_event Z := Sv1Turn 0 sample_env (ReadLine (Some s) true).
Definition first_job : list (pool_event Z) :=
  [accept 0 7 100; first_byte 0 x7b 100] ++ settle 0 1 100 ++
  [line0 "subscribe"; Refresh 0 (Ok gbt_example) true; RefreshNext 0 0; RefreshNext 0 0; RefreshNext 0 0].
Definition one_share : list (pool_event Z) :=
  first_job ++ [Sv1Job 0 sample_env true; line0 "authorize"] ++ settle 0 4 100.
Abbreviation step_example := (pool_step pool_from_str sample_errors sample_flags config_example).
Abbreviation in_turn_example := (refreshes_in_turn pool_from_str sample_errors sample_flags config_example (pool_init config_example sh_example 0)).
(** The work of connection 0 and what its turns left to be done. *)
Definition view0 (q : Pool Z) : option (option string * list session_effect) :=
  (fun c => (task_worker (cn_task c), cn_todo c)) <$> p_conns q !! 0%nat.
Lemma view0_conn q w todo : view0 q = Some (w, todo) ->
  exists c, p_conns q !! 0%nat = Some c /\ task_worker (cn_task c) = w /\ cn_todo c = todo.
Proof. unfold view0. destruct (p_conns q !! 0%nat) as [c|]; [|done]. cbn. intros [= <- <-]. by exists c. Qed.
Lemma credits_are_on_the_tip_witness :
  exists obs p obs' p' c, run_example one_share = Some (obs, p) /\ step_example p (line0 "submit") = Some (obs', p') /\
  p_conns p !! 0%nat = Some c /\ task_worker (cn_task c) = Some "w.1" /\
  exists prefix params entry r newest, task_prefix (cn_task c) = Some prefix /\
    find_job (p_engine p) (sp_job_id params) = Some entry /\ sp_worker params = "w.1" /\
    validate_share_no_dedup params (je_job entry) entry prefix 512 = Ok r /\
    last (job_history (p_engine p)) = Some newest /\ prev_hash (je_job entry) = prev_hash (je_job newest) /\
    ((forall k job clean, p_refreshes p !! k ≠ Some (Committed job clean)) ->
     current_job (p_engine p) = Some (je_job newest)).
Proof.
  destruct (run_example one_share) as [[obs p]|] eqn:E; [|by apply run_example_none in E; vm_compute in E].
  pose proof (fun A => @run_example_view A one_share obs p E) as Hp.
  destruct (step_example p (line0 "submit")) as [[obs' p']|] eqn:Es.
  2: { exfalso. pose proof (Hp _ (fun q => match step_example q (line0 "submit") with Some _ => true | None => false end)) as Hd.
       cbv beta in Hd. rewrite Es in Hd. vm_compute in Hd. discriminate Hd. }
  exists obs, p, obs', p'.
  destruct (view0_conn p (Some "w.1") []) as (c & Hc & Hw & Htodo); [rewrite (Hp _ view0); vm_compute; reflexivity|].
  exists c. split; [reflexivity|]. split; [exact Es|]. split; [exact Hc|]. split; [exact Hw|].
  assert (exists w' todo, view0 p' = Some (w', todo) /\ LogShare "w.1" 512 ∈ todo) as (w' & todo & Hv & Hin).
  { assert (view0 p' = default None ((fun x => view0 (snd x)) <$> step_example p (line0 "submit"))) as -> by (rewrite Es; reflexivity).
    rewrite (Hp _ (fun q => default None ((fun x => view0 (snd x)) <$> step_example q (line0 "submit")))).
    eexists _, _. split; [vm_compute; reflexivity|]. apply list_elem_of_lookup. exists 4%nat. reflexivity. }
  destruct (view0_conn p' w' todo Hv) as (c' & Hc' & _ & Htodo').
  destruct (credits_are_on_the_tip pool_from_str sample_errors sample_flags config_example sh_example 0 one_share obs p
    (line0 "submit") obs' p' 0%nat c c' "w.1" 512) as [_ Hrest].
  - exact pool_from_str_ok.
  - vm_compute. reflexivity.
  - exact config_example_u64.
  - vm_compute. reflexivity.
  - exact sample_decodes_ok.
  - reflexivity.
  - vm_compute. reflexivity.
  - exact E.
  - exact Es.
  - exact Hc.
  - exact Htodo.
  - exact Hc'.
  - rewrite Htodo'. exact Hin.
  - exact Hrest.
Defined.


(** A pool that is started with a store; a device works on its first job when the address changes and a second job is built. *)
#[local] Instance sample_toml : TomlLib :=
  {| toml_from_str := fun _ => Ok (TTable ∅); config_of_toml := fun _ => Ok config_with_store |}.
Definition booted : Shared :=
  match boot config_with_store (sample_boot sample_store) with Ok (sh, _) => sh | _ => sh_example end.
Definition address_changes : list (pool_event Z) :=
  first_job ++ [Sv1Job 0 sample_env true; SettingsPost " bcrt1qother " None; Refresh 1 (Ok gbt_example) true; RefreshNext 1 0].
Definition run_booted : option (list (pool_obs Z) * Pool Z) :=
  pool_run pool_from_str sample_errors sample_flags config_with_store (pool_init config_with_store booted 0) address_changes.
(** The jobs of connection 0 and of the engine. *)
Definition jobs0 (q : Pool Z) : option (option (option StratumJob)) * option StratumJob :=
  ((fun c : conn Z => task_job (cn_task c)) <$> p_conns q !! 0%nat, current_job (p_engine q)).

(** A refresh for the old tip and one for the new, and a device that takes up what they broadcast. *)
Definition new_tip : GbtResult := {|
  gbt_version := gbt_version gbt_example; gbt_prev_hash := hex_encode (replicate 31 x00 ++ [x02]);
  gbt_bits := gbt_bits gbt_example; gbt_cur_time := 1700000030; gbt_min_time := gbt_min_time gbt_example; gbt_height := 102;
  gbt_coinbase_value := gbt_coinbase_value gbt_example; gbt_transactions := []; gbt_longpoll_id := None;
  gbt_rules := gbt_rules gbt_example; gbt_default_witness_commitment := gbt_default_witness_commitment gbt_example |}.
Definition overlap : list (pool_event Z) :=
  [accept 0 7 100; first_byte 0 x7b 100] ++ settle 0 1 100 ++
  [line0 "subscribe"; Refresh 0 (Ok gbt_example) false; Refresh 1 (Ok new_tip) true; RefreshNext 0 0; RefreshNext 1 0;
   RefreshNext 1 0; RefreshNext 0 0; RefreshNext 1 0; RefreshNext 0 0; Sv1Job 0 sample_env true; Sv1Job 0 sample_env true;
   line0 "authorize"] ++ settle 0 4 100.
(** C39: Refreshes that overlap break the rule of the tip. The lock of the current job is released before that of
    the history is taken, so a refresh that holds a job on the old tip can remember it after one that made a job on
    the new tip current and remembered it. There is a run of the serving process in which that happens and both
    refreshes end: the sessions are then on the old job, a share on it is credited to the worker although the
    engine's current job is on another tip, and shares for the current job are refused as stale. *)
Theorem overlapping_refreshes_credit_dead_work :
  exists l obs p obs' p' c c' dead current entry entry',
    run_example l = Some (obs, p) /\ p_refreshes p = ∅ /\
    current_job (p_engine p) = Some current /\ p_conns p !! 0%nat = Some c /\ task_job (cn_task c) = Some (Some dead) /\
    prev_hash dead ≠ prev_hash current /\
    find_job (p_engine p) (job_id dead) = Some entry /\ je_superseded_by_clean entry = false /\
    find_job (p_engine p) (job_id current) = Some entry' /\ je_superseded_by_clean entry' = true /\
    step_example p (line0 "submit") = Some (obs', p') /\ cn_todo c = [] /\
    p_conns p' !! 0%nat = Some c' /\ LogShare "w.1" 512 ∈ cn_todo c'.
Proof.
  destruct (run_example overlap) as [[obs p]|] eqn:E; [|by apply run_example_none in E; vm_compute in E].
  pose proof (fun A => @run_example_view A overlap obs p E) as Hp.
  destruct (step_example p (line0 "submit")) as [[obs' p']|] eqn:Es.
  2: { exfalso. pose proof (Hp _ (fun q => match step_example q (line0 "submit") with Some _ => true | None => false end)) as Hd.
       cbv beta in Hd. rewrite Es in Hd. vm_compute in Hd. discriminate Hd. }
  destruct (view0_conn p (Some "w.1") []) as (c & Hc & _ & Htodo); [rewrite (Hp _ view0); vm_compute; reflexivity|].
  assert (exists dead current, jobs0 p = (Some (Some (Some dead)), Some current) /\ prev_hash dead ≠ prev_hash current /\
    (job_id dead, job_id current) = ("cfe5680000000001", "cfe5680000000002")) as (dead & current & Hj & Hne & Hid).
  { rewrite (Hp _ jobs0). eexists _, _. split; [vm_compute; reflexivity|]. split; [vm_compute; discriminate|reflexivity]. }
  assert (job_id dead = "cfe5680000000001" /\ job_id current = "cfe5680000000002") as [Hd Hcur] by (split; congruence).
  assert (exists x y, find_job (p_engine p) (job_id dead) = Some x /\ je_superseded_by_clean x = false /\
    find_job (p_engine p) (job_id current) = Some y /\ je_superseded_by_clean y = true) as (x & y & Hx & Hsx & Hy & Hsy).
  { rewrite Hd, Hcur, (Hp _ (fun q => find_job (p_engine q) _)), (Hp _ (fun q => find_job (p_engine q) "cfe5680000000002")).
    eexists _, _. split; [vm_compute; reflexivity|]. split; [reflexivity|]. split; [vm_compute; reflexivity|reflexivity]. }
  assert (exists w' todo, view0 p' = Some (w', todo) /\ LogShare "w.1" 512 ∈ todo) as (w' & todo & Hv & Hin).
  { assert (view0 p' = default None ((fun x => view0 (snd x)) <$> step_example p (line0 "submit"))) as -> by (rewrite Es; reflexivity).
    rewrite (Hp _ (fun q => default None ((fun x => view0 (snd x)) <$> step_example q (line0 "submit")))).
    eexists _, _. split; [vm_compute; reflexivity|]. apply list_elem_of_lookup. exists 4%nat. reflexivity. }
  destruct (view0_conn p' w' todo Hv) as (c' & Hc' & _ & Htodo'). unfold jobs0 in Hj. rewrite Hc in Hj.
  exists overlap, obs, p, obs', p', c, c', dead, current, x, y. split; [exact E|].
  split; [rewrite (Hp _ p_refreshes); vm_compute; reflexivity|]. split; [exact (f_equal snd Hj)|]. split; [exact Hc|].
  split; [apply (inj Some); exact (f_equal fst Hj)|]. split; [exact Hne|]. split; [exact Hx|]. split; [exact Hsx|].
  split; [exact Hy|]. split; [exact Hsy|]. split; [exact Es|]. split; [exact Htodo|]. split; [exact Hc'|].
  rewrite Htodo'. exact Hin.
Qed.

(** The first process is given another address before a device comes; the second one builds a job. *)
Abbreviation first_life := (pool_run pool_from_str sample_errors sample_flags config_with_store
    (pool_settings_post (pool_init config_with_store booted 0) " bcrt1qother " None) one_share).
Definition last_db : StatsStore :=
  default sample_store (first_life ≫= fun r => ps_store (shutdown (p_stats (snd r)) 12 no_io 13 None None 0 [(0, 1)]).1).
Definition rebooted : Shared :=
  match boot config_with_store (sample_boot last_db) with Ok (sh, _) => sh | _ => sh_example end.
Definition second_job : list (pool_event Z) := [Refresh 0 (Ok gbt_example) true; RefreshNext 0 0].
Abbreviation second_life := (pool_run pool_from_str sample_errors sample_flags config_with_store
    (pool_init config_with_store rebooted 0) second_job).
Lemma no_post_in (l : list (pool_event Z)) : forallb (fun e => negb (is_post e)) l = true -> forall x y, SettingsPost x y ∉ l.
Proof. intros Hl x y Hin%list_elem_of_In. apply (proj1 (forallb_forall _ _) Hl) in Hin. discriminate Hin. Qed.
Lemma some_view {A B} (o : option A) (f : A -> B) (b : B) : f <$> o = Some b -> exists a, o = Some a /\ f a = b.
Proof. destruct o as [a|]; cbn; [|done]. intros [= <-]. by exists a. Qed.

(** C21: The light of the node on the dashboard page tells the truth. From the command line on, in any run of the serving
    process, with refreshes that overlap, fail or find no valid address: what the page shows of the record [/stats] sends at
    an instant is green exactly when the last thing a refresh did about a template was to make a job current, less than 90
    seconds ago; it is red exactly when 300 seconds have passed since a job last became current, however often the node
    was asked, unless mining is paused; it is grey exactly when nothing was tried yet or the last refresh found no valid
    payout address, and only then does it say paused. The engine's job is the one that became current last. *)
Theorem node_light_tells_refreshes {Ip : Type} `{!EqDecision Ip} `{!Countable Ip} `{HJ : JsonLib f64} `{HL : HexLib}
    `{HS : Sha256Lib} `{HB : BitcoinLib} `{HV : Sv2Lib} `{HI : DashIter} `{HC : BroadcastLib} `{HW : PowLib}
    `{HQ : SqliteLib} `{HT : TomlLib}
    from_str error_text hex_flags args read vars cf env sh dash now l obs (p : Pool Ip) snow inow tnow :
  main_start args read vars env = Ok (Serving cf sh dash) ->
  pool_run from_str error_text hex_flags cf (pool_init cf sh now) l = Some (obs, p) ->
  light_tells (reports from_str error_text hex_flags cf (pool_init cf sh now) l) (current_job (p_engine p)) tnow
    (render_node (stats_json {| sh_stats := p_stats p; sh_settings := p_settings p; sh_engine := p_engine p; sh_ids := p_ids p |}
       snow inow tnow)).
Proof.
  intros [_ Hboot]%main_start_serves Hrun. destruct (boot_address _ _ _ _ Hboot) as (? & ? & ? & _ & _ & _ & _ & Heng & _).
  assert (told (reports from_str error_text hex_flags cf (pool_init cf sh now) l) (p_engine p)) as Ht.
  { eapply (told_run from_str error_text hex_flags cf l _ _ _ [] Hrun). cbn. rewrite Heng. exact told_new. }
  eapply render_tells; [exact Ht|]. apply stats_json_shows.
Qed.
(** A job is made at once, and the node fails the pool twice; six minutes later the light is red. *)
Definition node_fails : list (pool_event Z) :=
  [Refresh 0 (Ok gbt_example) true; RefreshNext 0 0; Refresh 1 (Err (Rpc (RpcOther "timed out"))) false;
   Refresh 2 (Err (Rpc (RpcOther "timed out"))) false].
Abbreviation silent_node := (pool_run pool_from_str sample_errors sample_flags config_with_store
    (pool_init config_with_store booted 0) node_fails).
Abbreviation silent_node_log := (reports pool_from_str sample_errors sample_flags config_with_store
    (pool_init config_with_store booted 0) node_fails).
Definition page_of (q : Pool Z) : node_view :=
  render_node (stats_json {| sh_stats := p_stats q; sh_settings := p_settings q; sh_engine := p_engine q; sh_ids := p_ids q |}
    0 0 (from_secs 360)).
Lemma node_light_tells_refreshes_witness :
  exists obs q, silent_node = Some (obs, q) /\
  light_tells silent_node_log (current_job (p_engine q)) (from_secs 360) (page_of q) /\ nv_led (page_of q) = LedBad.
Proof.
  assert (exists dash, main_start [] (fun _ => Some "") [] (sample_boot sample_store) = Ok (Serving config_with_store booted dash)) as [dash Hboot]
    by (eexists; vm_compute; reflexivity).
  destruct (some_view silent_node (fun _ => tt) tt) as ([obs q] & E & _); [vm_compute; reflexivity|]. exists obs, q.
  assert (light_tells silent_node_log (current_job (p_engine q)) (from_secs 360) (page_of q)) as Hl.
  { apply (node_light_tells_refreshes pool_from_str sample_errors sample_flags [] (fun _ => Some "") [] config_with_store
      (sample_boot sample_store) booted dash 0 node_fails obs q 0 0 (from_secs 360)); [exact Hboot|exact E]. }
  split; [exact E|]. split; [exact Hl|]. apply (lt_red _ _ _ _ Hl). split; [vm_compute; discriminate|].
  destruct (some_view (last_made silent_node_log) snd 0) as ([job t] & Hm & Ht); [vm_compute; reflexivity|].
  exists job, t. split; [exact Hm|]. cbn in Ht. rewrite Ht. vm_compute. discriminate.
Defined.

(** The device of [one_share] on the pool that was started with a store, and its submission. *)
Definition booted_job : StratumJob :=
  match (refresh_job (sh_settings booted) (pool config_with_store) (sh_ids booted) (Ok gbt_example)).2 with Ok j => j | _ => wjob end.
Definition device_request : StratumRequest :=
  sample_request "mining.submit" [RStr "w.1"; RStr (job_id booted_job); RStr "00000000"; RStr "6553f100"; RStr "00000001"].
Definition device_from_str (line : string) : outcome string StratumRequest :=
  if bool_decide (line = "submit") then Ok device_request else sample_from_str line.
Lemma device_from_str_ok line : device_from_str line ≠ Panic.
Proof. unfold device_from_str, sample_from_str. by repeat case_bool_decide. Qed.
Abbreviation mining_run := (pool_run device_from_str sample_errors sample_flags config_with_store
    (pool_init config_with_store booted 0) one_share).
Definition mined_pool : Pool Z := match mining_run with Some (_, q) => q | None => pool_init config_with_store booted 0 end.
Definition mined_session : Session :=
  match p_conns mined_pool !! 0%nat with Some {| cn_task := Sv1Task s _ |} => s | _ => mining_session end.
Definition solution : Offer := {|
  of_entry := default wentry (find_job (p_engine mined_pool) (job_id booted_job)); of_version := 0x20000000;
  of_ntime := 1700000000; of_nonce := 1; of_prefix := [x00; x00; x00; x01]; of_rest := [x00; x00; x00; x00]; of_seen := ∅ |}.
Definition solution_header : list byte :=
  share_header (of_job solution) (rev (default [] (hex_decode (gbt_prev_hash gbt_example)))) 0x207fffff 0x20000000 1700000000 1
    (of_coinbase solution).
#[local] Instance sample_types : Sv2TypesLaws.
Proof. by split. Qed.
Definition device_submit : SubmitParams := {|
  submit_worker := "w.1"; submit_job_id := job_id booted_job; submit_extranonce2 := [x00; x00; x00; x00];
  submit_ntime := 1700000000; submit_nonce := 1; submit_version_bits := None |}.
Lemma mined_task : p_conns mined_pool !! 0%nat = Some {| cn_ip := 7; cn_task := Sv1Task mined_session true; cn_todo := [] |}.
Proof. vm_compute. reflexivity. Qed.
Lemma solution_offered : offers device_from_str mined_pool 0 (line0 "submit") solution.
Proof.
  assert (of_prefix solution = s_extranonce1 mined_session) as Hp by (vm_compute; reflexivity).
  assert (of_seen solution = seen (s_share_set mined_session)) as Hs by (vm_compute; reflexivity).
  assert (find_job (p_engine mined_pool) (job_id booted_job) = Some (of_entry solution)) as Hj by (vm_compute; reflexivity).
  assert ((try_consume (share_rate (s_guard mined_session)) (e_clk sample_env 0) (e_clk sample_env 1)).2 = true) as Hr
    by (vm_compute; reflexivity).
  assert (s_authorized mined_session = true) as Ha by (vm_compute; reflexivity).
  assert (s_extranonce2_size mined_session = 4) as Hn by (vm_compute; reflexivity).
  assert (version (je_job (of_entry solution)) = 0x20000000) as Hv by (vm_compute; reflexivity).
  assert (s_version_rolling_enabled mined_session = false) as Hroll by (vm_compute; reflexivity).
  assert (request_parse device_from_str "submit" = Ok device_request) as Hq by reflexivity.
  assert (from_request device_request = Ok (Submit device_submit)) as Hf by (vm_compute; reflexivity).
  pose proof (offers_sv1 device_from_str mined_pool 0 7 mined_session sample_env "submit" true device_request device_submit
    (of_entry solution) 0x20000000 mined_task eq_refl Hr Hq Hf Ha) as Ho.
  rewrite <- Hp, <- Hs in Ho. apply Ho.
  - rewrite Hn. reflexivity.
  - exact Hj.
  - cbv zeta. rewrite Hv. unfold share_params. rewrite Hroll. reflexivity.
Qed.
Lemma solution_solves : solves solution solution_header.
Proof.
  split; [vm_compute; reflexivity|]. split; [split; vm_compute; discriminate|]. split; [|split; [vm_compute; discriminate|apply not_elem_of_empty]].
  exists (rev (default [] (hex_decode (gbt_prev_hash gbt_example)))), 0x207fffff.
  split; [vm_compute; reflexivity|]. split; [vm_compute; reflexivity|]. reflexivity.
Qed.

(** A device whose share was counted. *)
Definition shared_once : list (pool_event Z) := one_share ++ [line0 "submit"].
Definition seen0 (q : Pool Z) : option nat :=
  (fun c => match cn_task c with Sv1Task s _ => size (seen (s_share_set s)) | _ => 0%nat end) <$> p_conns q !! 0%nat.
