(* ===== verification/PropsSv2.v ===== *)
(** Properties of the Stratum V2 frontend. *)
From S2P Require Import SamplesSv2.
From Stdlib Require Import Strings.Ascii.

Definition sample_tip_job : StratumJob := match current_job sample_tip_engine with Some j => j | None => wjob end.
Definition sample_tip_submit : SubmitExtended := {|
  sx_channel_id := 3; sequence_number := 7; sx_job_id := 1; sx_nonce := 5; sx_ntime := 1700000000;
  sx_version := 0x20002000; sx_extranonce := [x01; x02; x03; x04] |}.

(** C6: A Stratum V2 share is credited only when it was earned. If a submission credits anything, the channel was open,
    the extranonce has the granted size, the job is one announced under that identifier and still honoured,
    validation accepted it at the pool's floor, its hash had not been accepted before in this session and is
    remembered now, a found block was accepted by the node; it is credited once, to the session's worker, and
    the only thing the device can be told is its success. *)
Theorem sv2_credited_share_was_earned `{HL : HexLib} `{HS : Sha256Lib} `{HV : Sv2Lib} s env payload worker credited :
  let r := sv2_handle_submit s env payload in
  LogShare worker credited ∈ r_effects r ->
  v_channel_open s = true /\ worker = default "?" (v_worker s) /\
  List.filter is_log (r_effects r) = [LogShare worker credited] /\
  exists submit engine_id entry res,
    decode_submit_extended payload = Ok submit /\
    (r_messages r = [MSubmitSharesSuccess (v_channel_id s) (sequence_number submit) 1 (v_difficulty s)] \/
     r_messages r = []) /\
    Z.of_nat (length (sx_extranonce submit)) = v_extranonce_size s /\
    (sx_job_id submit, engine_id) ∈ v_job_ids s /\ find_job (e_engine (v_env env)) engine_id = Some entry /\
    je_superseded_by_clean entry = false /\
    validate_share_no_dedup (sv2_share_params submit (je_job entry) worker) (je_job entry) entry
      (v_extranonce_prefix s) (min_difficulty (v_vardiff_cfg s)) = Ok res /\
    ShareResult_hash res ∉ seen (v_share_set s) /\ ShareResult_hash res ∈ seen (v_share_set (r_session r)) /\
    match res with
    | Valid _ h _ => credited = credit_for (v_vardiff s) h
    | Block h hex hash =>
        credited = credit_for (v_vardiff s) h /\
        (submit_found_block (height (je_job entry)) (hash_display_hex hash) hex worker (e_answers (v_env env))).2 = Ok tt
    end.
Proof.
  intros r Hlog. destruct (sv2_handle_submit_logs s env payload worker credited Hlog)
    as (submit & entry & set & verdict & Ho & Hdec & Hl & Hj & Hv & Hr).
  unfold r in *. rewrite Hr in *. clear r Hr.
  apply sv2_verdict_credits in Hlog as (res & -> & Hw & Hl1 & Hm & Hset & Hres).
  apply ShareSet_dedup_ok in Hv as (Hvalid & Hnew & Hin).
  split; [done|]. split; [done|]. split; [done|].
  unfold sv2_find_job, engine_job_id in Hj. destruct (List.find _ (v_job_ids s)) as [[id name]|] eqn:Ef; [|done].
  pose proof (find_some _ _ Ef) as [Hmem Hid]. cbn in Hid, Hj. b2p. subst id.
  assert (je_superseded_by_clean entry = false) as Hsup.
  { destruct (je_superseded_by_clean entry) eqn:Hs; [|done]. unfold validate_share_no_dedup in Hvalid.
    by rewrite Hs in Hvalid. }
  exists submit, name, entry, res. rewrite Hset, Hw. apply list_elem_of_In in Hmem. by destruct res.
Qed.
Lemma sv2_credited_share_was_earned_witness :
  let r := sv2_handle_submit mining_sv2_session sample_sv2_env [x01; x00; x03; x04] in
  LogShare "w.1" 512 ∈ r_effects r /\ v_channel_open mining_sv2_session = true /\
  List.filter is_log (r_effects r) = [LogShare "w.1" 512].
Proof.
  intros r. assert (LogShare "w.1" 512 ∈ r_effects r) as Hin.
  { apply list_elem_of_lookup_2 with (i := 4%nat). vm_compute. reflexivity. }
  split; [exact Hin|].
  destruct (sv2_credited_share_was_earned mining_sv2_session sample_sv2_env [x01; x00; x03; x04] "w.1" 512 Hin)
    as (H1 & _ & H2 & _).
  split; [exact H1|exact H2].
Defined.

(** C13: A Stratum V2 session stays well formed. Whatever a device sends and the engine broadcasts, a session started
    under an accepted configuration never panics, and at every point: the difficulty its replies carry is the one
    vardiff judges by, and is the initial one or in the configured range; prefix and device extranonce together
    have exactly the reserved width, which never changes; at most 16 job identifiers are remembered; and an open
    channel has been set up, has a worker and leaves the device at least one byte. *)
Theorem sv2_session_well_formed `{HL : HexLib} `{HS : Sha256Lib} `{HV : Sv2Lib} error_text hex_flags cf g engine
    t1 t2 t3 t4 g' s effs l :
  Config.validate cf = Ok tt -> extranonces_u64 cf ->
  valid_binary prec emax (max_retarget_factor (vardiff cf)) = true -> decodes_ok ->
  sv2_start false true cf g engine t1 t2 t3 t4 = (g', Some (s, effs)) ->
  exists s' effs' msgs, sv2_run error_text hex_flags s l = Some (s', effs', msgs) /\
    v_difficulty s' = current (v_vardiff s') /\
    (v_difficulty s' = initial_difficulty (pool cf) \/
     min_difficulty (vardiff cf) <= v_difficulty s' <= max_difficulty (vardiff cf)) /\
    Z.of_nat (length (v_extranonce_prefix s')) + v_extranonce_size s' =
      extranonce1_size (pool cf) + extranonce2_size (pool cf) /\
    (length (v_job_ids s') <= MAX_JOB_IDS)%nat /\
    (v_channel_open s' = true -> v_setup_done s' = true /\ is_Some (v_worker s') /\ 1 <= v_extranonce_size s').
Proof.
  intros Hcf Hu Hf Hdec Hstart. pose proof (validate_vardiff_section cf Hcf) as Hvd.
  pose proof (validate_extranonces cf Hcf Hu) as [He1 _].
  apply (sv2_start_inv cf Hu) in Hstart as (Hi & Hn & _ & _).
  assert (1 <= extranonce1_size (pool cf) + extranonce2_size (pool cf)) as Htotal by (destruct Hu; lia).
  destruct (sv2_run_inv error_text hex_flags _ _ _ Htotal Hdec Hvd Hf l s Hi)
    as (s' & effs' & msgs & Hrun & [I1 I2 I3 I4 I5 I6]).
  exists s', effs', msgs. split; [done|]. split; [done|]. split; [done|]. split; [done|]. split; [|done].
  destruct (sv2_run_ids error_text hex_flags _ _ _ Htotal Hdec Hvd Hf l s [] s' effs' msgs Hi Hn Hrun)
    as (names & [_ ->] & _).
  rewrite length_drop, length_wire_table. unfold MAX_JOB_IDS. lia.
Qed.
Lemma sv2_session_well_formed_witness :
  exists s' effs' msgs,
    sv2_run sample_errors sample_flags (sample_sv2_session <! v_pending_job := current_job sample_engine !>) sample_turns
      = Some (s', effs', msgs) /\
    v_channel_open s' = true /\ Z.of_nat (length (v_extranonce_prefix s')) + v_extranonce_size s' = 8 /\
    (length (v_job_ids s') <= MAX_JOB_IDS)%nat.
Proof.
  destruct (sv2_session_well_formed sample_errors sample_flags config_example sample_counters sample_engine 0 0 0 0
    {| extranonce_counter := 6; next_channel_id := 3 |}
    (sample_sv2_session <! v_pending_job := current_job sample_engine !>) [MinerConnected] sample_turns)
    as (s' & effs' & msgs & Hrun & _ & _ & Hsplit & Hids & _).
  - vm_compute. reflexivity.
  - split; split; vm_compute; discriminate || reflexivity.
  - vm_compute. reflexivity.
  - exact sample_decodes_ok.
  - reflexivity.
  - exists s', effs', msgs. split; [exact Hrun|]. split; [|split; [exact Hsplit|exact Hids]].
    vm_compute in Hrun. injection Hrun as <- _ _. reflexivity.
Defined.


(** C15: Opening a channel does all of its work or none. Asking for more than the reserved extranonce leaves the session,
    the counters and the statistics untouched, whatever channel was open; an identity past the cap ends the
    session without touching the statistics. Otherwise the device gets the size it asked for (one byte at least)
    and the pool keeps the rest as its prefix, a fresh channel identifier, the device's identity, and a target no
    easier than the device allows; the statistics see the previous worker leave and the new one arrive exactly
    when the identity changes. *)
Theorem sv2_open_all_or_nothing `{HL : HexLib} `{HV : Sv2Lib} g s env payload error_text open :
  v_setup_done s = true -> decode_open_extended payload = Ok open ->
  check_worker_name (v_guard s) (user_identity open) = Ok tt ->
  0 <= min_extranonce_size open -> 1 <= v_extranonce_total s -> length (max_target open) = 32%nat ->
  is_u64 (v_difficulty s) ->
  let id := user_identity open in
  exists g' r, handle_open_extended g s env payload error_text = Some (g', r) /\
    if v_extranonce_total s <? min_extranonce_size open then
      g' = g /\ r_session r = s /\ r_effects r = [] /\ r_flow r = Continue
    else if negb (bool_decide (v_worker s = Some id)) && negb (record_new_authorization (v_guard s)).2 then
      g' = g /\ r_effects r = [] /\ r_messages r = [] /\ r_flow r = FlowDisconnect "too many worker identities"
    else granted_as g s open g' r.
Proof.
  intros Hsd Hdec Hname Hreq Ht Hmt Hd id. unfold handle_open_extended. rewrite Hsd, Hdec, Hname. cbn [negb]. cbv zeta.
  destruct (Z.ltb_spec (v_extranonce_total s) (min_extranonce_size open)) as [|Hle]; [by eexists _, _|].
  fold id. pose proof (open_granted_as g s env open Hd Hmt ltac:(lia)) as Hgo.
  cbv zeta in Hgo. fold id in Hgo.
  destruct (bool_decide (v_worker s = Some id)) ; cbn [negb andb] in *.
  - by apply (Hgo s [] (take_share_history (v_vardiff s) 0).2).
  - destruct (record_new_authorization (v_guard s)) as [guard [|]]; cbn [snd negb]; [|by eexists _, _].
    destruct (release_worker_spec (s <! v_guard := guard !>) (e_clk (v_env env) 2)) as [Hof [history Hgone]].
    destruct (release_worker _ _) as [s0 gone]. by apply (Hgo s0 gone history).
Qed.
Lemma sv2_open_all_or_nothing_witness :
  let refused := handle_open_extended sample_counters mining_sv2_session sample_sv2_env [x05] sample_errors in
  let granted := handle_open_extended sample_counters mining_sv2_session sample_sv2_env [x04] sample_errors in
  (exists g' r, refused = Some (g', r) /\ g' = sample_counters /\ r_session r = mining_sv2_session /\
     r_effects r = [] /\ r_flow r = Continue) /\
  (exists g' r, granted = Some (g', r) /\ v_extranonce_size (r_session r) = 4 /\ v_extranonce_prefix (r_session r) = []).
Proof.
  intros refused granted.
  assert (forall n, 0 <= b2z n) as Hn by (intros n; pose proof (b2z_range n); lia).
  assert (is_u64 (v_difficulty mining_sv2_session)) as Hd by (split; vm_compute; discriminate || reflexivity).
  split.
  - destruct (sv2_open_all_or_nothing sample_counters mining_sv2_session sample_sv2_env [x05] sample_errors
      {| open_request_id := 1; user_identity := "w.1"; nominal_hash_rate := 0; max_target := replicate 32 xff;
         min_extranonce_size := b2z x05 |}) as (g' & r & Hr & H);
      [reflexivity|reflexivity|vm_compute; reflexivity|apply Hn|cbn; lia|reflexivity|exact Hd|].
    exists g', r. split; [exact Hr|exact H].
  - destruct (sv2_open_all_or_nothing sample_counters mining_sv2_session sample_sv2_env [x04] sample_errors
      {| open_request_id := 1; user_identity := "w.1"; nominal_hash_rate := 0; max_target := replicate 32 xff;
         min_extranonce_size := b2z x04 |}) as (g' & r & Hr & _ & _ & _ & Hs & Hp & _);
      [reflexivity|reflexivity|vm_compute; reflexivity|apply Hn|cbn; lia|reflexivity|exact Hd|].
    exists g', r. split; [exact Hr|]. split; [exact Hs|exact Hp].
Defined.

(** Frames are read back as they were written. A payload shorter than 2^24 bytes comes back whole, with its message
    type and its channel flag, and the bytes after it are left; a longer one is cut to its length modulo 2^24, so
    that its frame never reads back as itself. *)
Theorem frame_roundtrip t c p rest :
  0 <= t < 256 -> Z.of_nat (length p) < 2 ^ 32 ->
  length (frame_bytes t c p) = (header_size + length p)%nat /\
  (Z.of_nat (length p) < 2 ^ 24 ->
     read_frame (frame_bytes t c p ++ rest) =
       Some ({| fr_ext := EXT_TYPE; fr_channel_msg := c; fr_msg_type := t; fr_payload := p |}, rest)) /\
  (2 ^ 24 <= Z.of_nat (length p) ->
     exists f rest', read_frame (frame_bytes t c p ++ rest) = Some (f, rest') /\ fr_payload f ≠ p).
Proof.
  intros Ht Hp. pose proof (read_frame_frame_bytes t c p rest Ht Hp) as Hr. cbv zeta in Hr. split; [|split].
  - rewrite frame_bytes_cons, take_le_bytes by lia. cbn [length header_size]. by rewrite length_app, length_le_bytes.
  - intros Hs. rewrite Hr, Z.mod_small, Nat2Z.id by lia. by rewrite firstn_all, drop_all.
  - intros Hl. rewrite Hr. eexists _, _. split; [done|]. cbn [fr_payload]. intros Heq.
    apply (f_equal length) in Heq. rewrite length_take in Heq.
    pose proof (Z.mod_pos_bound (Z.of_nat (length p)) (2 ^ 24)). lia.
Qed.
Lemma frame_roundtrip_witness :
  frame_bytes 0x1f true [x01; x02] = [x00; x80; x1f; x02; x00; x00; x01; x02] /\
  read_frame (frame_bytes 0x1f true [x01; x02] ++ [xff]) =
    Some ({| fr_ext := EXT_TYPE; fr_channel_msg := true; fr_msg_type := 0x1f; fr_payload := [x01; x02] |}, [xff]).
Proof.
  split; [vm_compute; reflexivity|].
  destruct (frame_roundtrip 0x1f true [x01; x02] [xff]) as (_ & H & _); [lia|cbn; lia|apply H; cbn; lia].
Defined.

(** C35: The extranonce spaces of two sessions overlap exactly when the shorter prefix begins the longer one. Each session
    searches its prefix followed by the bytes it was granted, all of one total width; two prefixes of [n1] and
    [n2] bytes, [n1 <= n2], drawn at counter values [c1] and [c2], leave a common coinbase exactly when [c1] modulo
    256^n1 is the high part of [c2] modulo 256^n2. Prefixes of one width are disjoint until the counter comes
    round. But a device that is granted the whole width has an empty prefix and shares its space with every other
    session, and a session holding the 4-byte prefix of counter 1 shares with one holding the 6-byte prefix of
    counter 65536. *)
Theorem extranonce_spaces_overlap_iff c1 c2 n1 n2 total :
  is_u64 c1 -> is_u64 c2 -> 0 <= n1 <= n2 -> n2 <= total ->
  (exists e1 e2, Z.of_nat (length e1) = total - n1 /\ Z.of_nat (length e2) = total - n2 /\
     (generate_extranonce1 c1 n1).2 ++ e1 = (generate_extranonce1 c2 n2).2 ++ e2) <->
  c1 mod 256 ^ n1 = c2 mod 256 ^ n2 / 256 ^ (n2 - n1).
Proof.
  intros H1 H2 Hn Ht. destruct (generate_extranonce1_value c1 n1 H1 ltac:(lia)) as [Hv1 Hl1].
  destruct (generate_extranonce1_value c2 n2 H2 ltac:(lia)) as [Hv2 Hl2].
  set (p1 := (generate_extranonce1 c1 n1).2) in *. set (p2 := (generate_extranonce1 c2 n2).2) in *.
  pose proof (take_drop (Z.to_nat n1) p2) as Hsplit.
  assert (be2z (take (Z.to_nat n1) p2) = be2z p2 / 256 ^ (n2 - n1)) as Hhigh.
  { rewrite <- Hsplit at 2. rewrite be2z_app, length_drop. replace (Z.of_nat _) with (n2 - n1) by lia.
    pose proof (be2z_range (drop (Z.to_nat n1) p2)) as Hr. rewrite length_drop in Hr.
    replace (Z.of_nat _) with (n2 - n1) in Hr by lia. by rewrite Z.div_add_l, Z.div_small, Z.add_0_r by lia. }
  rewrite <- Hv1, <- Hv2, <- Hhigh. split.
  - intros (e1 & e2 & _ & _ & Heq). f_equal. apply (f_equal (take (length p1))) in Heq.
    rewrite take_app_length, take_app_le in Heq by lia. rewrite Heq. f_equal. lia.
  - intros Heq. exists (drop (Z.to_nat n1) p2 ++ replicate (Z.to_nat (total - n2)) x00), (replicate (Z.to_nat (total - n2)) x00).
    rewrite !length_app, length_drop, length_replicate. split; [lia|]. split; [lia|]. rewrite app_assoc. f_equal.
    rewrite <- Hsplit at 2. f_equal. apply be2z_inj; [rewrite length_take; lia|done].
Qed.
Lemma extranonce_spaces_overlap_iff_witness :
  (exists e1 e2, Z.of_nat (length e1) = 8 - 0 /\ Z.of_nat (length e2) = 8 - 4 /\
     (generate_extranonce1 9 0).2 ++ e1 = (generate_extranonce1 1 4).2 ++ e2) /\
  (exists e1 e2, Z.of_nat (length e1) = 8 - 4 /\ Z.of_nat (length e2) = 8 - 6 /\
     (generate_extranonce1 1 4).2 ++ e1 = (generate_extranonce1 65536 6).2 ++ e2) /\
  ~ (exists e1 e2, Z.of_nat (length e1) = 8 - 4 /\ Z.of_nat (length e2) = 8 - 4 /\
     (generate_extranonce1 1 4).2 ++ e1 = (generate_extranonce1 2 4).2 ++ e2).
Proof.
  split; [|split].
  - apply (extranonce_spaces_overlap_iff 9 1 0 4 8); [by unfold is_u|by unfold is_u|lia|lia|reflexivity].
  - apply (extranonce_spaces_overlap_iff 1 65536 4 6 8); [by unfold is_u|by unfold is_u|lia|lia|reflexivity].
  - intros H. apply (extranonce_spaces_overlap_iff 1 2 4 4 8) in H;
      [discriminate H|by unfold is_u|by unfold is_u|lia|lia].
Defined.

(** C36: Missing a broadcast can leave a device on a dead tip. A session that lagged goes on; when the next broadcast it
    receives is not clean, it announces that job for immediate mining on the previous hash the device already has,
    that of the last job before the gap. If the clean job in between moved the tip, no header the device hashes for
    the new job is one validation builds, whatever extranonce, version, time and nonce it uses. *)
Theorem lagged_session_mines_dead_tip `{HL : HexLib} `{HS : Sha256Lib} `{HV : Sv2Lib} error_text hex_flags
    s dv p b g env g1 s1 effs1 msgs1 g2 env2 g3 s2 effs2 msgs2 :
  in_step s dv -> v_channel_open s = true -> v_pending_job s = Some p -> jb_clean b = false ->
  stratum_prevhash_to_internal (prev_hash p) ≠ stratum_prevhash_to_internal (prev_hash (jb_job b)) ->
  sv2_step error_text hex_flags g s env Sv2JobLagged = Some (g1, s1, effs1, msgs1, true) ->
  sv2_step error_text hex_flags g2 s1 env2 (Sv2JobReceived b) = Some (g3, s2, effs2, msgs2, true) ->
  let dv' := device_run dv (msgs1 ++ msgs2) in
  (exists j, dv_job dv' = Some j /\ engine_job_id s2 (nj_job_id j) = Some (job_id (jb_job b))) /\
  forall extranonce version ntime nonce merkle_root header validated,
    device_header dv' extranonce version ntime nonce = Some header ->
    build_header version (prev_hash (jb_job b)) merkle_root ntime (bits (jb_job b)) nonce = Ok validated ->
    header ≠ validated.
Proof.
  intros [[names Hn] Hs] Ho Hp Hc Hne Hlag Hjob dv'. injection Hlag as <- <- <- <-.
  destruct (Hs Ho) as [_ Hw]. destruct (Hw p Hp) as [_ (j0 & q & _ & Hq & _ & _ & _ & _ & _ & Hprev & _)].
  cbn [sv2_step] in Hjob. unfold sv2_on_job in Hjob. rewrite Hc in Hjob. cbv zeta in Hjob. rewrite Ho in Hjob.
  destruct (send_job s env2 0 (jb_job b) false) as [[s3 msgs3] ok] eqn:Es. destruct ok; [|done].
  injection Hjob as <- <- <- <-.
  destruct (send_immediate s env2 0 (jb_job b) s3 msgs3 names Es Hn) as (j & -> & Hnt & Hid).
  assert (dv_job dv' = Some j /\ dv_prev dv' = Some q) as [Hj' Hq'].
  { unfold dv'. cbn. by rewrite Hnt. }
  split; [by exists j|]. intros extranonce version ntime nonce mr header validated Hh Hv Heq. subst validated.
  unfold device_header in Hh. rewrite Hj', Hq' in Hh. cbn [mbind option_bind] in Hh.
  match type of Hh with Some ?x = Some _ => assert (header = x) as -> by congruence end.
  apply Hne. rewrite Hprev. symmetry. apply (build_header_prev _ _ _ _ _ _ _ _ Hv).
  unfold stratum_prevhash_to_internal in Hprev. destruct (hex_decode (prev_hash p)) as [bytes|]; [|done].
  destruct (Nat.eqb_spec (length bytes) 32) as [Hl|]; [|done]. injection Hprev as <-.
  by rewrite length_swap_words.
Qed.
Lemma lagged_session_mines_dead_tip_witness :
  let b := {| jb_job := wjob_next; jb_clean := false |} in
  exists g' s' effs msgs,
    sv2_step sample_errors sample_flags sample_counters mining_sv2_session sample_sv2_env (Sv2JobReceived b)
      = Some (g', s', effs, msgs, true) /\
    exists j, dv_job (device_run mining_device msgs) = Some j /\
              engine_job_id s' (nj_job_id j) = Some "0000000100000003".
Proof.
  intros b.
  destruct (sv2_step sample_errors sample_flags sample_counters mining_sv2_session sample_sv2_env (Sv2JobReceived b))
    as [[[[[g' s'] effs] msgs] [|]]|] eqn:E; [|vm_compute in E; discriminate E..].
  exists g', s', effs, msgs. split; [reflexivity|].
  refine (proj1 (lagged_session_mines_dead_tip sample_errors sample_flags mining_sv2_session mining_device wjob b
    sample_counters sample_sv2_env sample_counters mining_sv2_session [] [] sample_counters sample_sv2_env g' s' effs msgs
    mining_in_step _ _ _ _ _ E)); [reflexivity|reflexivity|reflexivity|vm_compute; discriminate|reflexivity].
Defined.
