(* ===== verification/PropsNoise.v ===== *)
(** Properties of the Stratum V2 transport: the reader and the authority key
    file. *)
From S2P Require Import NoiseFacts Samples.
From Stdlib Require Import Strings.Ascii.

(** ** A transport in the clear, for the witnesses *)

(** The decoder keeps the bytes it has and how many it asked for last. *)
#[export] Instance plain_lib : NoiseLib := {|
  NoiseDecoder := list byte * Z;
  DecryptState := unit;
  EncryptState := unit;
  next_transport_frame d _ :=
    let '(buffer, _) := d in
    if (length buffer <? header_size)%nat then
      let missing := Z.of_nat (header_size - length buffer) in ((buffer, missing), Incomplete missing tt)
    else
      match read_frame buffer with
      | Some (f, rest) => ((rest, 0), Frame (fr_msg_type f) (fr_payload f) tt)
      | None =>
          let missing := Z.of_nat header_size + le2z (take 3 (drop 3 buffer)) - Z.of_nat (length buffer) in
          ((buffer, missing), Incomplete missing tt)
      end;
  writable_len d := Z.to_nat (snd d);
  fill_writable d bytes := (fst d ++ bytes, 0);
  encode_transport bytes st := (st, Ok bytes);
|}.
#[export] Instance plain_laws : NoiseLaws.
Proof.
  assert (forall d st d' missing st', next_transport_frame d st = (d', Incomplete missing st') ->
    1 <= missing < 2 ^ 63 /\ snd d' = missing) as H.
  { intros [buffer z] st d' missing st' H. cbn -[read_frame header_size Nat.ltb] in H.
    destruct (Nat.ltb_spec (length buffer) header_size) as [Hl|Hl].
    { injection H as <- <- <-. unfold header_size in *. cbn [snd]. split; [lia|done]. }
    destruct (read_frame buffer) as [[f rest]|] eqn:Er; [discriminate H|]. injection H as <- <- <-.
    unfold header_size in *. cbn [snd]. split; [|done].
    destruct buffer as [|e0 [|e1 [|t [|l0 [|l1 [|l2 rest]]]]]]; cbn [length] in Hl; try lia.
    cbn -[le2z Nat.ltb Z.to_nat] in Er |- *. destruct (Nat.ltb_spec (length rest) (Z.to_nat (le2z [l0; l1; l2]))); [|done].
    pose proof (le2z_range [l0; l1; l2]) as Hr. cbn [length] in Hr. change (take 0 rest) with (@nil byte). lia. }
  split.
  - intros d st d' missing st' Hn. by apply (H _ _ _ _ _ Hn).
  - intros d st d' missing st' Hn. destruct (H _ _ _ _ _ Hn) as [Hm Hs]. cbn. rewrite Hs. lia.
Qed.

(** C28: The frame reader ends and is bounded. Whatever the bytes on the wire and however the decoder asks for them, one
    read ends within as many rounds as the cap has bytes, having taken no more than the cap from the socket. If a
    reader without a cap would deliver a frame, this one delivers the same frame when its bytes fit the cap and
    refuses it as oversize, the one error that bans the peer, when they do not. *)
Theorem noise_reader_ends_within_cap {HN : NoiseLib} {HNL : NoiseLaws} fuel r input :
  0 <= nr_frame_read r <= nr_max_frame r -> nr_max_frame r < 2 ^ 63 ->
  nr_max_frame r - nr_frame_read r < Z.of_nat fuel -> nr_frame_read r + Z.of_nat (length input) < 2 ^ 63 ->
  (exists r' rest res, noise_read fuel r input = Some (r', rest, res) /\
     Z.of_nat (length input) - Z.of_nat (length rest) <= nr_max_frame r - nr_frame_read r /\
     match res with
     | Ok _ => nr_frame_read r' = 0
     | Err (InvalidData at_least max) => max = nr_max_frame r /\ max < at_least
     | _ => True
     end) /\
  forall r1 rest msg, noise_read fuel (with_max r (umax 64)) input = Some (r1, rest, Ok msg) ->
    if nr_frame_read r + (Z.of_nat (length input) - Z.of_nat (length rest)) <=? nr_max_frame r then
      noise_read fuel r input = Some (with_max r1 (nr_max_frame r), rest, Ok msg)
    else exists r2 rest2 at_least,
      noise_read fuel r input = Some (r2, rest2, Err (InvalidData at_least (nr_max_frame r))) /\
      nr_max_frame r < at_least.
Proof.
  intros Hr Hm Hf Hin. split.
  - destruct (noise_read_total fuel r input Hr Hm Hf) as (r' & rest & res & H & H1 & _ & H3). eauto 10.
  - intros r1 rest msg H.
    assert (with_max (with_max r (umax 64)) (nr_max_frame r) = r) as Heq by by destruct r.
    apply (noise_read_uncapped fuel (with_max r (umax 64)) input (nr_max_frame r)) in H; cbn [nr_frame_read with_max] in *;
      [|lia|done|lia|done]. by rewrite Heq in H.
Qed.
Lemma noise_reader_ends_within_cap_witness :
  let r := noise_reader_new ([], 0) tt 8 in
  let fits := frame_bytes 7 false [x01; x02] in
  let too_long := frame_bytes 7 false [x01; x02; x03] in
  (exists r' , noise_read 9 r (fits ++ [xff]) = Some (r', [xff], Ok (7, [x01; x02]))) /\
  (exists r' rest at_least, noise_read 9 r too_long = Some (r', rest, Err (InvalidData at_least 8)) /\ 8 < at_least).
Proof.
  intros r fits too_long. split.
  - destruct (noise_reader_ends_within_cap 9 r (fits ++ [xff])) as [_ H]; [cbn; lia..|].
    eexists. exact (H _ [xff] (7, [x01; x02]) ltac:(vm_compute; reflexivity)).
  - destruct (noise_reader_ends_within_cap 9 r too_long) as [_ H]; [cbn; lia..|].
    exact (H _ [] (7, [x01; x02; x03]) ltac:(vm_compute; reflexivity)).
Defined.


(** One key, whose encoding is a word. *)
#[export] Instance plain_keys : KeyLib := {|
  valid_secret k := k = [x01];
  parse_secret s := if bool_decide (s = "key") then Ok [x01] else Err "not a key";
  encode_secret _ := "key";
  encode_public_key _ := "pub";
|}.
#[export] Instance plain_key_laws : KeyLaws.
Proof. intros secret ->. reflexivity. Qed.
Definition empty_fs : fs := {| names := ∅; inodes := ∅ |}.
Definition key_inode (s : string) (synced : bool) : inode := {| i_contents := s; i_mode := 0x180; i_synced := synced |}.
Definition key_line : string := "key" +:+ newline_string.
(** A write that goes through. *)
Lemma key_written :
  rtc (kw_step "k" "key") (empty_fs, KwRemove)
    ({| names := <["k" := 0%nat]> (<["k.tmp" := 0%nat]> ∅); inodes := {[0%nat := key_inode key_line true]} |}, KwDone true).
Proof.
  eapply rtc_l; [apply kw_remove_fails|].
  eapply rtc_l; [apply (kw_create _ _ _ 0%nat); reflexivity|].
  eapply rtc_l; [apply kw_write|]. eapply rtc_l; [apply kw_newline|]. eapply rtc_l; [apply kw_sync|].
  eapply rtc_l; [apply (kw_link _ _ _ 0%nat); vm_compute; reflexivity|].
  eapply rtc_l; [apply kw_cleanup_fails|]. vm_compute. apply rtc_refl.
Qed.

(** Two pools started at once can publish an empty key file: the second clears
    the first one's scratch file and creates its own under the same name,
    which the first then links into place and reports as its key. *)
Lemma racing_key_writers_publish_partial_file :
  exists f b, rtc (kw_race "k" "key") (empty_fs, KwRemove, KwRemove) (f, KwDone true, b) /\ fs_read f "k" = Some "".
Proof.
  eexists _, (KwWrite 1%nat). split.
  - eapply rtc_l; [apply race_left, kw_remove_fails|].
    eapply rtc_l; [apply race_left, (kw_create _ _ _ 0%nat); reflexivity|].
    eapply rtc_l; [apply race_left, kw_write|]. eapply rtc_l; [apply race_left, kw_newline|].
    eapply rtc_l; [apply race_left, kw_sync|].
    eapply rtc_l; [apply race_right, kw_remove|].
    eapply rtc_l; [apply race_right, (kw_create _ _ _ 1%nat); vm_compute; reflexivity|].
    eapply rtc_l; [apply race_left, (kw_link _ _ _ 1%nat); vm_compute; reflexivity|].
    eapply rtc_l; [apply race_left, kw_cleanup|]. apply rtc_refl.
  - vm_compute. reflexivity.
Qed.
(** Where linking is not supported, a key another writer published since the
    check is overwritten. *)
Lemma rename_fallback_overwrites_key :
  let f := {| names := <["k" := 0%nat]> (<["k.tmp" := 1%nat]> ∅);
              inodes := <[0%nat := key_inode "other" true]> {[1%nat := key_inode key_line true]} |} in
  exists f', rtc (kw_step "k" "key") (f, KwLink) (f', KwCleanup true) /\
    fs_read f "k" = Some "other" /\ fs_read f' "k" = Some key_line.
Proof.
  intros f. eexists. split.
  - eapply rtc_l; [apply kw_link_unsupported|].
    eapply rtc_l; [apply (kw_rename _ _ _ 1%nat); reflexivity|]. apply rtc_refl.
  - split; vm_compute; reflexivity.
Qed.
