(* ===== verification/PropsDashboard.v ===== *)
(** Properties of the dashboard. *)
From S2P Require Import DashboardFacts SamplesDashboard.
From Stdlib Require Import Strings.Ascii.

(** C31: No web page but the pool's own can change anything. Of all requests the dashboard answers, on any path and
    with any method, one changes the statistics, the settings, the jobs or the engine only if it is a [POST] to
    one of two routes, the configuration allows it, its [Host] names something only the local network or the
    operator's list resolves, and its [Origin], if any, is that same authority; a post that is refused is answered
    with the reason. A change of address that passes is applied only when the trimmed address is valid on the node's
    network, and is then the address in use. *)
Theorem dashboard_change_is_guarded `{HexLib} `{Sha256Lib} `{BitcoinLib} `{HttpLib} st m path headers body io x sh sh' effs answer :
  dash_request st m path headers body io x sh = Ok (sh', effs, answer) ->
  (sh' = sh /\ effs = [] /\
     ((exists code, answer = Status code) \/ (exists h, answer = Content h /\ (m = GET \/ m = HEAD)) \/
      (exists why, answer = Answered (Forbidden why)) \/
      (exists e, answer = Answered (Unprocessable e) /\ ds_allow_settings st = true /\ trusted headers (ds_allowed_hosts st)))) \/
  (ds_allow_settings st = true /\ trusted headers (ds_allowed_hosts st) /\ m = POST /\
     ((path = "/api/reset-best-hashrate" /\
       answer = Answered BestHashrateReset /\ effs = [] /\ sh_settings sh' = sh_settings sh /\ sh_engine sh' = sh_engine sh /\
       sh_stats sh' = reset_best_hashrate (sh_stats sh) io) \/
      exists a, path = "/api/settings" /\ body = inl a /\
       Settings.validate (trim a) (rs_network (sh_settings sh)) = Ok tt /\
       sh_settings sh' = set_address (sh_settings sh) (trim a) /\
       sh_stats sh' = (save_setting (sh_stats sh) "coinbase_address" (trim a) io).1 /\
       answer = Answered (SettingsSaved (save_setting (sh_stats sh) "coinbase_address" (trim a) io).2) /\
       refresh (sh_settings sh') (fr_pool_cfg x) (sh_ids sh) (fr_gbt x) (fr_now1 x) (fr_now2 x) (sh_engine sh) true
         = Ok (sh_ids sh', sh_engine sh', effs))).
Proof.
  unfold dash_request. destruct (dispatch m path) as [h|code] eqn:Ed; [|intros [= <- <- <-]; left; eauto].
  destruct (dispatch_cases _ _ _ Ed) as [[Hget Hread]|[(-> & -> & ->)|(-> & -> & ->)]].
  - intros Hp. assert (Ok (sh, [], Content h) = Ok (E := PoolError) (sh', effs, answer)) as [= <- <- <-] by (by destruct h).
    left. eauto 8.
  - destruct body as [a|code]; [|intros [= <- <- <-]; left; eauto]. intros Hp.
    apply outcome_bind_ok in Hp as ([[sh1 effs1] r] & Hp & [= <- <- <-]).
    apply post_guarded in Hp as [(-> & -> & [[why ->]|(e & -> & Hal & Htr)])|(Ha & Ht & Hrest)]; [left; eauto 10..|right].
    split; [done|]. split; [done|]. split; [done|]. right. exists a. destruct Hrest as (Hv & Hs & Hst & -> & Hr). done.
  - intros Hp. apply outcome_bind_ok in Hp as ([[sh1 effs1] r] & Hp & [= <- <- <-]).
    apply post_guarded in Hp as [(-> & -> & [[why ->]|(e & -> & Hal & Htr)])|(Ha & Ht & Hrest)]; [left; eauto 10..|right].
    split; [done|]. split; [done|]. split; [done|]. left. destruct Hrest as (-> & He & Hs & Hen & Hst). done.
Qed.
Lemma dashboard_change_is_guarded_witness :
  exists sh' effs,
    dash_request sample_dash POST "/api/settings" lan_request (inl " bcrt1qother ") None dash_refresh sample_shared
      = Ok (sh', effs, Answered (SettingsSaved true)) /\
    sh_settings sh' = set_address (sh_settings sample_shared) "bcrt1qother" /\
    trusted lan_request (ds_allowed_hosts sample_dash).
Proof.
  destruct (dash_request sample_dash POST "/api/settings" lan_request (inl " bcrt1qother ") None dash_refresh sample_shared)
    as [[[sh' effs] answer]| |] eqn:E; [|vm_compute in E; discriminate E..].
  exists sh', effs.
  destruct (dashboard_change_is_guarded _ _ _ _ _ _ _ _ _ _ _ E) as [(_ & He & _)|(_ & Ht & _ & [(Hp & _)|(a & _ & Hb & _ & Hs & _ & Hr & _)])].
  - exfalso. subst effs. vm_compute in E. discriminate E.
  - discriminate Hp.
  - injection Hb as <-. split; [|split; [exact Hs|exact Ht]]. rewrite Hr. reflexivity.
Defined.

(** A rebound public name is refused. For every name with a dot and something besides digits and dots, written
    in any case, with trailing dots and with or without a port: the guard reads it as that name in lower case,
    never as an address; it is accepted as a host exactly when it lies under one of the local suffixes or an entry
    of [allowed_hosts] names it (in any case, with or without a port), and is refused otherwise whatever the
    request's [Origin] says. *)
Theorem rebound_name_needs_listing `{HttpLib} headers hosts name dots port :
  public_shape name -> port_ok port ->
  (header_get headers "host" ≫= header_to_str) = Some (of_list (name ++ replicate dots dot ++ port_text port)) ->
  let accepted := under_local_suffix (lower_name name) = true
                  \/ exists entry, entry ∈ hosts /\ authority_host entry = Some (lower_name name) in
  (~ accepted -> check_mutation_origin headers (omap authority_host hosts) = Err (HostNotLocal (lower_name name))) /\
  (accepted -> check_mutation_origin headers (omap authority_host hosts) =
     check_origin (of_list (name ++ replicate dots dot ++ port_text port)) (header_get headers "origin")).
Proof.
  intros Hs Hp Hh. cbv zeta. pose proof Hs as (Hc & Hl & Hd & _).
  assert (authority_host (of_list (name ++ replicate dots dot ++ port_text port)) = Some (lower_name name)) as Ha.
  { apply authority_host_name; try done. by intros ->; apply elem_of_nil in Hd. }
  rewrite (check_mutation_origin_host _ _ _ _ Hh Ha), is_local_public by done.
  assert (lower_name name ∈ omap authority_host hosts <->
    exists entry, entry ∈ hosts /\ authority_host entry = Some (lower_name name)) as Hin by apply list_elem_of_omap.
  split; intros Hacc.
  - destruct (under_local_suffix _); [tauto|]. by rewrite bool_decide_eq_false_2 by tauto.
  - destruct (under_local_suffix _); [done|]. destruct Hacc as [?|Hacc]; [done|].
    by rewrite bool_decide_eq_true_2 by by apply Hin.
Qed.
Lemma rebound_name_needs_listing_witness :
  check_mutation_origin (request_to "Attacker.Example.:9090") (omap authority_host ["Pool.Tail1234.TS.net:9090"])
    = Err (HostNotLocal "attacker.example") /\
  check_mutation_origin (request_to "Pool.tail1234.ts.net") (omap authority_host ["Pool.Tail1234.TS.net:9090"]) = Ok tt.
Proof.
  split.
  - apply (rebound_name_needs_listing (request_to "Attacker.Example.:9090") ["Pool.Tail1234.TS.net:9090"]
      (to_list "Attacker.Example") 1 (Some (to_list "9090"))); [| |reflexivity|].
    + apply (bool_decide_unpack _). vm_compute. exact I.
    + apply (bool_decide_unpack _). vm_compute. exact I.
    + intros [Hu|(entry & Hin & He)]; [vm_compute in Hu; discriminate Hu|].
      apply list_elem_of_singleton in Hin as ->. vm_compute in He. discriminate He.
  - etransitivity; [apply (rebound_name_needs_listing (request_to "Pool.tail1234.ts.net") ["Pool.Tail1234.TS.net:9090"]
      (to_list "Pool.tail1234.ts.net") 0 None); [| |reflexivity|]|reflexivity].
    + apply (bool_decide_unpack _). vm_compute. exact I.
    + exact I.
    + right. exists "Pool.Tail1234.TS.net:9090". split; [by apply list_elem_of_singleton|vm_compute; reflexivity].
Defined.

(** The hashrate chart breaks its line exactly across downtime. Of any history of [u64] timestamps, the points
    drawn are the samples, all of them, in order and unchanged, and the breaks; two samples drawn in a row are at
    most the limit apart, and every break lies strictly between two samples that are further apart, so no time
    without data is drawn as a slope and a recorded zero is never a gap. *)
Theorem chart_breaks_only_across_downtime history max_gap :
  1 <= max_gap -> samples_u64 history ->
  let points := with_gaps history max_gap in
  omap recorded points = history /\
  (forall pre a ha b hb post, points = pre ++ (a, Some ha) :: (b, Some hb) :: post -> b - a <= max_gap) /\
  (forall pre m post, points = pre ++ (m, None) :: post ->
     exists pre' a ha b hb post',
       pre = pre' ++ [(a, Some ha)] /\ post = (b, Some hb) :: post' /\ a < m < b /\ max_gap < b - a).
Proof.
  intros Hg Hs. cbv zeta. rewrite with_gaps_spec by (done || lia). destruct history as [|[ts hps] l].
  { split; [done|]. split; intros pre; intros; by destruct pre. }
  unfold gaps_spec. split; [cbn; by rewrite gaps_from_recorded|]. split.
  - intros pre a ha b hb post. apply gaps_from_lines.
  - intros pre m post. by apply gaps_from_breaks.
Qed.
Lemma chart_breaks_only_across_downtime_witness :
  omap recorded (with_gaps [(0, f64_one); (600, f64_zero); (4200, f64_one)] CHART_GAP_SECS)
    = [(0, f64_one); (600, f64_zero); (4200, f64_one)].
Proof.
  apply (chart_breaks_only_across_downtime [(0, f64_one); (600, f64_zero); (4200, f64_one)] CHART_GAP_SECS).
  - unfold CHART_GAP_SECS. lia.
  - repeat constructor; cbn; lia.
Defined.
