(* ===== verification/PropsMain.v ===== *)
(** Properties of start-up and of the metrics. *)
From S2P Require Import MainFacts MetricsFacts SamplesDashboard SamplesSv2.
From Stdlib Require Import Strings.Ascii.

#[local] Instance sample_iter : DashIter := fun A m => map_to_list m.

(** An address saved on the dashboard survives a restart. Once a change of address was answered as persisted,
    then whatever reaches the statistics until the process ends, and however it ends after its final writes, a boot
    that can read that database on a node of the same network comes up with exactly that address, usable, in place
    of the configured one; and every job a refresh publishes from then on was built to pay it. *)
Theorem saved_address_survives_restart `{HexLib} `{Sha256Lib} `{BitcoinLib} `{HttpLib} `{DashIter} `{HQ : SqliteLib} `{!SqliteLaws}
    st headers a x sh sh' effs events ts io now b1 b2 from polls db cfg env path sh2 dash :
  settings_post st headers a None x sh = Ok (sh', effs, SettingsSaved true) ->
  ps_store (shutdown (fold_left stats_step events (sh_stats sh')) ts io now b1 b2 from polls).1 = Some db ->
  stats_db_path (metrics cfg) = Some path -> be_file env = file_of db -> (forall k, be_open_io env k = None) ->
  be_io_setting env = None ->
  boot cfg env = Ok (sh2, dash) -> ps_store (sh_stats sh2) ≠ None ->
  rs_network (sh_settings sh2) = rs_network (sh_settings sh) ->
  valid_coinbase_address (sh_settings sh2) = Some (trim a) /\
  forall pool_cfg ids gbt n1 n2 e clean ids' e' effs' b,
    refresh (sh_settings sh2) pool_cfg ids gbt n1 n2 e clean = Ok (ids', e', effs') -> Broadcast b ∈ effs' ->
    exists g, gbt = Ok g /\
      build_job ids g (trim a) (coinbase_tag pool_cfg) (Z.to_nat (extranonce1_size pool_cfg))
        (Z.to_nat (extranonce2_size pool_cfg)) = (ids', Ok (jb_job b)).
Proof.
  intros Hp Hdb Hpath Hfile Hopen Hio Hboot Hstore Hnet.
  assert (Settings.validate (trim a) (rs_network (sh_settings sh)) = Ok tt /\
    exists m, saved (sh_stats sh') = Some m /\ m !! "coinbase_address" = Some (trim a)) as (Hv & m & Hm & Hlook).
  { by eapply settings_post_saved. }
  assert (db_settings db = m) as Hdbm.
  { assert (saved (shutdown (fold_left stats_step events (sh_stats sh')) ts io now b1 b2 from polls).1 = Some (db_settings db))
      as Hsv by (unfold saved; by rewrite Hdb).
    rewrite shutdown_saved, stats_run_saved, Hm in Hsv. by injection Hsv. }
  assert (valid_coinbase_address (sh_settings sh2) = Some (trim a)) as Haddr.
  { eapply boot_uses_saved; try done; [by rewrite Hdbm|]. by rewrite Hnet. }
  split; [done|]. intros pool_cfg ids gbt n1 n2 e clean ids' e' effs' b Hr Hb.
  apply refresh_cases in Hr as [(why & _ & ->)|(addr & g & job & Ha & -> & Hbj & Hc)]; [by apply elem_of_nil in Hb|].
  exists g. split; [done|]. destruct (commit_job e job clean n1) as [e1 c]. destruct Hc as [_ ->].
  assert (addr = trim a) as -> by congruence.
  apply elem_of_cons in Hb as [Hb|Hb]; [done|]. apply list_elem_of_singleton in Hb.
  assert (b = {| jb_job := job; jb_clean := c |}) as -> by congruence. done.
Qed.
Definition saved_shared : Shared :=
  match settings_post sample_dash lan_request " bcrt1qother " None dash_refresh sample_shared with
  | Ok (sh, _, _) => sh
  | _ => sample_shared
  end.
Definition sample_events : list stats_event :=
  [SessionEffect 0 {| se_now := 11; se_inow := 0; se_io := no_io |} (StatsShareAccepted 9 4)].
Definition saved_db : StatsStore :=
  default sample_store
    (ps_store (shutdown (fold_left stats_step sample_events (sh_stats saved_shared)) 12 no_io 13 None None 0 [(0, 1)]).1).
Lemma saved_address_survives_restart_witness :
  exists sh2 dash, boot config_with_store (sample_boot saved_db) = Ok (sh2, dash) /\
    rs_address settings_example ≠ "bcrt1qother" /\ valid_coinbase_address (sh_settings sh2) = Some (trim " bcrt1qother ").
Proof.
  assert (exists effs, settings_post sample_dash lan_request " bcrt1qother " None dash_refresh sample_shared
    = Ok (saved_shared, effs, SettingsSaved true)) as [effs Hp] by (eexists; vm_compute; reflexivity).
  assert (exists sh2 dash, boot config_with_store (sample_boot saved_db) = Ok (sh2, dash)
    /\ ps_store (sh_stats sh2) ≠ None /\ rs_network (sh_settings sh2) = rs_network (sh_settings sample_shared))
    as (sh2 & dash & Hb & Hs & Hn).
  { do 2 eexists. split; [vm_compute; reflexivity|]. split; [discriminate|reflexivity]. }
  exists sh2, dash. split; [exact Hb|]. split; [discriminate|].
  apply (saved_address_survives_restart sample_dash lan_request " bcrt1qother " dash_refresh sample_shared saved_shared
    effs sample_events 12 no_io 13 None None 0 [(0, 1)] saved_db config_with_store (sample_boot saved_db) "stats.db" sh2 dash);
    [exact Hp|vm_compute; reflexivity|reflexivity|reflexivity|reflexivity|reflexivity|exact Hb|exact Hs|exact Hn].
Defined.

(** Counters never lapse. Whatever the sessions of either protocol, the acceptor, the engine, the retrier and the
    block notifications report, every counter and gauge that is not per worker is a series the keep-alive touches,
    with an update of size zero that changes no value; the keep-alive touches nothing per worker, so those series
    still expire; and it runs in every tick of the exporter's refresh. The histograms that are not per worker are
    the exception: they are not touched. *)
Theorem pool_series_kept_alive `{JsonLib f64} `{HexLib} `{Sha256Lib} `{Sv2Lib} `{DashIter} :
  (forall e c, reported e -> c ∈ metric_calls e -> per_worker c = false -> is_histogram c = false ->
     exists k, k ∈ keep_pool_series_alive /\ fst k = fst c /\ zero_sized (snd k)) /\
  (forall k, k ∈ keep_pool_series_alive -> per_worker k = false /\ zero_sized (snd k)) /\
  (forall stats now, keep_pool_series_alive ⊆ prometheus_tick stats now) /\
  (forall elapsed c, c ∈ metric_calls (OfValidation elapsed) -> per_worker c = false /\ kept_alive (fst c) = false).
Proof.
  split; [|split; [|split]].
  - intros e c Hr Hc Hw Hh. apply reported_covered in Hr. rewrite Forall_forall in Hr. specialize (Hr c Hc).
    unfold covered in Hr. rewrite Hw, Hh in Hr. cbn [orb] in Hr. apply bool_decide_eq_true in Hr.
    apply list_elem_of_fmap in Hr as (k & Hk & Hin). exists k. split; [done|]. split; [done|]. by apply keep_alive_zero.
  - intros k Hk. split; [by apply keep_alive_pool_wide|by apply keep_alive_zero].
  - intros stats now k Hk. unfold prometheus_tick. rewrite !elem_of_app. tauto.
  - intros elapsed c Hc. cbn in Hc. apply elem_of_cons in Hc as [->|Hc]; [split; reflexivity|].
    apply list_elem_of_singleton in Hc as ->. split; reflexivity.
Qed.
Lemma pool_series_kept_alive_witness :
  exists k, k ∈ keep_pool_series_alive /\ fst k = ("pool_connections_refused_total", [("reason", "banned")])
    /\ zero_sized (snd k).
Proof.
  apply (proj1 pool_series_kept_alive (OfRefusal BannedIp)
    (counter "pool_connections_refused_total" [("reason", "banned")] 1)); [by apply rep_other| |reflexivity..].
  apply list_elem_of_singleton. reflexivity.
Defined.
