(* ===== verification/PropsSignals.v ===== *)
(** Properties of the way from a block notification to a clean job. *)
From S2P Require Import Signals Samples.


(** A channel as the version of its last value and the version marked as seen. *)
#[local] Instance ref_watch : WatchLib := {
  Watch := Z * Z;
  watch_channel _ := (0, 0);
  watch_send _ w := (Z.max (fst w) (snd w) + 1, snd w);
  watch_unseen w := snd w <? fst w;
  watch_mark_seen w := (fst w, Z.max (fst w) (snd w));
}.
#[local] Instance ref_watch_laws : WatchLaws.
Proof. split; cbn; intros; [apply Z.ltb_lt|apply Z.ltb_ge]; lia. Qed.

Definition tip1 : string := gbt_prev_hash gbt_example.
Definition tip2 : string := "00000000000000000000000000000000000000000000000000000000000000ff".
Definition gbt2 : GbtResult := {|
  gbt_version := gbt_version gbt_example; gbt_prev_hash := tip2; gbt_bits := gbt_bits gbt_example;
  gbt_cur_time := gbt_cur_time gbt_example; gbt_min_time := gbt_min_time gbt_example; gbt_height := 102;
  gbt_coinbase_value := 5000000000; gbt_transactions := []; gbt_longpoll_id := None;
  gbt_default_witness_commitment := None; gbt_rules := [] |}.
